(* ===== verification/_CoqProject ===== *)
-Q . S2P
Prelude.v
PyFloat.v
Text.v
Json.v
JsonFacts.v
JsonIndent.v
Security.v
Consensus.v
Crypto.v
Lattice.v
Heapq.v
Queue.v
SimClock.v
Wal.v
Metrics.v
Failure.v
Message.v
Encodable.v
LogSize.v
SimNetwork.v
Tcp.v
Sha256.v
FloatText.v
PyText.v
Udp.v
Http.v
Node.v
NodeLogic.v
NodeFacts.v
NodeTheorems.v
Election.v
NodeScenarios.v
Recovery.v
Mesh.v
Worker.v
Drain.v
Delivery.v
AntiEntropy.v
Provenance.v
Bench.v
Robust.v
Benches.v
Batch.v
Turnaround.v
Discovery.v
DiscoveryLife.v
Cli.v
Status.v
Dashboard.v
StatusServer.v
HttpClient.v
Listeners.v
Demos.v
Argparse.v
Autoloop.v
CliMain.v
CliRun.v
