(* ===== verification/Prelude.v ===== *)
(** * PeerQ verification library

    PeerQ ([src/peerq]) is a leaderless distributed task queue.  Each peer runs a node that keeps a
    table of task records, claims pending tasks under fenced leases, executes them, and gossips
    records to its peers, which merge them in a lattice.  Messages and records are signed with
    Ed25519, records are made durable in a write-ahead log, and an HTTP server shows the state of a
    node.  This library translates that program to executable definitions and proves its guarantees.

    ** The parts of the program and where they are modelled

    Foundations of the language and its library:
    - [Prelude]: strings, bytes, exceptions ([exc]) and the error monad ([result], [let!]),
      dictionaries in insertion order ([dict_get], [dict_set], [dict_del]), rich comparison
      ([PyOrd] and its laws), sorting;
    - [PyFloat]: [float] as IEEE-754 binary64, with comparisons, arithmetic, exact conversions;
    - [Text]: hexadecimal and UTF-8; [Json], [JsonFacts], [JsonIndent]: [json.dumps], indented too,
      and [json.loads]; [Argparse]: the part of [argparse] that the command line uses;
      [FloatText], [PyText]: [float(s)], [int(s)], [strip], [split], the loopback test of [ipaddress];
      [Sha256]: [hashlib.sha256]; [Heapq]: [heapq].

    Components ([src/peerq/...]):
    - [security.py] is [Security]: limits, [SecurityConfig], [validate_json_tree], [ReplayCache],
      [RateLimiter];
    - [consensus.py] is [Consensus] (vector clocks, fencing tokens, [TaskRecord] and its JSON form)
      and [Lattice] ([merge_records] and the lattice of records);
    - [crypto.py] is [Crypto]: canonical bytes, [sign_task], [verify_task_authorization],
      [PeerKeyRing];
    - [queue.py] is [Queue]: the priority queue, its coroutines, the credit windows;
    - [clock.py] is [SimClock] (the simulated clock, and the real one over the clocks of the system);
    - [wal.py] is [Wal]: frames, append, replay, checkpoint, the states a crash can leave; [LogSize]:
      how long the frame of a record is, so which records a log takes;
    - [metrics.py] is [Metrics], [failure.py] is [Failure];
    - [transport.py] is [Message] (the envelope; [Encodable]: what it accepts can be written again), [SimNetwork] (the simulated network and
      broadcast), [Tcp] (framing, handshake, connections), [Udp] (the datagram protocol), [Http]
      (the HTTP server), [Listeners] (the listening sockets of the servers);
    - [node.py] is [Node]: its state ([NodeState]), configuration ([NodeConfig]) and every handler
      and loop body, cut at the points where the code awaits, and the step relation ([node_step]);
      [NodeLogic] has Hoare triples for its methods, [NodeFacts] the invariant, [NodeTheorems] what a
      node guarantees, [Election] the rendezvous election, [NodeScenarios] concrete executions,
      [Recovery] durability, [Worker] the way of a task from its submission to its result, [Drain] the
      turns of a worker until its queue is empty;
    - [Mesh]: what a node expects of a transport (the class [Carrier]), its instances for the
      simulated network and for TCP, and the end-to-end path of an update; [AntiEntropy]: executions
      of many nodes that gossip, up to convergence; [Delivery]: the way of an outcome to a peer over a
      network that loses, repeats and reorders; [Provenance]: executions of a cluster over such a
      network, into which an adversary injects, and where the contents of the task tables come from;
      [Robust]: the same executions, in which no exception ends a loop;
    - [discovery.py] is [Discovery] (beacons, the directory of peers, binding to a node) and
      [DiscoveryLife] (the loops, their start and stop, the calls on the UDP socket);
    - [exporter.py] is [Status] (Prometheus text, cluster status), [Dashboard] (the HTML page) and
      [StatusServer] (the routes, over [Http]), with its start and stop in [Listeners];
    - [cli.py] is [Cli] (parsers, the wiring of a node, the submission of a task), [CliMain] (the
      options, the dispatch), [CliRun] (the node command and its services) and, with the client of
      [examples/zero_config_cluster.py], [HttpClient] (the status query against the status server);
    - [bench/gossip_convergence.py] is [Bench]: the topology, the rounds, the test of convergence;
      [bench/crypto_throughput.py], [wal_throughput.py] and [overhead.py] are [Benches];
      [bench/latency.py] and [throughput.py] are [Turnaround], over [Batch] (a node that is given tasks and
      then executes them);
    - [scripts/autonomous_loop.py] is [Autoloop];
    - [examples] is [Demos]: [demo.py] from its nodes to its summary, the nodes, the signing and the
      waiting of [zero_config_cluster.py], the setup of [custom_worker.py].

    ** How effects are modelled

    A Python exception is a value of [exc]; a method that may raise returns a [result], and a method
    of the node is a function of the state to a result and a state, so what was changed before an
    exception stays changed.  A coroutine is cut at its [await]s: each part is one step, and the step
    relations let the steps of all coroutines interleave ([qstep], [node_step], [net_step], [tcp_step],
    [disc_step], [udp_step], [run_step], [machine_step]), and those of several nodes ([mesh_step], [hears],
    [cluster_move] and with an adversary [cluster_step], [cluster_run]).  Objects that several parts share (the endpoints of the simulated network, the
    waiters of the queue) live in a store and are named by numbers.  A stream is the bytes that
    arrive in time and how it ends (end of file, silence, an error); the file of the log is its bytes.

    ** Parameters

    Code outside the repository is a class, with the documented behaviour that a theorem relies on as
    its laws: [Ed25519] and [Ed25519Laws] (the package [cryptography]), [MathLib] ([erfc], [log10],
    [sum] of floats), [UnicodeDB] and [StrLower] (the tables of Unicode beyond ASCII), [World] (the
    clocks, random numbers and nonces that a node reads), [SocketLayer] (the resolution of host names and
    [bind]), [Simulator] and [Machine] (the simulator of the tests, programs and random seeds for the
    development helper), [TextOps] ([str.upper], the texts of two exceptions).  The witnesses instantiate them with
    concrete functions.

    ** What the theorems show

    - Convergence: merging is a semilattice up to the equality of records
      ([Lattice.merge_records_semilattice]), replicas converge ([Lattice.replicas_converge]), reception
      only ascends in it ([NodeTheorems.gossip_only_ascends]), a broadcast reaches a peer over any
      transport that meets the interface ([Mesh.broadcast_reaches_peer]), and nodes that gossip agree
      as soon as each has heard of all, directly or not ([AntiEntropy.gossip_converges]).
    - Provenance: over a lossy and hostile network every payload, result and error in a task table
      was submitted, returned or raised for that task ([Provenance.cluster_records_genuine]).
    - Execution: a node that accepts a task executes it, every step returns, and the peers are sent the
      claim and the outcome ([Worker.submitted_task_is_executed]); a queue is worked off
      ([Drain.worker_drains_queue]); a peer that accepts the second message holds the outcome, whatever
      the order of the two ([Delivery.outcome_reaches_peer]).
    - Robustness: under finite clocks and encodable names no exception leaves a loop of a node without a
      log ([Robust.loops_never_crash]), since what is accepted can be encoded
      ([Encodable.decoded_message_encodes]); a log takes every record whose bound is within its limit
      ([LogSize.append_task_total]).
    - Fencing and leases: claims carry greater tokens, a worker commits only under its own live lease,
      nodes with the same view elect the same reclaimer.
    - Authentication: nodes, TCP connections and discovery accept only what a provisioned peer
      signed, once; canonical bytes bind the fields they cover; the status pages need the token.
    - Durability: append and replay, torn writes, damaged payloads, checkpoints, restart.
    - Bounds and invariants: of the node in every execution, of queues, inboxes, directories, windows.
    - Termination and errors: connection handlers, the status server and replay end whatever the
      input; errors are raised exactly as stated.
    - Round trips: records, messages, beacons, the log, lists of peers, the words of a command line
      ([CliMain.command_round_trip]), the status document from the node to the terminal
      ([HttpClient.status_query_shows_node]).
    - Life cycles: of nodes, of discovery ([DiscoveryLife.discovery_life]), of the node command
      ([CliRun.node_run_lifecycle]), of the servers and their ports ([Listeners.servers_reachable]).
    - Benchmarks and demonstration: that they end, and what their phases really did ([Turnaround],
      [Benches], [Demos.demo_completes]); the verdict of the development helper ([Autoloop.loop_verdict]).

    Some lemmas show where the code departs from what it says: a stale result can win a merge
    ([Lattice.stale_result_wins]), a merge under a key ring can demote
    ([Lattice.keyring_merge_can_demote]), a message ends reception
    ([NodeScenarios.huge_lease_kills_receiver]), the dashboard never shows the completed tasks
    ([Dashboard.dashboard_completed_is_zero]), two peers can hold a task under live leases
    ([Provenance.two_live_claims]), a gossip leaves out all but the first records
    ([AntiEntropy.gossip_omits_the_rest]), the convergence benchmark cannot succeed
    ([Bench.bench_never_converges]), discovery does not leave the machine
    ([DiscoveryLife.default_discovery_is_local]), an error text ends the worker
    ([Worker.unencodable_error_ends_worker]), and so do a counter of 4300 digits, an infinite lease and a
    result that fits every limit ([Robust.huge_epoch_ends_worker], [Robust.infinite_lease_ends_worker],
    [Robust.full_result_ends_worker]), the demonstration replicates nothing
    ([Demos.demo_shows_its_own_tasks]), the forged records of the benchmark are rejected unseen
    ([Benches.tampered_rejected]), and others.

    ** Fuel

    Recursion that is not structural takes fuel, and the definitions that call it give enough: one
    more than the number of characters for the scanners of JSON, one more than the bytes left for the
    headers of a request ([Http.read_headers_total]), the bytes left and two turns for a TCP
    connection, the length of the heap for sifting.  The worker takes as many turns as its queue has
    entries; a benchmark polls twice for each task; the development helper, which may run for ever, is
    followed for any number of cycles.  Counters of clocks grow by at most one in each move, so [2^62]
    moves of a cluster keep them in the range that JSON writes.

    ** Not modelled

    Sockets and files beyond the bytes they carry and the calls named above (the backlog of a listening
    socket, [fsync]); the handler of [custom_worker.py]; the recursion limit of the interpreter, which deeply nested JSON can reach; the text
    that commands, benchmarks and examples print, and the loops of the examples that only wait and print;
    redirections and proxies of [urllib]; callbacks a user may install; the package root
    ([peerq/__init__.py]), which only exports names; the tests and their simulator. *)

From Stdlib Require Import ZArith NArith Lia.
From Stdlib Require Export Sorting.Sorted.
From Stdlib Require Strings.Byte.
From stdpp Require Export base strings numbers gmap list.

(** ** Python values

    A Python [str] is a sequence of Unicode code points ([len] counts code points and [<] is
    lexicographic on them), a Python [bytes] is a sequence of bytes, an [int] is an unbounded
    [Z]. *)
Abbreviation pystr := (list N).
Abbreviation byte := Byte.byte.

(** An ASCII literal as a Python string. *)
Definition str (s : string) : pystr := Ascii.N_of_ascii <$> String.list_ascii_of_string s.

Definition byte_Z (b : byte) : Z := Z.of_N (Byte.to_N b).

(** The byte of an integer in 0..255 (the value is reduced modulo 256 outside that range). *)
Definition Z_byte (z : Z) : byte :=
  match Byte.of_N (Z.to_N (z mod 256)) with
  | Some b => b
  | None => Byte.x00
  end.

Definition str_bytes (s : string) : list byte := String.list_byte_of_string s.

Global Instance byte_eq_dec : EqDecision byte := Byte.byte_eq_dec.

(** ** Exceptions and the error monad

    The exceptions the modelled code raises or catches; [UnicodeEncodeError] and
    [json.JSONDecodeError] are subclasses of [ValueError] and are modelled by it. *)
Inductive exc :=
| ValueError | TypeError | KeyError | OverflowError | ZeroDivisionError | RuntimeError
| QueueFull | QueueEmpty
| WalError | WalCorruptError | StructError
| MessageDecodeError | InvalidKeyError | PermissionError | ConnectionError | AttributeError
| OSError | ConnectionResetError | TimeoutError | IncompleteReadError | AssertionError.

Global Instance exc_eq_dec : EqDecision exc.
Proof. solve_decision. Defined.

Inductive result (A : Type) :=
| Ok (a : A)
| Raise (e : exc).
Arguments Ok {A} a.
Arguments Raise {A} e.

Definition rbind {A B} (r : result A) (k : A -> result B) : result B :=
  match r with Ok a => k a | Raise e => Raise e end.

Definition rmap {A B} (f : A -> B) (r : result A) : result B :=
  match r with Ok a => Ok (f a) | Raise e => Raise e end.

(** [if c: raise e] *)
Definition raise_if (c : bool) (e : exc) : result () :=
  if c then Raise e else Ok ().

Declare Scope peerq_scope.
Delimit Scope peerq_scope with peerq.
Open Scope peerq_scope.
Notation "'let!' x ':=' c 'in' k" := (rbind c (fun x => k))
  (at level 10, x pattern, c at level 100, k at level 200) : peerq_scope.
Notation "c ';;!' k" := (rbind c (fun _ => k))
  (at level 199, right associativity) : peerq_scope.

Definition is_ok {A} (r : result A) : bool :=
  match r with Ok _ => true | Raise _ => false end.

(** [except (TypeError, ValueError): ...] *)
Definition catches_type_value (e : exc) : bool :=
  match e with ValueError | TypeError => true | _ => false end.

(** ** Python's rich comparison

    [pycmp x y] is the outcome of comparing [x] with [y], [None] when they are unordered (a NaN
    on either side).  Tuples, lists, strings and byte strings compare lexicographically. *)
Class PyOrd (A : Type) := pycmp : A -> A -> option comparison.

Definition py_lt `{PyOrd A} (x y : A) : bool :=
  match pycmp x y with Some Lt => true | _ => false end.
Definition py_le `{PyOrd A} (x y : A) : bool :=
  match pycmp x y with Some Lt | Some Eq => true | _ => false end.
Definition py_gt `{PyOrd A} (x y : A) : bool :=
  match pycmp x y with Some Gt => true | _ => false end.
Definition py_ge `{PyOrd A} (x y : A) : bool :=
  match pycmp x y with Some Gt | Some Eq => true | _ => false end.
Definition py_eq `{PyOrd A} (x y : A) : bool :=
  match pycmp x y with Some Eq => true | _ => false end.

Global Instance pyord_Z : PyOrd Z := fun x y => Some (Z.compare x y).
Global Instance pyord_N : PyOrd N := fun x y => Some (N.compare x y).
Global Instance pyord_byte : PyOrd byte := fun x y => Some (N.compare (Byte.to_N x) (Byte.to_N y)).
Global Instance pyord_prod {A B} `{PyOrd A, PyOrd B} : PyOrd (A * B) := fun x y =>
  match pycmp x.1 y.1 with Some Eq => pycmp x.2 y.2 | o => o end.

Fixpoint list_cmp {A} `{PyOrd A} (xs ys : list A) : option comparison :=
  match xs, ys with
  | [], [] => Some Eq
  | [], _ :: _ => Some Lt
  | _ :: _, [] => Some Gt
  | x :: xs', y :: ys' =>
      match pycmp x y with Some Eq => list_cmp xs' ys' | o => o end
  end.
Global Instance pyord_list {A} `{PyOrd A} : PyOrd (list A) := list_cmp.

(** The laws of a comparison: on the ordered values ([py_ok]) it is a total preorder, and
    comparing equal is a congruence. *)
Class PyOrdLaws (A : Type) `{PyOrd A} := {
  py_ok : A -> Prop;
  pycmp_total : forall x y, py_ok x -> py_ok y -> is_Some (pycmp x y);
  pycmp_refl : forall x, py_ok x -> pycmp x x = Some Eq;
  pycmp_opp : forall x y, pycmp y x = CompOpp <$> pycmp x y;
  pycmp_trans : forall x y z, pycmp x y = Some Lt -> pycmp y z = Some Lt -> pycmp x z = Some Lt;
  pycmp_eq_l : forall x y z, pycmp x y = Some Eq -> pycmp x z = pycmp y z;
}.

(** Types whose [==] is identity of the modelled value. *)
Class PyOrdStrict (A : Type) `{PyOrd A} :=
  pycmp_strict : forall x y, pycmp x y = Some Eq -> x = y.

(** ** Insertion-ordered dictionaries

    A Python [dict] (and [OrderedDict]) whose iteration order the code observes: setting an
    existing key keeps its place, a new key goes to the end. *)
Section dict.
Context {K V : Type} `{EqDecision K}.

Fixpoint dict_get (k : K) (d : list (K * V)) : option V :=
  match d with
  | [] => None
  | (k', v) :: d' => if decide (k = k') then Some v else dict_get k d'
  end.

Fixpoint dict_set (k : K) (v : V) (d : list (K * V)) : list (K * V) :=
  match d with
  | [] => [(k, v)]
  | (k', v') :: d' => if decide (k = k') then (k', v) :: d' else (k', v') :: dict_set k v d'
  end.

Fixpoint dict_del (k : K) (d : list (K * V)) : list (K * V) :=
  match d with
  | [] => []
  | (k', v') :: d' => if decide (k = k') then d' else (k', v') :: dict_del k d'
  end.

Definition dict_mem (k : K) (d : list (K * V)) : bool :=
  match dict_get k d with Some _ => true | None => false end.
End dict.

Lemma Ok_inj {A} (a b : A) : Ok a = Ok b -> a = b.
Proof. congruence. Qed.

Lemma Raise_inj {A} (e e' : exc) : @Raise A e = Raise e' -> e = e'.
Proof. congruence. Qed.

(** ** Tactics *)

(** Split the boolean tests and matches of the goal or of a hypothesis. *)
Ltac case_matches :=
  repeat match goal with
  | |- context [match ?x with _ => _ end] => destruct x eqn:?
  | H : context [match ?x with _ => _ end] |- _ => destruct x eqn:?
  end.

(** Invert a computation of the error monad that returned or raised. *)
Ltac inv_result :=
  repeat match goal with
  | H : Ok _ = Ok _ |- _ => apply Ok_inj in H; try subst
  | H : Raise _ = Raise _ |- _ => apply Raise_inj in H; try subst
  | H : Ok _ = Raise _ |- _ => discriminate H
  | H : Raise _ = Ok _ |- _ => discriminate H
  | H : rbind ?r _ = _ |- _ =>
      let E := fresh "E" in destruct r eqn:E; cbn [rbind] in H
  | H : raise_if ?c _ = _ |- _ =>
      let E := fresh "Eif" in unfold raise_if in H; destruct c eqn:E
  end; try discriminate.

(** Boolean connectives and comparisons, reflected. *)
Ltac breflect :=
  repeat match goal with
  | H : _ && _ = true |- _ => apply andb_true_iff in H as [? ?]
  | H : _ || _ = false |- _ => apply orb_false_iff in H as [? ?]
  | H : negb _ = true |- _ => apply negb_true_iff in H
  | H : negb _ = false |- _ => apply negb_false_iff in H
  | H : bool_decide _ = true |- _ => apply bool_decide_eq_true in H
  | H : bool_decide _ = false |- _ => apply bool_decide_eq_false in H
  end.

(** ** Lemmas on bytes and strings *)

Lemma byte_Z_range b : (0 <= byte_Z b < 256)%Z.
Proof. unfold byte_Z. pose proof (Byte.to_N_bounded b). lia. Qed.

Lemma Z_byte_Z b : Z_byte (byte_Z b) = b.
Proof.
  unfold Z_byte, byte_Z.
  rewrite Z.mod_small by (pose proof (Byte.to_N_bounded b); lia).
  rewrite N2Z.id, Byte.of_to_N. done.
Qed.

Lemma byte_Z_byte z : (0 <= z < 256)%Z -> byte_Z (Z_byte z) = z.
Proof.
  intros Hz. unfold Z_byte, byte_Z. rewrite Z.mod_small by lia.
  destruct (Byte.of_N (Z.to_N z)) as [b|] eqn:E.
  - apply Byte.to_of_N in E. rewrite E. lia.
  - apply Byte.of_N_None_iff in E. lia.
Qed.

Lemma byte_to_N_inj a b : Byte.to_N a = Byte.to_N b -> a = b.
Proof. intros H. pose proof (Byte.of_to_N a). pose proof (Byte.of_to_N b). congruence. Qed.

(** ** The comparison laws of the concrete types *)

#[local] Obligation Tactic := idtac.

Ltac solve_pycmp :=
  intros; unfold pycmp, pyord_Z, pyord_N, pyord_byte in *; cbn [fmap option_fmap option_map] in *;
  intros;
  repeat match goal with
  | H : Some _ = Some _ |- _ => injection H as H
  | H : N.compare _ _ = Eq |- _ => apply N.compare_eq in H
  | H : Z.compare _ _ = Eq |- _ => apply Z.compare_eq in H
  end.

Global Program Instance pyord_Z_laws : PyOrdLaws Z := {| py_ok := fun _ => True |}.
Next Obligation. solve_pycmp. eauto. Qed.
Next Obligation. solve_pycmp. by rewrite Z.compare_refl. Qed.
Next Obligation. solve_pycmp. f_equal. apply Z.compare_antisym. Qed.
Next Obligation. solve_pycmp. f_equal. rewrite !Z.compare_lt_iff in *. lia. Qed.
Next Obligation. solve_pycmp. by subst. Qed.

Global Program Instance pyord_N_laws : PyOrdLaws N := {| py_ok := fun _ => True |}.
Next Obligation. solve_pycmp. eauto. Qed.
Next Obligation. solve_pycmp. by rewrite N.compare_refl. Qed.
Next Obligation. solve_pycmp. f_equal. apply N.compare_antisym. Qed.
Next Obligation. solve_pycmp. f_equal. rewrite !N.compare_lt_iff in *. lia. Qed.
Next Obligation. solve_pycmp. by subst. Qed.

Global Program Instance pyord_byte_laws : PyOrdLaws byte := {| py_ok := fun _ => True |}.
Next Obligation. solve_pycmp. eauto. Qed.
Next Obligation. solve_pycmp. by rewrite N.compare_refl. Qed.
Next Obligation. solve_pycmp. f_equal. apply N.compare_antisym. Qed.
Next Obligation. solve_pycmp. f_equal. rewrite !N.compare_lt_iff in *. lia. Qed.
Next Obligation. solve_pycmp. f_equal. by replace (Byte.to_N x) with (Byte.to_N y). Qed.

Global Instance pyord_Z_strict : PyOrdStrict Z.
Proof. intros x y. solve_pycmp. done. Qed.
Global Instance pyord_N_strict : PyOrdStrict N.
Proof. intros x y. solve_pycmp. done. Qed.
Global Instance pyord_byte_strict : PyOrdStrict byte.
Proof. intros x y. solve_pycmp. by apply byte_to_N_inj. Qed.

Section derived.
Context {A : Type} `{PyOrdLaws A}.

Lemma pycmp_eq_sym (x y : A) : pycmp x y = Some Eq -> pycmp y x = Some Eq.
Proof. intros E. rewrite pycmp_opp, E. done. Qed.

Lemma pycmp_eq_r (x y z : A) : pycmp x y = Some Eq -> pycmp z x = pycmp z y.
Proof. intros E. rewrite (pycmp_opp x z), (pycmp_opp y z). by rewrite (pycmp_eq_l _ _ _ E). Qed.

Lemma pycmp_eq_trans (x y z : A) :
  pycmp x y = Some Eq -> pycmp y z = Some Eq -> pycmp x z = Some Eq.
Proof. intros E1 E2. by rewrite (pycmp_eq_l _ _ _ E1). Qed.

Lemma pycmp_lt_gt (x y : A) : pycmp x y = Some Lt <-> pycmp y x = Some Gt.
Proof. rewrite (pycmp_opp x y). destruct (pycmp x y) as [[]|]; cbn; split; congruence. Qed.

Lemma py_ge_total (x y : A) : py_ok x -> py_ok y -> py_ge x y = false -> py_ge y x = true.
Proof.
  intros Hx Hy. destruct (pycmp_total x y Hx Hy) as [c E]. unfold py_ge.
  rewrite (pycmp_opp x y), E. by destruct c.
Qed.

Lemma py_ge_antisym (x y : A) : py_ge x y = true -> py_ge y x = true -> pycmp x y = Some Eq.
Proof. unfold py_ge. rewrite (pycmp_opp x y). by destruct (pycmp x y) as [[]|]. Qed.

Lemma py_ge_refl (x : A) : py_ok x -> py_ge x x = true.
Proof. intros Hx. unfold py_ge. by rewrite pycmp_refl. Qed.

Lemma py_ge_trans (x y z : A) : py_ge x y = true -> py_ge y z = true -> py_ge x z = true.
Proof.
  unfold py_ge. intros H1 H2.
  destruct (pycmp x y) as [[]|] eqn:E1; try done.
  - by rewrite (pycmp_eq_l _ _ _ E1).
  - destruct (pycmp y z) as [[]|] eqn:E2; try done.
    + by rewrite <- (pycmp_eq_r _ _ x E2), E1.
    + apply pycmp_lt_gt in E1, E2.
      enough (pycmp x z = Some Gt) as -> by done.
      apply pycmp_lt_gt. eauto using pycmp_trans.
Qed.
End derived.

Global Program Instance pyord_prod_laws {A B} `{PyOrdLaws A, PyOrdLaws B} : PyOrdLaws (A * B) :=
  {| py_ok := fun p => py_ok p.1 /\ py_ok p.2 |}.
Next Obligation.
  intros A B ???? [a b] [a' b'] [??] [??]. unfold pycmp, pyord_prod; cbn in *.
  destruct (pycmp_total a a') as [c ->]; [done..|]. destruct c; eauto using pycmp_total.
Qed.
Next Obligation.
  intros A B ???? [a b] [??]. unfold pycmp, pyord_prod; cbn in *. by rewrite !pycmp_refl.
Qed.
Next Obligation.
  intros A B ???? [a b] [a' b']. unfold pycmp, pyord_prod; cbn.
  rewrite (pycmp_opp a a'), (pycmp_opp b b'). by destruct (pycmp a a') as [[]|].
Qed.
Next Obligation.
  intros A B ???? [a b] [a' b'] [a'' b'']. unfold pycmp, pyord_prod; cbn. intros L1 L2.
  destruct (pycmp a a') as [[]|] eqn:E1; try done.
  - rewrite (pycmp_eq_l _ _ _ E1). destruct (pycmp a' a'') as [[]|] eqn:E2; try done.
    eauto using pycmp_trans.
  - destruct (pycmp a' a'') as [[]|] eqn:E2; try done.
    + by rewrite <- (pycmp_eq_r _ _ a E2), E1.
    + by rewrite (pycmp_trans _ _ _ E1 E2).
Qed.
Next Obligation.
  intros A B ???? [a b] [a' b'] [a'' b'']. unfold pycmp, pyord_prod; cbn. intros L1.
  destruct (pycmp a a') as [[]|] eqn:E1; try done.
  by rewrite (pycmp_eq_l _ _ _ E1), (pycmp_eq_l _ _ _ L1).
Qed.

Global Program Instance pyord_list_laws {A} `{PyOrdLaws A} : PyOrdLaws (list A) :=
  {| py_ok := Forall py_ok |}.
Next Obligation.
  intros A ?? xs ys Hx. revert ys.
  induction Hx as [|x xs Hx Hxs IH]; intros [|y ys] Hy; cbn; eauto.
  apply Forall_cons_1 in Hy as [Hy Hys].
  destruct (pycmp_total x y Hx Hy) as [[] ->]; eauto.
Qed.
Next Obligation.
  intros A ?? xs Hx. unfold pycmp, pyord_list.
  induction Hx; cbn; [done|]. by rewrite pycmp_refl.
Qed.
Next Obligation.
  intros A ?? xs. unfold pycmp, pyord_list.
  induction xs as [|x xs IH]; intros [|y ys]; cbn; try done.
  rewrite (pycmp_opp x y), IH. by destruct (pycmp x y) as [[]|].
Qed.
Next Obligation.
  intros A ?? xs. unfold pycmp, pyord_list.
  induction xs as [|x xs IH]; intros [|y ys] [|z zs]; cbn; try done. intros L1 L2.
  destruct (pycmp x y) as [[]|] eqn:E1; try done.
  - rewrite (pycmp_eq_l _ _ _ E1). destruct (pycmp y z) as [[]|] eqn:E2; eauto.
  - destruct (pycmp y z) as [[]|] eqn:E2; try done.
    + by rewrite <- (pycmp_eq_r _ _ x E2), E1.
    + by rewrite (pycmp_trans _ _ _ E1 E2).
Qed.
Next Obligation.
  intros A ?? xs. unfold pycmp, pyord_list.
  induction xs as [|x xs IH]; intros [|y ys] [|z zs]; cbn; try done. intros L1.
  destruct (pycmp x y) as [[]|] eqn:E1; try done.
  rewrite (pycmp_eq_l _ _ _ E1). by destruct (pycmp y z) as [[]|]; eauto.
Qed.

Global Instance pyord_prod_strict {A B} `{PyOrdStrict A, PyOrdStrict B} : PyOrdStrict (A * B).
Proof.
  intros [a b] [a' b']. unfold pycmp, pyord_prod; cbn.
  destruct (pycmp a a') as [[]|] eqn:E; try done. intros E'.
  by rewrite (pycmp_strict _ _ E), (pycmp_strict _ _ E').
Qed.

Global Instance pyord_list_strict {A} `{PyOrdStrict A} : PyOrdStrict (list A).
Proof.
  intros xs. unfold pycmp, pyord_list.
  induction xs as [|x xs IH]; intros [|y ys]; cbn; try done.
  destruct (pycmp x y) as [[]|] eqn:E; try done. intros E'.
  by rewrite (pycmp_strict _ _ E), (IH _ E').
Qed.

(** Strings and byte strings are ordered without exception. *)
Lemma py_ok_pystr (s : pystr) : py_ok s.
Proof. by apply Forall_true. Qed.
Lemma py_ok_bytes (s : list byte) : py_ok s.
Proof. by apply Forall_true. Qed.

Create HintDb peerq.
#[export] Hint Resolve py_ok_pystr py_ok_bytes : peerq.

(** ** Lemmas on dictionaries *)
Section dict_lemmas.
Context {K V : Type} `{EqDecision K}.
Implicit Types (k : K) (v : V) (d : list (K * V)).

Lemma dict_get_set_eq k v d : dict_get k (dict_set k v d) = Some v.
Proof.
  induction d as [|[k' v'] d IH]; cbn; [by rewrite decide_True|].
  destruct (decide (k = k')); cbn; [by rewrite decide_True|by rewrite decide_False].
Qed.

Lemma dict_get_set_ne k k' v d : k <> k' -> dict_get k' (dict_set k v d) = dict_get k' d.
Proof.
  intros Hne. induction d as [|[k2 v2] d IH]; cbn; [by rewrite decide_False|].
  destruct (decide (k = k2)) as [->|]; cbn; [by rewrite !decide_False by done|].
  by destruct (decide (k' = k2)).
Qed.

Lemma dict_get_set k k' v d :
  dict_get k' (dict_set k v d) = if decide (k = k') then Some v else dict_get k' d.
Proof.
  destruct (decide (k = k')) as [->|]; [apply dict_get_set_eq|by apply dict_get_set_ne].
Qed.

Lemma dict_get_None k d : dict_get k d = None <-> k ∉ d.*1.
Proof.
  induction d as [|[k' v'] d IH]; cbn; [split; [set_solver|done]|].
  rewrite not_elem_of_cons, <- IH. destruct (decide (k = k')); naive_solver.
Qed.

Lemma dict_get_Some_elem k v d : dict_get k d = Some v -> (k, v) ∈ d.
Proof.
  induction d as [|[k' v'] d IH]; cbn; [done|].
  destruct (decide (k = k')) as [->|]; [intros [= ->]; by left|]. intros ?. right. auto.
Qed.

Lemma dict_elem_get k v d : NoDup d.*1 -> (k, v) ∈ d -> dict_get k d = Some v.
Proof.
  induction d as [|[k' v'] d IH]; cbn; [set_solver|].
  intros [Hk Hd]%NoDup_cons [[= -> ->]|Hin]%elem_of_cons; [by rewrite decide_True|].
  rewrite decide_False; [auto|]. intros ->. apply Hk.
  apply list_elem_of_fmap. by exists (k', v).
Qed.

Lemma dict_mem_true k d : dict_mem k d = true <-> is_Some (dict_get k d).
Proof. unfold dict_mem. destruct (dict_get k d); naive_solver. Qed.

Lemma dict_mem_false k d : dict_mem k d = false <-> dict_get k d = None.
Proof. unfold dict_mem. by destruct (dict_get k d). Qed.

Lemma dict_set_keys_old k v d : dict_mem k d = true -> (dict_set k v d).*1 = d.*1.
Proof.
  rewrite dict_mem_true. induction d as [|[k' v'] d IH]; cbn; [by intros [? [=]]|].
  destruct (decide (k = k')); cbn; [done|]. intros ?. by rewrite IH.
Qed.

Lemma dict_set_keys_new k v d : dict_mem k d = false -> dict_set k v d = d ++ [(k, v)].
Proof.
  rewrite dict_mem_false. induction d as [|[k' v'] d IH]; cbn; [done|].
  destruct (decide (k = k')); cbn; [done|]. intros ?. by rewrite IH.
Qed.

Lemma dict_set_length k v d :
  length (dict_set k v d) = (if dict_mem k d then length d else S (length d)).
Proof.
  destruct (dict_mem k d) eqn:E.
  - rewrite <- (length_fmap fst), dict_set_keys_old, length_fmap by done. done.
  - rewrite dict_set_keys_new, length_app by done. cbn. lia.
Qed.

Lemma dict_set_NoDup k v d : NoDup d.*1 -> NoDup (dict_set k v d).*1.
Proof.
  intros Hd. destruct (dict_mem k d) eqn:E.
  - by rewrite dict_set_keys_old.
  - rewrite dict_set_keys_new, fmap_app by done. apply NoDup_app. split; [done|].
    apply dict_mem_false, dict_get_None in E. cbn. split; [set_solver|apply NoDup_singleton].
Qed.

Lemma dict_set_elem k v k' v' d :
  (k', v') ∈ dict_set k v d -> (k', v') = (k, v) \/ (k', v') ∈ d.
Proof.
  induction d as [|[k2 v2] d IH]; cbn; [set_solver|].
  destruct (decide (k = k2)) as [->|]; set_solver.
Qed.

Lemma dict_set_keys_elem k v d k' : k' ∈ (dict_set k v d).*1 <-> k' = k \/ k' ∈ d.*1.
Proof.
  induction d as [|[k2 v2] d IH]; cbn; [set_solver|].
  destruct (decide (k = k2)) as [->|]; set_solver.
Qed.

Lemma dict_del_sublist k d : dict_del k d `sublist_of` d.
Proof.
  induction d as [|[k' v'] d IH]; cbn; [done|].
  destruct (decide (k = k')); by constructor.
Qed.

Lemma dict_get_del_ne k k' d : k <> k' -> dict_get k' (dict_del k d) = dict_get k' d.
Proof.
  intros Hne. induction d as [|[k2 v2] d IH]; cbn; [done|].
  destruct (decide (k = k2)) as [->|]; cbn; [by rewrite decide_False|].
  by destruct (decide (k' = k2)).
Qed.

Lemma dict_get_del_eq k d : NoDup d.*1 -> dict_get k (dict_del k d) = None.
Proof.
  induction d as [|[k2 v2] d IH]; cbn; [done|]. intros [Hk Hd]%NoDup_cons.
  destruct (decide (k = k2)) as [->|]; cbn; [by apply dict_get_None|].
  rewrite decide_False by done. auto.
Qed.
End dict_lemmas.

(** ** Sorting

    [sorted(l)] with the order [le]: stable, by insertion. *)
Section sort.
Context {A : Type} (le : A -> A -> bool).

Fixpoint insert_by (x : A) (l : list A) : list A :=
  match l with
  | [] => [x]
  | y :: l' => if le x y then x :: l else y :: insert_by x l'
  end.

Definition sort_by (l : list A) : list A := foldr insert_by [] l.

Lemma insert_by_perm x l : insert_by x l ≡ₚ x :: l.
Proof.
  induction l as [|y l IH]; cbn; [done|]. destruct (le x y); [done|].
  rewrite IH. apply Permutation_swap.
Qed.

Lemma sort_by_perm l : sort_by l ≡ₚ l.
Proof.
  induction l as [|x l IH]; cbn; [done|]. unfold sort_by in IH. by rewrite insert_by_perm, IH.
Qed.

Context (le_total : forall x y, le x y = false -> le y x = true).
Context (le_trans : forall x y z, le x y = true -> le y z = true -> le x z = true).

Lemma insert_by_sorted x l :
  StronglySorted (fun a b => le a b = true) l ->
  StronglySorted (fun a b => le a b = true) (insert_by x l).
Proof.
  induction 1 as [|y l Hl IH Hy]; cbn; [repeat constructor|].
  destruct (le x y) eqn:E; constructor.
  - by constructor.
  - constructor; [done|]. eapply Forall_impl; [exact Hy|]. eauto.
  - done.
  - rewrite insert_by_perm. constructor; auto.
Qed.

Lemma sort_by_sorted l : StronglySorted (fun a b => le a b = true) (sort_by l).
Proof. induction l; cbn; [constructor|by apply insert_by_sorted]. Qed.
End sort.

(** Sorted arrangements of the same elements are equal when the order tells them apart. *)
Lemma sorted_perm_unique {A} (le : A -> A -> bool) l l' :
  StronglySorted (fun a b => le a b = true) l -> StronglySorted (fun a b => le a b = true) l' ->
  (forall x y, x ∈ l -> y ∈ l -> le x y = true -> le y x = true -> x = y) ->
  l ≡ₚ l' -> l = l'.
Proof.
  intros Hl. revert l'. induction Hl as [|x l Hl IH Hx]; intros l' Hl' Hanti Hp.
  - by apply Permutation_nil_l in Hp as ->.
  - destruct Hl' as [|y l' Hl' Hy]; [by apply Permutation_nil_r in Hp|].
    assert (x = y) as <-.
    { assert (y ∈ x :: l) as Hyin by (rewrite Hp; by left).
      assert (x ∈ y :: l') as Hxin by (rewrite <- Hp; by left).
      apply elem_of_cons in Hxin as [->|Hxin]; [done|].
      pose proof Hyin as Hyin'. apply elem_of_cons in Hyin' as [->|Hyl]; [done|].
      rewrite Forall_forall in Hx, Hy. apply Hanti; [by left|done|by apply Hx|by apply Hy]. }
    f_equal. apply IH; [done| |by apply Permutation_cons_inv in Hp].
    intros a b Ha Hb. apply Hanti; by right.
Qed.

(** [sorted(d.items())] of a dictionary: its keys are distinct, so the order is that of the
    keys. *)
Definition sort_items {K V} `{PyOrd K} (d : list (K * V)) : list (K * V) :=
  sort_by (fun p q => py_le p.1 q.1) d.

Lemma sort_items_perm_eq {V} (d d' : list (pystr * V)) :
  NoDup d.*1 -> d ≡ₚ d' -> sort_items d = sort_items d'.
Proof.
  intros Hnd Hp. unfold sort_items.
  assert (forall x y : pystr, py_le x y = true <-> py_ge y x = true) as Hle.
  { intros x y. unfold py_le, py_ge. rewrite (pycmp_opp x y).
    destruct (pycmp x y) as [[]|]; cbn; split; congruence. }
  assert (forall p q : pystr * V, py_le p.1 q.1 = false -> py_le q.1 p.1 = true) as Htot.
  { intros p q H. apply Hle, (py_ge_total q.1 p.1); [apply py_ok_pystr..|].
    apply not_true_iff_false. rewrite <- Hle. congruence. }
  assert (forall p q r : pystr * V, py_le p.1 q.1 = true -> py_le q.1 r.1 = true -> py_le p.1 r.1 = true) as Htr.
  { intros p q r. rewrite !Hle. intros H1 H2. exact (py_ge_trans _ _ _ H2 H1). }
  apply (sorted_perm_unique (fun p q => py_le p.1 q.1)).
  - by apply sort_by_sorted.
  - by apply sort_by_sorted.
  - intros [k v] [k' v'] Hin Hin'. rewrite !sort_by_perm in Hin, Hin'. cbn. rewrite !Hle.
    intros H1 H2. pose proof (pycmp_strict _ _ (py_ge_antisym _ _ H2 H1)) as ->. f_equal.
    apply dict_elem_get in Hin, Hin'; [congruence|done..].
  - by rewrite !sort_by_perm.
Qed.

(** ** Lists of digits, prefixes *)
Fixpoint take_while {A} (p : A -> bool) (l : list A) : list A :=
  match l with
  | [] => []
  | x :: l' => if p x then x :: take_while p l' else []
  end.

Fixpoint drop_while {A} (p : A -> bool) (l : list A) : list A :=
  match l with
  | [] => []
  | x :: l' => if p x then drop_while p l' else l
  end.

(** [l] after the prefix [p], if it starts with it. *)
Fixpoint strip_prefix (p l : pystr) : option pystr :=
  match p, l with
  | [], _ => Some l
  | x :: p', y :: l' => if N.eqb x y then strip_prefix p' l' else None
  | _, [] => None
  end.

Lemma strip_prefix_app p l : strip_prefix p (p ++ l) = Some l.
Proof. induction p as [|x p IH]; cbn; [done|]. by rewrite N.eqb_refl. Qed.

(** The tail of a text at which a scan of characters satisfying [p] stops. *)
Definition stops {A} (p : A -> bool) (l : list A) : Prop :=
  match l with [] => True | x :: _ => p x = false end.

Lemma take_while_app {A} (p : A -> bool) l r :
  Forall (fun x => p x = true) l -> stops p r -> take_while p (l ++ r) = l.
Proof.
  intros Hl Hr. induction Hl as [|x l Hx Hl IH]; cbn.
  - destruct r; cbn in *; [done|]. by rewrite Hr.
  - by rewrite Hx, IH.
Qed.

Lemma drop_while_app {A} (p : A -> bool) l r :
  Forall (fun x => p x = true) l -> stops p r -> drop_while p (l ++ r) = r.
Proof.
  intros Hl Hr. induction Hl as [|x l Hx Hl IH]; cbn.
  - destruct r; cbn in *; [done|]. by rewrite Hr.
  - by rewrite Hx, IH.
Qed.

Lemma forallb_Forall {A} (p : A -> bool) l : forallb p l = true <-> Forall (fun x => p x = true) l.
Proof.
  induction l as [|x l IH]; cbn; [split; [constructor|done]|].
  by rewrite andb_true_iff, IH, Forall_cons.
Qed.

Lemma map_snd_keys {K V W} (g : V -> W) (d : list (K * V)) :
  (map (fun kv => (kv.1, g kv.2)) d).*1 = d.*1.
Proof. induction d as [|[k v] d IH]; cbn; [done|]. by f_equal. Qed.
