(* ===== verification/PyFloat.v ===== *)
(** * Python floats

    A Python [float] is an IEEE-754 binary64 number.  It is modelled by the inductive type of
    the standard library's floating-point specification, with 53 bits of precision and maximal
    exponent 1024, whose operations round to nearest even and compute inside the logic. *)

From Stdlib Require Import ZArith Lia.
From Stdlib Require Export SpecFloat.
From S2P Require Import Prelude.
Open Scope Z_scope.

Abbreviation float := spec_float.

Global Instance float_eq_dec : EqDecision float.
Proof. solve_decision. Defined.

Definition fadd : float -> float -> float := SFadd 53 1024.
Definition fsub : float -> float -> float := SFsub 53 1024.
Definition fmul : float -> float -> float := SFmul 53 1024.
Definition fdiv : float -> float -> float := SFdiv 53 1024.
Definition fsqrt : float -> float := SFsqrt 53 1024.
Definition fabs : float -> float := SFabs.
Definition fopp : float -> float := SFopp.
Definition fzero : float := S754_zero false.
Definition finf : float := S754_infinity false.

Definition isnan (f : float) : bool :=
  match f with S754_nan => true | _ => false end.

(** [math.isfinite] *)
Definition isfinite (f : float) : bool :=
  match f with S754_zero _ | S754_finite _ _ _ => true | _ => false end.

(** The double nearest to an integer, infinite when the integer is too large. *)
Definition Z_to_float (z : Z) : float := binary_normalize 53 1024 z 0 false.

(** [float(z)]: an integer that rounds beyond the largest double raises [OverflowError]. *)
Definition float_of_int (z : Z) : result float :=
  let f := Z_to_float z in
  if isfinite f then Ok f else Raise OverflowError.

(** The double nearest to the decimal [m * 10^k] ([m >= 0]) with sign [s] (negative when
    [true]): what a decimal literal or [float] of a decimal string denotes. *)
Definition decimal_float (s : bool) (m k : Z) : float :=
  match m with
  | Zpos p =>
      if Z.leb 0 k then binary_normalize 53 1024 (cond_Zopp s (m * 10 ^ k)) 0 s
      else
        let '(q, e, l) := SFdiv_core_binary 53 1024 (Zpos p) 0 (10 ^ (- k)) 0 in
        binary_round_aux 53 1024 s q e l
  | _ => S754_zero s
  end.

(** [int(f)] of a finite float: truncation toward zero. *)
Definition trunc (f : float) : Z :=
  match f with
  | S754_finite s m e =>
      let a := if Z.leb 0 e then Zpos m * 2 ^ e else Zpos m / 2 ^ (- e) in
      if s then - a else a
  | _ => 0
  end.

(** [int(f)]: [ValueError] for a NaN, [OverflowError] for an infinity. *)
Definition int_of_float (f : float) : result Z :=
  match f with
  | S754_nan => Raise ValueError
  | S754_infinity _ => Raise OverflowError
  | _ => Ok (trunc f)
  end.

Global Instance pyord_float : PyOrd float := SFcompare.

(** ** Comparison laws *)

Lemma SFcompare_refl f : f <> S754_nan -> SFcompare f f = Some Eq.
Proof.
  destruct f as [s|s| |s m e]; cbn; try done; try by destruct s.
  rewrite Z.compare_refl.
  change (Pos.compare_cont Eq m m) with (Pos.compare m m). rewrite Pos.compare_refl.
  by destruct s.
Qed.

Lemma pos_cont_antisym p q : Pos.compare_cont Eq q p = CompOpp (Pos.compare_cont Eq p q).
Proof. apply Pos.compare_antisym. Qed.

Lemma SFcompare_opp f g : SFcompare g f = CompOpp <$> SFcompare f g.
Proof.
  destruct f as [s|s| |s m e], g as [s'|s'| |s' m' e']; cbn; try done;
    try (by destruct s); try (by destruct s'); try (by destruct s, s').
  rewrite (Z.compare_antisym e e'), (pos_cont_antisym m m').
  by destruct s, s', (Z.compare e e'), (Pos.compare_cont Eq m m').
Qed.

(** The total order of the finite floats of one sign, as a lexicographic comparison. *)
Lemma finite_lex_trans (e e' e'' : Z) (m m' m'' : positive) :
  match Z.compare e e' with Eq => Pos.compare_cont Eq m m' | c => c end = Lt ->
  match Z.compare e' e'' with Eq => Pos.compare_cont Eq m' m'' | c => c end = Lt ->
  match Z.compare e e'' with Eq => Pos.compare_cont Eq m m'' | c => c end = Lt.
Proof.
  change (Pos.compare_cont Eq m m') with (Pos.compare m m').
  change (Pos.compare_cont Eq m' m'') with (Pos.compare m' m'').
  change (Pos.compare_cont Eq m m'') with (Pos.compare m m'').
  destruct (Z.compare_spec e e'), (Z.compare_spec e' e''), (Z.compare_spec e e'');
    rewrite ?Pos.compare_lt_iff; intros; try done; lia.
Qed.

(** The comparison of two negative finite floats is that of their magnitudes, reversed. *)
Lemma finite_lex_neg (e e' : Z) (m m' : positive) :
  match Z.compare e e' with
  | Eq => CompOpp (Pos.compare_cont Eq m m') | Lt => Gt | Gt => Lt
  end = match Z.compare e' e with Eq => Pos.compare_cont Eq m' m | c => c end.
Proof.
  rewrite (Z.compare_antisym e e'), (pos_cont_antisym m m'). by destruct (Z.compare e e').
Qed.

(** Comparing equal means the same float, or two zeros. *)
Lemma SFcompare_eq_inv f g :
  SFcompare f g = Some Eq ->
  f = g \/ (exists s s', f = S754_zero s /\ g = S754_zero s').
Proof.
  destruct f as [s|s| |s m e], g as [s'|s'| |s' m' e']; cbn; try done;
    try (by destruct s); try (by destruct s').
  - intros _. right. eauto.
  - destruct s, s'; try done; by left.
  - change (Pos.compare_cont Eq m m') with (Pos.compare m m').
    destruct s, s'; try done; destruct (Z.compare_spec e e'); try done;
      destruct (Pos.compare_spec m m'); try done; intros _; subst; by left.
Qed.

Lemma SFcompare_eq_l f g h : SFcompare f g = Some Eq -> SFcompare f h = SFcompare g h.
Proof. intros [->|(s & s' & -> & ->)]%SFcompare_eq_inv; [done|]. by destruct h. Qed.

Lemma SFcompare_trans f g h :
  SFcompare f g = Some Lt -> SFcompare g h = Some Lt -> SFcompare f h = Some Lt.
Proof.
  destruct f as [s|s| |s m e], g as [s'|s'| |s' m' e'], h as [s''|s''| |s'' m'' e''];
    cbn; try done; try (by destruct s); try (by destruct s'); try (by destruct s, s');
    try (by destruct s''); try (by destruct s, s'');  try (by destruct s', s'');
    try (by destruct s, s', s'').
  intros [= H1] [= H2]. f_equal. revert H1 H2.
  destruct s, s', s''; try done.
  - rewrite !finite_lex_neg. intros H1 H2. exact (finite_lex_trans _ _ _ _ _ _ H2 H1).
  - intros H1 H2. pose proof (finite_lex_trans e e' e'' m m' m'') as H.
    destruct (Z.compare e e''); apply H;
      solve [by destruct (Z.compare e e')|by destruct (Z.compare e' e'')].
Qed.

#[local] Obligation Tactic := idtac.
Global Program Instance pyord_float_laws : PyOrdLaws float := {| py_ok := fun f => f <> S754_nan |}.
Next Obligation.
  intros [s|s| |s m e] [s'|s'| |s' m' e'] ??; cbn; eauto; done.
Qed.
Next Obligation. apply SFcompare_refl. Qed.
Next Obligation. apply SFcompare_opp. Qed.
Next Obligation. apply SFcompare_trans. Qed.
Next Obligation. apply SFcompare_eq_l. Qed.

Lemma isfinite_ok f : isfinite f = true -> py_ok f.
Proof. by destruct f. Qed.
#[export] Hint Resolve isfinite_ok : peerq.
