(* ===== verification/Text.v ===== *)
(** * Text encodings of the standard library

    [bytes.hex], [bytes.fromhex], [str.encode("utf-8")] and [bytes.decode("utf-8")], as the
    wire formats, the write-ahead log and the signatures use them, with their round trips. *)

From Stdlib Require Import ZArith NArith Lia.
From S2P Require Import Prelude.
Open Scope N_scope.

(** ** Hexadecimal *)

Definition hex_digit (n : N) : N := if n <? 10 then 48 + n else 87 + n.

(** The value of a hexadecimal digit, either case. *)
Definition hex_value (c : N) : option N :=
  if (48 <=? c) && (c <=? 57) then Some (c - 48)
  else if (97 <=? c) && (c <=? 102) then Some (c - 87)
  else if (65 <=? c) && (c <=? 70) then Some (c - 55)
  else None.

(** [b.hex()] *)
Fixpoint hex (b : list byte) : pystr :=
  match b with
  | [] => []
  | x :: b' => hex_digit (Byte.to_N x / 16) :: hex_digit (Byte.to_N x mod 16) :: hex b'
  end.

(** ASCII whitespace, which [bytes.fromhex] skips between bytes. *)
Definition ascii_space (c : N) : bool := (c =? 32) || ((9 <=? c) && (c <=? 13)).

(** [bytes.fromhex(s)], [None] for a [ValueError]. *)
Fixpoint fromhex (s : pystr) : option (list byte) :=
  match s with
  | [] => Some []
  | c :: s1 =>
      if ascii_space c then fromhex s1
      else
        match s1 with
        | [] => None
        | c2 :: s2 =>
            match hex_value c, hex_value c2 with
            | Some h, Some l =>
                match Byte.of_N (16 * h + l) with
                | Some x => cons x <$> fromhex s2
                | None => None
                end
            | _, _ => None
            end
        end
  end.

(** ** UTF-8 *)

Definition is_surrogate (c : N) : bool := (0xD800 <=? c) && (c <=? 0xDFFF).

(** A Unicode scalar value: the code points UTF-8 can encode. *)
Definition is_scalar (c : N) : bool := (c <? 0x110000) && negb (is_surrogate c).

Definition N_byte (n : N) : byte := Z_byte (Z.of_N n).

Definition utf8_char (c : N) : list byte :=
  if c <? 0x80 then [N_byte c]
  else if c <? 0x800 then [N_byte (0xC0 + c / 64); N_byte (0x80 + c mod 64)]
  else if c <? 0x10000 then
    [N_byte (0xE0 + c / 4096); N_byte (0x80 + c / 64 mod 64); N_byte (0x80 + c mod 64)]
  else
    [N_byte (0xF0 + c / 262144); N_byte (0x80 + c / 4096 mod 64);
     N_byte (0x80 + c / 64 mod 64); N_byte (0x80 + c mod 64)].

(** [s.encode("utf-8")], [None] for the [UnicodeEncodeError] of a lone surrogate. *)
Fixpoint utf8_encode (s : pystr) : option (list byte) :=
  match s with
  | [] => Some []
  | c :: s' => if is_scalar c then app (utf8_char c) <$> utf8_encode s' else None
  end.

(** The six payload bits of a continuation byte. *)
Definition cont_bits (b : byte) : option N :=
  let n := Byte.to_N b in
  if (0x80 <=? n) && (n <? 0xC0) then Some (n - 0x80) else None.

(** A decoded code point is accepted when it is a scalar value and its encoding is the shortest
    one (at least [low]). *)
Definition utf8_accept (low c : N) (k : option pystr) : option pystr :=
  if (low <=? c) && is_scalar c then cons c <$> k else None.

(** [b.decode("utf-8")], [None] for a [UnicodeDecodeError]. *)
Fixpoint utf8_decode (b : list byte) : option pystr :=
  match b with
  | [] => Some []
  | b0 :: t0 =>
      let n := Byte.to_N b0 in
      if n <? 0x80 then cons n <$> utf8_decode t0
      else if (0xC0 <=? n) && (n <? 0xE0) then
        match t0 with
        | b1 :: t1 =>
            match cont_bits b1 with
            | Some x1 => utf8_accept 0x80 ((n - 0xC0) * 64 + x1) (utf8_decode t1)
            | None => None
            end
        | _ => None
        end
      else if (0xE0 <=? n) && (n <? 0xF0) then
        match t0 with
        | b1 :: b2 :: t2 =>
            match cont_bits b1, cont_bits b2 with
            | Some x1, Some x2 =>
                utf8_accept 0x800 ((n - 0xE0) * 4096 + x1 * 64 + x2) (utf8_decode t2)
            | _, _ => None
            end
        | _ => None
        end
      else if (0xF0 <=? n) && (n <? 0xF8) then
        match t0 with
        | b1 :: b2 :: b3 :: t3 =>
            match cont_bits b1, cont_bits b2, cont_bits b3 with
            | Some x1, Some x2, Some x3 =>
                utf8_accept 0x10000 ((n - 0xF0) * 262144 + x1 * 4096 + x2 * 64 + x3)
                  (utf8_decode t3)
            | _, _, _ => None
            end
        | _ => None
        end
      else None
  end.

(** ** Hexadecimal lemmas *)

Lemma hex_value_digit n : n < 16 -> hex_value (hex_digit n) = Some n.
Proof.
  intros Hn. unfold hex_digit, hex_value.
  destruct (N.ltb_spec n 10).
  - replace ((48 <=? 48 + n) && (48 + n <=? 57)) with true; [f_equal; lia|].
    symmetry. apply andb_true_iff. split; apply N.leb_le; lia.
  - replace ((48 <=? 87 + n) && (87 + n <=? 57)) with false;
      [|symmetry; apply andb_false_iff; right; apply N.leb_gt; lia].
    replace ((97 <=? 87 + n) && (87 + n <=? 102)) with true; [f_equal; lia|].
    symmetry. apply andb_true_iff. split; apply N.leb_le; lia.
Qed.

Lemma hex_digit_not_space n : n < 16 -> ascii_space (hex_digit n) = false.
Proof.
  intros Hn. unfold ascii_space, hex_digit. destruct (N.ltb_spec n 10);
    apply orb_false_iff; (split; [apply N.eqb_neq; lia|apply andb_false_iff; right; apply N.leb_gt; lia]).
Qed.

Lemma fromhex_hex b : fromhex (hex b) = Some b.
Proof.
  induction b as [|x b IH]; cbn [hex fromhex]; [done|].
  pose proof (Byte.to_N_bounded x) as Hx.
  assert (Byte.to_N x / 16 < 16) as H1 by (apply N.Div0.div_lt_upper_bound; lia).
  assert (Byte.to_N x mod 16 < 16) as H2 by (apply N.mod_lt; lia).
  rewrite hex_digit_not_space, !hex_value_digit by done.
  rewrite <- N.div_mod, Byte.of_to_N, IH by lia. done.
Qed.

Lemma hex_length b : length (hex b) = (2 * length b)%nat.
Proof. induction b as [|x b IH]; cbn [hex length]; lia. Qed.

Lemma hex_inj a b : hex a = hex b -> a = b.
Proof. intros E. apply (f_equal fromhex) in E. rewrite !fromhex_hex in E. congruence. Qed.

(** ** UTF-8 lemmas *)

Lemma N_byte_to_N n : n < 256 -> Byte.to_N (N_byte n) = n.
Proof.
  intros Hn. pose proof (byte_Z_byte (Z.of_N n) ltac:(lia)) as E.
  unfold byte_Z, N_byte in *. lia.
Qed.

Lemma N_ltb_false a b : b <= a -> (a <? b) = false.
Proof. intros. by apply N.ltb_ge. Qed.
Lemma N_ltb_true a b : a < b -> (a <? b) = true.
Proof. intros. by apply N.ltb_lt. Qed.
Lemma N_leb_true a b : a <= b -> (a <=? b) = true.
Proof. intros. by apply N.leb_le. Qed.

Lemma cont_bits_byte x : x < 64 -> cont_bits (N_byte (0x80 + x)) = Some x.
Proof.
  intros Hx. unfold cont_bits. rewrite N_byte_to_N by lia.
  rewrite N_leb_true, N_ltb_true by lia. cbn. f_equal. lia.
Qed.

Lemma utf8_accept_ok low c k : low <= c -> is_scalar c = true -> utf8_accept low c k = cons c <$> k.
Proof. intros H1 H2. unfold utf8_accept. by rewrite N_leb_true, H2. Qed.

Lemma mod64 n : n mod 64 < 64.
Proof. apply N.mod_lt. lia. Qed.

Lemma utf8_decode_char c t :
  is_scalar c = true -> utf8_decode (utf8_char c ++ t) = cons c <$> utf8_decode t.
Proof.
  intros Hc. assert (c < 0x110000) as Hlt.
  { unfold is_scalar in Hc. apply andb_true_iff in Hc as [Hc _]. by apply N.ltb_lt. }
  pose proof (N.div_mod c 64 ltac:(lia)) as D1.
  pose proof (N.div_mod (c / 64) 64 ltac:(lia)) as D2.
  pose proof (N.div_mod (c / 4096) 64 ltac:(lia)) as D3.
  assert (c / 64 / 64 = c / 4096) as E2 by (rewrite N.Div0.div_div; done).
  assert (c / 4096 / 64 = c / 262144) as E3 by (rewrite N.Div0.div_div; done).
  pose proof (mod64 c). pose proof (mod64 (c / 64)). pose proof (mod64 (c / 4096)).
  rewrite E2 in D2. rewrite E3 in D3. unfold utf8_char.
  generalize dependent (c mod 64). generalize dependent (c / 64 mod 64).
  generalize dependent (c / 4096 mod 64). clear E2 E3.
  generalize dependent (c / 64). generalize dependent (c / 4096).
  generalize dependent (c / 262144). intros.
  destruct (N.ltb_spec c 0x80); [|destruct (N.ltb_spec c 0x800);
    [|destruct (N.ltb_spec c 0x10000)]]; cbn [app utf8_decode].
  - rewrite N_byte_to_N, N_ltb_true by lia. done.
  - rewrite N_byte_to_N, (N_ltb_false (_ + _) 0x80), (N_leb_true 0xC0 (_ + _)), (N_ltb_true (_ + _) 0xE0) by lia. cbn [andb].
    rewrite cont_bits_byte by done. rewrite <- utf8_accept_ok with (low := 0x80) by done.
    f_equal. lia.
  - rewrite N_byte_to_N, (N_ltb_false (_ + _) 0x80), (N_ltb_false (_ + _) 0xE0), (N_leb_true 0xE0 (_ + _)),
      (N_ltb_true (_ + _) 0xF0), andb_false_r by lia. cbn [andb].
    rewrite !cont_bits_byte by done. rewrite <- utf8_accept_ok with (low := 0x800) by done.
    f_equal. lia.
  - rewrite N_byte_to_N, (N_ltb_false (_ + _) 0x80), (N_ltb_false (_ + _) 0xE0), (N_ltb_false (_ + _) 0xF0),
      (N_leb_true 0xF0 (_ + _)), (N_ltb_true (_ + _) 0xF8), !andb_false_r by lia. cbn [andb].
    rewrite !cont_bits_byte by done. rewrite <- utf8_accept_ok with (low := 0x10000) by done.
    f_equal. lia.
Qed.

Lemma utf8_decode_encode s b : utf8_encode s = Some b -> utf8_decode b = Some s.
Proof.
  revert b. induction s as [|c s IH]; cbn [utf8_encode]; intros b; [by intros [= <-]|].
  destruct (is_scalar c) eqn:Hc; [|done].
  destruct (utf8_encode s) as [b'|]; [|done]. intros [= <-].
  rewrite utf8_decode_char by done. by rewrite (IH b').
Qed.

Lemma utf8_encode_scalar s : Forall (fun c => is_scalar c = true) s -> is_Some (utf8_encode s).
Proof.
  induction 1 as [|c s Hc Hs [b IH]]; cbn [utf8_encode]; [by eauto|]. rewrite Hc, IH. cbn. eauto.
Qed.

Lemma utf8_encode_Some_scalar s b :
  utf8_encode s = Some b -> Forall (fun c => is_scalar c = true) s.
Proof.
  revert b. induction s as [|c s IH]; cbn [utf8_encode]; intros b; [done|].
  destruct (is_scalar c) eqn:Hc; [|done].
  destruct (utf8_encode s); [|done]. intros _. constructor; eauto.
Qed.
