(* ===== verification/Json.v ===== *)
(** * JSON

    The JSON values PeerQ exchanges, and the text codec of Python's [json] module as the code
    calls it: [json.dumps] with [sort_keys=True], [separators=(",", ":")], [allow_nan=False] and
    either value of [ensure_ascii]; [json.loads] with the non-finite constants rejected.  The
    decoder is the scanner of the standard library (whitespace, escapes, surrogate pairs, number
    grammar, duplicate keys: the last value wins); [None] stands for the [ValueError] it raises.
    The interpreter's recursion limit is not modelled. *)

From Stdlib Require Import ZArith NArith Lia.
From S2P Require Import Prelude PyFloat Text.
Open Scope N_scope.

(** A dictionary is the list of its items in insertion order. *)
Unset Elimination Schemes.
Inductive json :=
| JNull
| JBool (b : bool)
| JInt (z : Z)
| JFloat (f : float)
| JStr (s : pystr)
| JArr (l : list json)
| JObj (d : list (pystr * json)).
Set Elimination Schemes.

(** [d.get(key)] of a dictionary of JSON values: [None] when the key is absent. *)
Definition jget (k : pystr) (d : list (pystr * json)) : json := default JNull (dict_get k d).

(** ** Numbers *)

Fixpoint dec_digits (fuel : nat) (n : N) (acc : pystr) : pystr :=
  match fuel with
  | O => acc
  | S f =>
      let acc' := (48 + n mod 10) :: acc in
      if n <? 10 then acc' else dec_digits f (n / 10) acc'
  end.

(** The decimal digits of a natural number. *)
Definition N_str (n : N) : pystr := dec_digits (S (N.to_nat (N.size n))) n [].

(** [str(z)] *)
Definition Z_str (z : Z) : pystr :=
  match z with
  | Zneg p => 45 :: N_str (Npos p)
  | _ => N_str (Z.to_N z)
  end.

(** The interpreter refuses to convert integers of more than this many digits. *)
Definition int_max_str_digits : Z := 4300.

Definition int_repr (z : Z) : result pystr :=
  if Z.ltb int_max_str_digits (Z.of_nat (length (N_str (Z.abs_N z)))) then Raise ValueError
  else Ok (Z_str z).

Definition is_digit (c : N) : bool := (48 <=? c) && (c <=? 57).

Definition digits_value (ds : pystr) : N := foldl (fun a c => 10 * a + (c - 48)) 0 ds.

(** The decimal exponent [d] of the positive rational [num / den]: [10^(d-1) <= num/den < 10^d]. *)
Definition decimal_exponent (num den : Z) : Z :=
  let d := (Z.of_nat (length (N_str (Z.to_N num))) - Z.of_nat (length (N_str (Z.to_N den))))%Z in
  let below := if Z.leb 0 d then Z.ltb num (den * 10 ^ d) else Z.ltb (num * 10 ^ (- d)) den in
  if below then d else (d + 1)%Z.

(** The integer [c] with [c * 10^k] nearest to [num / den] among those the parser reads back as
    [f]. *)
Definition pick_decimal (f : float) (num den k : Z) : option Z :=
  let '(n, d) := if Z.leb 0 k then (num, (den * 10 ^ k)%Z) else ((num * 10 ^ (- k))%Z, den) in
  let q := Z.div n d in
  let r := Z.modulo n d in
  let reads c := bool_decide (decimal_float false c k = f) in
  if reads q then
    if reads (q + 1)%Z then
      match Z.compare (2 * r) d with
      | Lt => Some q
      | Gt => Some (q + 1)%Z
      | Eq => Some (if Z.even q then q else q + 1)%Z
      end
    else Some q
  else if reads (q + 1)%Z then Some (q + 1)%Z
  else None.

Fixpoint shortest_decimal (f : float) (num den d : Z) (ns : list Z) : Z * Z :=
  match ns with
  | [] => (Z.div (num * 10 ^ 17) den, (-17)%Z)
  | n :: ns' =>
      match pick_decimal f num den (d - n) with
      | Some c => (c, (d - n)%Z)
      | None => shortest_decimal f num den d ns'
      end
  end.

Definition strip_zeros (ds : pystr) : pystr := reverse (drop_while (N.eqb 48) (reverse ds)).

(** Layout of [repr]: positional when the decimal point falls within [-4 < decpt <= 16],
    scientific otherwise. *)
Definition layout_digits (ds : pystr) (decpt : Z) : pystr :=
  if Z.ltb (-4) decpt && Z.leb decpt 16 then
    if Z.leb decpt 0 then str "0." ++ replicate (Z.to_nat (- decpt)) 48 ++ ds
    else if Z.leb (Z.of_nat (length ds)) decpt then
      ds ++ replicate (Z.to_nat decpt - length ds) 48 ++ str ".0"
    else take (Z.to_nat decpt) ds ++ str "." ++ drop (Z.to_nat decpt) ds
  else
    let e := (decpt - 1)%Z in
    let es := N_str (Z.abs_N e) in
    take 1 ds ++ (if (1 <? length ds)%nat then str "." ++ drop 1 ds else [])
      ++ str "e" ++ (if Z.ltb e 0 then str "-" else str "+")
      ++ (if (length es <? 2)%nat then 48 :: es else es).

(** [float.__repr__] of a finite float: the shortest decimal that reads back as the float. *)
Definition float_repr (f : float) : pystr :=
  match f with
  | S754_zero s => (if s then str "-" else []) ++ str "0.0"
  | S754_finite s m e =>
      let num := (Zpos m * 2 ^ Z.max e 0)%Z in
      let den := (2 ^ Z.max (- e) 0)%Z in
      let '(c, k) := shortest_decimal (S754_finite false m e) num den (decimal_exponent num den)
                       (Z.of_nat <$> seq 1 17) in
      let ds := N_str (Z.to_N c) in
      (if s then str "-" else [])
        ++ layout_digits (strip_zeros ds) (Z.of_nat (length ds) + k)
  | _ => []
  end.

(** ** Strings *)

Definition hex4 (c : N) : pystr :=
  [hex_digit (c / 4096 mod 16); hex_digit (c / 256 mod 16);
   hex_digit (c / 16 mod 16); hex_digit (c mod 16)].

(** One character of a string literal. *)
Definition esc_char (ensure_ascii : bool) (c : N) : pystr :=
  if c =? 34 then [92; 34]
  else if c =? 92 then [92; 92]
  else if c =? 10 then [92; 110]
  else if c =? 13 then [92; 114]
  else if c =? 9 then [92; 116]
  else if c =? 8 then [92; 98]
  else if c =? 12 then [92; 102]
  else if c <? 32 then [92; 117] ++ hex4 c
  else if negb ensure_ascii || (c <? 127) then [c]
  else if c <? 0x10000 then [92; 117] ++ hex4 c
  else
    let v := c - 0x10000 in
    [92; 117] ++ hex4 (0xD800 + v / 1024) ++ [92; 117] ++ hex4 (0xDC00 + v mod 1024).

Definition quote (ensure_ascii : bool) (s : pystr) : pystr :=
  34 :: (s ≫= esc_char ensure_ascii) ++ [34].

(** ** Encoding *)

Fixpoint join (sep : pystr) (l : list pystr) : pystr :=
  match l with
  | [] => []
  | [x] => x
  | x :: l' => x ++ sep ++ join sep l'
  end.

(** [json.dumps(v, separators=(",", ":"), sort_keys=True, allow_nan=False)] *)
Fixpoint dumps (ensure_ascii : bool) (v : json) : result pystr :=
  match v with
  | JNull => Ok (str "null")
  | JBool b => Ok (if b then str "true" else str "false")
  | JInt z => int_repr z
  | JFloat f => if isfinite f then Ok (float_repr f) else Raise ValueError
  | JStr s => Ok (quote ensure_ascii s)
  | JArr l =>
      let! ts :=
        (fix dump_list (l : list json) : result (list pystr) :=
           match l with
           | [] => Ok []
           | x :: l' =>
               let! t := dumps ensure_ascii x in
               let! ts := dump_list l' in
               Ok (t :: ts)
           end) l in
      Ok (str "[" ++ join (str ",") ts ++ str "]")
  | JObj d =>
      let! items :=
        (fix dump_items (d : list (pystr * json)) : result (list (pystr * pystr)) :=
           match d with
           | [] => Ok []
           | (k, x) :: d' =>
               let! t := dumps ensure_ascii x in
               let! ts := dump_items d' in
               Ok ((k, t) :: ts)
           end) d in
      Ok (str "{" ++
          join (str ",")
            ((fun kt => quote ensure_ascii kt.1 ++ str ":" ++ kt.2) <$> sort_items items)
          ++ str "}")
  end.

(** ** Decoding *)

(** The text after the character [x], if it starts with it. *)
Definition strip_char (x : N) (s : pystr) : option pystr :=
  match s with
  | c :: s' => if c =? x then Some s' else None
  | [] => None
  end.

Definition is_some {A} (o : option A) : bool := match o with Some _ => true | None => false end.

Definition is_ws (c : N) : bool := (c =? 32) || (c =? 9) || (c =? 10) || (c =? 13).
Definition skip_ws (s : pystr) : pystr := drop_while is_ws s.

Definition hex4_value (a b c d : N) : option N :=
  match hex_value a, hex_value b, hex_value c, hex_value d with
  | Some x, Some y, Some z, Some w => Some (4096 * x + 256 * y + 16 * z + w)
  | _, _, _, _ => None
  end.

Definition is_high (u : N) : bool := (0xD800 <=? u) && (u <=? 0xDBFF).
Definition is_low (u : N) : bool := (0xDC00 <=? u) && (u <=? 0xDFFF).

(** The character of a one-letter escape. *)
Definition simple_escape (e : N) : option N :=
  if e =? 34 then Some 34 else if e =? 92 then Some 92 else if e =? 47 then Some 47
  else if e =? 98 then Some 8 else if e =? 102 then Some 12 else if e =? 110 then Some 10
  else if e =? 114 then Some 13 else if e =? 116 then Some 9 else None.

(** [c] in front of a scanned string. *)
Definition push (c : N) (r : option (pystr * pystr)) : option (pystr * pystr) :=
  match r with Some (t, rest) => Some (c :: t, rest) | None => None end.

(** The rest of a string literal after its opening quote: its value and the text after it. *)
Fixpoint scan_str (s : pystr) : option (pystr * pystr) :=
  match s with
  | [] => None
  | c :: s1 =>
      if c =? 34 then Some ([], s1)
      else if c =? 92 then
        match s1 with
        | [] => None
        | e :: s2 =>
            if e =? 117 then
              match s2 with
              | h1 :: h2 :: h3 :: h4 :: s3 =>
                  match hex4_value h1 h2 h3 h4 with
                  | None => None
                  | Some u =>
                      if is_high u then
                        match s3 with
                        | b :: u' :: l1 :: l2 :: l3 :: l4 :: s4 =>
                            if (b =? 92) && (u' =? 117) then
                              match hex4_value l1 l2 l3 l4 with
                              | None => None
                              | Some lo =>
                                  if is_low lo then
                                    push (0x10000 + (u - 0xD800) * 1024 + (lo - 0xDC00))
                                      (scan_str s4)
                                  else push u (scan_str s3)
                              end
                            else push u (scan_str s3)
                        | _ => push u (scan_str s3)
                        end
                      else push u (scan_str s3)
                  end
              | _ => None
              end
            else
              match simple_escape e with
              | Some x => push x (scan_str s2)
              | None => None
              end
        end
      else if c <? 32 then None
      else push c (scan_str s1)
  end.

(** The characters of a number. *)
Definition num_char (c : N) : bool :=
  is_digit c || (c =? 45) || (c =? 43) || (c =? 46) || (c =? 69) || (c =? 101).

(** A number token: an optional minus sign, an integer part without superfluous leading zeros,
    an optional fraction and an optional exponent; an [int] when it has neither of the two.  The scanner takes the longest run of number characters as
    the token: no text in which a shorter prefix would be the number continues correctly. *)
Definition parse_number (tok : pystr) : option json :=
  let neg := is_some (strip_char 45 tok) in
  let t := default tok (strip_char 45 tok) in
  let ip := take_while is_digit t in
  let t1 := drop_while is_digit t in
  let ip_ok := match ip with [] => false | [_] => true | c :: _ => negb (c =? 48) end in
  let has_f := is_some (strip_char 46 t1) in
  let fp := if has_f then take_while is_digit (tl t1) else [] in
  let t2 := if has_f then drop_while is_digit (tl t1) else t1 in
  let has_e := is_some (strip_char 69 t2) || is_some (strip_char 101 t2) in
  let t3 := if has_e then tl t2 else [] in
  let eneg := is_some (strip_char 45 t3) in
  let t4 := if eneg || is_some (strip_char 43 t3) then tl t3 else t3 in
  let ep := take_while is_digit t4 in
  let t5 := if has_e then drop_while is_digit t4 else t2 in
  if negb (ip_ok && (negb has_f || negb (bool_decide (fp = [])))
             && (negb has_e || negb (bool_decide (ep = []))) && bool_decide (t5 = []))
  then None
  else if negb has_f && negb has_e then
    if Z.ltb int_max_str_digits (Z.of_nat (length ip)) then None
    else Some (JInt (cond_Zopp neg (Z.of_N (digits_value ip))))
  else
    Some (JFloat (decimal_float neg (Z.of_N (digits_value (ip ++ fp)))
                    (cond_Zopp eneg (Z.of_N (digits_value ep)) - Z.of_nat (length fp)))).

Definition scan_number (s : pystr) : option (json * pystr) :=
  match parse_number (take_while num_char s) with
  | Some v => Some (v, drop_while num_char s)
  | None => None
  end.

(** Whether the scanner accepts [NaN], [Infinity] and [-Infinity]: [json.loads] does unless its
    [parse_constant] raises, as [reject_json_constants] does. *)
Class JsonConstants := allow_constants : bool.

Section scan.
Context {C : JsonConstants}.

Definition scan_constant (s : pystr) : option (json * pystr) :=
  match strip_prefix (str "NaN") s, strip_prefix (str "Infinity") s, strip_prefix (str "-Infinity") s with
  | Some r, _, _ => Some (JFloat S754_nan, r)
  | _, Some r, _ => Some (JFloat (S754_infinity false), r)
  | _, _, Some r => Some (JFloat (S754_infinity true), r)
  | _, _, _ => None
  end.

Definition scan_literal (s : pystr) : option (json * pystr) :=
  match strip_prefix (str "null") s, strip_prefix (str "true") s, strip_prefix (str "false") s with
  | Some r, _, _ => Some (JNull, r)
  | _, Some r, _ => Some (JBool true, r)
  | _, _, Some r => Some (JBool false, r)
  | _, _, _ =>
      match (if allow_constants then scan_constant s else None) with
      | Some vr => Some vr
      | None => scan_number s
      end
  end.

Fixpoint scan_value (fuel : nat) (s : pystr) : option (json * pystr) :=
  match fuel with
  | O => None
  | S f =>
      match s with
      | [] => None
      | c :: s' =>
          if c =? 34 then
            match scan_str s' with Some (t, r) => Some (JStr t, r) | None => None end
          else if c =? 123 then
            match strip_char 125 (skip_ws s') with
            | Some r => Some (JObj [], r)
            | None =>
                match scan_members f (skip_ws s') [] with
                | Some (d, r) => Some (JObj d, r)
                | None => None
                end
            end
          else if c =? 91 then
            match strip_char 93 (skip_ws s') with
            | Some r => Some (JArr [], r)
            | None =>
                match scan_elems f (skip_ws s') with
                | Some (l, r) => Some (JArr l, r)
                | None => None
                end
            end
          else scan_literal s
      end
  end
with scan_elems (fuel : nat) (s : pystr) : option (list json * pystr) :=
  match fuel with
  | O => None
  | S f =>
      match scan_value f s with
      | None => None
      | Some (v, r) =>
          match strip_char 93 (skip_ws r), strip_char 44 (skip_ws r) with
          | Some r', _ => Some ([v], r')
          | None, Some r' =>
              match scan_elems f (skip_ws r') with
              | Some (l, r'') => Some (v :: l, r'')
              | None => None
              end
          | None, None => None
          end
      end
  end
with scan_members (fuel : nat) (s : pystr) (acc : list (pystr * json))
    : option (list (pystr * json) * pystr) :=
  match fuel with
  | O => None
  | S f =>
      match strip_char 34 s with
      | None => None
      | Some s' =>
          match scan_str s' with
          | None => None
          | Some (k, r) =>
              match strip_char 58 (skip_ws r) with
              | None => None
              | Some r' =>
                  match scan_value f (skip_ws r') with
                  | None => None
                  | Some (v, r'') =>
                      match strip_char 125 (skip_ws r''), strip_char 44 (skip_ws r'') with
                      | Some r3, _ => Some (dict_set k v acc, r3)
                      | None, Some r3 => scan_members f (skip_ws r3) (dict_set k v acc)
                      | None, None => None
                      end
                  end
              end
          end
      end
  end.

(** [json.loads(s)]: each call consumes a character, so the length of the text bounds the
    recursion.  A text that starts with a byte-order mark is refused. *)
Definition loads_text (s : pystr) : option json :=
  match strip_char 65279 s with
  | Some _ => None
  | None =>
      match scan_value (S (length s)) (skip_ws s) with
      | Some (v, r) => if bool_decide (skip_ws r = []) then Some v else None
      | None => None
      end
  end.
End scan.

(** The scanner of every document the code validates: [parse_constant=reject_json_constants]. *)
Definition reject_json_constants : JsonConstants := false.
#[export] Existing Instance reject_json_constants.

(** [json.loads(s, parse_constant=reject_json_constants)] *)
Definition loads (s : pystr) : option json := loads_text s.
