(* ===== verification/JsonFacts.v ===== *)
(** * Correctness of the JSON codec

    Reading back what [dumps] wrote gives the same value, with the keys of every object in
    sorted order ([loads_dumps]).  The values concerned ([json_ok]) have strings of Unicode scalar
    values, distinct keys, integers within the interpreter's digit limit and finite floats whose
    decimal representation reads back. *)

From Stdlib Require Import ZArith NArith Lia.
From S2P Require Import Prelude PyFloat Text Json.
Open Scope N_scope.

(** ** Definitions *)

Lemma json_ind (P : json -> Prop) :
  P JNull -> (forall b, P (JBool b)) -> (forall z, P (JInt z)) -> (forall f, P (JFloat f)) ->
  (forall s, P (JStr s)) -> (forall l, Forall P l -> P (JArr l)) ->
  (forall d, Forall (fun kv => P kv.2) d -> P (JObj d)) ->
  forall v, P v.
Proof.
  intros Hn Hb Hi Hf Hs Ha Ho. fix IH 1. intros v.
  destruct v as [|b|z|f|s|l|d]; [exact Hn|apply Hb|apply Hi|apply Hf|apply Hs| |].
  - apply Ha. induction l; constructor; [apply IH|assumption].
  - apply Ho. induction d as [|[k v] d]; constructor; [apply IH|assumption].
Qed.

Definition scalar_str (s : pystr) : bool := forallb is_scalar s.

(** [float(repr(f)) == f], decided by running both. *)
Definition float_ok (f : float) : bool :=
  isfinite f && forallb num_char (float_repr f) &&
  match parse_number (float_repr f) with
  | Some (JFloat g) => bool_decide (g = f)
  | _ => false
  end.

Fixpoint json_ok (v : json) : bool :=
  match v with
  | JNull | JBool _ => true
  | JInt z => Z.leb (Z.of_nat (length (N_str (Z.abs_N z)))) int_max_str_digits
  | JFloat f => float_ok f
  | JStr s => scalar_str s
  | JArr l => forallb json_ok l
  | JObj d =>
      bool_decide (NoDup d.*1) &&
      forallb (fun kv => scalar_str kv.1 && json_ok kv.2) d
  end.

(** The value with the keys of its objects sorted. *)
Fixpoint sort_keys (v : json) : json :=
  match v with
  | JArr l => JArr (map sort_keys l)
  | JObj d => JObj (sort_items (map (fun kv => (kv.1, sort_keys kv.2)) d))
  | _ => v
  end.

(** ** Decimal numerals *)

Lemma digits_value_app ds c : digits_value (ds ++ [c]) = 10 * digits_value ds + (c - 48).
Proof. unfold digits_value. by rewrite foldl_app. Qed.

Lemma foldl_dec_digits fuel n acc :
  n < 10 ^ N.of_nat fuel ->
  foldl (fun a c => 10 * a + (c - 48)) 0 (dec_digits fuel n acc) =
  foldl (fun a c => 10 * a + (c - 48)) n acc.
Proof.
  revert n acc. induction fuel as [|f IH]; intros n acc Hn.
  - change (10 ^ N.of_nat 0) with 1 in Hn. cbn. by replace n with 0 by lia.
  - rewrite Nat2N.inj_succ, N.pow_succ_r in Hn by lia. cbn [dec_digits].
    destruct (N.ltb_spec n 10).
    + cbn [foldl]. rewrite N.mod_small by lia. f_equal. lia.
    + rewrite IH by (apply N.Div0.div_lt_upper_bound; lia). cbn [foldl]. f_equal.
      rewrite (N.add_comm 48), N.add_sub. symmetry. by apply N.div_mod.
Qed.

Lemma N_size_bound n : n < 10 ^ N.of_nat (S (N.to_nat (N.size n))).
Proof.
  rewrite Nat2N.inj_succ, N2Nat.id, N.pow_succ_r by lia.
  pose proof (N.size_gt n). pose proof (N.pow_le_mono_l 2 10 (N.size n) ltac:(lia)). lia.
Qed.

Lemma digits_value_N_str n : digits_value (N_str n) = n.
Proof. unfold digits_value, N_str. rewrite foldl_dec_digits by apply N_size_bound. done. Qed.

Lemma is_digit_48 d : d < 10 -> is_digit (48 + d) = true.
Proof. intros. unfold is_digit. apply andb_true_iff. split; apply N.leb_le; lia. Qed.

Lemma dec_digits_digit fuel n acc :
  Forall (fun c => is_digit c = true) acc ->
  Forall (fun c => is_digit c = true) (dec_digits fuel n acc).
Proof.
  revert n acc. induction fuel as [|f IH]; intros n acc Hacc; cbn [dec_digits]; [done|].
  assert (Forall (fun c => is_digit c = true) ((48 + n mod 10) :: acc)) as H.
  { constructor; [|done]. apply is_digit_48. apply N.mod_lt. lia. }
  destruct (n <? 10); auto.
Qed.

Lemma N_str_digit n : Forall (fun c => is_digit c = true) (N_str n).
Proof. apply dec_digits_digit. constructor. Qed.

(** The first digit is not a zero, except in the numeral of zero. *)
Lemma dec_digits_head fuel n acc :
  n < 10 ^ N.of_nat (S fuel) ->
  exists c ds, dec_digits (S fuel) n acc = c :: ds /\ (c = 48 -> n = 0 /\ ds = acc).
Proof.
  revert n acc. induction fuel as [|f IH]; intros n acc Hn; cbn [dec_digits].
  - rewrite N_ltb_true by done. exists (48 + n mod 10), acc. split; [done|].
    rewrite N.mod_small by done. intros. split; [lia|done].
  - destruct (N.ltb_spec n 10) as [Hlt|Hge].
    + exists (48 + n mod 10), acc. split; [done|]. rewrite N.mod_small by done.
      intros. split; [lia|done].
    + destruct (IH (n / 10) ((48 + n mod 10) :: acc)) as (c & ds & E & Hc).
      { rewrite Nat2N.inj_succ, N.pow_succ_r in Hn by lia.
        apply N.Div0.div_lt_upper_bound. lia. }
      exists c, ds. split; [exact E|]. intros ->. destruct Hc as [Hz _]; [done|].
      rewrite (N.div_mod n 10), Hz in Hge by done. pose proof (N.mod_lt n 10 ltac:(done)).
      apply N.le_ngt in Hge. contradict Hge. done.
Qed.

Lemma N_str_head n : exists c ds, N_str n = c :: ds /\ (c = 48 -> n = 0 /\ ds = []).
Proof. apply dec_digits_head, N_size_bound. Qed.

Lemma is_digit_ne c x : is_digit c = true -> is_digit x = false -> (c =? x) = false.
Proof. intros Hc Hx. apply N.eqb_neq. intros ->. congruence. Qed.

Lemma strip_char_ne c x s : (c =? x) = false -> strip_char x (c :: s) = None.
Proof. cbn. by intros ->. Qed.

(** The token of a natural number is an [int], with or without a minus sign. *)
Lemma parse_number_N_str (neg : bool) (n : N) :
  Z.leb (Z.of_nat (length (N_str n))) int_max_str_digits = true ->
  parse_number ((if neg then [45] else []) ++ N_str n) =
  Some (JInt (cond_Zopp neg (Z.of_N n))).
Proof.
  intros Hlen. pose proof (N_str_digit n) as Hd.
  destruct (N_str_head n) as (c & ds & E & Hc).
  assert (is_digit c = true) as Hcd by (rewrite E in Hd; by inversion Hd).
  assert (default ((if neg then [45] else []) ++ N_str n)
            (strip_char 45 ((if neg then [45] else []) ++ N_str n)) = N_str n) as E1.
  { destruct neg; cbn [app]; [done|]. rewrite E, strip_char_ne; [done|]. by apply is_digit_ne. }
  assert (is_some (strip_char 45 ((if neg then [45] else []) ++ N_str n)) = neg) as E2.
  { destruct neg; cbn [app]; [done|]. rewrite E, strip_char_ne; [done|]. by apply is_digit_ne. }
  unfold parse_number. rewrite E1, E2.
  pose proof (take_while_app is_digit (N_str n) [] Hd I) as T.
  pose proof (drop_while_app is_digit (N_str n) [] Hd I) as D.
  rewrite app_nil_r in T, D. rewrite T, D. cbn [strip_char is_some negb andb orb].
  rewrite digits_value_N_str.
  replace (match N_str n with [] => false | [_] => true | c :: _ :: _ => negb (c =? 48) end)
    with true.
  - cbn [andb negb orb].
    destruct (Z.ltb_spec int_max_str_digits (Z.of_nat (length (N_str n)))); [lia|done].
  - rewrite E. destruct ds as [|c' ds]; [done|]. symmetry. apply negb_true_iff, N.eqb_neq.
    intros ->. by destruct Hc as [_ ?].
Qed.

Lemma parse_number_Z_str z :
  json_ok (JInt z) = true -> parse_number (Z_str z) = Some (JInt z).
Proof.
  cbn [json_ok]. intros Hz. destruct z as [|p|p].
  - exact (parse_number_N_str false 0 Hz).
  - exact (parse_number_N_str false (Npos p) Hz).
  - exact (parse_number_N_str true (Npos p) Hz).
Qed.

(** ** String literals *)

Lemma mod16 n : n mod 16 < 16.
Proof. by apply N.mod_lt. Qed.

Lemma hex4_split c :
  c < 65536 ->
  4096 * (c / 4096 mod 16) + 256 * (c / 256 mod 16) + 16 * (c / 16 mod 16) + c mod 16 = c.
Proof.
  intros Hc.
  pose proof (N.div_mod c 16 ltac:(done)) as D1.
  pose proof (N.div_mod (c / 16) 16 ltac:(done)) as D2.
  pose proof (N.div_mod (c / 256) 16 ltac:(done)) as D3.
  assert (c / 16 / 16 = c / 256) as E2 by (by rewrite N.Div0.div_div).
  assert (c / 256 / 16 = c / 4096) as E3 by (by rewrite N.Div0.div_div).
  assert (c / 4096 < 16) as E4 by (by apply N.Div0.div_lt_upper_bound).
  rewrite E2 in D2. rewrite E3 in D3. rewrite (N.mod_small (c / 4096)) by done.
  revert D1 D2 D3. generalize (c / 16) (c / 256) (c / 4096) (c mod 16) (c / 16 mod 16) (c / 256 mod 16).
  intros. lia.
Qed.

Lemma hex4_value_hex4 c :
  c < 65536 ->
  hex4_value (hex_digit (c / 4096 mod 16)) (hex_digit (c / 256 mod 16))
    (hex_digit (c / 16 mod 16)) (hex_digit (c mod 16)) = Some c.
Proof.
  intros Hc. unfold hex4_value. rewrite !hex_value_digit by apply mod16. by rewrite hex4_split.
Qed.

Lemma scan_str_unicode_escape u r :
  u < 65536 -> is_high u = false -> scan_str ([92; 117] ++ hex4 u ++ r) = push u (scan_str r).
Proof.
  intros Hu Hh. unfold hex4. cbn [app scan_str N.eqb Pos.eqb].
  by rewrite hex4_value_hex4, Hh.
Qed.

Lemma scan_str_pair hi lo r :
  0xD800 <= hi -> hi <= 0xDBFF -> 0xDC00 <= lo -> lo <= 0xDFFF ->
  scan_str ([92; 117] ++ hex4 hi ++ [92; 117] ++ hex4 lo ++ r) =
  push (0x10000 + (hi - 0xD800) * 1024 + (lo - 0xDC00)) (scan_str r).
Proof.
  intros. unfold hex4. cbn [app scan_str N.eqb Pos.eqb andb].
  rewrite !hex4_value_hex4 by lia. unfold is_high, is_low.
  by rewrite !N_leb_true by done.
Qed.

Lemma scan_str_plain c r :
  32 <= c -> (c =? 34) = false -> (c =? 92) = false -> scan_str (c :: r) = push c (scan_str r).
Proof. intros Hc H1 H2. cbn [scan_str]. by rewrite H1, H2, N_ltb_false. Qed.

Lemma scalar_not_high c : is_scalar c = true -> is_high c = false.
Proof.
  unfold is_scalar, is_surrogate, is_high. intros [_ H]%andb_true_iff.
  apply negb_true_iff, andb_false_iff in H. apply andb_false_iff.
  destruct H as [H|H]; [by left|right]. apply N.leb_gt in H. apply N.leb_gt. lia.
Qed.

Lemma scan_str_esc a c r :
  is_scalar c = true -> scan_str (esc_char a c ++ r) = push c (scan_str r).
Proof.
  intros Hc. pose proof (scalar_not_high c Hc) as Hh.
  assert (c < 0x110000) as Hlt.
  { unfold is_scalar in Hc. apply andb_true_iff in Hc as [Hc _]. by apply N.ltb_lt. }
  unfold esc_char.
  destruct (N.eqb_spec c 34) as [->|H1]; [done|].
  destruct (N.eqb_spec c 92) as [->|H2]; [done|].
  destruct (N.eqb_spec c 10) as [->|]; [done|].
  destruct (N.eqb_spec c 13) as [->|]; [done|].
  destruct (N.eqb_spec c 9) as [->|]; [done|].
  destruct (N.eqb_spec c 8) as [->|]; [done|].
  destruct (N.eqb_spec c 12) as [->|]; [done|].
  destruct (N.ltb_spec c 32).
  { rewrite <- app_assoc. apply scan_str_unicode_escape; [lia|done]. }
  destruct (negb a || (c <? 127)).
  { apply scan_str_plain; [done|by apply N.eqb_neq..]. }
  destruct (N.ltb_spec c 0x10000).
  { rewrite <- app_assoc. by apply scan_str_unicode_escape. }
  rewrite <- !app_assoc.
  assert ((c - 65536) / 1024 < 1024) as Hq by (apply N.Div0.div_lt_upper_bound; lia).
  pose proof (N.mod_lt (c - 65536) 1024 ltac:(done)) as Hr.
  pose proof (N.div_mod (c - 65536) 1024 ltac:(done)) as D.
  revert Hq Hr D. generalize ((c - 65536) / 1024) ((c - 65536) mod 1024). intros q m Hq Hr D.
  rewrite scan_str_pair by lia. f_equal. lia.
Qed.

Lemma scan_str_quoted a s r :
  scalar_str s = true -> scan_str ((s ≫= esc_char a) ++ 34 :: r) = Some (s, r).
Proof.
  unfold scalar_str. induction s as [|c s IH]; cbn [forallb]; [done|].
  intros [Hc Hs]%andb_true_iff.
  rewrite bind_cons, <- app_assoc, scan_str_esc, IH by done. done.
Qed.

(** ** Values *)

(** What a printed value starts with: not a blank, not a closing bracket, not a byte-order
    mark. *)
Definition starts_value (t : pystr) : Prop :=
  match t with
  | [] => False
  | c :: _ => is_ws c = false /\ (c =? 93) = false /\ (c =? 125) = false /\ (c =? 65279) = false
  end.

Lemma starts_value_skip t r : starts_value t -> skip_ws (t ++ r) = t ++ r.
Proof. destruct t as [|c t]; [done|]. intros (H & _). unfold skip_ws. cbn. by rewrite H. Qed.

Lemma starts_value_strip x t r :
  starts_value t -> (x = 93 \/ x = 125 \/ x = 65279) -> strip_char x (t ++ r) = None.
Proof.
  destruct t as [|c t]; [done|]. intros (_ & H1 & H2 & H3) Hx. cbn.
  by destruct Hx as [->|[->| ->]]; rewrite ?H1, ?H2, ?H3.
Qed.

(** What a digit or a minus sign is not. *)
Lemma number_start c :
  is_digit c = true \/ c = 45 ->
  is_ws c = false /\ (c =? 93) = false /\ (c =? 125) = false /\ (c =? 65279) = false /\
  (c =? 34) = false /\ (c =? 123) = false /\ (c =? 91) = false /\
  (c =? 110) = false /\ (c =? 116) = false /\ (c =? 102) = false.
Proof.
  intros [H| ->]; [|done]. unfold is_digit in H. apply andb_true_iff in H as [H1 H2].
  apply N.leb_le in H1, H2. unfold is_ws. rewrite !orb_false_iff, !N.eqb_neq. lia.
Qed.

(** The first character of a token that is a number. *)
Lemma parse_number_start tok v :
  parse_number tok = Some v -> exists c t, tok = c :: t /\ (is_digit c = true \/ c = 45).
Proof.
  destruct tok as [|c t]; [done|]. intros H. exists c, t. split; [done|].
  destruct (N.eqb_spec c 45) as [->|Hne]; [by right|]. left.
  destruct (is_digit c) eqn:Hd; [done|].
  unfold parse_number in H. rewrite strip_char_ne in H by (by apply N.eqb_neq).
  cbn in H. by rewrite Hd in H.
Qed.

Lemma scan_literal_number tok r v :
  Forall (fun c => num_char c = true) tok -> stops num_char r ->
  parse_number tok = Some v -> scan_literal (tok ++ r) = Some (v, r).
Proof.
  intros Ht Hr Hp. destruct (parse_number_start _ _ Hp) as (c & t & -> & Hc).
  destruct (number_start c Hc) as (_&_&_&_&_&_&_&H1&H2&H3).
  unfold scan_literal. cbn [app].
  change (str "null") with [110; 117; 108; 108]. change (str "true") with [116; 114; 117; 101].
  change (str "false") with [102; 97; 108; 115; 101]. cbn [strip_prefix].
  rewrite (N.eqb_sym 110), (N.eqb_sym 116), (N.eqb_sym 102), H1, H2, H3.
  unfold scan_number. rewrite app_comm_cons, take_while_app, drop_while_app, Hp by done. done.
Qed.

Lemma scan_value_number f tok r v :
  Forall (fun c => num_char c = true) tok -> stops num_char r ->
  parse_number tok = Some v -> scan_value (S f) (tok ++ r) = Some (v, r).
Proof.
  intros Ht Hr Hp. destruct (parse_number_start _ _ Hp) as (c & t & -> & Hc).
  destruct (number_start c Hc) as (_&_&_&_&H1&H2&H3&_).
  cbn [app scan_value]. rewrite H1, H2, H3. by apply (scan_literal_number (c :: t)).
Qed.

(** [t] is read as [v] wherever it is followed by something that ends a number. *)
Definition reads (t : pystr) (v : json) : Prop :=
  starts_value t /\
  forall fuel r, (length t <= fuel)%nat -> stops num_char r -> scan_value fuel (t ++ r) = Some (v, r).

Lemma reads_number tok v :
  Forall (fun c => num_char c = true) tok -> parse_number tok = Some v -> reads tok v.
Proof.
  intros Ht Hp. destruct (parse_number_start _ _ Hp) as (c & t & -> & Hc). split.
  - destruct (number_start c Hc) as (?&?&?&?&_). cbn. done.
  - intros [|f] r Hf Hr; [cbn in Hf; lia|]. by apply scan_value_number.
Qed.

Lemma digit_num_char c : is_digit c = true -> num_char c = true.
Proof. intros H. unfold num_char. by rewrite H. Qed.

Lemma Z_str_num_char z : Forall (fun c => num_char c = true) (Z_str z).
Proof.
  assert (forall n, Forall (fun c => num_char c = true) (N_str n)) as H.
  { intros n. eapply Forall_impl; [apply N_str_digit|]. apply digit_num_char. }
  destruct z; cbn [Z_str]; [apply H..|]. constructor; [done|apply H].
Qed.

Lemma int_repr_ok z : json_ok (JInt z) = true -> int_repr z = Ok (Z_str z).
Proof.
  cbn [json_ok]. unfold int_repr. intros H%Z.leb_le.
  destruct (Z.ltb_spec int_max_str_digits (Z.of_nat (length (N_str (Z.abs_N z))))); [lia|done].
Qed.

Lemma strip_char_eq x s : strip_char x (x :: s) = Some s.
Proof. cbn. by rewrite N.eqb_refl. Qed.

(** Blanks between the tokens of a document are skipped. *)
Abbreviation blank w := (Forall (fun c => is_ws c = true) w).

Lemma skip_blank w r : blank w -> skip_ws (w ++ r) = skip_ws r.
Proof. induction 1 as [|c w Hc Hw IH]; [done|]. unfold skip_ws in *. cbn. by rewrite Hc. Qed.

Lemma skip_blank_char w c r : blank w -> is_ws c = false -> skip_ws (w ++ c :: r) = c :: r.
Proof. intros Hw Hc. rewrite skip_blank by done. unfold skip_ws. cbn. by rewrite Hc. Qed.

Lemma ws_not_num c : is_ws c = true -> num_char c = false.
Proof.
  unfold is_ws, num_char, is_digit. rewrite !orb_true_iff, !N.eqb_eq. intros [[[->| ->]| ->]| ->]; done.
Qed.

Lemma blank_stops w c r : blank w -> num_char c = false -> stops num_char (w ++ c :: r).
Proof. destruct 1 as [|x w Hx Hw]; [done|]. intros _. cbn. by apply ws_not_num. Qed.

(** The elements of a list: a comma and blanks [w] between them, blanks [e] before the bracket. *)
Lemma scan_elems_join w e ts vs fuel r :
  blank w -> blank e ->
  ts <> [] -> Forall2 reads ts vs -> (length (join (str "," ++ w) ts) < fuel)%nat ->
  scan_elems fuel (join (str "," ++ w) ts ++ e ++ 93 :: r) = Some (vs, r).
Proof.
  intros Hw He Hne Hts. revert fuel Hne.
  induction Hts as [|t v ts vs [Hs Ht] Hts IH]; intros [|f] Hne Hf; [done|done|lia|].
  destruct Hts as [|t' v' ts vs Ht' Hts].
  - cbn [join] in *. cbn [scan_elems]. rewrite Ht by (lia || by apply blank_stops).
    by rewrite skip_blank_char, strip_char_eq.
  - set (ts' := t' :: ts) in *. set (vs' := v' :: vs) in *.
    change (join (str "," ++ w) (t :: ts')) with (t ++ (str "," ++ w) ++ join (str "," ++ w) ts') in *.
    rewrite !length_app in Hf. change (length (str ",")) with 1%nat in Hf.
    rewrite <- !app_assoc. cbn [scan_elems]. rewrite Ht by (done || lia).
    change (str "," ++ w ++ ?x) with (44 :: w ++ x). change (skip_ws (44 :: ?x)) with (44 :: x).
    rewrite strip_char_ne, strip_char_eq, skip_blank by done. rewrite (starts_value_skip (join _ _)).
    + rewrite IH; [done|discriminate|]. lia.
    + destruct Ht' as [Hs' _]. unfold ts'. destruct t' as [|c t']; [done|]. by destruct ts.
Qed.

(** An object member as [dumps] prints it, with blanks [k] after the colon. *)
Definition member_with (w : pystr) (a : bool) (kt : pystr * pystr) : pystr := quote a kt.1 ++ str ":" ++ w ++ kt.2.
Definition member (a : bool) (kt : pystr * pystr) : pystr := quote a kt.1 ++ str ":" ++ kt.2.

Definition reads_member (kt : pystr * pystr) (kv : pystr * json) : Prop :=
  kt.1 = kv.1 /\ scalar_str kt.1 = true /\ reads kt.2 kv.2.

Lemma member_strip ws a k t rest :
  strip_char 34 (member_with ws a (k, t) ++ rest) = Some ((k ≫= esc_char a) ++ 34 :: 58 :: ws ++ t ++ rest).
Proof.
  unfold member_with, quote. cbn [fst snd]. rewrite <- !app_assoc. cbn [app]. rewrite strip_char_eq.
  by rewrite <- !app_assoc.
Qed.

Lemma member_length ws a k t :
  length (member_with ws a (k, t)) = (length (k ≫= esc_char a) + 3 + length ws + length t)%nat.
Proof.
  unfold member_with, quote. cbn [fst snd]. rewrite !length_app. cbn [length]. rewrite length_app. cbn. lia.
Qed.

Lemma scan_members_join ws w e a items d fuel r acc :
  blank ws -> blank w -> blank e ->
  items <> [] -> Forall2 reads_member items d ->
  (length (join (str "," ++ w) (member_with ws a <$> items)) < fuel)%nat ->
  scan_members fuel (join (str "," ++ w) (member_with ws a <$> items) ++ e ++ 125 :: r) acc =
  Some (foldl (fun acc kv => dict_set kv.1 kv.2 acc) acc d, r).
Proof.
  intros Hws Hw He Hne Hts. revert fuel acc Hne.
  induction Hts as [|[k t] [k' v] items d (Hk & Hsc & Hs & Ht) Hts IH];
    intros [|f] acc Hne Hf; [done|done|lia|].
  cbn [fst snd] in *. subst k'. pose proof (member_length ws a k t) as Hl.
  destruct Hts as [|i2 v2 items d H2 Hts].
  - cbn [fmap list_fmap join] in *. cbn [scan_members]. rewrite member_strip, scan_str_quoted by done.
    change (skip_ws (58 :: ?x)) with (58 :: x).
    rewrite strip_char_eq, skip_blank, starts_value_skip, Ht by (done || lia || by apply blank_stops).
    by rewrite skip_blank_char, strip_char_eq.
  - set (items' := i2 :: items) in *. set (d' := v2 :: d) in *.
    change (join (str "," ++ w) (member_with ws a <$> (k, t) :: items'))
      with (member_with ws a (k, t) ++ (str "," ++ w) ++ join (str "," ++ w) (member_with ws a <$> items')) in *.
    rewrite !length_app in Hf. change (length (str ",")) with 1%nat in Hf.
    rewrite <- !app_assoc. cbn [scan_members]. rewrite member_strip, scan_str_quoted by done.
    change (skip_ws (58 :: ?x)) with (58 :: x).
    rewrite strip_char_eq, skip_blank, starts_value_skip, Ht by (done || lia).
    change (str "," ++ w ++ ?x) with (44 :: w ++ x). change (skip_ws (44 :: ?x)) with (44 :: x).
    rewrite strip_char_ne, strip_char_eq, skip_blank by done.
    replace (skip_ws (join (str "," ++ w) (member_with ws a <$> items') ++ e ++ 125 :: r))
      with (join (str "," ++ w) (member_with ws a <$> items') ++ e ++ 125 :: r) by (by destruct items).
    rewrite IH; [done|discriminate|]. lia.
Qed.

Lemma foldl_dict_set_NoDup {V} (d acc : list (pystr * V)) :
  NoDup (acc ++ d).*1 -> foldl (fun acc kv => dict_set kv.1 kv.2 acc) acc d = acc ++ d.
Proof.
  revert acc. induction d as [|[k v] d IH]; intros acc Hd; cbn [foldl fst snd].
  { by rewrite app_nil_r. }
  rewrite dict_set_keys_new.
  - rewrite IH; rewrite <- app_assoc; done.
  - apply dict_mem_false, dict_get_None. rewrite fmap_app in Hd.
    apply NoDup_app in Hd as (_ & Hd & _). intros Hin. apply (Hd k Hin). cbn. by left.
Qed.

(** Sorting by key commutes with a relation that keeps the keys. *)
Lemma insert_by_Forall2 {A B} (R : A -> B -> Prop) leA leB x y l l' :
  (forall a b a' b', R a b -> R a' b' -> leA a a' = leB b b') ->
  R x y -> Forall2 R l l' -> Forall2 R (insert_by leA x l) (insert_by leB y l').
Proof.
  intros Hle Hxy Hl. induction Hl as [|a b l l' Hab Hl IH]; cbn; [by repeat constructor|].
  rewrite (Hle _ _ _ _ Hxy Hab). destruct (leB y b); by repeat constructor.
Qed.

Lemma sort_by_Forall2 {A B} (R : A -> B -> Prop) leA leB l l' :
  (forall a b a' b', R a b -> R a' b' -> leA a a' = leB b b') ->
  Forall2 R l l' -> Forall2 R (sort_by leA l) (sort_by leB l').
Proof.
  intros Hle Hl. induction Hl; cbn; [constructor|]. by apply insert_by_Forall2.
Qed.

Lemma sort_items_reads items d :
  Forall2 reads_member items d -> Forall2 reads_member (sort_items items) (sort_items d).
Proof.
  apply sort_by_Forall2. intros [] [] [] [] (-> & _) (-> & _). done.
Qed.

Lemma sort_items_NoDup {V} (d : list (pystr * V)) : NoDup d.*1 -> NoDup (sort_items d).*1.
Proof. unfold sort_items. by rewrite sort_by_perm. Qed.

Lemma join_starts sep ts : ts <> [] -> Forall starts_value ts -> starts_value (join sep ts).
Proof.
  intros Hne Hts. destruct Hts as [|t ts Ht Hts]; [done|].
  destruct t as [|c t]; [done|]. by destruct ts.
Qed.

Lemma reads_arr w e ts vs :
  blank w -> blank e ->
  Forall2 reads ts vs -> reads (str "[" ++ w ++ join (str "," ++ w) ts ++ e ++ str "]") (JArr vs).
Proof.
  intros Hw He Hts. split; [done|]. intros [|f] r Hf Hr; [cbn in Hf; lia|].
  rewrite !length_app in Hf. change (length (str _)) with 1%nat in Hf.
  rewrite <- !app_assoc. change (str "[") with [91]. change (str "]") with [93].
  cbn [app scan_value N.eqb Pos.eqb]. rewrite skip_blank by done.
  destruct Hts as [|t v ts vs Ht Hts]; [cbn [join app]; by rewrite skip_blank_char, strip_char_eq|].
  assert (starts_value (join (str "," ++ w) (t :: ts))) as Hst.
  { apply join_starts; [done|]. constructor; [apply Ht|].
    clear Hf Ht. induction Hts as [|? ? ? ? [] ]; by constructor. }
  rewrite starts_value_skip, starts_value_strip by (done || by left).
  rewrite (scan_elems_join _ _ _ (v :: vs)); [done|done|done|done|by constructor|lia].
Qed.

Lemma reads_obj ws w e a items d :
  blank ws -> blank w -> blank e ->
  NoDup d.*1 -> Forall2 reads_member items d ->
  reads (str "{" ++ w ++ join (str "," ++ w) (member_with ws a <$> items) ++ e ++ str "}") (JObj d).
Proof.
  intros Hws Hw He Hd Hts. split; [done|]. intros [|f] r Hf Hr; [cbn in Hf; lia|].
  rewrite !length_app in Hf. change (length (str _)) with 1%nat in Hf.
  rewrite <- !app_assoc. change (str "{") with [123]. change (str "}") with [125].
  cbn [app scan_value N.eqb Pos.eqb]. rewrite skip_blank by done.
  assert (items = [] \/ items <> []) as [->|Hne] by (destruct items; auto).
  { inversion Hts; subst. cbn [fmap list_fmap join app]. by rewrite skip_blank_char, strip_char_eq. }
  assert (starts_value (join (str "," ++ w) (member_with ws a <$> items))) as Hst.
  { apply join_starts; [by destruct items|]. apply Forall_fmap, Forall_true. done. }
  rewrite starts_value_skip, starts_value_strip by (done || (right; by left)).
  rewrite (scan_members_join ws w e a items d); [|done..|lia].
  by rewrite foldl_dict_set_NoDup.
Qed.

Lemma dumps_reads a v : json_ok v = true -> exists t, dumps a v = Ok t /\ reads t (sort_keys v).
Proof.
  induction v as [|b|z|f|s|l IH|d IH] using json_ind; intros Hok.
  - exists (str "null"). split; [done|]. split; [done|]. intros [|f] r Hf Hr; [cbn in Hf; lia|].
    done.
  - exists (if b then str "true" else str "false"). split; [done|].
    split; [by destruct b|]. intros [|f] r Hf Hr; [destruct b; cbn in Hf; lia|]. by destruct b.
  - exists (Z_str z). split; [by apply int_repr_ok|].
    apply reads_number; [apply Z_str_num_char|by apply parse_number_Z_str].
  - cbn [json_ok] in Hok. unfold float_ok in Hok.
    apply andb_true_iff in Hok as [[Hfin Hnum]%andb_true_iff Hp].
    exists (float_repr f). cbn [dumps]. rewrite Hfin. split; [done|].
    apply reads_number; [by apply forallb_Forall|].
    destruct (parse_number (float_repr f)) as [[]|]; try done.
    apply bool_decide_eq_true in Hp. by subst.
  - exists (quote a s). split; [done|]. split; [done|].
    intros [|f] r Hf Hr; [cbn in Hf; lia|]. unfold quote. cbn [app scan_value].
    rewrite <- app_assoc. cbn [app]. by rewrite scan_str_quoted.
  - cbn [json_ok] in Hok. cbn [dumps sort_keys].
    match goal with |- context [rbind (?F l) _] =>
      assert (exists ts, F l = Ok ts /\ Forall2 reads ts (map sort_keys l)) as (ts & -> & Hts) end.
    { induction IH as [|x l Hx Hl IHl]; [by exists []|].
      cbn [forallb] in Hok. apply andb_true_iff in Hok as [Hox Hol].
      destruct (Hx Hox) as (t & -> & Ht). destruct (IHl Hol) as (ts & E & Hts).
      exists (t :: ts). cbn [rbind]. rewrite E. split; [done|]. by constructor. }
    cbn [rbind]. eexists. split; [done|]. by apply (reads_arr [] []).
  - cbn [json_ok] in Hok. apply andb_true_iff in Hok as [Hnd Hok].
    apply bool_decide_eq_true in Hnd. cbn [dumps sort_keys].
    match goal with |- context [rbind (?F d) _] =>
      assert (exists items, F d = Ok items /\
        Forall2 reads_member items (map (fun kv => (kv.1, sort_keys kv.2)) d)) as (items & -> & Hi) end.
    { clear Hnd. induction IH as [|[k x] d Hx Hl IHl]; [by exists []|].
      cbn [forallb fst snd] in *. apply andb_true_iff in Hok as [[Hk Hox]%andb_true_iff Hol].
      destruct (Hx Hox) as (t & -> & Ht). destruct (IHl Hol) as (ts & E & Hts).
      exists ((k, t) :: ts). cbn [rbind]. rewrite E. split; [done|]. by constructor. }
    cbn [rbind]. eexists. split; [done|].
    apply (reads_obj [] [] [] a); [done..| |by apply sort_items_reads].
    apply sort_items_NoDup. by rewrite map_snd_keys.
Qed.

(** Reading back a printed value gives the value with its keys sorted. *)
Lemma loads_dumps_sorted a v :
  json_ok v = true -> exists t, dumps a v = Ok t /\ loads t = Some (sort_keys v).
Proof.
  intros Hok. destruct (dumps_reads a v Hok) as (t & Hd & Hs & Ht). exists t. split; [done|].
  pose proof (starts_value_skip t [] Hs) as E1. pose proof (starts_value_strip 65279 t [] Hs) as E2.
  pose proof (Ht (S (length t)) [] ltac:(lia) I) as E3.
  rewrite app_nil_r in E1, E2, E3. unfold loads, loads_text. rewrite E2, E1, E3 by auto. done.
Qed.

(** ** Bytes *)

(** [json.dumps(v, ...).encode("utf-8")] *)
Definition dumps_bytes (a : bool) (v : json) : result (list byte) :=
  let! t := dumps a v in
  match utf8_encode t with
  | Some b => Ok b
  | None => Raise ValueError
  end.

(** [json.loads(b.decode("utf-8"), parse_constant=reject_json_constants)] *)
Definition loads_bytes (b : list byte) : option json :=
  match utf8_decode b with
  | Some t => loads t
  | None => None
  end.

Abbreviation scalars t := (Forall (fun c => is_scalar c = true) t).

Lemma small_scalar c : c < 128 -> is_scalar c = true.
Proof.
  intros Hc. unfold is_scalar, is_surrogate. rewrite N_ltb_true by lia.
  destruct (N.leb_spec 0xD800 c); [lia|done].
Qed.

Lemma num_char_scalar c : num_char c = true -> is_scalar c = true.
Proof.
  unfold num_char, is_digit. rewrite !orb_true_iff, andb_true_iff, !N.eqb_eq, !N.leb_le.
  intros H. apply small_scalar. lia.
Qed.

Lemma hex_digit_small n : n < 16 -> hex_digit n < 128.
Proof. intros. unfold hex_digit. destruct (N.ltb_spec n 10); lia. Qed.

Lemma hex4_scalar c : scalars (hex4 c).
Proof.
  unfold hex4. repeat constructor; apply small_scalar, hex_digit_small, mod16.
Qed.

Lemma esc_char_scalar a c : is_scalar c = true -> scalars (esc_char a c).
Proof.
  intros Hc. unfold esc_char. repeat case_match; repeat apply Forall_app_2;
    try apply hex4_scalar; repeat constructor; done.
Qed.

Lemma quote_scalar a s : scalar_str s = true -> scalars (quote a s).
Proof.
  intros Hs%forallb_Forall. unfold quote. constructor; [done|]. apply Forall_app_2; [|by repeat constructor].
  induction Hs; [constructor|]. rewrite bind_cons. apply Forall_app_2; [by apply esc_char_scalar|done].
Qed.

Lemma join_scalar sep ts : scalars sep -> Forall (fun t => scalars t) ts -> scalars (join sep ts).
Proof.
  intros Hsep. induction 1 as [|t ts Ht Hts IH]; [constructor|]. destruct ts; [done|].
  cbn [join]. by repeat apply Forall_app_2.
Qed.

Lemma dumps_scalar a v t : json_ok v = true -> dumps a v = Ok t -> scalars t.
Proof.
  revert t. induction v as [|b|z|f|s|l IH|d IH] using json_ind; intros t Hok Hd.
  - cbn in Hd. injection Hd as <-. by repeat constructor.
  - cbn in Hd. injection Hd as <-. destruct b; by repeat constructor.
  - cbn [dumps] in Hd. rewrite int_repr_ok in Hd by done. injection Hd as <-.
    eapply Forall_impl; [apply Z_str_num_char|]. apply num_char_scalar.
  - cbn [json_ok dumps] in *. unfold float_ok in Hok.
    apply andb_true_iff in Hok as [[Hfin Hnum%forallb_Forall]%andb_true_iff _].
    rewrite Hfin in Hd. injection Hd as <-.
    eapply Forall_impl; [exact Hnum|]. apply num_char_scalar.
  - cbn in Hd. injection Hd as <-. by apply quote_scalar.
  - cbn [json_ok dumps] in *.
    match type of Hd with rbind (?F l) _ = _ =>
      assert (forall ts, F l = Ok ts -> Forall (fun t => scalars t) ts) as Hts end.
    { clear Hd. induction IH as [|x l Hx Hl IHl]; intros ts Hts; [injection Hts as <-; constructor|].
      cbn [forallb] in Hok. apply andb_true_iff in Hok as [Hox Hol]. inv_result.
      constructor; eauto. }
    inv_result. apply Forall_app_2; [by repeat constructor|].
    apply Forall_app_2; [|by repeat constructor]. apply join_scalar; [by repeat constructor|eauto].
  - cbn [json_ok dumps] in *. apply andb_true_iff in Hok as [_ Hok].
    match type of Hd with rbind (?F d) _ = _ =>
      assert (forall ts, F d = Ok ts -> Forall (fun kt => scalar_str kt.1 = true /\ scalars kt.2) ts)
        as Hts end.
    { clear Hd. induction IH as [|[k x] d Hx Hl IHl]; intros ts Hts;
        [injection Hts as <-; constructor|].
      cbn [forallb fst snd] in *. apply andb_true_iff in Hok as [[Hk Hox]%andb_true_iff Hol].
      inv_result. constructor; eauto. }
    inv_result. apply Forall_app_2; [by repeat constructor|].
    apply Forall_app_2; [|by repeat constructor]. apply join_scalar; [by repeat constructor|]. apply Forall_fmap.
    unfold sort_items. rewrite sort_by_perm. eapply Forall_impl; [by eauto|].
    intros [k x] [Hk Hx]. apply Forall_app_2; [by apply quote_scalar|]. by constructor.
Qed.

(** The codec on bytes: printing succeeds and reading gives the value back, keys sorted. *)
Lemma loads_dumps_bytes a v :
  json_ok v = true ->
  exists b, dumps_bytes a v = Ok b /\ loads_bytes b = Some (sort_keys v).
Proof.
  intros Hok. destruct (loads_dumps_sorted a v Hok) as (t & Hd & Hl).
  destruct (utf8_encode_scalar t) as [b Hb]; [by eapply dumps_scalar|].
  exists b. unfold dumps_bytes, loads_bytes. rewrite Hd. cbn [rbind]. rewrite Hb.
  split; [done|]. by rewrite (utf8_decode_encode t b).
Qed.

(** ** Printing does not depend on the order of keys *)

Section dump.
Context (f : json -> result pystr).

Fixpoint dump_list (l : list json) : result (list pystr) :=
  match l with
  | [] => Ok []
  | x :: l' => let! t := f x in let! ts := dump_list l' in Ok (t :: ts)
  end.

Fixpoint dump_members (d : list (pystr * json)) : result (list (pystr * pystr)) :=
  match d with
  | [] => Ok []
  | (k, x) :: d' => let! t := f x in let! ts := dump_members d' in Ok ((k, t) :: ts)
  end.
End dump.

Lemma dumps_arr a l :
  dumps a (JArr l) = let! ts := dump_list (dumps a) l in Ok (str "[" ++ join (str ",") ts ++ str "]").
Proof. reflexivity. Qed.

Lemma dumps_obj a d :
  dumps a (JObj d) =
  let! items := dump_members (dumps a) d in
  Ok (str "{" ++ join (str ",") ((fun kt => quote a kt.1 ++ str ":" ++ kt.2) <$> sort_items items)
      ++ str "}").
Proof. reflexivity. Qed.

Lemma dump_members_Forall2 f d items :
  dump_members f d = Ok items <->
  Forall2 (fun kv kt => kv.1 = kt.1 /\ f kv.2 = Ok kt.2) d items.
Proof.
  split.
  - revert items. induction d as [|[k x] d IH]; intros items; cbn [dump_members]; intros H.
    + inv_result. constructor.
    + inv_result. constructor; [done|]. by apply IH.
  - induction 1 as [|[k x] [k' t] d items [Hk Hf] H IH]; cbn [dump_members fst snd] in *; [done|].
    subst. by rewrite Hf, IH.
Qed.

Lemma dump_members_keys f d items : dump_members f d = Ok items -> items.*1 = d.*1.
Proof.
  rewrite dump_members_Forall2. induction 1 as [|kv kt d items [Hk _] H IH]; [done|].
  rewrite !fmap_cons. by rewrite Hk, IH.
Qed.

Lemma dump_members_perm f d d' items items' :
  d ≡ₚ d' -> dump_members f d = Ok items -> dump_members f d' = Ok items' -> items ≡ₚ items'.
Proof.
  rewrite !dump_members_Forall2. intros Hp H1 H2.
  destruct (Permutation_Forall2 Hp H1) as (it & Hp' & H3).
  assert (it = items') as ->; [|done].
  clear -H2 H3. revert items' H2. induction H3 as [|kv kt d' it [Hk Hf] H IH]; intros items' H2.
  - by inversion H2.
  - inversion H2 as [|? [k2 t2] ? it2 [Hk2 Hf2] H2']; subst. f_equal; [|by apply IH].
    destruct kt. cbn in *. congruence.
Qed.

Lemma dump_members_map f g d :
  Forall (fun kv => f (g kv.2) = f kv.2) d ->
  dump_members f (map (fun kv => (kv.1, g kv.2)) d) = dump_members f d.
Proof.
  induction 1 as [|[k x] d Hx Hd IH]; cbn [map dump_members fst snd] in *; [done|]. by rewrite Hx, IH.
Qed.

Lemma dump_members_ok a d :
  forallb (fun kv => scalar_str kv.1 && json_ok kv.2) d = true ->
  exists items, dump_members (dumps a) d = Ok items.
Proof.
  induction d as [|[k x] d IH]; cbn [forallb dump_members fst snd]; [by eauto|].
  intros [[_ Hx]%andb_true_iff Hd]%andb_true_iff. destruct (dumps_reads a x Hx) as (t & -> & _).
  destruct (IH Hd) as (items & ->). by eexists.
Qed.

Lemma forallb_perm_eq {A} (p : A -> bool) l l' : l ≡ₚ l' -> forallb p l = forallb p l'.
Proof.
  induction 1 as [|x l l' _ IH|x y l|l l' l'' _ IH1 _ IH2]; cbn; [done|by rewrite IH| |congruence].
  by rewrite !andb_assoc, (andb_comm (p y)).
Qed.

Lemma json_ok_sort_keys v : json_ok v = true -> json_ok (sort_keys v) = true.
Proof.
  induction v as [|b|z|f|s|l IH|d IH] using json_ind; cbn [sort_keys json_ok]; try done.
  - rewrite !forallb_Forall, Forall_map. intros H. rewrite Forall_forall in *. auto.
  - intros [Hnd Hok]%andb_true_iff. apply andb_true_iff. apply bool_decide_eq_true in Hnd. split.
    + apply bool_decide_eq_true, sort_items_NoDup. by rewrite map_snd_keys.
    + unfold sort_items. rewrite (forallb_perm_eq _ _ _ (sort_by_perm _ _)).
      rewrite !forallb_Forall, Forall_map in *. rewrite Forall_forall in *.
      intros kv Hin. specialize (Hok kv Hin). cbn [fst snd]. apply andb_true_iff in Hok as [-> Hkv].
      by apply IH.
Qed.

(** Sorting keys before printing changes nothing. *)
Lemma dumps_sort_keys a v : json_ok v = true -> dumps a (sort_keys v) = dumps a v.
Proof.
  induction v as [|b|z|f|s|l IH|d IH] using json_ind; intros Hok; try done.
  - cbn [sort_keys]. rewrite !dumps_arr. f_equal. cbn [json_ok] in Hok.
    induction IH as [|x l Hx Hl IHl]; [done|]. cbn [forallb map dump_list] in *.
    apply andb_true_iff in Hok as [Hox Hol]. by rewrite Hx, IHl.
  - cbn [sort_keys]. rewrite !dumps_obj. cbn [json_ok] in Hok.
    apply andb_true_iff in Hok as [Hnd Hok]. apply bool_decide_eq_true in Hnd.
    destruct (dump_members_ok a d Hok) as (items & E).
    set (d1 := map (fun kv => (kv.1, sort_keys kv.2)) d).
    assert (dump_members (dumps a) d1 = Ok items) as E1.
    { unfold d1. rewrite dump_members_map; [done|]. rewrite forallb_Forall in Hok.
      rewrite Forall_forall in *. intros kv Hin. apply IH; [done|].
      specialize (Hok kv Hin). by apply andb_true_iff in Hok as [_ ?]. }
    assert (forallb (fun kv => scalar_str kv.1 && json_ok kv.2) (sort_items d1) = true) as Hok1.
    { pose proof (json_ok_sort_keys (JObj d)) as Hs. cbn [json_ok sort_keys] in Hs.
      rewrite Hok, (bool_decide_eq_true_2 _ Hnd) in Hs. specialize (Hs eq_refl).
      by apply andb_true_iff in Hs as [_ ?]. }
    destruct (dump_members_ok a _ Hok1) as (items' & E'). rewrite E, E'. cbn [rbind].
    rewrite (sort_items_perm_eq items items'); [done| |].
    + rewrite (dump_members_keys _ _ _ E). done.
    + eapply dump_members_perm; [|exact E1|exact E']. symmetry. apply sort_by_perm.
Qed.

Lemma dumps_bytes_sort_keys a v : json_ok v = true -> dumps_bytes a (sort_keys v) = dumps_bytes a v.
Proof. intros H. unfold dumps_bytes. by rewrite dumps_sort_keys. Qed.
