(* ===== verification/JsonIndent.v ===== *)
(** * Indented JSON

    [json.dumps(data, indent=2)] with and without [sort_keys], as the status page and the command line
    print documents, and the proof that [json.loads] reads such a document back; a decoder that accepts
    the non-finite constants reads whatever the strict one reads. *)

From Stdlib Require Import ZArith NArith Lia.
From S2P Require Import Prelude PyFloat Text Json JsonFacts.
Open Scope N_scope.

Definition newline_indent (level : nat) : pystr := 10 :: replicate (2 * level) 32.

(** The items of a container, one per line. *)
Definition dump_block (level : nat) (op cl : string) (items : list pystr) : pystr :=
  match items with
  | [] => str op ++ str cl
  | _ => str op ++ newline_indent (S level) ++ join (str "," ++ newline_indent (S level)) items
           ++ newline_indent level ++ str cl
  end.

(** [json.dumps(v, indent=2, sort_keys=sorted)] *)
Fixpoint dumps_pretty (sorted : bool) (level : nat) (v : json) : result pystr :=
  match v with
  | JNull => Ok (str "null")
  | JBool b => Ok (if b then str "true" else str "false")
  | JInt z => int_repr z
  | JFloat S754_nan => Ok (str "NaN")
  | JFloat (S754_infinity s) => Ok (if s then str "-Infinity" else str "Infinity")
  | JFloat f => Ok (float_repr f)
  | JStr s => Ok (quote true s)
  | JArr l =>
      let! ts :=
        (fix go (l : list json) : result (list pystr) :=
           match l with
           | [] => Ok []
           | x :: l' => let! t := dumps_pretty sorted (S level) x in let! ts := go l' in Ok (t :: ts)
           end) l in
      Ok (dump_block level "[" "]" ts)
  | JObj d =>
      let! items :=
        (fix go (d : list (pystr * json)) : result (list (pystr * pystr)) :=
           match d with
           | [] => Ok []
           | (k, x) :: d' => let! t := dumps_pretty sorted (S level) x in let! ts := go d' in Ok ((k, t) :: ts)
           end) d in
      Ok (dump_block level "{" "}"
            ((fun kt => quote true kt.1 ++ str ": " ++ kt.2) <$> (if sorted then sort_items items else items)))
  end.

(** [json.dumps(v, indent=2, sort_keys=True)] *)
Definition dumps_indent (level : nat) (v : json) : result pystr := dumps_pretty true level v.

(** The document as its text shows it: with the keys in order when they are sorted. *)
Definition shown (sorted : bool) (v : json) : json := if sorted then sort_keys v else v.

(** ** Reading an indented document *)

Lemma newline_blank level : blank (newline_indent level).
Proof. constructor; [done|]. apply Forall_replicate. done. Qed.

Lemma newline_scalar level : scalars (newline_indent level).
Proof. constructor; [done|]. apply Forall_replicate. done. Qed.

(** [t] is text that can be encoded and is read as [v]. *)
Definition readable (t : pystr) (v : json) : Prop := reads t v /\ scalars t.

Lemma block_scalar level op cl ts :
  scalars (str op) -> scalars (str cl) -> Forall (fun t => scalars t) ts -> scalars (dump_block level op cl ts).
Proof.
  intros Hop Hcl Hts. destruct ts as [|t ts]; cbn [dump_block]; [by apply Forall_app_2|].
  repeat apply Forall_app_2; try done; try apply newline_scalar.
  apply join_scalar; [|done]. apply Forall_app_2; [by repeat constructor|apply newline_scalar].
Qed.

Lemma readable_block_arr level ts vs :
  Forall2 readable ts vs -> readable (dump_block level "[" "]" ts) (JArr vs).
Proof.
  intros Hts. split.
  - assert (Forall2 reads ts vs) as Hr by (eapply Forall2_impl; [exact Hts|by intros ? ? []]).
    destruct ts as [|t ts]; [inversion Hr; apply (reads_arr [] [] [] []); constructor|].
    cbn [dump_block]. apply (reads_arr (newline_indent (S level)) (newline_indent level)); [apply newline_blank..|done].
  - apply block_scalar; [by repeat constructor..|]. eapply Forall2_Forall_l; [exact Hts|].
    apply Forall_true. by intros ? ? [].
Qed.

Lemma readable_block_obj level items d :
  NoDup d.*1 -> Forall2 (fun kt kv => kt.1 = kv.1 /\ scalar_str kt.1 = true /\ readable kt.2 kv.2) items d ->
  readable (dump_block level "{" "}" ((fun kt => quote true kt.1 ++ str ": " ++ kt.2) <$> items)) (JObj d).
Proof.
  intros Hnd Hi. split.
  - assert (Forall2 reads_member items d) as Hr
      by (eapply Forall2_impl; [exact Hi|]; by intros [] [] (? & ? & [? _])).
    destruct items as [|kt items]; [inversion Hr; apply (reads_obj [] [] [] true [] []); constructor|].
    apply (reads_obj [32] (newline_indent (S level)) (newline_indent level) true (kt :: items) d);
      [by repeat constructor|apply newline_blank..|done|done].
  - apply block_scalar; [by repeat constructor..|]. apply Forall_fmap. eapply Forall2_Forall_l; [exact Hi|].
    apply Forall_true. intros [k t] [k' v] (Hk & Hs & [_ Ht]). cbn [fst snd] in *.
    apply Forall_app_2; [by apply quote_scalar|]. by repeat constructor.
Qed.

(** Of numbers, strings and constants both printers give the same text. *)
Lemma dumps_pretty_leaf sorted level v :
  json_ok v = true -> match v with JArr _ | JObj _ => False | _ => True end ->
  dumps_pretty sorted level v = dumps true v /\ shown sorted v = sort_keys v.
Proof.
  destruct v as [| | |f| | |]; intros Hok Hv; try done; (split; [|by destruct sorted]); try done.
  cbn [json_ok] in Hok. unfold float_ok in Hok. apply andb_true_iff in Hok as [[Hfin _]%andb_true_iff _].
  cbn. rewrite Hfin. by destruct f.
Qed.

Lemma dumps_pretty_readable sorted v level :
  json_ok v = true -> exists t, dumps_pretty sorted level v = Ok t /\ readable t (shown sorted v).
Proof.
  revert level. induction v as [|b|z|f|s|l IH|d IH] using json_ind; intros level Hok;
    try (match goal with |- context [dumps_pretty _ _ ?v] =>
           destruct (dumps_pretty_leaf sorted level v Hok I) as [-> ->];
           destruct (dumps_reads true v Hok) as (t & Hd & Hr); exists t;
           split; [done|]; split; [done|by eapply dumps_scalar] end).
  - cbn [json_ok] in Hok. cbn [dumps_pretty].
    match goal with |- context [rbind (?F l) _] =>
      assert (exists ts, F l = Ok ts /\ Forall2 readable ts (map (shown sorted) l)) as (ts & -> & Hts) end.
    { induction IH as [|x l Hx Hl IHl]; [by exists []|].
      cbn [forallb] in Hok. apply andb_true_iff in Hok as [Hox Hol].
      destruct (Hx (S level) Hox) as (t & -> & Ht). destruct (IHl Hol) as (ts & E & Hts).
      exists (t :: ts). cbn [rbind]. rewrite E. split; [done|]. by constructor. }
    cbn [rbind]. eexists. split; [done|]. apply (readable_block_arr level) in Hts.
    destruct sorted; [exact Hts|]. by rewrite List.map_id in Hts.
  - cbn [json_ok] in Hok. apply andb_true_iff in Hok as [Hnd Hok].
    apply bool_decide_eq_true in Hnd. cbn [dumps_pretty].
    set (R := fun (kt : pystr * pystr) (kv : pystr * json) =>
                kt.1 = kv.1 /\ scalar_str kt.1 = true /\ readable kt.2 kv.2).
    match goal with |- context [rbind (?F d) _] =>
      assert (exists items, F d = Ok items /\
        Forall2 R items (map (fun kv => (kv.1, shown sorted kv.2)) d)) as (items & -> & Hi) end.
    { clear Hnd. induction IH as [|[k x] d Hx Hl IHl]; [by exists []|].
      cbn [forallb fst snd] in *. apply andb_true_iff in Hok as [[Hk Hox]%andb_true_iff Hol].
      destruct (Hx (S level) Hox) as (t & -> & Ht). destruct (IHl Hol) as (ts & E & Hts).
      exists ((k, t) :: ts). cbn [rbind]. rewrite E. split; [done|]. by constructor. }
    cbn [rbind]. eexists. split; [done|]. destruct sorted.
    + apply (readable_block_obj level _ (sort_items _)); [apply sort_items_NoDup; by rewrite map_snd_keys|].
      apply sort_by_Forall2; [|exact Hi]. intros [] [] [] [] (-> & _) (-> & _). done.
    + apply readable_block_obj; [done|]. cbn [shown] in Hi.
      replace (map _ d) with d in Hi; [exact Hi|]. symmetry. rewrite <- (List.map_id d) at 2.
      apply List.map_ext. by intros [].
Qed.

(** Reading back an indented document gives the document, and its text can be encoded. *)
Lemma loads_dumps_pretty sorted level v :
  json_ok v = true ->
  exists t, dumps_pretty sorted level v = Ok t /\ loads t = Some (shown sorted v) /\ scalars t.
Proof.
  intros Hok. destruct (dumps_pretty_readable sorted v level Hok) as (t & Hd & [Hs Ht] & Hsc).
  exists t. split; [done|]. split; [|done].
  pose proof (starts_value_skip t [] Hs) as E1. pose proof (starts_value_strip 65279 t [] Hs) as E2.
  pose proof (Ht (S (length t)) [] ltac:(lia) I) as E3.
  rewrite app_nil_r in E1, E2, E3. unfold loads, loads_text. rewrite E2, E1, E3 by auto. done.
Qed.

(** ** Decoding with the constants allowed *)

Definition allow_json_constants : JsonConstants := true.

(** What a number is not: one of the constants. *)
Lemma scan_number_constant s vr : scan_number s = Some vr -> scan_constant s = None.
Proof.
  intros Hn. unfold scan_number in Hn. destruct s as [|c s]; [done|]. cbn [take_while] in Hn.
  destruct (num_char c) eqn:Hc; [|done].
  assert (c <> 78 /\ c <> 73) as [H1 H2].
  { unfold num_char, is_digit in Hc. split; intros ->; done. }
  unfold scan_constant. change (str "NaN") with [78; 97; 78]. change (str "Infinity") with (73 :: str "nfinity").
  change (str "-Infinity") with (45 :: 73 :: str "nfinity"). cbn [strip_prefix].
  rewrite (proj2 (N.eqb_neq 78 c)), (proj2 (N.eqb_neq 73 c)) by congruence.
  destruct (N.eqb_spec 45 c) as [<-|]; [|done]. destruct s as [|c' s]; [done|].
  destruct (N.eqb_spec 73 c') as [<-|]; [|done]. done.
Qed.

Lemma scan_literal_lenient s vr :
  scan_literal (C := reject_json_constants) s = Some vr -> scan_literal (C := allow_json_constants) s = Some vr.
Proof.
  unfold scan_literal. repeat case_match; try done; cbn in *; intros Hn;
    by rewrite (scan_number_constant _ _ Hn) in *.
Qed.


Lemma scan_lenient fuel :
  (forall s vr, scan_value (C := reject_json_constants) fuel s = Some vr ->
     scan_value (C := allow_json_constants) fuel s = Some vr) /\
  (forall s lr, scan_elems (C := reject_json_constants) fuel s = Some lr ->
     scan_elems (C := allow_json_constants) fuel s = Some lr) /\
  (forall s acc dr, scan_members (C := reject_json_constants) fuel s acc = Some dr ->
     scan_members (C := allow_json_constants) fuel s acc = Some dr).
Proof.
  induction fuel as [|f (IHv & IHe & IHm)]; [done|]. split_and!.
  - intros [|c s] vr; [done|]. cbn [scan_value]. destruct (c =? 34); [done|]. destruct (c =? 123).
    { destruct (strip_char 125 _); [done|]. destruct (scan_members f _ _) as [[d r]|] eqn:E; [|done].
      by rewrite (IHm _ _ _ E). }
    destruct (c =? 91); [|apply scan_literal_lenient].
    destruct (strip_char 93 _); [done|]. destruct (scan_elems f _) as [[l r]|] eqn:E; [|done].
    by rewrite (IHe _ _ E).
  - intros s lr. cbn [scan_elems]. destruct (scan_value f s) as [[v r]|] eqn:E; [|done]. rewrite (IHv _ _ E).
    destruct (strip_char 93 _); [done|]. destruct (strip_char 44 _) as [r'|]; [|done].
    destruct (scan_elems f (skip_ws r')) as [[l r'']|] eqn:E'; [|done]. by rewrite (IHe _ _ E').
  - intros s acc dr. cbn [scan_members]. destruct (strip_char 34 s) as [s'|]; [|done].
    destruct (scan_str s') as [[k r]|]; [|done]. destruct (strip_char 58 _) as [r'|]; [|done].
    destruct (scan_value f _) as [[v r'']|] eqn:E; [|done]. rewrite (IHv _ _ E).
    destruct (strip_char 125 _); [done|]. destruct (strip_char 44 _) as [r3|]; [|done]. apply IHm.
Qed.

(** [json.loads] without [parse_constant] agrees with the strict decoder wherever that one succeeds. *)
Lemma loads_lenient s v : loads s = Some v -> loads_text (C := allow_json_constants) s = Some v.
Proof.
  unfold loads, loads_text. destruct (strip_char 65279 s); [done|].
  destruct (scan_value (C := reject_json_constants) _ _) as [[v' r]|] eqn:E; [|done].
  by rewrite (proj1 (scan_lenient _) _ _ E).
Qed.

Example dumps_indent_sample :
  dumps_indent 0 (JObj [(str "b", JArr []); (str "a", JArr [JInt 1; JObj [(str "x", JNull)]])]) =
  Ok (join [10%N] [str "{"; (str "  " ++ quote true (str "a") ++ str ": [")%list; str "    1,"; str "    {";
    (str "      " ++ quote true (str "x") ++ str ": null")%list;
    str "    }"; str "  ],"; (str "  " ++ quote true (str "b") ++ str ": []")%list; str "}"]).
Proof. vm_compute. reflexivity. Qed.
