(* ===== verification/Security.v ===== *)
(** * Security limits and bounded state ([peerq/security.py])

    The protocol limits, the configuration record with its validation, the structural validation
    of JSON trees, the replay cache and the datagram rate limiter. *)

From Stdlib Require Import ZArith NArith Lia.
From S2P Require Import Prelude PyFloat Text Json JsonFacts.
Open Scope Z_scope.

Definition PROTOCOL_VERSION : Z := 2.
Definition MAX_FRAME_SIZE : Z := 256 * 1024.
Definition MAX_DISCOVERY_DATAGRAM : Z := 4 * 1024.
Definition MAX_TASK_PAYLOAD : Z := 64 * 1024.
Definition MAX_TASK_RESULT : Z := 64 * 1024.
Definition MAX_TASK_ID_LENGTH : Z := 128.
Definition MAX_PEER_ID_LENGTH : Z := 128.
Definition MAX_MESSAGE_TYPE_LENGTH : Z := 32.
Definition MAX_ERROR_LENGTH : Z := 4 * 1024.

(** [len(s)] *)
Definition len {A} (l : list A) : Z := Z.of_nat (length l).

(** ** Configuration *)

Record SecurityConfig := {
  enabled : bool;
  protocol_version : Z;
  max_frame_size : Z;
  max_udp_payload : Z;
  max_http_headers : Z;
  max_http_body : Z;
  sc_max_tasks : Z;
  max_peers : Z;
  max_gossip_tasks : Z;
  max_credit_amount : Z;
  max_lease_duration_seconds : float;
  replay_cache_size : Z;
  replay_window_seconds : float;
  max_connections : Z;
  max_inbox_size : Z;
  read_timeout_seconds : float;
  write_timeout_seconds : float;
  connect_timeout_seconds : float;
  udp_rate_limit : Z;
  udp_rate_window_seconds : float;
  max_json_depth : Z;
  max_json_items : Z;
  max_string_length : Z;
}.

Definition default_security : SecurityConfig := {|
  enabled := true;
  protocol_version := PROTOCOL_VERSION;
  max_frame_size := MAX_FRAME_SIZE;
  max_udp_payload := MAX_DISCOVERY_DATAGRAM;
  max_http_headers := 8 * 1024;
  max_http_body := 64 * 1024;
  sc_max_tasks := 10000;
  max_peers := 128;
  max_gossip_tasks := 128;
  max_credit_amount := 100000;
  max_lease_duration_seconds := decimal_float false 3600 0;
  replay_cache_size := 4096;
  replay_window_seconds := decimal_float false 30 0;
  max_connections := 64;
  max_inbox_size := 1024;
  read_timeout_seconds := decimal_float false 10 0;
  write_timeout_seconds := decimal_float false 10 0;
  connect_timeout_seconds := decimal_float false 10 0;
  udp_rate_limit := 100;
  udp_rate_window_seconds := decimal_float false 1 0;
  max_json_depth := 16;
  max_json_items := 10000;
  max_string_length := 256 * 1024;
|}.

(** [SecurityConfig.__post_init__] *)
Definition post_init (c : SecurityConfig) : result () :=
  let positive_ints :=
    [protocol_version c; max_frame_size c; max_udp_payload c; max_http_headers c;
     max_http_body c; sc_max_tasks c; max_peers c; max_gossip_tasks c; max_credit_amount c;
     replay_cache_size c; max_connections c; max_inbox_size c; udp_rate_limit c;
     max_json_depth c; max_json_items c; max_string_length c] in
  let positive_floats :=
    [replay_window_seconds c; read_timeout_seconds c; write_timeout_seconds c;
     connect_timeout_seconds c; udp_rate_window_seconds c; max_lease_duration_seconds c] in
  raise_if (existsb (fun v => v <=? 0) positive_ints) ValueError ;;!
  raise_if (existsb (fun v => negb (isfinite v) || py_le v fzero) positive_floats) ValueError.

(** ** Canonical JSON *)

Definition canonical_json_bytes (v : json) : result (list byte) :=
  match dumps_bytes false v with
  | Ok b => Ok b
  | Raise TypeError | Raise ValueError => Raise MessageDecodeError
  | Raise e => Raise e
  end.

(** ** JSON tree validation *)

Section validate.
Context (max_depth max_items max_string_length : Z).

(** [len(s.encode("utf-8")) > max_string_length] and its exceptions. *)
Definition check_string (s : pystr) : result () :=
  match utf8_encode s with
  | None => Raise ValueError
  | Some b => raise_if (max_string_length <? len b) MessageDecodeError
  end.

(** The loop of [validate_json_tree]: [stack] has the last pushed element first. *)
Fixpoint validate_loop (fuel : nat) (stack : list (json * Z)) (item_count : Z) : result () :=
  match stack with
  | [] => Ok ()
  | (current, depth) :: stack' =>
      match fuel with
      | O => Raise RuntimeError
      | S f =>
          raise_if (max_depth <? depth) MessageDecodeError ;;!
          match current with
          | JStr s => check_string s ;;! validate_loop f stack' item_count
          | JInt _ | JBool _ => validate_loop f stack' item_count
          | JFloat x =>
              raise_if (negb (isfinite x)) MessageDecodeError ;;!
              validate_loop f stack' item_count
          | JObj d =>
              let item_count := item_count + len d in
              raise_if (max_items <? item_count) MessageDecodeError ;;!
              let pushed := ((fun kv => (JStr kv.1, depth + 1)) <$> d)
                              ++ ((fun kv => (kv.2, depth + 1)) <$> d) in
              validate_loop f (rev pushed ++ stack') item_count
          | JArr l =>
              let item_count := item_count + len l in
              raise_if (max_items <? item_count) MessageDecodeError ;;!
              validate_loop f (rev ((fun x => (x, depth + 1)) <$> l) ++ stack') item_count
          | JNull => validate_loop f stack' item_count
          end
      end
  end.

(** The number of values the loop visits, keys included. *)
Fixpoint json_size (v : json) : nat :=
  match v with
  | JArr l => S (list_sum (map json_size l))
  | JObj d => S (list_sum (map (fun kv => S (json_size kv.2)) d))
  | _ => 1
  end.

Definition validate_json_tree (v : json) : result () :=
  validate_loop (json_size v) [(v, 0)] 0.

(** What the loop checks, as a recursive predicate: nesting, strings and numbers. *)
Fixpoint tree_ok (depth : Z) (v : json) : bool :=
  (depth <=? max_depth) &&
  match v with
  | JStr s => is_ok (check_string s)
  | JFloat x => isfinite x
  | JArr l => forallb (tree_ok (depth + 1)) l
  | JObj d =>
      forallb (fun kv => (depth + 1 <=? max_depth) && is_ok (check_string kv.1)
                         && tree_ok (depth + 1) kv.2) d
  | _ => true
  end.
End validate.

Definition zsum (l : list Z) : Z := foldr Z.add 0 l.

(** The number of children of all containers of a value. *)
Fixpoint tree_items (v : json) : Z :=
  match v with
  | JArr l => len l + zsum (map tree_items l)
  | JObj d => len d + zsum (map (fun kv => tree_items kv.2) d)
  | _ => 0
  end.

(** ** Replay cache *)

Record ReplayCache := {
  rc_max_entries : Z;
  rc_entries : list ((pystr * pystr) * float);
}.

(** [ReplayCache.__init__] *)
Definition replay_cache_init (max_entries : Z) : result ReplayCache :=
  raise_if (max_entries <=? 0) ValueError ;;!
  Ok {| rc_max_entries := max_entries; rc_entries := [] |}.

(** [while self._entries: ... if timestamp >= cutoff: break; popitem(last=False)] *)
Fixpoint rc_expire (cutoff : float) (entries : list ((pystr * pystr) * float))
    : list ((pystr * pystr) * float) :=
  match entries with
  | [] => []
  | (k, ts) :: rest => if py_ge ts cutoff then entries else rc_expire cutoff rest
  end.

(** [while len(self._entries) > self.max_entries: popitem(last=False)] *)
Fixpoint rc_trim (max_entries : Z) (entries : list ((pystr * pystr) * float))
    : list ((pystr * pystr) * float) :=
  match entries with
  | [] => []
  | _ :: rest => if max_entries <? len entries then rc_trim max_entries rest else entries
  end.

Definition check_and_remember (sender_id nonce : pystr) (now window : float) (rc : ReplayCache)
    : bool * ReplayCache :=
  let cutoff := fsub now window in
  let entries := rc_expire cutoff (rc_entries rc) in
  let key := (sender_id, nonce) in
  if dict_mem key entries then
    (false, {| rc_max_entries := rc_max_entries rc; rc_entries := entries |})
  else
    (true, {| rc_max_entries := rc_max_entries rc;
              rc_entries := rc_trim (rc_max_entries rc) (dict_set key now entries) |}).

(** ** Rate limiter *)

Record RateLimiter := {
  rl_max_events : Z;
  rl_window_seconds : float;
  rl_max_sources : Z;
  rl_events : list (pystr * list float);
}.

(** [RateLimiter.__init__] *)
Definition rate_limiter_init (max_events : Z) (window_seconds : float) (max_sources : Z)
    : result RateLimiter :=
  raise_if ((max_events <=? 0) || py_le window_seconds fzero || (max_sources <=? 0)) ValueError ;;!
  Ok {| rl_max_events := max_events; rl_window_seconds := window_seconds;
        rl_max_sources := max_sources; rl_events := [] |}.

(** [while events and events[0] < cutoff: events.popleft()] *)
Definition rl_expire (cutoff : float) (events : list float) : list float :=
  drop_while (fun ts => py_lt ts cutoff) events.

Definition allow (source : pystr) (now : float) (rl : RateLimiter) : bool * RateLimiter :=
  (* find or create the source's deque, leaving its key at the end of the order *)
  let '(events, others) :=
    match dict_get source (rl_events rl) with
    | None =>
        ([], if rl_max_sources rl <=? len (rl_events rl) then drop 1 (rl_events rl)
             else rl_events rl)
    | Some events => (events, dict_del source (rl_events rl))
    end in
  let events := rl_expire (fsub now (rl_window_seconds rl)) events in
  let store ev := {| rl_max_events := rl_max_events rl;
                     rl_window_seconds := rl_window_seconds rl;
                     rl_max_sources := rl_max_sources rl;
                     rl_events := others ++ [(source, ev)] |} in
  if rl_max_events rl <=? len events then (false, store events)
  else (true, store (events ++ [now])).

(** ** Validation: the loop decides the recursive predicate *)

Lemma zsum_app l k : zsum (l ++ k) = zsum l + zsum k.
Proof. unfold zsum. induction l as [|x l IH]; cbn [app foldr]; lia. Qed.

Lemma zsum_rev l : zsum (rev l) = zsum l.
Proof. induction l as [|x l IH]; cbn [rev]; [done|]. rewrite zsum_app, IH. unfold zsum. cbn [foldr]. lia. Qed.

Lemma zsum_nonneg l : Forall (fun z => 0 <= z) l -> 0 <= zsum l.
Proof. unfold zsum. induction 1; cbn [foldr]; lia. Qed.

Lemma list_sum_rev l : list_sum (rev l) = list_sum l.
Proof. induction l as [|x l IH]; cbn [rev]; [done|]. rewrite list_sum_app, IH. unfold list_sum. cbn [fold_right]. lia. Qed.

Lemma tree_items_nonneg v : 0 <= tree_items v.
Proof.
  induction v as [|b|z|f|s|l IH|d IH] using json_ind; cbn [tree_items]; try lia.
  - enough (0 <= zsum (map tree_items l)) by (unfold len; lia). by apply zsum_nonneg, Forall_map.
  - enough (0 <= zsum (map (fun kv => tree_items kv.2) d)) by (unfold len; lia).
    by apply zsum_nonneg, Forall_map.
Qed.

Section validate_facts.
Context (max_depth max_items max_string_length : Z).

Definition stack_ok (stack : list (json * Z)) : bool :=
  forallb (fun vd => tree_ok max_depth max_string_length vd.2 vd.1) stack.
Definition stack_items (stack : list (json * Z)) : Z := zsum (map (fun vd => tree_items vd.1) stack).
Definition stack_size (stack : list (json * Z)) : nat := list_sum (map (fun vd => json_size vd.1) stack).

Lemma stack_items_nonneg stack : 0 <= stack_items stack.
Proof.
  apply zsum_nonneg, Forall_map, Forall_true. intros. apply tree_items_nonneg.
Qed.

Lemma stack_ok_rev_app l k : stack_ok (rev l ++ k) = stack_ok l && stack_ok k.
Proof.
  unfold stack_ok. rewrite forallb_app. f_equal.
  induction l as [|x l IH]; cbn; [done|]. rewrite forallb_app, IH. cbn.
  by rewrite andb_true_r, andb_comm.
Qed.

Lemma stack_items_rev_app l k : stack_items (rev l ++ k) = stack_items l + stack_items k.
Proof. unfold stack_items. by rewrite map_app, zsum_app, map_rev, zsum_rev. Qed.

Lemma stack_size_rev_app l k : stack_size (rev l ++ k) = (stack_size l + stack_size k)%nat.
Proof. unfold stack_size. by rewrite map_app, list_sum_app, map_rev, list_sum_rev. Qed.

Lemma stack_cons v d stack :
  stack_ok ((v, d) :: stack) = tree_ok max_depth max_string_length d v && stack_ok stack /\
  stack_items ((v, d) :: stack) = tree_items v + stack_items stack /\
  stack_size ((v, d) :: stack) = (json_size v + stack_size stack)%nat.
Proof. done. Qed.

(** The children pushed for a container. *)
Lemma stack_elems l d :
  stack_ok ((fun x => (x, d)) <$> l) = forallb (tree_ok max_depth max_string_length d) l /\
  stack_items ((fun x => (x, d)) <$> l) = zsum (map tree_items l) /\
  stack_size ((fun x => (x, d)) <$> l) = list_sum (map json_size l).
Proof.
  induction l as [|x l (IH1 & IH2 & IH3)]; [done|]. rewrite fmap_cons.
  destruct (stack_cons x d ((fun x => (x, d)) <$> l)) as (-> & -> & ->).
  by rewrite IH1, IH2, IH3.
Qed.

Lemma stack_members kvs d :
  stack_ok (((fun kv => (JStr kv.1, d)) <$> kvs) ++ ((fun kv => (kv.2, d)) <$> kvs)) =
    forallb (fun kv => (d <=? max_depth) && is_ok (check_string max_string_length kv.1)
                       && tree_ok max_depth max_string_length d kv.2) kvs /\
  stack_items (((fun kv => (JStr kv.1, d)) <$> kvs) ++ ((fun kv => (kv.2, d)) <$> kvs)) =
    zsum (map (fun kv => tree_items kv.2) kvs) /\
  stack_size (((fun kv => (JStr kv.1, d)) <$> kvs) ++ ((fun kv => (kv.2, d)) <$> kvs)) =
    list_sum (map (fun kv : pystr * json => S (json_size kv.2)) kvs).
Proof.
  pose proof (stack_elems kvs.*2 d) as (A1 & A2 & A3).
  rewrite <- list_fmap_compose in A1, A2, A3.
  set (vals := (fun kv => (kv.2, d)) <$> kvs).
  change (compose _ _ <$> kvs) with vals in A1, A2, A3.
  assert (stack_ok ((fun kv => (JStr kv.1, d)) <$> kvs) =
            forallb (fun kv => (d <=? max_depth) && is_ok (check_string max_string_length kv.1)) kvs /\
          stack_items ((fun kv => (JStr kv.1, d)) <$> kvs) = 0 /\
          stack_size ((fun kv => (JStr kv.1, d)) <$> kvs) = length kvs) as (B1 & B2 & B3).
  { clear. induction kvs as [|[k v] kvs (IH1 & IH2 & IH3)]; [done|]. rewrite fmap_cons.
    destruct (stack_cons (JStr k) d ((fun kv => (JStr kv.1, d)) <$> kvs)) as (E1 & E2 & E3).
    cbn [fst]. rewrite E1, E2, E3, IH1, IH2, IH3. done. }
  repeat split.
  - unfold stack_ok in *. rewrite forallb_app, A1, B1. clear.
    induction kvs as [|[k v] kvs IH]; [done|]. cbn [forallb fmap list_fmap fst snd] in *.
    rewrite <- IH. destruct (d <=? max_depth), (is_ok (check_string max_string_length k)),
      (tree_ok max_depth max_string_length d v); cbn; rewrite ?andb_false_r; done.
  - unfold stack_items in *. rewrite map_app, zsum_app, A2, B2, Z.add_0_l. f_equal. clear.
    induction kvs as [|[k v] kvs IH]; [done|]. cbn [map fmap list_fmap snd] in *. by rewrite IH.
  - unfold stack_size in *. rewrite map_app, list_sum_app, A3, B3. clear.
    induction kvs as [|[k v] kvs IH]; [done|]. cbn [map fmap list_fmap snd length] in *.
    unfold list_sum in *. cbn [fold_right]. lia.
Qed.

(** With enough fuel the loop succeeds exactly when every stacked value is well formed and the
    running count stays within the limit. *)
Lemma validate_loop_spec fuel stack count :
  (stack_size stack <= fuel)%nat -> count <= max_items ->
  validate_loop max_depth max_items max_string_length fuel stack count = Ok () <->
  stack_ok stack = true /\ count + stack_items stack <= max_items.
Proof.
  revert stack count. induction fuel as [|f IH]; intros [|[v d] stack] count Hf Hc.
  - cbn. unfold stack_items. cbn. split; [intros; split; [done|lia]|done].
  - exfalso. destruct (stack_cons v d stack) as (_ & _ & E). rewrite E in Hf.
    destruct v; cbn in Hf; lia.
  - cbn. unfold stack_items. cbn. split; [intros; split; [done|lia]|done].
  - destruct (stack_cons v d stack) as (E1 & E2 & E3). rewrite E1, E2. rewrite E3 in Hf.
    pose proof (stack_items_nonneg stack) as Hn.
    cbn [validate_loop]. unfold raise_if at 1.
    destruct (Z.ltb_spec max_depth d) as [Hd|Hd].
    { cbn [rbind]. split; [done|]. intros [H _]. exfalso.
      apply andb_true_iff in H as [H _]. destruct v; cbn [tree_ok] in H;
      apply andb_true_iff in H as [H _]; apply Z.leb_le in H; lia. }
    cbn [rbind].
    assert ((d <=? max_depth) = true) as Hdt by (by apply Z.leb_le).
    destruct v as [|b|z|x|s|l|kvs]; cbn [tree_ok tree_items json_size] in *; rewrite Hdt; cbn [andb].
    + rewrite IH by lia. by rewrite Z.add_0_l.
    + rewrite IH by lia. by rewrite Z.add_0_l.
    + rewrite IH by lia. by rewrite Z.add_0_l.
    + unfold raise_if. destruct (isfinite x); cbn; [|naive_solver].
      rewrite IH by lia. by rewrite Z.add_0_l.
    + destruct (check_string max_string_length s) as [[]|e]; cbn; [|naive_solver].
      rewrite IH by lia. by rewrite Z.add_0_l.
    + destruct (stack_elems l (d + 1)) as (F1 & F2 & F3).
      unfold raise_if. destruct (Z.ltb_spec max_items (count + len l)) as [Hi|Hi]; cbn [rbind].
      * split; [done|]. intros [_ H]. pose proof (tree_items_nonneg (JArr l)) as Hl.
        assert (0 <= zsum (map tree_items l)).
        { apply zsum_nonneg, Forall_map, Forall_true. intros. apply tree_items_nonneg. }
        lia.
      * rewrite IH by (rewrite ?stack_size_rev_app; lia).
        rewrite stack_ok_rev_app, stack_items_rev_app, F1, F2. by rewrite !Z.add_assoc.
    + destruct (stack_members kvs (d + 1)) as (F1 & F2 & F3).
      unfold raise_if. destruct (Z.ltb_spec max_items (count + len kvs)) as [Hi|Hi]; cbn [rbind].
      * split; [done|]. intros [_ H].
        assert (0 <= zsum (map (fun kv => tree_items kv.2) kvs)).
        { apply zsum_nonneg, Forall_map, Forall_true. intros. apply tree_items_nonneg. }
        lia.
      * rewrite IH by (rewrite ?stack_size_rev_app; lia).
        rewrite stack_ok_rev_app, stack_items_rev_app, F1, F2. by rewrite !Z.add_assoc.
Qed.

Lemma validate_json_tree_iff v :
  0 <= max_items ->
  validate_json_tree max_depth max_items max_string_length v = Ok () <->
  tree_ok max_depth max_string_length 0 v = true /\ tree_items v <= max_items.
Proof.
  intros Hm. unfold validate_json_tree. destruct (stack_cons v 0 []) as (E1 & E2 & E3).
  rewrite validate_loop_spec, E1, E2.
  - unfold stack_ok, stack_items, zsum. cbn [forallb map foldr].
    by rewrite andb_true_r, Z.add_0_r, Z.add_0_l.
  - rewrite E3. unfold stack_size. cbn. lia.
  - done.
Qed.

(** [validate_json_tree] always returns and accepts a value exactly when its nesting, its
    strings (keys included) and its numbers are within the limits and its containers have at most
    [max_items] children in all. *)
Theorem validate_json_tree_spec v :
  0 <= max_items ->
  validate_json_tree max_depth max_items max_string_length v = Ok () <->
  tree_ok max_depth max_string_length 0 v = true /\ tree_items v <= max_items.
Proof. apply validate_json_tree_iff. Qed.
End validate_facts.

Lemma validate_json_tree_spec_witness :
  validate_json_tree 2 10 8 (JObj [(str "a", JArr [JInt 1; JNull])]) = Ok () /\
  ~ validate_json_tree 1 10 8 (JObj [(str "a", JArr [JInt 1; JNull])]) = Ok ().
Proof.
  split.
  - apply validate_json_tree_spec; [discriminate|]. split; [reflexivity|discriminate].
  - intros [H _]%validate_json_tree_spec; [discriminate H|discriminate].
Defined.

(** ** Replay cache *)

(** A well-formed cache: distinct keys, at most [max_entries] of them. *)
Definition rc_wf (rc : ReplayCache) : Prop :=
  0 < rc_max_entries rc /\ NoDup (rc_entries rc).*1 /\ len (rc_entries rc) <= rc_max_entries rc.

(** The checks of a sequence of messages [(sender, nonce, now)]. *)
Fixpoint rc_run (window : float) (ops : list (pystr * pystr * float)) (rc : ReplayCache)
    : ReplayCache :=
  match ops with
  | [] => rc
  | (s, n, now) :: ops' => rc_run window ops' (check_and_remember s n now window rc).2
  end.

Lemma rc_expire_suffix cutoff es : exists pre, es = pre ++ rc_expire cutoff es.
Proof.
  induction es as [|[k ts] es [pre IH]]; cbn; [by exists []|].
  destruct (py_ge ts cutoff); [by exists []|]. exists ((k, ts) :: pre). cbn. by rewrite <- IH.
Qed.

Lemma rc_trim_suffix m es : exists pre, es = pre ++ rc_trim m es.
Proof.
  induction es as [|e es [pre IH]]; cbn [rc_trim]; [by exists []|].
  destruct (m <? len (e :: es)); [|by exists []]. exists (e :: pre). cbn. by rewrite <- IH.
Qed.

Lemma rc_trim_len m es : 0 <= m -> len (rc_trim m es) <= m.
Proof.
  intros Hm. induction es as [|e es IH]; cbn [rc_trim]; [done|].
  destruct (Z.ltb_spec m (len (e :: es))); [done|lia].
Qed.

(** Expiry and trimming keep an entry that is fresh, respectively one of the last [m]. *)
Lemma rc_expire_keeps cutoff pre k ts post :
  py_ge ts cutoff = true ->
  exists pre', rc_expire cutoff (pre ++ (k, ts) :: post) = pre' ++ (k, ts) :: post.
Proof.
  intros Hts. induction pre as [|[k' ts'] pre [pre' IH]]; cbn [app rc_expire].
  - rewrite Hts. by exists [].
  - destruct (py_ge ts' cutoff); [by exists ((k', ts') :: pre)|]. by exists pre'.
Qed.

Lemma rc_trim_keeps m pre k ts post :
  len ((k, ts) :: post) <= m ->
  exists pre', rc_trim m (pre ++ (k, ts) :: post) = pre' ++ (k, ts) :: post.
Proof.
  intros Hm. induction pre as [|e pre [pre' IH]]; cbn [app rc_trim].
  - destruct (Z.ltb_spec m (len ((k, ts) :: post))); [lia|]. by exists [].
  - destruct (m <? _); [by exists pre'|]. by exists (e :: pre).
Qed.

Lemma NoDup_suffix_keys {A B} (pre es : list (A * B)) : NoDup (pre ++ es).*1 -> NoDup es.*1.
Proof. rewrite fmap_app. by intros (_ & _ & ?)%NoDup_app. Qed.

Lemma check_and_remember_wf s n now w rc :
  rc_wf rc -> rc_wf (check_and_remember s n now w rc).2.
Proof.
  intros (Hm & Hnd & Hlen). unfold check_and_remember.
  destruct (rc_expire_suffix (fsub now w) (rc_entries rc)) as [pre E].
  set (es := rc_expire _ _) in *. rewrite E in Hnd, Hlen. apply NoDup_suffix_keys in Hnd.
  unfold len in Hlen. rewrite length_app in Hlen.
  destruct (dict_mem (s, n) es) eqn:Emem; cbn; split_and!; cbn; try done.
  - unfold len. lia.
  - destruct (rc_trim_suffix (rc_max_entries rc) (dict_set (s, n) now es)) as [pre' E'].
    apply (NoDup_suffix_keys pre'). rewrite <- E'. by apply dict_set_NoDup.
  - apply rc_trim_len. lia.
Qed.

(** The cache holds the entry [(k, ts)] with at most [n] entries after it. *)
Definition rc_holds (k : pystr * pystr) (ts : float) (n : Z) (rc : ReplayCache) : Prop :=
  exists pre post, rc_entries rc = pre ++ (k, ts) :: post /\ len post <= n.

Lemma rc_max_entries_step s n now w rc :
  rc_max_entries (check_and_remember s n now w rc).2 = rc_max_entries rc.
Proof. unfold check_and_remember. by destruct (dict_mem _ _). Qed.

Lemma rc_holds_step k ts m s n now w rc :
  rc_holds k ts m rc -> py_ge ts (fsub now w) = true -> m + 2 <= rc_max_entries rc ->
  rc_holds k ts (m + 1) (check_and_remember s n now w rc).2.
Proof.
  intros (pre & post & E & Hlen) Hts Hm. unfold check_and_remember.
  destruct (rc_expire_keeps (fsub now w) pre k ts post Hts) as [pre' E']. rewrite E, E'.
  destruct (dict_mem (s, n) (pre' ++ (k, ts) :: post)) eqn:Emem; cbn.
  - exists pre', post. cbn. split; [done|lia].
  - rewrite dict_set_keys_new by done. rewrite <- app_assoc. cbn [app].
    destruct (rc_trim_keeps (rc_max_entries rc) pre' k ts (post ++ [((s, n), now)])) as [pre2 E2].
    { unfold len in *. cbn [length]. rewrite length_app. cbn. lia. }
    exists pre2, (post ++ [((s, n), now)]). split; [exact E2|].
    unfold len in *. rewrite length_app. cbn. lia.
Qed.

Lemma rc_holds_run k ts w ops m rc :
  rc_holds k ts m rc -> Forall (fun op => py_ge ts (fsub op.2 w) = true) ops ->
  m + len ops + 1 <= rc_max_entries rc ->
  rc_holds k ts (m + len ops) (rc_run w ops rc).
Proof.
  intros Hh Hops. revert m rc Hh. induction Hops as [|[[s n] now] ops Hop Hops IH];
    intros m rc Hh Hm; cbn [rc_run].
  - unfold len. cbn. by rewrite Z.add_0_r.
  - unfold len in *. cbn [length] in *.
    replace (m + Z.of_nat (S (length ops))) with (m + 1 + Z.of_nat (length ops)) by lia.
    apply IH; [apply rc_holds_step; [done|done|lia]|]. rewrite rc_max_entries_step. lia.
Qed.

Lemma rc_holds_rejects s n ts m now w rc :
  rc_holds (s, n) ts m rc -> py_ge ts (fsub now w) = true ->
  (check_and_remember s n now w rc).1 = false.
Proof.
  intros (pre & post & E & _) Hts. unfold check_and_remember.
  destruct (rc_expire_keeps (fsub now w) pre (s, n) ts post Hts) as [pre' E']. rewrite E, E'.
  assert (dict_mem (s, n) (pre' ++ ((s, n), ts) :: post) = true) as ->; [|done].
  apply dict_mem_true. destruct (dict_get _ _) eqn:En; [by eauto|].
  apply dict_get_None in En. rewrite fmap_app in En. cbn in En. set_solver.
Qed.

Lemma rc_accepted_holds s n now w rc rc' :
  0 < rc_max_entries rc -> check_and_remember s n now w rc = (true, rc') ->
  rc_holds (s, n) now 0 rc' /\ rc_max_entries rc' = rc_max_entries rc.
Proof.
  intros Hm. unfold check_and_remember.
  destruct (dict_mem (s, n) (rc_expire (fsub now w) (rc_entries rc))) eqn:Emem; [done|].
  intros [= <-]. split; [|done]. rewrite dict_set_keys_new by done.
  destruct (rc_trim_keeps (rc_max_entries rc) (rc_expire (fsub now w) (rc_entries rc)) (s, n) now [])
    as [pre E]; [unfold len; cbn; lia|]. by exists pre, [].
Qed.

(** A nonce that was accepted is rejected when it comes again inside the window, as long as
    fewer than [max_entries] other messages were checked in between. *)
Theorem replay_rejected_in_window (rc rc1 : ReplayCache) (w : float) (s n : pystr) (t0 t : float)
    (ops : list (pystr * pystr * float)) :
  rc_wf rc ->
  check_and_remember s n t0 w rc = (true, rc1) ->
  Forall (fun op => py_ge t0 (fsub op.2 w) = true) ops ->
  len ops < rc_max_entries rc ->
  py_ge t0 (fsub t w) = true ->
  (check_and_remember s n t w (rc_run w ops rc1)).1 = false.
Proof.
  intros (Hm & _) Hacc Hops Hlen Ht.
  destruct (rc_accepted_holds _ _ _ _ _ _ Hm Hacc) as [Hh Hm1].
  eapply rc_holds_rejects; [|exact Ht].
  apply (rc_holds_run _ _ _ _ _ _ Hh Hops). rewrite Hm1. lia.
Qed.

Lemma replay_rejected_in_window_witness :
  let w := decimal_float false 30 0 in
  let rc := {| rc_max_entries := 3; rc_entries := [] |} in
  let op t := (str "b", str "n2", decimal_float false t 0) in
  (check_and_remember (str "a") (str "n1") (decimal_float false 125 0) w
     (rc_run w [op 101; op 120] (check_and_remember (str "a") (str "n1")
        (decimal_float false 100 0) w rc).2)).1 = false.
Proof.
  intros w rc op.
  refine (replay_rejected_in_window rc _ w _ _ (decimal_float false 100 0) _ [op 101; op 120] _ _ _ _ _).
  - split_and!; [reflexivity|constructor|discriminate].
  - reflexivity.
  - repeat constructor.
  - reflexivity.
  - reflexivity.
Defined.

(** Every check keeps the cache well formed: its keys stay distinct and it never holds more
    than [max_entries] nonces, whatever the clock does. *)
Theorem replay_cache_bounded (rc : ReplayCache) (w : float) (ops : list (pystr * pystr * float)) :
  rc_wf rc -> rc_wf (rc_run w ops rc).
Proof.
  revert rc. induction ops as [|[[s n] now] ops IH]; intros rc Hrc; cbn [rc_run]; [done|].
  by apply IH, check_and_remember_wf.
Qed.

Lemma replay_cache_bounded_witness :
  rc_wf (rc_run (decimal_float false 30 0)
           [(str "a", str "1", fzero); (str "a", str "2", fzero); (str "a", str "3", fzero)]
           {| rc_max_entries := 2; rc_entries := [] |}).
Proof.
  apply replay_cache_bounded. split_and!; [reflexivity|constructor|discriminate].
Defined.

(** ** Rate limiter *)

(** A well-formed limiter: distinct sources, at most [max_sources] of them, and at most
    [max_events] remembered events each. *)
Definition rl_wf (rl : RateLimiter) : Prop :=
  0 < rl_max_events rl /\ 0 < rl_max_sources rl /\
  NoDup (rl_events rl).*1 /\ len (rl_events rl) <= rl_max_sources rl /\
  Forall (fun se => len se.2 <= rl_max_events rl) (rl_events rl).

(** The remembered events of a source that are still inside the window at [now]. *)
Definition rl_recent (source : pystr) (now : float) (rl : RateLimiter) : list float :=
  rl_expire (fsub now (rl_window_seconds rl)) (default [] (dict_get source (rl_events rl))).

Lemma drop_while_suffix {A} (p : A -> bool) l : exists pre, l = pre ++ drop_while p l.
Proof.
  induction l as [|x l [pre IH]]; cbn; [by exists []|].
  destruct (p x); [|by exists []]. exists (x :: pre). cbn. by rewrite <- IH.
Qed.

Lemma drop_while_len {A} (p : A -> bool) l : len (drop_while p l) <= len l.
Proof.
  destruct (drop_while_suffix p l) as [pre E]. rewrite E at 2. unfold len. rewrite length_app. lia.
Qed.

(** The dictionary once the source's key was moved to the end, without that entry. *)
Definition rl_others (source : pystr) (rl : RateLimiter) : list (pystr * list float) :=
  match dict_get source (rl_events rl) with
  | None => if rl_max_sources rl <=? len (rl_events rl) then drop 1 (rl_events rl)
            else rl_events rl
  | Some _ => dict_del source (rl_events rl)
  end.

Lemma allow_eq source now rl :
  let recent := rl_recent source now rl in
  let ok := negb (rl_max_events rl <=? len recent) in
  allow source now rl =
  (ok, {| rl_max_events := rl_max_events rl; rl_window_seconds := rl_window_seconds rl;
          rl_max_sources := rl_max_sources rl;
          rl_events := rl_others source rl
                       ++ [(source, if ok then recent ++ [now] else recent)] |}).
Proof.
  unfold allow, rl_recent, rl_others. destruct (dict_get source (rl_events rl)); cbn [default];
    by destruct (rl_max_events rl <=? _).
Qed.

Lemma dict_del_len {V} k (d : list (pystr * V)) v : dict_get k d = Some v -> len d = len (dict_del k d) + 1.
Proof.
  unfold len. induction d as [|[k' v'] d IH]; cbn; [done|].
  destruct (decide (k = k')); cbn [length]; [lia|]. intros H%IH. lia.
Qed.

Lemma rl_others_facts source rl :
  rl_wf rl ->
  (rl_others source rl `sublist_of` rl_events rl) /\ (source ∉ (rl_others source rl).*1) /\
  len (rl_others source rl) + 1 <= rl_max_sources rl.
Proof.
  intros (He & Hs & Hnd & Hlen & _). unfold rl_others.
  destruct (dict_get source (rl_events rl)) as [ev|] eqn:E.
  - split_and!; [apply dict_del_sublist| |].
    + apply dict_get_None, dict_get_del_eq, Hnd.
    + pose proof (dict_del_len _ _ _ E). lia.
  - apply dict_get_None in E.
    destruct (Z.leb_spec (rl_max_sources rl) (len (rl_events rl))).
    + destruct (rl_events rl) as [|p es]; [unfold len in *; cbn [length] in *; lia|].
      split_and!; [by apply sublist_cons|set_solver|].
      rewrite skipn_cons, drop_0. unfold len in *. cbn [length] in *. lia.
    + split_and!; [done|done|lia].
Qed.

Lemma Forall_sublist_keep {A} (P : A -> Prop) l k : Forall P k -> (l `sublist_of` k) -> Forall P l.
Proof. intros Hk. induction 1; inversion Hk; subst; auto. Qed.

(** The rate limiter admits a datagram exactly when its source has fewer than [max_events]
    events left in the window, and it keeps its memory bounded: at most [max_sources] sources
    with at most [max_events] events each. *)
Theorem rate_limiter_allow (rl : RateLimiter) (source : pystr) (now : float) :
  rl_wf rl ->
  ((allow source now rl).1 = true <-> len (rl_recent source now rl) < rl_max_events rl) /\
  rl_wf (allow source now rl).2.
Proof.
  intros Hwf. pose proof (rl_others_facts source rl Hwf) as (Hsub & Hnot & Hlen).
  destruct Hwf as (He & Hs & Hnd & Hl & Hev). rewrite allow_eq. cbn [fst snd].
  assert (len (rl_recent source now rl) <= rl_max_events rl) as Hrec.
  { unfold rl_recent, rl_expire. etrans; [apply drop_while_len|].
    destruct (dict_get source (rl_events rl)) as [ev|] eqn:E; cbn; [|unfold len; cbn; lia].
    apply dict_get_Some_elem in E. rewrite Forall_forall in Hev. apply (Hev _ E). }
  split.
  { rewrite negb_true_iff, Z.leb_gt. done. }
  split_and!; cbn; [done|done| | |].
  - rewrite fmap_app. apply NoDup_app. split_and!.
    + eapply sublist_NoDup; [exact Hnd|]. by apply fmap_sublist.
    + cbn. set_solver.
    + apply NoDup_singleton.
  - unfold len in *. rewrite length_app. cbn. lia.
  - apply Forall_app_2; [by eapply Forall_sublist_keep|]. constructor; [|done]. cbn.
    destruct (Z.leb_spec (rl_max_events rl) (len (rl_recent source now rl))); cbn [negb]; [done|].
    unfold len in *. rewrite length_app. cbn. lia.
Qed.

Lemma rate_limiter_allow_witness :
  let rl := {| rl_max_events := 1; rl_window_seconds := decimal_float false 1 0;
               rl_max_sources := 2;
               rl_events := [(str "10.0.0.1", [decimal_float false 5 0])] |} in
  rl_wf (allow (str "10.0.0.1") (decimal_float false 55 (-1)) rl).2.
Proof.
  intros rl. apply rate_limiter_allow. split_and!; [reflexivity|reflexivity| |discriminate|].
  - apply NoDup_singleton.
  - repeat constructor. discriminate.
Defined.
