(* ===== verification/Consensus.v ===== *)
(** * Replicated task records ([peerq/consensus.py])

    Vector clocks, task states, fencing tokens, the task record with its JSON form and the total
    order of records.  The merge of two records is in [Lattice]. *)

From Stdlib Require Import ZArith NArith Lia.
From S2P Require Import Prelude PyFloat Text Json JsonFacts Security.
Open Scope Z_scope.

(** ** Vector clocks *)

Inductive ClockComparison := BEFORE | AFTER | EQUAL | CONCURRENT.

Record VectorClock := vclock { clock : gmap pystr Z }.

(** [VectorClock.__init__]: counters that are not positive are pruned. *)
Definition VectorClock_init (m : gmap pystr Z) : VectorClock :=
  vclock (filter (fun kv => 0 < kv.2) m).

Definition vc_get (c : VectorClock) (peer : pystr) : Z := default 0 (clock c !! peer).

Definition increment (c : VectorClock) (peer : pystr) : VectorClock :=
  VectorClock_init (<[peer := vc_get c peer + 1]> (clock c)).

(** [set(self.clock.keys()) | set(other.clock.keys())] *)
Definition all_keys (a b : VectorClock) : gset pystr := dom (clock a) ∪ dom (clock b).

Definition vc_merge (a b : VectorClock) : VectorClock :=
  VectorClock_init
    (set_to_map (fun k => (k, Z.max (vc_get a k) (vc_get b k))) (all_keys a b)).

Definition vc_compare (a b : VectorClock) : ClockComparison :=
  let self_leq_other :=
    forallb (fun k => vc_get a k <=? vc_get b k) (elements (all_keys a b)) in
  let other_leq_self :=
    forallb (fun k => vc_get b k <=? vc_get a k) (elements (all_keys a b)) in
  if self_leq_other && other_leq_self then EQUAL
  else if self_leq_other && negb other_leq_self then BEFORE
  else if other_leq_self && negb self_leq_other then AFTER
  else CONCURRENT.

(** The normal form [__init__] establishes. *)
Definition vc_wf (c : VectorClock) : Prop := map_Forall (fun _ n => 0 < n) (clock c).

(** Causal precedence: every counter is at most the other's. *)
Definition vc_le (a b : VectorClock) : Prop := forall k, vc_get a k <= vc_get b k.

(** ** Task states and fencing tokens *)

Inductive TaskState := PENDING | CLAIMED | RUNNING | DONE | FAILED.

Global Instance TaskState_eq_dec : EqDecision TaskState.
Proof. solve_decision. Defined.

(** [TaskState.value] *)
Definition state_value (s : TaskState) : pystr :=
  match s with
  | PENDING => str "pending" | CLAIMED => str "claimed" | RUNNING => str "running"
  | DONE => str "done" | FAILED => str "failed"
  end.

(** [TaskState(value)] *)
Definition state_of_value (v : pystr) : option TaskState :=
  List.find (fun s => bool_decide (state_value s = v)) [PENDING; CLAIMED; RUNNING; DONE; FAILED].

Definition is_terminal (s : TaskState) : bool :=
  match s with DONE | FAILED => true | _ => false end.

Definition lattice_rank (s : TaskState) : Z :=
  match s with PENDING => 0 | CLAIMED => 1 | RUNNING => 2 | FAILED => 3 | DONE => 4 end.

Record FenceToken := ftoken { epoch : Z; ft_peer_id : pystr }.

Global Instance FenceToken_eq_dec : EqDecision FenceToken.
Proof. solve_decision. Defined.

(** [order=True]: the order of the tuples of fields. *)
Definition ft_tuple (t : FenceToken) : Z * pystr := (epoch t, ft_peer_id t).
Global Instance pyord_FenceToken : PyOrd FenceToken := fun a b => pycmp (ft_tuple a) (ft_tuple b).

Definition next_for (t : FenceToken) (peer : pystr) : FenceToken := ftoken (epoch t + 1) peer.

(** ** Task records *)

Record TaskRecord := {
  task_id : pystr;
  state : TaskState;
  payload : list byte;
  task_result : option (list byte);
  task_error : option pystr;
  claimed_by : option pystr;
  fence_token : FenceToken;
  lease_expiry : float;
  vector_clock : VectorClock;
  updated_by : pystr;
  signature : option (list byte);
  signer_id : option pystr;
}.

(** [TaskRecord(task_id, state, payload)] with the defaults of the other fields. *)
Definition new_record (tid : pystr) (s : TaskState) (p : list byte) : TaskRecord := {|
  task_id := tid; state := s; payload := p; task_result := None; task_error := None;
  claimed_by := None; fence_token := ftoken 0 []; lease_expiry := fzero;
  vector_clock := VectorClock_init ∅; updated_by := []; signature := None; signer_id := None;
|}.

(** [replace(r, vector_clock=c)] *)
Definition with_clock (r : TaskRecord) (c : VectorClock) : TaskRecord := {|
  task_id := task_id r; state := state r; payload := payload r; task_result := task_result r;
  task_error := task_error r; claimed_by := claimed_by r; fence_token := fence_token r;
  lease_expiry := lease_expiry r; vector_clock := c; updated_by := updated_by r;
  signature := signature r; signer_id := signer_id r;
|}.

(** ** JSON form *)

Definition opt_json {A} (f : A -> json) (o : option A) : json :=
  match o with Some a => f a | None => JNull end.

Definition vc_json (c : VectorClock) : list (pystr * json) :=
  (fun kv => (kv.1, JInt kv.2)) <$> map_to_list (clock c).

(** [TaskRecord.to_dict]; the members of [vector_clock] are in no particular order (every writer
    sorts keys). *)
Definition to_dict (r : TaskRecord) : list (pystr * json) := [
  (str "task_id", JStr (task_id r));
  (str "state", JStr (state_value (state r)));
  (str "payload", JStr (hex (payload r)));
  (str "result", opt_json (fun b => JStr (hex b)) (task_result r));
  (str "error", opt_json JStr (task_error r));
  (str "claimed_by", opt_json JStr (claimed_by r));
  (str "fence_token", JObj [(str "epoch", JInt (epoch (fence_token r)));
                            (str "peer_id", JStr (ft_peer_id (fence_token r)))]);
  (str "lease_expiry", JFloat (lease_expiry r));
  (str "vector_clock", JObj (vc_json (vector_clock r)));
  (str "updated_by", JStr (updated_by r));
  (str "signature", opt_json (fun b => JStr (hex b)) (signature r));
  (str "signer_id", opt_json JStr (signer_id r))
].

(** [bytes.fromhex(s)] under [except ValueError: raise ValueError(...)] *)
Definition fromhex_or_raise (s : pystr) : result (list byte) :=
  match fromhex s with Some b => Ok b | None => Raise ValueError end.

(** An optional peer identifier: [None] or a non-empty string of bounded length. *)
Definition opt_peer (v : json) : result (option pystr) :=
  match v with
  | JNull => Ok None
  | JStr s =>
      raise_if (bool_decide (s = []) || (MAX_PEER_ID_LENGTH <? len s)) ValueError ;;! Ok (Some s)
  | _ => Raise ValueError
  end.

(** The checks on the entries of [vector_clock]. *)
Fixpoint vc_entries (d : list (pystr * json)) : result (list (pystr * Z)) :=
  match d with
  | [] => Ok []
  | (peer, v) :: d' =>
      match v with
      | JInt counter =>
          raise_if (bool_decide (peer = []) || (MAX_PEER_ID_LENGTH <? len peer) || (counter <? 0))
            ValueError ;;!
          let! rest := vc_entries d' in
          Ok ((peer, counter) :: rest)
      | _ => Raise ValueError
      end
  end.

(** [isinstance(v, (int, float)) and not isinstance(v, bool) and isfinite(float(v))]; [float] of
    an integer beyond the double range raises [OverflowError]. *)
Definition finite_number (v : json) : result float :=
  match v with
  | JFloat f => raise_if (negb (isfinite f)) ValueError ;;! Ok f
  | JInt z =>
      let! f := float_of_int z in
      raise_if (negb (isfinite f)) ValueError ;;! Ok f
  | _ => Raise ValueError
  end.

(** [TaskRecord.from_dict] *)
Definition from_dict (v : json) : result TaskRecord :=
  match v with
  | JObj data =>
      let! tid := match jget (str "task_id") data with
                  | JStr s => raise_if (bool_decide (s = []) || (MAX_TASK_ID_LENGTH <? len s))
                                ValueError ;;! Ok s
                  | _ => Raise ValueError
                  end in
      let! st := match jget (str "state") data with
                 | JStr s => match state_of_value s with Some st => Ok st | None => Raise ValueError end
                 | _ => Raise ValueError
                 end in
      let! pl := match jget (str "payload") data with
                 | JStr s => raise_if (MAX_TASK_PAYLOAD * 2 <? len s) ValueError ;;! fromhex_or_raise s
                 | _ => Raise ValueError
                 end in
      let! res := match jget (str "result") data with
                  | JNull => Ok None
                  | JStr s => raise_if (MAX_TASK_RESULT * 2 <? len s) ValueError ;;!
                              rmap Some (fromhex_or_raise s)
                  | _ => Raise ValueError
                  end in
      let! err := match jget (str "error") data with
                  | JNull => Ok None
                  | JStr s => raise_if (MAX_ERROR_LENGTH <? len s) ValueError ;;! Ok (Some s)
                  | _ => Raise ValueError
                  end in
      let! cb := opt_peer (jget (str "claimed_by") data) in
      let! ub := opt_peer (jget (str "updated_by") data) in
      let! sid := opt_peer (jget (str "signer_id") data) in
      let! ft := match jget (str "fence_token") data with
                 | JObj t =>
                     match jget (str "epoch") t, jget (str "peer_id") t with
                     | JInt e, JStr p =>
                         raise_if ((e <? 0) || (MAX_PEER_ID_LENGTH <? len p)) ValueError ;;!
                         Ok (ftoken e p)
                     | _, _ => Raise ValueError
                     end
                 | _ => Raise ValueError
                 end in
      let! vc := match jget (str "vector_clock") data with
                 | JObj d => raise_if (128 <? len d) ValueError ;;! vc_entries d
                 | _ => Raise ValueError
                 end in
      let! le := finite_number (jget (str "lease_expiry") data) in
      let! sg := match jget (str "signature") data with
                 | JNull => Ok None
                 | JStr s => raise_if (negb (len s =? 128)) ValueError ;;!
                             rmap Some (fromhex_or_raise s)
                 | _ => Raise ValueError
                 end in
      Ok {| task_id := tid; state := st; payload := pl; task_result := res; task_error := err;
            claimed_by := cb; fence_token := ft; lease_expiry := le;
            vector_clock := VectorClock_init (list_to_map vc);
            updated_by := default [] ub; signature := sg; signer_id := sid |}
  | _ => Raise ValueError
  end.

(** ** The lattice order *)

(** [(0, "") if o is None else (1, o)] *)
Definition opt_tuple {A} (o : option (list A)) : Z * list A :=
  match o with None => (0, []) | Some a => (1, a) end.

Abbreviation lattice_key_type :=
  (Z * (FenceToken * (Z * (pystr * ((Z * pystr) * ((Z * list byte) * ((Z * pystr) *
   (list byte * (float * ((Z * list byte) * (Z * pystr)))))))))))%type.

(** [_record_lattice_key]; the tuple is nested to the right. *)
Definition record_lattice_key (r : TaskRecord) : lattice_key_type :=
  ((if is_terminal (state r) then 1 else 0),
   (fence_token r,
    (lattice_rank (state r),
     (updated_by r,
      (opt_tuple (claimed_by r),
       (opt_tuple (task_result r),
        (opt_tuple (task_error r),
         (payload r,
          (lease_expiry r,
           (opt_tuple (signature r),
            opt_tuple (signer_id r))))))))))).

(** [r1 == r2] of the dataclass: all fields compare equal (the two zeros of [float] are equal). *)
Definition rec_eq (r1 r2 : TaskRecord) : bool :=
  bool_decide (task_id r1 = task_id r2) && bool_decide (state r1 = state r2) &&
  bool_decide (payload r1 = payload r2) && bool_decide (task_result r1 = task_result r2) &&
  bool_decide (task_error r1 = task_error r2) && bool_decide (claimed_by r1 = claimed_by r2) &&
  bool_decide (fence_token r1 = fence_token r2) && py_eq (lease_expiry r1) (lease_expiry r2) &&
  bool_decide (clock (vector_clock r1) = clock (vector_clock r2)) &&
  bool_decide (updated_by r1 = updated_by r2) && bool_decide (signature r1 = signature r2) &&
  bool_decide (signer_id r1 = signer_id r2).

(** The records the JSON form represents without loss: the limits [from_dict] enforces. *)
Definition peer_ok (s : pystr) : bool :=
  negb (bool_decide (s = [])) && (len s <=? MAX_PEER_ID_LENGTH).
Definition opt_ok {A} (p : A -> bool) (o : option A) : bool :=
  match o with Some a => p a | None => true end.

Definition record_ok (r : TaskRecord) : bool :=
  negb (bool_decide (task_id r = [])) && (len (task_id r) <=? MAX_TASK_ID_LENGTH) &&
  (len (payload r) <=? MAX_TASK_PAYLOAD) &&
  opt_ok (fun b => len b <=? MAX_TASK_RESULT) (task_result r) &&
  opt_ok (fun e => len e <=? MAX_ERROR_LENGTH) (task_error r) &&
  opt_ok peer_ok (claimed_by r) && peer_ok (updated_by r) && opt_ok peer_ok (signer_id r) &&
  (0 <=? epoch (fence_token r)) && (len (ft_peer_id (fence_token r)) <=? MAX_PEER_ID_LENGTH) &&
  (Z.of_nat (size (clock (vector_clock r))) <=? 128) &&
  forallb (fun kv => peer_ok kv.1 && (0 <? kv.2)) (map_to_list (clock (vector_clock r))) &&
  isfinite (lease_expiry r) &&
  opt_ok (fun b => len b =? 64) (signature r).

(** The text of a record: strings of scalar values and printable numbers. *)
Definition record_text_ok (r : TaskRecord) : bool :=
  scalar_str (task_id r) && opt_ok scalar_str (task_error r) &&
  opt_ok scalar_str (claimed_by r) && scalar_str (updated_by r) &&
  opt_ok scalar_str (signer_id r) && scalar_str (ft_peer_id (fence_token r)) &&
  json_ok (JInt (epoch (fence_token r))) && float_ok (lease_expiry r) &&
  forallb (fun kv => scalar_str kv.1 && json_ok (JInt kv.2)) (map_to_list (clock (vector_clock r))).

(** ** Vector clocks: facts *)

Lemma vc_get_init m k : vc_get (VectorClock_init m) k = Z.max 0 (default 0 (m !! k)).
Proof.
  unfold vc_get, VectorClock_init. cbn. rewrite map_lookup_filter.
  destruct (m !! k) as [n|]; cbn; [|done].
  destruct (decide (0 < n)) as [H|H]; [rewrite option_guard_True by done|rewrite option_guard_False by done];
    cbn; lia.
Qed.

Lemma VectorClock_init_wf m : vc_wf (VectorClock_init m).
Proof. intros k n. cbn. rewrite map_lookup_filter_Some. tauto. Qed.

Lemma VectorClock_init_id c : vc_wf c -> VectorClock_init (clock c) = c.
Proof.
  destruct c as [m]. unfold VectorClock_init, vc_wf. cbn. intros Hwf. f_equal.
  apply map_filter_id. intros k n H. exact (Hwf k n H).
Qed.

Lemma vc_get_nonneg c k : vc_wf c -> 0 <= vc_get c k.
Proof.
  intros Hwf. unfold vc_get. destruct (clock c !! k) as [n|] eqn:E; cbn; [|lia].
  specialize (Hwf k n E). cbn in Hwf. lia.
Qed.

(** Clocks in normal form are determined by their counters. *)
Lemma vc_ext a b : vc_wf a -> vc_wf b -> (forall k, vc_get a k = vc_get b k) -> a = b.
Proof.
  destruct a as [m], b as [m']. unfold vc_wf, vc_get. cbn. intros Ha Hb H. f_equal.
  apply map_eq. intros k. specialize (H k).
  destruct (m !! k) as [n|] eqn:E, (m' !! k) as [n'|] eqn:E'; cbn in H; try congruence.
  - specialize (Ha k n E). cbn in Ha. lia.
  - specialize (Hb k n' E'). cbn in Hb. lia.
Qed.

Lemma vc_get_merge a b k :
  vc_wf a -> vc_wf b -> vc_get (vc_merge a b) k = Z.max (vc_get a k) (vc_get b k).
Proof.
  intros Ha Hb. unfold vc_merge. rewrite vc_get_init.
  pose proof (vc_get_nonneg a k Ha). pose proof (vc_get_nonneg b k Hb).
  destruct (set_to_map _ (all_keys a b) !! k) as [n|] eqn:E; cbn.
  - apply lookup_set_to_map in E as (k' & _ & [= -> <-]); [lia|done].
  - enough (vc_get a k = 0 /\ vc_get b k = 0) by lia.
    enough (~ k ∈ all_keys a b) as Hn.
    { unfold all_keys in Hn. rewrite elem_of_union, !elem_of_dom in Hn.
      unfold vc_get. destruct (clock a !! k), (clock b !! k); naive_solver. }
    intros Hk. apply eq_None_not_Some in E. apply E.
    exists (Z.max (vc_get a k) (vc_get b k)). apply lookup_set_to_map; [done|]. by exists k.
Qed.

Lemma vc_merge_wf a b : vc_wf (vc_merge a b).
Proof. apply VectorClock_init_wf. Qed.

Lemma increment_wf c p : vc_wf (increment c p).
Proof. apply VectorClock_init_wf. Qed.

Lemma vc_get_increment c p k :
  vc_wf c -> vc_get (increment c p) k = vc_get c k + (if decide (p = k) then 1 else 0).
Proof.
  intros Hwf. unfold increment. rewrite vc_get_init. pose proof (vc_get_nonneg c k Hwf).
  destruct (decide (p = k)) as [->|Hne].
  - rewrite lookup_insert_eq. cbn. lia.
  - rewrite lookup_insert_ne by done. fold (vc_get c k). lia.
Qed.

#[export] Hint Resolve VectorClock_init_wf vc_merge_wf increment_wf : peerq.
Create Rewrite HintDb vclock.
#[export] Hint Rewrite vc_get_merge vc_get_increment using eauto with peerq : vclock.

(** Reduce an equation of merged clocks to one of counters. *)
Ltac vc_solve :=
  intros; apply vc_ext; [eauto with peerq..|]; intros ?;
  autorewrite with vclock; lia.

Lemma vc_merge_comm a b : vc_wf a -> vc_wf b -> vc_merge a b = vc_merge b a.
Proof. vc_solve. Qed.

Lemma vc_merge_assoc a b c :
  vc_wf a -> vc_wf b -> vc_wf c -> vc_merge a (vc_merge b c) = vc_merge (vc_merge a b) c.
Proof. vc_solve. Qed.

Lemma vc_merge_idem a : vc_wf a -> vc_merge a a = a.
Proof. vc_solve. Qed.

Lemma vc_merge_le_l a b : vc_wf a -> vc_wf b -> vc_le a (vc_merge a b).
Proof. intros Ha Hb k. autorewrite with vclock. lia. Qed.

Lemma vc_le_refl a : vc_le a a.
Proof. intros k. lia. Qed.

Lemma vc_le_trans a b c : vc_le a b -> vc_le b c -> vc_le a c.
Proof. intros H1 H2 k. specialize (H1 k). specialize (H2 k). lia. Qed.

Lemma vc_merge_le_r a b : vc_wf a -> vc_wf b -> vc_le b (vc_merge a b).
Proof. intros Ha Hb k. autorewrite with vclock. lia. Qed.

Lemma vc_merge_absorb a b : vc_wf a -> vc_wf b -> vc_le b a -> vc_merge a b = a.
Proof.
  intros Ha Hb H. apply vc_ext; [eauto with peerq..|]. intros k. autorewrite with vclock.
  specialize (H k). lia.
Qed.

(** The merge of vector clocks is the least upper bound for causal precedence, and a
    commutative, associative and idempotent operation on clocks in normal form. *)
Theorem vector_clock_merge_semilattice (a b c : VectorClock) :
  vc_wf a -> vc_wf b -> vc_wf c ->
  vc_merge a b = vc_merge b a /\
  vc_merge a (vc_merge b c) = vc_merge (vc_merge a b) c /\
  vc_merge a a = a /\
  (vc_le (vc_merge a b) c <-> vc_le a c /\ vc_le b c).
Proof.
  intros Ha Hb Hc. split_and!; [by apply vc_merge_comm|by apply vc_merge_assoc|by apply vc_merge_idem|].
  unfold vc_le. split.
  - intros H. split; intros k; specialize (H k); autorewrite with vclock in H; lia.
  - intros [H1 H2] k. specialize (H1 k). specialize (H2 k). autorewrite with vclock. lia.
Qed.

Lemma vector_clock_merge_semilattice_witness :
  let a := VectorClock_init {[str "p1" := 2; str "p2" := 1]} in
  let b := VectorClock_init {[str "p2" := 3]} in
  vc_merge a b = vc_merge b a /\ vc_get (vc_merge a b) (str "p2") = 3.
Proof.
  intros a b. split; [|reflexivity].
  apply (vector_clock_merge_semilattice a b b); apply VectorClock_init_wf.
Defined.

Lemma vc_leq_forallb a b :
  vc_wf a -> vc_wf b ->
  forallb (fun k => vc_get a k <=? vc_get b k) (elements (all_keys a b)) = true <-> vc_le a b.
Proof.
  intros Ha Hb. rewrite forallb_Forall, Forall_forall. unfold vc_le. split.
  - intros H k. destruct (decide (k ∈ all_keys a b)) as [Hk|Hk].
    + apply Z.leb_le, H. by apply elem_of_elements.
    + unfold all_keys in Hk. rewrite elem_of_union, !elem_of_dom in Hk.
      unfold vc_get. destruct (clock a !! k), (clock b !! k); naive_solver.
  - intros H k _. apply Z.leb_le, H.
Qed.

Lemma all_keys_comm a b : all_keys a b = all_keys b a.
Proof. unfold all_keys. set_solver. Qed.

Lemma vc_compare_cases a b :
  vc_wf a -> vc_wf b ->
  match vc_compare a b with
  | EQUAL => vc_le a b /\ vc_le b a
  | BEFORE => vc_le a b /\ ~ vc_le b a
  | AFTER => vc_le b a /\ ~ vc_le a b
  | CONCURRENT => ~ vc_le a b /\ ~ vc_le b a
  end.
Proof.
  intros Ha Hb. unfold vc_compare.
  pose proof (vc_leq_forallb a b Ha Hb) as H1. pose proof (vc_leq_forallb b a Hb Ha) as H2.
  rewrite all_keys_comm in H2.
  destruct (forallb _ _), (forallb _ _); cbn; intuition congruence.
Qed.

(** [compare] decides causal precedence: it answers EQUAL exactly for identical clocks,
    BEFORE exactly when the first strictly precedes the second, AFTER exactly for the converse
    and CONCURRENT exactly when neither precedes the other. *)
Theorem vector_clock_compare_spec (a b : VectorClock) :
  vc_wf a -> vc_wf b ->
  (vc_compare a b = EQUAL <-> a = b) /\
  (vc_compare a b = BEFORE <-> vc_le a b /\ a <> b) /\
  (vc_compare a b = AFTER <-> vc_le b a /\ a <> b) /\
  (vc_compare a b = CONCURRENT <-> ~ vc_le a b /\ ~ vc_le b a).
Proof.
  intros Ha Hb. pose proof (vc_compare_cases a b Ha Hb) as H.
  assert (a = b <-> vc_le a b /\ vc_le b a) as Heq.
  { split; [intros ->; split; apply vc_le_refl|]. intros [H1 H2]. apply vc_ext; [done..|].
    intros k. specialize (H1 k). specialize (H2 k). lia. }
  rewrite Heq. destruct (vc_compare a b); intuition congruence.
Qed.

Lemma vector_clock_compare_spec_witness :
  let a := VectorClock_init {[str "p1" := 1]} in
  let b := VectorClock_init {[str "p2" := 1]} in
  vc_compare a b = CONCURRENT /\ ~ vc_le a b /\ ~ vc_le b a.
Proof.
  intros a b.
  destruct (vector_clock_compare_spec a b (VectorClock_init_wf _) (VectorClock_init_wf _))
    as (_ & _ & _ & H).
  split; [reflexivity|]. apply H. reflexivity.
Defined.

(** A local event strictly advances the clock: the incremented clock is causally after the
    old one and differs from it in the peer's own counter only. *)
Theorem vector_clock_increment_after (c : VectorClock) (p : pystr) :
  vc_wf c ->
  vc_compare c (increment c p) = BEFORE /\
  forall k, vc_get (increment c p) k = vc_get c k + (if decide (p = k) then 1 else 0).
Proof.
  intros Hc. split; [|by intros; apply vc_get_increment].
  pose proof (vc_compare_cases c (increment c p) Hc (increment_wf c p)) as H.
  assert (vc_le c (increment c p)) as H1.
  { intros k. rewrite vc_get_increment by done. destruct (decide (p = k)); lia. }
  assert (~ vc_le (increment c p) c) as H2.
  { intros Hle. specialize (Hle p). rewrite vc_get_increment, decide_True in Hle by done. lia. }
  destruct (vc_compare c (increment c p)); tauto.
Qed.

Lemma vector_clock_increment_after_witness :
  let c := VectorClock_init {[str "p1" := 4]} in
  vc_compare c (increment c (str "p2")) = BEFORE.
Proof. intros c. apply vector_clock_increment_after. apply VectorClock_init_wf. Defined.

(** ** Records: the JSON round trip *)

Lemma state_of_value_value s : state_of_value (state_value s) = Some s.
Proof. by destruct s. Qed.

Lemma dict_get_perm {V} (d d' : list (pystr * V)) k :
  NoDup d.*1 -> d ≡ₚ d' -> dict_get k d = dict_get k d'.
Proof.
  intros Hnd Hp. assert (NoDup d'.*1) as Hnd' by (by rewrite <- Hp).
  destruct (dict_get k d) as [v|] eqn:E.
  - symmetry. apply dict_elem_get; [done|]. rewrite <- Hp. by apply dict_get_Some_elem.
  - symmetry. apply dict_get_None. apply dict_get_None in E. by rewrite <- Hp.
Qed.

Lemma jget_sorted k d :
  NoDup d.*1 -> jget k (sort_items (map (fun kv => (kv.1, sort_keys kv.2)) d)) = sort_keys (jget k d).
Proof.
  intros Hnd. unfold jget.
  rewrite <- (dict_get_perm (map (fun kv => (kv.1, sort_keys kv.2)) d)).
  - clear Hnd. induction d as [|[k' v] d IH]; cbn; [done|]. by destruct (decide (k = k')).
  - by rewrite map_snd_keys.
  - symmetry. apply sort_by_perm.
Qed.

Lemma peer_ok_true s : peer_ok s = true <-> s <> [] /\ len s <= MAX_PEER_ID_LENGTH.
Proof.
  unfold peer_ok. by rewrite andb_true_iff, negb_true_iff, bool_decide_eq_false, Z.leb_le.
Qed.

Lemma raise_if_leb {A} (l : list A) n e k :
  (len l <=? n) = true -> (raise_if (n <? len l) e ;;! k) = k :> result TaskRecord.
Proof. intros ?%Z.leb_le. unfold raise_if. by destruct (Z.ltb_spec n (len l)); [lia|]. Qed.

Lemma opt_peer_ok s : peer_ok s = true -> opt_peer (JStr s) = Ok (Some s).
Proof.
  rewrite peer_ok_true. intros [Hne Hl]. unfold opt_peer.
  rewrite bool_decide_eq_false_2 by done. cbn [orb raise_if].
  destruct (Z.ltb_spec MAX_PEER_ID_LENGTH (len s)); [lia|done].
Qed.

Lemma opt_peer_json o : opt_ok peer_ok o = true -> opt_peer (opt_json JStr o) = Ok o.
Proof. destruct o; cbn [opt_ok opt_json]; [apply opt_peer_ok|done]. Qed.

Lemma hex_len b : len (hex b) = 2 * len b.
Proof. unfold len. rewrite hex_length. lia. Qed.

Lemma fromhex_or_raise_hex b : fromhex_or_raise (hex b) = Ok b.
Proof. unfold fromhex_or_raise. by rewrite fromhex_hex. Qed.

Lemma vc_entries_ok d :
  Forall (fun kv => peer_ok kv.1 && (0 <? kv.2) = true) d ->
  vc_entries ((fun kv => (kv.1, JInt kv.2)) <$> d) = Ok d.
Proof.
  induction 1 as [|[p n] d [Hp Hn]%andb_true_iff Hd IH]; [done|].
  cbn [fmap list_fmap vc_entries fst snd] in *. apply peer_ok_true in Hp as [Hne Hl].
  apply Z.ltb_lt in Hn. rewrite bool_decide_eq_false_2 by done. unfold raise_if.
  destruct (Z.ltb_spec MAX_PEER_ID_LENGTH (len p)); [lia|].
  destruct (Z.ltb_spec n 0); [lia|]. cbn [orb rbind].
  change (list_fmap _ _ _ d) with ((fun kv => (kv.1, JInt kv.2)) <$> d). by rewrite IH.
Qed.

Lemma vc_json_sorted c :
  exists l, l ≡ₚ map_to_list (clock c) /\
  sort_keys (JObj (vc_json c)) = JObj ((fun kv => (kv.1, JInt kv.2)) <$> l).
Proof.
  unfold vc_json. cbn [sort_keys]. generalize (map_to_list (clock c)) as l. intros l.
  exists (sort_items l). split; [apply sort_by_perm|]. f_equal.
  induction l as [|[k n] l IH]; [done|].
  unfold sort_items, sort_by in *. cbn [foldr fmap list_fmap map fst snd sort_keys] in *.
  change (list_fmap _ _ ?f l) with (f <$> l). rewrite IH.
  generalize (foldr (insert_by (fun p q : pystr * Z => py_le p.1 q.1)) [] l) as l'. clear.
  intros l'. induction l' as [|[k' n'] l' IH]; [done|].
  cbn [fmap list_fmap insert_by fst snd] in *. destruct (py_le k k'); [done|].
  cbn. by f_equal.
Qed.

Lemma to_dict_keys_NoDup r : NoDup (to_dict r).*1.
Proof. cbn [to_dict fmap list_fmap fst]. apply (bool_decide_unpack _). by vm_compute. Qed.

Lemma fence_dict_NoDup a b : NoDup ([(str "epoch", a); (str "peer_id", b)] : list (pystr * json)).*1.
Proof. cbn. apply (bool_decide_unpack _). by vm_compute. Qed.

Lemma jget_elem k v d : NoDup d.*1 -> (k, v) ∈ d -> jget k d = v.
Proof. intros Hnd Hin. unfold jget. by rewrite (dict_elem_get k v d Hnd Hin). Qed.

(** Look up a literal key in a literal dictionary. *)
Ltac dict_field := repeat first [apply list_elem_of_here | apply list_elem_of_further].
Ltac jget_field d nd k := rewrite (jget_elem (str k) _ d nd) by dict_field.

(** The limits of a record, one by one. *)
Lemma record_ok_inv r :
  record_ok r = true ->
  (task_id r <> [] /\ len (task_id r) <= MAX_TASK_ID_LENGTH) /\
  len (payload r) <= MAX_TASK_PAYLOAD /\
  opt_ok (fun b => len b <=? MAX_TASK_RESULT) (task_result r) = true /\
  opt_ok (fun e => len e <=? MAX_ERROR_LENGTH) (task_error r) = true /\
  (opt_ok peer_ok (claimed_by r) = true /\ peer_ok (updated_by r) = true /\
   opt_ok peer_ok (signer_id r) = true) /\
  (0 <= epoch (fence_token r) /\ len (ft_peer_id (fence_token r)) <= MAX_PEER_ID_LENGTH) /\
  (Z.of_nat (size (clock (vector_clock r))) <= 128 /\
   Forall (fun kv => peer_ok kv.1 && (0 <? kv.2) = true) (map_to_list (clock (vector_clock r)))) /\
  isfinite (lease_expiry r) = true /\
  opt_ok (fun b => len b =? 64) (signature r) = true.
Proof.
  unfold record_ok. rewrite !andb_true_iff, !Z.leb_le, negb_true_iff, bool_decide_eq_false,
    forallb_Forall. tauto.
Qed.

Lemma raise_if_false {A} (b : bool) e (k : result A) : b = false -> (raise_if b e ;;! k) = k.
Proof. by intros ->. Qed.

Lemma sort_keys_opt_str {A} (f : A -> pystr) o :
  sort_keys (opt_json (fun a => JStr (f a)) o) = opt_json (fun a => JStr (f a)) o.
Proof. by destruct o. Qed.

(** The readers of the optional fields. *)
Lemma read_result o :
  opt_ok (fun b => len b <=? MAX_TASK_RESULT) o = true ->
  match opt_json (fun b => JStr (hex b)) o with
  | JNull => Ok None
  | JStr s => raise_if (MAX_TASK_RESULT * 2 <? len s) ValueError ;;! rmap Some (fromhex_or_raise s)
  | _ => Raise ValueError
  end = Ok o.
Proof.
  destruct o as [b|]; cbn [opt_ok opt_json]; [|done]. intros ?%Z.leb_le.
  rewrite raise_if_false, fromhex_or_raise_hex by (apply Z.ltb_ge; rewrite hex_len; lia). done.
Qed.

Lemma read_signature o :
  opt_ok (fun b => len b =? 64) o = true ->
  match opt_json (fun b => JStr (hex b)) o with
  | JNull => Ok None
  | JStr s => raise_if (negb (len s =? 128)) ValueError ;;! rmap Some (fromhex_or_raise s)
  | _ => Raise ValueError
  end = Ok o.
Proof.
  destruct o as [b|]; cbn [opt_ok opt_json]; [|done]. intros ?%Z.eqb_eq.
  rewrite raise_if_false, fromhex_or_raise_hex; [done|].
  apply negb_false_iff, Z.eqb_eq. rewrite hex_len. lia.
Qed.

Lemma read_error o :
  opt_ok (fun e => len e <=? MAX_ERROR_LENGTH) o = true ->
  match opt_json JStr o with
  | JNull => Ok None
  | JStr s => raise_if (MAX_ERROR_LENGTH <? len s) ValueError ;;! Ok (Some s)
  | _ => Raise ValueError
  end = Ok o.
Proof.
  destruct o as [b|]; cbn [opt_ok opt_json]; [|done]. intros ?%Z.leb_le.
  by rewrite raise_if_false by (apply Z.ltb_ge; lia).
Qed.

(** Reading the JSON form of a record, its keys sorted by the writer, gives the record back. *)
Lemma from_dict_to_dict r :
  record_ok r = true -> vc_wf (vector_clock r) ->
  from_dict (sort_keys (JObj (to_dict r))) = Ok r.
Proof.
  intros ((Htid & Htl) & Hpl & Hres & Herr & (Hcb & Hub & Hsid) & (Hep & Hfp) & (Hvs & Hve) & Hle
    & Hsig)%record_ok_inv Hvc.
  pose proof (to_dict_keys_NoDup r) as nd. cbn [sort_keys from_dict].
  rewrite !jget_sorted by exact nd.
  jget_field (to_dict r) nd "task_id"%string. jget_field (to_dict r) nd "state"%string.
  jget_field (to_dict r) nd "payload"%string. jget_field (to_dict r) nd "result"%string.
  jget_field (to_dict r) nd "error"%string. jget_field (to_dict r) nd "claimed_by"%string.
  jget_field (to_dict r) nd "updated_by"%string. jget_field (to_dict r) nd "signer_id"%string.
  jget_field (to_dict r) nd "fence_token"%string. jget_field (to_dict r) nd "vector_clock"%string.
  jget_field (to_dict r) nd "lease_expiry"%string. jget_field (to_dict r) nd "signature"%string.
  destruct (vc_json_sorted (vector_clock r)) as (l & Hl & ->).
  assert (NoDup l.*1) as Hlnd by (rewrite Hl; apply NoDup_fst_map_to_list).
  assert (Forall (fun kv => peer_ok kv.1 && (0 <? kv.2) = true) l) as Hlf by (by rewrite Hl).
  assert (len l = Z.of_nat (size (clock (vector_clock r)))) as Hll.
  { unfold len. rewrite Hl, length_map_to_list. done. }
  assert (list_to_map l = clock (vector_clock r)) as Hlm.
  { rewrite <- (list_to_map_to_list (clock (vector_clock r))). by apply list_to_map_proper. }
  set (ftd := [(str "epoch", JInt (epoch (fence_token r)));
               (str "peer_id", JStr (ft_peer_id (fence_token r)))]).
  assert (NoDup ftd.*1) as ndf by apply fence_dict_NoDup.
  rewrite !sort_keys_opt_str. cbn [sort_keys]. rewrite !jget_sorted by exact ndf.
  jget_field ftd ndf "epoch"%string. jget_field ftd ndf "peer_id"%string. cbn [sort_keys].
  rewrite read_result, read_error, read_signature by done.
  rewrite !opt_peer_json, opt_peer_ok by done.
  rewrite bool_decide_eq_false_2 by done. cbn [orb].
  rewrite raise_if_false by (apply Z.ltb_ge; lia).
  rewrite state_of_value_value. cbn [rbind].
  rewrite raise_if_false by (apply Z.ltb_ge; rewrite hex_len; lia).
  rewrite fromhex_or_raise_hex. cbn [rbind].
  rewrite raise_if_false by (apply orb_false_iff; rewrite !Z.ltb_ge; lia). cbn [rbind].
  rewrite raise_if_false by (apply Z.ltb_ge; unfold len; rewrite length_fmap; unfold len in Hll; lia).
  rewrite vc_entries_ok by done. cbn [rbind finite_number].
  rewrite raise_if_false by (by rewrite Hle). cbn [rbind]. rewrite Hlm, VectorClock_init_id by done.
  by destruct r as [? ? ? ? ? ? []].
Qed.

Lemma hex_scalar b : scalar_str (hex b) = true.
Proof.
  unfold scalar_str. induction b as [|x b IH]; [done|]. cbn [hex forallb].
  pose proof (Byte.to_N_bounded x) as Hx.
  assert (Byte.to_N x / 16 < 16)%N by (apply N.Div0.div_lt_upper_bound; lia).
  assert (Byte.to_N x mod 16 < 16)%N by (by apply N.mod_lt).
  rewrite !small_scalar by (by apply hex_digit_small). done.
Qed.

Lemma opt_str_json_ok {A} (f : A -> pystr) o :
  opt_ok (fun a => scalar_str (f a)) o = true -> json_ok (opt_json (fun a => JStr (f a)) o) = true.
Proof. by destruct o. Qed.

Lemma opt_hex_json_ok o : json_ok (opt_json (fun b => JStr (hex b)) o) = true.
Proof. apply opt_str_json_ok. destruct o; [apply hex_scalar|done]. Qed.

Lemma vc_json_ok c :
  forallb (fun kv => scalar_str kv.1 && json_ok (JInt kv.2)) (map_to_list (clock c)) = true ->
  json_ok (JObj (vc_json c)) = true.
Proof.
  intros H. cbn [json_ok]. apply andb_true_iff. split.
  - apply bool_decide_eq_true. unfold vc_json. rewrite <- list_fmap_compose.
    exact (NoDup_fst_map_to_list (clock c)).
  - unfold vc_json. apply forallb_Forall in H. apply forallb_Forall, Forall_fmap. exact H.
Qed.

Lemma to_dict_json_ok r : record_text_ok r = true -> json_ok (JObj (to_dict r)) = true.
Proof.
  unfold record_text_ok. rewrite !andb_true_iff.
  intros ((((((((Ht & He) & Hc) & Hu) & Hs) & Hf) & Hep) & Hl) & Hv).
  change (bool_decide (NoDup (to_dict r).*1) &&
    forallb (fun kv => scalar_str kv.1 && json_ok kv.2) (to_dict r) = true).
  rewrite bool_decide_eq_true_2 by apply to_dict_keys_NoDup. cbn [andb].
  apply forallb_Forall. unfold to_dict.
  repeat apply Forall_cons_2; try apply Forall_nil_2; cbn [fst snd]; apply andb_true_iff;
    (split; [reflexivity|]).
  all: first [exact Ht | exact Hu | apply hex_scalar | apply opt_hex_json_ok
             | by apply opt_str_json_ok | exact Hl | by apply vc_json_ok | idtac].
  - by destruct (state r).
  - cbn [json_ok forallb fst snd] in *. rewrite Hep, Hf.
    rewrite bool_decide_eq_true_2 by apply fence_dict_NoDup. reflexivity.
Qed.

(** C26: writing a record within the protocol's limits as sorted JSON in UTF-8 succeeds, and
    decoding the bytes and validating the object with [from_dict] returns the same record. *)
Theorem record_json_round_trip (ensure_ascii : bool) (r : TaskRecord) :
  record_ok r = true -> record_text_ok r = true -> vc_wf (vector_clock r) ->
  exists b v, dumps_bytes ensure_ascii (JObj (to_dict r)) = Ok b /\
              loads_bytes b = Some v /\ from_dict v = Ok r.
Proof.
  intros Hok Ht Hvc.
  destruct (loads_dumps_bytes ensure_ascii (JObj (to_dict r))) as (b & Hd & Hl);
    [by apply to_dict_json_ok|].
  exists b, (sort_keys (JObj (to_dict r))). split_and!; [done|done|by apply from_dict_to_dict].
Qed.

(** A claimed task, used by the witnesses. *)
Definition sample_record : TaskRecord := {|
  task_id := str "task-1"; state := CLAIMED; payload := str_bytes "work";
  task_result := None; task_error := None; claimed_by := Some (str "p1");
  fence_token := ftoken 3 (str "p1"); lease_expiry := decimal_float false 125 (-1);
  vector_clock := VectorClock_init {[str "p1" := 2; str "p2" := 1]};
  updated_by := str "p1"; signature := None; signer_id := None |}.

Lemma record_json_round_trip_witness :
  exists b v, dumps_bytes true (JObj (to_dict sample_record)) = Ok b /\
              loads_bytes b = Some v /\ from_dict v = Ok sample_record.
Proof.
  apply record_json_round_trip; [reflexivity|vm_compute; reflexivity|apply VectorClock_init_wf].
Defined.

(** ** What [from_dict] accepts and raises *)

Lemma opt_peer_sound v o : opt_peer v = Ok o -> opt_ok peer_ok o = true.
Proof.
  destruct v; cbn [opt_peer]; intros H; inv_result; cbn [opt_ok]; try done.
  breflect. apply peer_ok_true. split; [done|]. by apply Z.ltb_ge.
Qed.

Lemma opt_peer_raise v e : opt_peer v = Raise e -> e = ValueError.
Proof. destruct v; cbn [opt_peer]; intros H; inv_result; congruence. Qed.

Lemma fromhex_len s b : fromhex s = Some b -> 2 * len b <= len s.
Proof.
  revert b. induction s as [s IH] using (well_founded_induction (Wf_nat.well_founded_ltof _ length)).
  unfold Wf_nat.ltof in IH. intros b. destruct s as [|c s1]; cbn [fromhex].
  - intros [= <-]. done.
  - unfold len in *. destruct (ascii_space c).
    + intros H%IH; [cbn [length]; lia|cbn [length]; lia].
    + destruct s1 as [|c2 s2]; [done|].
      destruct (hex_value c), (hex_value c2); try done. destruct (Byte.of_N _); [|done].
      destruct (fromhex s2) as [b'|] eqn:E; [|done]. intros [= <-].
      apply IH in E; cbn [length] in *; lia.
Qed.

Lemma fromhex_or_raise_len s b : fromhex_or_raise s = Ok b -> 2 * len b <= len s.
Proof. unfold fromhex_or_raise. destruct (fromhex s) eqn:E; [|done]. intros [= <-]. by apply fromhex_len. Qed.

Lemma vc_entries_sound d l :
  vc_entries d = Ok l ->
  len l = len d /\ Forall (fun kv => peer_ok kv.1 = true /\ 0 <= kv.2) l.
Proof.
  revert l. induction d as [|[p v] d IH]; cbn [vc_entries]; intros l H; [inv_result; done|].
  destruct v; inv_result. destruct (IH _ eq_refl) as [Hl Hf]. breflect.
  split; [unfold len in *; cbn [length]; lia|]. constructor; [|done]. cbn.
  rewrite peer_ok_true. split_and!; [done|by apply Z.ltb_ge|by apply Z.ltb_ge].
Qed.

Lemma vc_entries_raise d e : vc_entries d = Raise e -> e = ValueError.
Proof.
  induction d as [|[p v] d IH]; cbn [vc_entries]; intros H; [done|].
  destruct v; inv_result; eauto; congruence.
Qed.

(** The limits every accepted record satisfies: those of [record_ok], with a signature of at most
    64 bytes and [updated_by] possibly empty. *)
Definition record_bounded (r : TaskRecord) : Prop :=
  task_id r <> [] /\ len (task_id r) <= MAX_TASK_ID_LENGTH /\
  len (payload r) <= MAX_TASK_PAYLOAD /\
  (forall b, task_result r = Some b -> len b <= MAX_TASK_RESULT) /\
  (forall e, task_error r = Some e -> len e <= MAX_ERROR_LENGTH) /\
  opt_ok peer_ok (claimed_by r) = true /\ opt_ok peer_ok (signer_id r) = true /\
  len (updated_by r) <= MAX_PEER_ID_LENGTH /\
  0 <= epoch (fence_token r) /\ len (ft_peer_id (fence_token r)) <= MAX_PEER_ID_LENGTH /\
  isfinite (lease_expiry r) = true /\
  (forall b, signature r = Some b -> len b <= 64) /\
  vc_wf (vector_clock r) /\ (size (clock (vector_clock r)) <= 128)%nat /\
  map_Forall (fun p _ => peer_ok p = true) (clock (vector_clock r)).

Lemma finite_number_sound v f : finite_number v = Ok f -> isfinite f = true.
Proof.
  destruct v; cbn [finite_number]; intros H; try done; inv_result; by breflect.
Qed.

Lemma list_to_map_size {V} (l : list (pystr * V)) :
  (size (list_to_map l : gmap pystr V) <= length l)%nat.
Proof.
  induction l as [|[k v] l IH]; [by rewrite list_to_map_nil, map_size_empty|].
  rewrite list_to_map_cons, map_size_insert. cbn [length]. case_match; cbn [id]; lia.
Qed.

Lemma init_clock_bounds l :
  len l <= 128 -> Forall (fun kv => peer_ok kv.1 = true /\ 0 <= kv.2) l ->
  (size (clock (VectorClock_init (list_to_map l))) <= 128)%nat /\
  map_Forall (fun p _ => peer_ok p = true) (clock (VectorClock_init (list_to_map l))).
Proof.
  intros Hl Hf. unfold VectorClock_init. cbn [clock]. split.
  - etrans; [apply map_size_filter|]. etrans; [apply list_to_map_size|]. unfold len in Hl. lia.
  - intros p n [Hp _]%map_lookup_filter_Some. apply elem_of_list_to_map_2 in Hp.
    rewrite Forall_forall in Hf. by apply Hf in Hp as [? _].
Qed.

Lemma opt_peer_len v o : opt_peer v = Ok o -> len (default [] o) <= MAX_PEER_ID_LENGTH.
Proof.
  intros H%opt_peer_sound. destruct o as [s|]; cbn in *; [|done].
  by apply peer_ok_true in H as [_ ?].
Qed.

Lemma fromhex_opt_len s b n k :
  (raise_if (n * k <? len s) ValueError ;;! rmap Some (fromhex_or_raise s)) = Ok b -> k = 2 ->
  forall x, b = Some x -> len x <= n.
Proof.
  intros H -> x ->. inv_result. destruct (fromhex_or_raise s) eqn:E; [|done].
  cbn in H. injection H as ->. apply fromhex_or_raise_len in E. apply Z.ltb_ge in Eif. lia.
Qed.

(** Split the reader of one field and the checks it makes. *)
Ltac read_field E :=
  repeat match type of E with context [match jget ?k ?d with _ => _ end] =>
    destruct (jget k d); try discriminate E end;
  inv_result; breflect;
  repeat match goal with
  | H : (_ <? _) = false |- _ => apply Z.ltb_ge in H
  | H : (_ =? _) = true |- _ => apply Z.eqb_eq in H
  end.

(** C40: a record that [from_dict] accepts is within every limit of the protocol: a non-empty
    bounded task id, bounded payload, result, error and peer ids, a non-negative epoch, a finite
    lease, a normalised vector clock of at most 128 peers and a signature of at most 64 bytes. *)
Theorem from_dict_bounds (v : json) (r : TaskRecord) : from_dict v = Ok r -> record_bounded r.
Proof.
  intros H. destruct v as [| | | | | |data]; try done. cbn [from_dict] in H. inv_result.
  unfold record_bounded. cbn [task_id payload task_result task_error claimed_by updated_by signer_id
    fence_token lease_expiry signature vector_clock].
  assert (len a8 <= 128 /\ Forall (fun kv => peer_ok kv.1 = true /\ 0 <= kv.2) a8) as [Hl Hf].
  { read_field E8. destruct (vc_entries_sound _ _ E8). split; [lia|done]. }
  destruct (init_clock_bounds a8 Hl Hf) as [Hsize Hpeers].
  split_and!; eauto using opt_peer_sound, opt_peer_len, finite_number_sound, VectorClock_init_wf.
  1, 2: by read_field E.
  - read_field E1. apply fromhex_or_raise_len in E1. lia.
  - destruct (jget (str "result") data); try done; [by inv_result|]. by eapply fromhex_opt_len.
  - intros e ->. read_field E3; by simplify_eq.
  - by read_field E7.
  - by read_field E7.
  - intros b ->. read_field E10. destruct (fromhex_or_raise _) eqn:Eh in E10; [|done].
    injection E10 as ->. apply fromhex_or_raise_len in Eh. lia.
Qed.

Lemma from_dict_bounds_witness :
  record_bounded sample_record.
Proof.
  apply (from_dict_bounds (sort_keys (JObj (to_dict sample_record)))).
  vm_compute. reflexivity.
Defined.

Lemma fromhex_or_raise_raise s e : fromhex_or_raise s = Raise e -> e = ValueError.
Proof. unfold fromhex_or_raise. destruct (fromhex s); congruence. Qed.

Lemma rmap_raise {A B} (f : A -> B) r e : rmap f r = Raise e -> r = Raise e.
Proof. destruct r; cbn; congruence. Qed.

(** A reader that raises raises [ValueError]. *)
Ltac value_error E :=
  repeat match type of E with context [match ?x with _ => _ end] => destruct x end; try discriminate E;
  inv_result; try (apply rmap_raise in E);
  eauto using opt_peer_raise, fromhex_or_raise_raise, vc_entries_raise; congruence.

Lemma finite_number_raise v e :
  finite_number v = Raise e ->
  e = ValueError \/ (exists z, v = JInt z /\ isfinite (Z_to_float z) = false /\ e = OverflowError).
Proof.
  destruct v as [|b|z|f|s|l|d]; cbn [finite_number]; intros H;
    try (inv_result; left; congruence).
  destruct (float_of_int z) as [f|e'] eqn:E; cbn [rbind] in H.
  - inv_result. left. congruence.
  - right. exists z. unfold float_of_int in E. destruct (isfinite (Z_to_float z)); [done|].
    split_and!; congruence.
Qed.

(** The exceptions of [from_dict]. *)
Lemma from_dict_raises (v : json) (e : exc) :
  from_dict v = Raise e ->
  e = ValueError \/
  (e = OverflowError /\ exists data z, v = JObj data /\ jget (str "lease_expiry") data = JInt z /\
                        isfinite (Z_to_float z) = false).
Proof.
  intros H. destruct v as [| | | | | |data]; cbn [from_dict] in H; try (left; congruence).
  inv_result; try (left; value_error E); try (left; value_error E0); try (left; value_error E1);
    try (left; value_error E2); try (left; value_error E3); try (left; value_error E4);
    try (left; value_error E5); try (left; value_error E6); try (left; value_error E7);
    try (left; value_error E8); try (left; value_error E10).
  apply finite_number_raise in E9 as [->|(z & Hz & Hf & ->)]; [by left|].
  right. split; [done|]. eauto.
Qed.

(** A rejected object raises [ValueError], which every caller handles, with one exception: an
    integer [lease_expiry] beyond the range of doubles escapes as [OverflowError]. *)
Theorem from_dict_errors (v : json) (e : exc) :
  from_dict v = Raise e ->
  e = ValueError \/
  (e = OverflowError /\ exists data z, v = JObj data /\ jget (str "lease_expiry") data = JInt z /\
                        isfinite (Z_to_float z) = false).
Proof. apply from_dict_raises. Qed.

(** The JSON object of [sample_record] with an integer lease of [10^309]. *)
Definition huge_lease_object : json :=
  JObj (dict_set (str "lease_expiry") (JInt (10 ^ 309)) (to_dict sample_record)).

Lemma from_dict_errors_witness :
  from_dict huge_lease_object = Raise OverflowError /\
  (OverflowError = ValueError \/
   (OverflowError = OverflowError /\ exists data z, huge_lease_object = JObj data /\
      jget (str "lease_expiry") data = JInt z /\ isfinite (Z_to_float z) = false)).
Proof.
  assert (from_dict huge_lease_object = Raise OverflowError) as H by (vm_compute; reflexivity).
  split; [exact H|]. exact (from_dict_errors huge_lease_object OverflowError H).
Defined.
