(* ===== verification/Crypto.v ===== *)
(** * Task signatures and the key ring ([peerq/crypto.py])

    The [cryptography] package is not part of the repository: the Ed25519 primitives are the
    operations of the class [Ed25519], and what the code relies on are the laws of
    [Ed25519Laws].  Everything the module itself computes (the canonical serialisation, the
    checks around the primitives, the ring) is defined here. *)

From Stdlib Require Import ZArith NArith Lia.
From S2P Require Import Prelude PyFloat Text Json JsonFacts Security Consensus.
Open Scope Z_scope.

(** ** The Ed25519 primitives *)

Class Ed25519 := {
  PrivateKey : Type;
  PublicKey : Type;
  from_public_bytes : list byte -> option PublicKey;
  public_bytes : PublicKey -> list byte;
  from_seed : list byte -> option PrivateKey;
  private_bytes : PrivateKey -> list byte;
  public_key : PrivateKey -> PublicKey;
  ed_sign : PrivateKey -> list byte -> list byte;
  ed_verify : PublicKey -> list byte -> list byte -> bool;
}.

(** Documented behaviour of the package: keys are exported as 32 raw bytes that load back,
    signatures are 64 bytes, and a signature made with a key verifies under its public key. *)
Class Ed25519Laws `{Ed25519} := {
  public_bytes_length : forall k, length (public_bytes k) = 32%nat;
  public_bytes_load : forall k, from_public_bytes (public_bytes k) = Some k;
  private_bytes_length : forall k, length (private_bytes k) = 32%nat;
  private_bytes_load : forall k, from_seed (private_bytes k) = Some k;
  ed_sign_length : forall k m, length (ed_sign k m) = 64%nat;
  ed_verify_sign : forall k m, ed_verify (public_key k) (ed_sign k m) m = true;
}.

(** ** Formatting a lease *)

(** [n / d] rounded to the nearest integer, ties to even ([d > 0]). *)
Definition div_half_even (n d : Z) : Z :=
  let q := n / d in
  let r := n mod d in
  match Z.compare (2 * r) d with
  | Lt => q
  | Gt => q + 1
  | Eq => if Z.even q then q else q + 1
  end.

Definition pad_left (w : nat) (c : N) (s : pystr) : pystr := replicate (w - length s) c ++ s.

(** [f"{x:.6f}"] *)
Definition format_6f (x : float) : pystr :=
  let fixed (s : bool) (micros : Z) :=
    (if s then str "-" else []) ++ N_str (Z.to_N (micros / 1000000)) ++ str "." ++
    pad_left 6 48 (N_str (Z.to_N (micros mod 1000000))) in
  match x with
  | S754_zero s => fixed s 0
  | S754_infinity s => (if s then str "-" else []) ++ str "inf"
  | S754_nan => str "nan"
  | S754_finite s m e =>
      fixed s (if 0 <=? e then Zpos m * 2 ^ e * 1000000
               else div_half_even (Zpos m * 1000000) (2 ^ (- e)))
  end.

(** ** Canonical bytes of a task *)

(** [sorted(task.vector_clock.clock.items())] *)
Definition sorted_clock (c : VectorClock) : list (pystr * Z) := sort_items (map_to_list (clock c)).

Definition canonical_task_doc (t : TaskRecord) : list (pystr * json) := [
  (str "claimed_by", opt_json JStr (claimed_by t));
  (str "error", opt_json JStr (task_error t));
  (str "fence_epoch", JInt (epoch (fence_token t)));
  (str "fence_peer", JStr (ft_peer_id (fence_token t)));
  (str "lease_expiry", JStr (format_6f (lease_expiry t)));
  (str "payload", JStr (hex (payload t)));
  (str "result", opt_json (fun b => JStr (hex b)) (task_result t));
  (str "signer_id", opt_json JStr (signer_id t));
  (str "state", JStr (state_value (state t)));
  (str "task_id", JStr (task_id t));
  (str "updated_by", JStr (updated_by t));
  (str "vector_clock", JArr ((fun kv => JArr [JStr kv.1; JInt kv.2]) <$> sorted_clock (vector_clock t)))
].

(** [canonical_task_bytes]; an integer beyond the interpreter's digit limit raises. *)
Definition canonical_task_bytes (t : TaskRecord) : result (list byte) :=
  dumps_bytes true (JObj (canonical_task_doc t)).

(** [replace(t, signer_id=s, signature=g)] *)
Definition with_signature (t : TaskRecord) (g : option (list byte)) (s : option pystr) : TaskRecord := {|
  task_id := task_id t; state := state t; payload := payload t; task_result := task_result t;
  task_error := task_error t; claimed_by := claimed_by t; fence_token := fence_token t;
  lease_expiry := lease_expiry t; vector_clock := vector_clock t; updated_by := updated_by t;
  signature := g; signer_id := s;
|}.

Section crypto.
Context `{Ed25519}.

(** ** Key wrappers *)

(** [Ed25519PublicKeyWrapper.from_bytes] *)
Definition pub_from_bytes (data : list byte) : result PublicKey :=
  raise_if (negb (len data =? 32)) InvalidKeyError ;;!
  match from_public_bytes data with Some k => Ok k | None => Raise InvalidKeyError end.

(** [Ed25519PublicKeyWrapper.from_hex] *)
Definition pub_from_hex (s : pystr) : result PublicKey :=
  match fromhex s with Some raw => pub_from_bytes raw | None => Raise InvalidKeyError end.

Definition pub_to_hex (k : PublicKey) : pystr := hex (public_bytes k).

(** [Ed25519PublicKeyWrapper.verify] *)
Definition pub_verify (k : PublicKey) (signature data : list byte) : bool :=
  if negb (len signature =? 64) then false else ed_verify k signature data.

(** [Ed25519KeyPair.from_private_bytes] *)
Definition pair_from_private_bytes (data : list byte) : result PrivateKey :=
  raise_if (negb (len data =? 32)) InvalidKeyError ;;!
  match from_seed data with Some k => Ok k | None => Raise InvalidKeyError end.

(** [Ed25519KeyPair.from_hex] *)
Definition pair_from_hex (s : pystr) : result PrivateKey :=
  match fromhex s with Some raw => pair_from_private_bytes raw | None => Raise InvalidKeyError end.

Definition pair_to_hex (k : PrivateKey) : pystr := hex (private_bytes k).

(** [Ed25519KeyPair.verify] *)
Definition pair_verify (k : PrivateKey) (signature data : list byte) : bool :=
  pub_verify (public_key k) signature data.

(** ** The key ring *)

Definition PeerKeyRing : Type := list (pystr * PublicKey).

Inductive KeyArg := KeyWrapper (k : PublicKey) | KeyBytes (b : list byte) | KeyHex (s : pystr).

Definition add_peer (peer : pystr) (key : KeyArg) (ring : PeerKeyRing) : result PeerKeyRing :=
  raise_if (bool_decide (peer = []) || (MAX_PEER_ID_LENGTH <? len peer)) ValueError ;;!
  let! k := match key with
            | KeyWrapper k => Ok k
            | KeyBytes b => pub_from_bytes b
            | KeyHex s => pub_from_hex s
            end in
  Ok (dict_set peer k ring).

Definition remove_peer (peer : pystr) (ring : PeerKeyRing) : PeerKeyRing := dict_del peer ring.
Definition has_peer (peer : pystr) (ring : PeerKeyRing) : bool := dict_mem peer ring.
Definition get_peer_key (peer : pystr) (ring : PeerKeyRing) : option PublicKey := dict_get peer ring.

(** [PeerKeyRing.verify] *)
Definition ring_verify (ring : PeerKeyRing) (peer : pystr) (signature data : list byte) : bool :=
  match dict_get peer ring with
  | None => false
  | Some k => pub_verify k signature data
  end.

(** ** Task signatures *)

Definition sign_task (key_pair : PrivateKey) (t : TaskRecord) (signer : pystr) : result TaskRecord :=
  let staged := with_signature t None (Some signer) in
  let! data := canonical_task_bytes staged in
  Ok (with_signature staged (Some (ed_sign key_pair data)) (signer_id staged)).

Definition verify_task_signature (t : TaskRecord) (ring : PeerKeyRing) : result bool :=
  match signature t, signer_id t with
  | Some sig, Some signer =>
      let staged := with_signature t None (signer_id t) in
      let! data := canonical_task_bytes staged in
      Ok (ring_verify ring signer sig data)
  | _, _ => Ok false
  end.

Definition verify_task_authorization (t : TaskRecord) (ring : PeerKeyRing) : result bool :=
  let! ok := verify_task_signature t ring in
  if negb ok then Ok false
  else
    match claimed_by t with
    | Some c =>
        if negb (bool_decide (signer_id t = Some c)) then Ok false
        else if negb (bool_decide (ft_peer_id (fence_token t) = c)) then Ok false
        else Ok true
    | None => Ok true
    end.
End crypto.

(** ** The canonical document determines the record *)

Lemma canonical_doc_NoDup t : NoDup (canonical_task_doc t).*1.
Proof. cbn [canonical_task_doc fmap list_fmap fst]. apply (bool_decide_unpack _). by vm_compute. Qed.

Lemma N_str_scalar n : scalar_str (N_str n) = true.
Proof.
  unfold scalar_str. apply forallb_Forall. eapply Forall_impl; [apply N_str_digit|].
  intros c Hc. by apply num_char_scalar, digit_num_char.
Qed.

Lemma scalar_str_app a b : scalar_str (a ++ b) = scalar_str a && scalar_str b.
Proof. apply forallb_app. Qed.

Lemma pad_left_scalar w c s : is_scalar c = true -> scalar_str (pad_left w c s) = scalar_str s.
Proof.
  intros Hc. unfold pad_left. rewrite scalar_str_app.
  enough (scalar_str (replicate (w - length s) c) = true) as -> by done.
  apply forallb_Forall, Forall_replicate. done.
Qed.

Lemma format_6f_scalar x : scalar_str (format_6f x) = true.
Proof.
  assert (forall (s : bool) (m : Z), scalar_str ((if s then str "-" else []) ++
    N_str (Z.to_N (m / 1000000)) ++ str "." ++
    pad_left 6 48 (N_str (Z.to_N (m mod 1000000)))) = true) as Hfix.
  { intros s m. rewrite !scalar_str_app, pad_left_scalar, !N_str_scalar by done. by destruct s. }
  destruct x as [s|s| |s m e]; unfold format_6f; try done; try apply Hfix; by destruct s.
Qed.

Lemma canonical_doc_ok t : record_text_ok t = true -> json_ok (JObj (canonical_task_doc t)) = true.
Proof.
  unfold record_text_ok. rewrite !andb_true_iff.
  intros ((((((((Ht & He) & Hc) & Hu) & Hs) & Hf) & Hep) & Hl) & Hv).
  change (bool_decide (NoDup (canonical_task_doc t).*1) &&
    forallb (fun kv => scalar_str kv.1 && json_ok kv.2) (canonical_task_doc t) = true).
  rewrite bool_decide_eq_true_2 by apply canonical_doc_NoDup. cbn [andb].
  apply forallb_Forall. unfold canonical_task_doc.
  repeat apply Forall_cons_2; try apply Forall_nil_2; cbn [fst snd]; apply andb_true_iff;
    (split; [reflexivity|]).
  all: first [exact Ht | exact Hu | exact Hf | exact Hep | apply hex_scalar | apply opt_hex_json_ok
             | by apply opt_str_json_ok | apply format_6f_scalar | idtac].
  - by destruct (state t).
  - cbn [json_ok]. apply forallb_Forall, Forall_fmap. unfold sorted_clock, sort_items.
    rewrite sort_by_perm. apply forallb_Forall in Hv. eapply Forall_impl; [exact Hv|].
    intros [k n] [Hk Hn]%andb_true_iff. cbn [compose json_ok forallb fst snd] in *. by rewrite Hk, Hn.
Qed.

Lemma opt_json_inj {A} (f : A -> json) o o' :
  (forall a b, f a = f b -> a = b) -> (forall a, f a <> JNull) ->
  opt_json f o = opt_json f o' -> o = o'.
Proof. intros Hinj Hn. destruct o, o'; cbn; intros E; [f_equal; auto|naive_solver..|done]. Qed.

Lemma opt_str_inj o o' : opt_json JStr o = opt_json JStr o' -> o = o'.
Proof. apply opt_json_inj; congruence. Qed.

Lemma opt_hex_inj o o' :
  opt_json (fun b => JStr (hex b)) o = opt_json (fun b => JStr (hex b)) o' -> o = o'.
Proof. apply opt_json_inj; [|done]. intros a b [= E]. by apply hex_inj. Qed.

Lemma state_value_inj s s' : state_value s = state_value s' -> s = s'.
Proof. intros E%(f_equal state_of_value). rewrite !state_of_value_value in E. congruence. Qed.

Lemma sorted_clock_inj c c' : sorted_clock c = sorted_clock c' -> c = c'.
Proof.
  destruct c as [m], c' as [m']. unfold sorted_clock. cbn. intros E. f_equal.
  rewrite <- (list_to_map_to_list m), <- (list_to_map_to_list m').
  apply list_to_map_proper; [apply NoDup_fst_map_to_list|].
  rewrite <- (sort_by_perm (fun p q => py_le p.1 q.1) (map_to_list m)).
  rewrite <- (sort_by_perm (fun p q => py_le p.1 q.1) (map_to_list m')).
  unfold sort_items in E. by rewrite E.
Qed.

Lemma clock_pairs_inj (l l' : list (pystr * Z)) :
  (fun kv : pystr * Z => JArr [JStr kv.1; JInt kv.2]) <$> l =
  (fun kv => JArr [JStr kv.1; JInt kv.2]) <$> l' -> l = l'.
Proof. apply list_fmap_eq_inj. intros [a b] [a' b'] E. by injection E as -> ->. Qed.

Lemma sort_keys_clock (l : list (pystr * Z)) :
  sort_keys (JArr ((fun kv : pystr * Z => JArr [JStr kv.1; JInt kv.2]) <$> l)) =
  JArr ((fun kv => JArr [JStr kv.1; JInt kv.2]) <$> l).
Proof. cbn [sort_keys]. f_equal. induction l as [|[k n] l IH]; [done|]. cbn. by f_equal. Qed.

(** Records with the same canonical bytes have the same fields, one key at a time. *)
Lemma canonical_bytes_field t t' b k :
  json_ok (JObj (canonical_task_doc t)) = true -> json_ok (JObj (canonical_task_doc t')) = true ->
  canonical_task_bytes t = Ok b -> canonical_task_bytes t' = Ok b ->
  sort_keys (jget k (canonical_task_doc t)) = sort_keys (jget k (canonical_task_doc t')).
Proof.
  unfold canonical_task_bytes. intros H1 H2 E1 E2.
  destruct (loads_dumps_bytes true _ H1) as (b1 & D1 & L1).
  destruct (loads_dumps_bytes true _ H2) as (b2 & D2 & L2).
  assert (sort_keys (JObj (canonical_task_doc t)) = sort_keys (JObj (canonical_task_doc t'))) as E
    by congruence.
  rewrite <- (jget_sorted k _ (canonical_doc_NoDup t)).
  rewrite <- (jget_sorted k _ (canonical_doc_NoDup t')).
  exact (f_equal (fun v => match v with JObj d => jget k d | _ => JNull end) E).
Qed.

(** C27: the signed bytes bind the record: two records (of scalar-value text) with the same
    canonical bytes agree on every field except the signature itself, the lease being bound to
    its six decimals. *)
Theorem canonical_bytes_bind (t t' : TaskRecord) (b : list byte) :
  record_text_ok t = true -> record_text_ok t' = true ->
  canonical_task_bytes t = Ok b -> canonical_task_bytes t' = Ok b ->
  task_id t = task_id t' /\ state t = state t' /\ payload t = payload t' /\
  task_result t = task_result t' /\ task_error t = task_error t' /\
  claimed_by t = claimed_by t' /\ fence_token t = fence_token t' /\
  format_6f (lease_expiry t) = format_6f (lease_expiry t') /\
  vector_clock t = vector_clock t' /\ updated_by t = updated_by t' /\ signer_id t = signer_id t'.
Proof.
  intros Hx%canonical_doc_ok Hy%canonical_doc_ok E1 E2.
  pose proof (fun k => canonical_bytes_field t t' b k Hx Hy E1 E2) as F.
  pose proof (canonical_doc_NoDup t) as n1. pose proof (canonical_doc_NoDup t') as n2.
  assert (forall k v v', (str k, v) ∈ canonical_task_doc t -> (str k, v') ∈ canonical_task_doc t' ->
    sort_keys v = sort_keys v') as G.
  { intros k v v' Hv Hv'. specialize (F (str k)).
    by rewrite (jget_elem _ _ _ n1 Hv), (jget_elem _ _ _ n2 Hv') in F. }
  pose proof (G "claimed_by"%string _ _ ltac:(dict_field) ltac:(dict_field)) as Hcb.
  pose proof (G "error"%string _ _ ltac:(dict_field) ltac:(dict_field)) as Her.
  pose proof (G "fence_epoch"%string _ _ ltac:(dict_field) ltac:(dict_field)) as Hfe.
  pose proof (G "fence_peer"%string _ _ ltac:(dict_field) ltac:(dict_field)) as Hfp.
  pose proof (G "lease_expiry"%string _ _ ltac:(dict_field) ltac:(dict_field)) as Hle.
  pose proof (G "payload"%string _ _ ltac:(dict_field) ltac:(dict_field)) as Hpl.
  pose proof (G "result"%string _ _ ltac:(dict_field) ltac:(dict_field)) as Hre.
  pose proof (G "signer_id"%string _ _ ltac:(dict_field) ltac:(dict_field)) as Hsi.
  pose proof (G "state"%string _ _ ltac:(dict_field) ltac:(dict_field)) as Hst.
  pose proof (G "task_id"%string _ _ ltac:(dict_field) ltac:(dict_field)) as Hti.
  pose proof (G "updated_by"%string _ _ ltac:(dict_field) ltac:(dict_field)) as Hub.
  pose proof (G "vector_clock"%string _ _ ltac:(dict_field) ltac:(dict_field)) as Hvc.
  rewrite !sort_keys_clock in Hvc. rewrite !sort_keys_opt_str in Hre.
  cbn [sort_keys] in *. injection Hfe as Hfe. injection Hfp as Hfp. injection Hle as Hle.
  injection Hpl as Hpl%hex_inj. injection Hst as Hst%state_value_inj. injection Hti as Hti.
  injection Hub as Hub. injection Hvc as Hvc%clock_pairs_inj%sorted_clock_inj.
  apply opt_hex_inj in Hre.
  assert (forall o, sort_keys (opt_json JStr o) = opt_json JStr o) as Ho by by intros [].
  rewrite !Ho in Hcb, Her, Hsi. apply opt_str_inj in Hcb, Her, Hsi.
  assert (fence_token t = fence_token t') as Hft.
  { destruct (fence_token t), (fence_token t'); cbn in Hfe, Hfp; congruence. }
  by split_and!.
Qed.

Lemma canonical_bytes_bind_witness :
  let t' := with_signature sample_record (Some (replicate 64 (Z_byte 7))) None in
  exists b, canonical_task_bytes sample_record = Ok b /\ fence_token sample_record = fence_token t'.
Proof.
  intros t'.
  destruct (canonical_task_bytes sample_record) as [b|] eqn:E; [|vm_compute in E; discriminate E].
  exists b. split; [reflexivity|].
  apply (canonical_bytes_bind sample_record t' b);
    [vm_compute; reflexivity|vm_compute; reflexivity|exact E|exact E].
Defined.

(** ** Signing and verifying *)

Lemma canonical_bytes_ok t : record_text_ok t = true -> exists b, canonical_task_bytes t = Ok b.
Proof.
  intros H%canonical_doc_ok. destruct (loads_dumps_bytes true _ H) as (b & Hd & _). by exists b.
Qed.

(** The conditions of [verify_task_authorization] besides the signature. *)
Definition claim_owned (t : TaskRecord) : Prop :=
  forall c, claimed_by t = Some c -> signer_id t = Some c /\ ft_peer_id (fence_token t) = c.

Section crypto_facts.
Context `{Ed25519Laws}.

Lemma pub_verify_sign k m : pub_verify (public_key k) (ed_sign k m) m = true.
Proof.
  unfold pub_verify, len. rewrite ed_sign_length. cbn. apply ed_verify_sign.
Qed.

Lemma verify_authorization_true t ring :
  verify_task_authorization t ring = Ok true <->
  verify_task_signature t ring = Ok true /\ claim_owned t.
Proof.
  unfold verify_task_authorization, claim_owned.
  destruct (verify_task_signature t ring) as [[|]|e]; cbn [rbind negb]; [|naive_solver..].
  destruct (claimed_by t) as [c|]; [|naive_solver].
  destruct (bool_decide (signer_id t = Some c)) eqn:E1; breflect; cbn [negb]; [|naive_solver].
  destruct (bool_decide (ft_peer_id (fence_token t) = c)) eqn:E2; breflect; cbn [negb]; naive_solver.
Qed.

Lemma verify_signature_true t ring :
  verify_task_signature t ring = Ok true ->
  exists signer sig k data, signer_id t = Some signer /\ signature t = Some sig /\
    dict_get signer ring = Some k /\ canonical_task_bytes t = Ok data /\ len sig = 64 /\
    ed_verify k sig data = true.
Proof.
  unfold verify_task_signature. destruct (signature t) as [sig|]; [|done].
  destruct (signer_id t) as [signer|] eqn:Es; [|done].
  assert (canonical_task_bytes (with_signature t None (Some signer)) = canonical_task_bytes t) as ->.
  { unfold canonical_task_bytes, canonical_task_doc. cbn. by rewrite Es. }
  destruct (canonical_task_bytes t) as [data|]; [|done]. cbn [rbind]. intros [= Hv].
  unfold ring_verify, pub_verify in Hv. destruct (dict_get signer ring) as [k|] eqn:Ek; [|done].
  destruct (len sig =? 64) eqn:El; [|done]. apply Z.eqb_eq in El. eauto 10.
Qed.

(** A signed record verifies under the signer's key. *)
Lemma sign_task_authorized (key : PrivateKey) (t : TaskRecord) (signer : pystr) (ring : PeerKeyRing) :
  record_text_ok t = true -> scalar_str signer = true ->
  get_peer_key signer ring = Some (public_key key) ->
  exists t', sign_task key t signer = Ok t' /\ signer_id t' = Some signer /\
    verify_task_signature t' ring = Ok true /\
    (verify_task_authorization t' ring = Ok true <->
     forall c, claimed_by t = Some c -> c = signer /\ ft_peer_id (fence_token t) = signer).
Proof.
  intros Ht Hs Hk. unfold sign_task, get_peer_key in *.
  destruct (canonical_bytes_ok (with_signature t None (Some signer))) as [data Hd].
  { revert Ht. unfold record_text_ok. cbn. rewrite !andb_true_iff. tauto. }
  rewrite Hd. cbn [rbind]. eexists. split; [reflexivity|]. split; [done|].
  assert (verify_task_signature (with_signature (with_signature t None (Some signer))
    (Some (ed_sign key data)) (Some signer)) ring = Ok true) as Hv.
  { unfold verify_task_signature. cbn. change (with_signature _ None (Some signer)) with
      (with_signature t None (Some signer)). rewrite Hd. cbn [rbind]. unfold ring_verify.
    by rewrite Hk, pub_verify_sign. }
  split; [exact Hv|]. rewrite verify_authorization_true. unfold claim_owned.
  cbn [claimed_by signer_id fence_token with_signature]. split.
  - intros [_ Hc] c E. destruct (Hc c E). split; congruence.
  - intros Hc. split; [exact Hv|]. intros c E. destruct (Hc c E). split; congruence.
Qed.

(** Signing then verifying succeeds: a record signed by a peer whose public key is in the
    ring carries a valid signature, and it is authorised exactly when the record is unclaimed or
    claimed by that peer under that peer's fencing token. *)
Theorem sign_task_verifies (key : PrivateKey) (t : TaskRecord) (signer : pystr) (ring : PeerKeyRing) :
  record_text_ok t = true -> scalar_str signer = true ->
  get_peer_key signer ring = Some (public_key key) ->
  exists t', sign_task key t signer = Ok t' /\ signer_id t' = Some signer /\
    verify_task_signature t' ring = Ok true /\
    (verify_task_authorization t' ring = Ok true <->
     forall c, claimed_by t = Some c -> c = signer /\ ft_peer_id (fence_token t) = signer).
Proof. apply sign_task_authorized. Qed.

(** An authorised record comes from the ring: its signer has a key there under which the
    64-byte signature of the canonical bytes verifies, and a claimed record is signed by its
    claimant and carries the claimant's fencing token. *)
Theorem authorization_sound (t : TaskRecord) (ring : PeerKeyRing) :
  verify_task_authorization t ring = Ok true ->
  (exists signer sig k data, signer_id t = Some signer /\ signature t = Some sig /\
     get_peer_key signer ring = Some k /\ canonical_task_bytes t = Ok data /\
     len sig = 64 /\ ed_verify k sig data = true) /\
  (forall c, claimed_by t = Some c -> signer_id t = Some c /\ ft_peer_id (fence_token t) = c).
Proof.
  intros [Hs Hc]%verify_authorization_true. split; [|exact Hc].
  exact (verify_signature_true t ring Hs).
Qed.

(** The key ring is a map from bounded peer ids: a registered key is the one found until it
    is replaced or revoked, other peers are untouched, a revoked peer verifies nothing, and a
    key given as hexadecimal text of its raw bytes is that key. *)
Theorem key_ring_operations (ring : PeerKeyRing) (peer q : pystr) (k : PublicKey) :
  peer_ok peer = true -> NoDup ring.*1 ->
  exists ring', add_peer peer (KeyHex (pub_to_hex k)) ring = Ok ring' /\
    add_peer peer (KeyWrapper k) ring = Ok ring' /\ add_peer peer (KeyBytes (public_bytes k)) ring = Ok ring' /\
    NoDup ring'.*1 /\
    get_peer_key q ring' = (if decide (peer = q) then Some k else get_peer_key q ring) /\
    get_peer_key q (remove_peer peer ring') = (if decide (peer = q) then None else get_peer_key q ring) /\
    (forall sig data, ring_verify (remove_peer peer ring') peer sig data = false).
Proof.
  intros [Hne Hl]%peer_ok_true Hnd. exists (dict_set peer k ring).
  assert (pub_from_bytes (public_bytes k) = Ok k) as Hb.
  { unfold pub_from_bytes, len. rewrite public_bytes_length. cbn. by rewrite public_bytes_load. }
  assert (pub_from_hex (pub_to_hex k) = Ok k) as Hh.
  { unfold pub_from_hex, pub_to_hex. by rewrite fromhex_hex. }
  assert (bool_decide (peer = []) || (MAX_PEER_ID_LENGTH <? len peer) = false) as Hok.
  { rewrite bool_decide_eq_false_2 by done. by apply Z.ltb_ge. }
  unfold add_peer. rewrite !raise_if_false by exact Hok.
  rewrite Hb, Hh. cbn [rbind]. unfold get_peer_key, remove_peer, ring_verify.
  assert (NoDup (dict_set peer k ring).*1) as Hnd' by (by apply dict_set_NoDup).
  split_and!; [done|done|done|done| | |].
  - apply dict_get_set.
  - destruct (decide (peer = q)) as [<-|Hq]; [by apply dict_get_del_eq|].
    by rewrite dict_get_del_ne, dict_get_set_ne.
  - intros. by rewrite dict_get_del_eq.
Qed.
End crypto_facts.

(** ** A concrete instance

    A toy scheme that satisfies the laws, on which the witnesses are evaluated: the private key
    is its 32-byte seed, the public key the same bytes, and a signature the 64 bytes of a
    polynomial hash of key and message. *)
Definition toy_key : Type := { b : list byte | bool_decide (length b = 32%nat) }.

Fixpoint Z_bytes (n : nat) (z : Z) : list byte :=
  match n with O => [] | S m => Z_byte z :: Z_bytes m (z / 256) end.

Definition toy_hash (b : list byte) : Z :=
  foldl (fun h x => (h * 31 + byte_Z x + 1) mod 65536) 7 b.

Definition toy_tag (k : toy_key) (m : list byte) : list byte := Z_bytes 64 (toy_hash (`k ++ m)).

Definition toy_load (b : list byte) : option toy_key :=
  match decide (bool_decide (length b = 32%nat)) with left p => Some (b ↾ p) | right _ => None end.

Global Instance toy_ed25519 : Ed25519 := {|
  PrivateKey := toy_key; PublicKey := toy_key;
  from_public_bytes := toy_load; public_bytes := fun k => `k;
  from_seed := toy_load; private_bytes := fun k => `k;
  public_key := fun k => k; ed_sign := toy_tag;
  ed_verify := fun k sig m => bool_decide (sig = toy_tag k m);
|}.

Lemma toy_load_proj (k : toy_key) : toy_load (`k) = Some k.
Proof.
  destruct k as [b p]. unfold toy_load. cbn [proj1_sig].
  destruct (decide (bool_decide (length b = 32%nat))) as [p'|n]; [|by destruct n].
  do 2 f_equal. apply proof_irrel.
Qed.

Lemma toy_length (k : toy_key) : length (`k) = 32%nat.
Proof. exact (bool_decide_unpack _ (proj2_sig k)). Qed.

Lemma Z_bytes_length n z : length (Z_bytes n z) = n.
Proof. revert z. induction n; intros; cbn; [done|]. by rewrite IHn. Qed.

Global Instance toy_ed25519_laws : Ed25519Laws.
Proof.
  split; intros.
  - apply toy_length.
  - apply toy_load_proj.
  - apply toy_length.
  - apply toy_load_proj.
  - apply Z_bytes_length.
  - by apply bool_decide_eq_true.
Qed.

(** The key whose seed is 32 copies of a byte. *)
Definition toy_seed (n : Z) : @PrivateKey toy_ed25519 :=
  replicate 32 (Z_byte n) ↾ bool_decide_pack (length (replicate 32 (Z_byte n)) = 32%nat) eq_refl.
Definition toy_pub (n : Z) : @PublicKey toy_ed25519 := public_key (toy_seed n).

Definition toy_ring : PeerKeyRing := [(str "p1", toy_pub 1); (str "p2", toy_pub 2)].

Lemma sign_task_verifies_witness :
  exists t', sign_task (toy_seed 1) sample_record (str "p1") = Ok t' /\
    verify_task_authorization t' toy_ring = Ok true.
Proof.
  destruct (sign_task_verifies (toy_seed 1) sample_record (str "p1") toy_ring) as (t' & Hs & _ & _ & Ha).
  - vm_compute. reflexivity.
  - reflexivity.
  - reflexivity.
  - exists t'. split; [exact Hs|]. apply Ha. intros c [= <-]. split; reflexivity.
Defined.

(** [sample_record] signed by its claimant. *)
Definition signed_sample : TaskRecord :=
  match sign_task (toy_seed 1) sample_record (str "p1") with Ok t => t | Raise _ => sample_record end.

Lemma authorization_sound_witness :
  signer_id signed_sample = Some (str "p1") /\ ft_peer_id (fence_token signed_sample) = str "p1".
Proof.
  assert (verify_task_authorization signed_sample toy_ring = Ok true) as H
    by (vm_compute; reflexivity).
  exact (proj2 (authorization_sound signed_sample toy_ring H) (str "p1") eq_refl).
Defined.

Lemma key_ring_operations_witness :
  exists ring', add_peer (str "p3") (KeyHex (pub_to_hex (toy_pub 3))) toy_ring = Ok ring' /\
    get_peer_key (str "p3") ring' = Some (toy_pub 3).
Proof.
  destruct (key_ring_operations toy_ring (str "p3") (str "p3") (toy_pub 3)) as (ring' & H1 & _ & _ & _ & H2 & _).
  - reflexivity.
  - apply (bool_decide_unpack _). vm_compute. exact I.
  - exists ring'. split; [exact H1|]. rewrite H2. by rewrite decide_True.
Defined.
