(* ===== verification/Lattice.v ===== *)
(** * Merging replicated records ([merge_records] of [peerq/consensus.py])

    The CRDT merge, its join-semilattice laws up to the equality of the dataclass, convergence of
    replicas that receive the same updates in any order, and the merge under a key ring. *)

From Stdlib Require Import ZArith NArith Lia.
From S2P Require Import Prelude PyFloat Text Json JsonFacts Security Consensus Crypto.
Open Scope Z_scope.

(** ** Semilattices

    A join on the elements satisfying [P], up to an equivalence [R]. *)
Class SemilatticeOn {A : Type} (P : A -> Prop) (R : relation A) (join : A -> A -> A) := {
  sl_per :: RelationClasses.PER R;
  sl_refl : forall x, P x -> R x x;
  sl_closed : forall x y, P x -> P y -> P (join x y);
  sl_proper : forall x x' y y', P x -> P x' -> P y -> P y' -> R x x' -> R y y' -> R (join x y) (join x' y');
  sl_comm : forall x y, P x -> P y -> R (join x y) (join y x);
  sl_assoc : forall x y z, P x -> P y -> P z -> R (join x (join y z)) (join (join x y) z);
  sl_idem : forall x, P x -> R (join x x) x;
}.

(** ** The merge *)

(** The part of [merge_records] after the checks. *)
Definition merge_winner (r1 r2 : TaskRecord) : TaskRecord :=
  let k1 := record_lattice_key r1 in
  let k2 := record_lattice_key r2 in
  if py_ge k1 k2 then r1 else r2.

Definition merge_core (r1 r2 : TaskRecord) : TaskRecord :=
  let winner := merge_winner r1 r2 in
  let merged_vc := vc_merge (vector_clock r1) (vector_clock r2) in
  with_clock winner merged_vc.

Section merge.
Context `{Ed25519}.

Definition merge_records (r1 r2 : TaskRecord) (keyring : option PeerKeyRing) : result TaskRecord :=
  raise_if (negb (bool_decide (task_id r1 = task_id r2))) ValueError ;;!
  match keyring with
  | Some ring =>
      let! valid1 := verify_task_authorization r1 ring in
      let! valid2 := verify_task_authorization r2 ring in
      if valid1 && negb valid2 then Ok r1
      else if valid2 && negb valid1 then Ok r2
      else if negb valid1 && negb valid2 then Raise ValueError
      else Ok (merge_core r1 r2)
  | None => Ok (merge_core r1 r2)
  end.

(** A replica that holds [r] and merges the records [rs] as they arrive. *)
Definition merge_stream (r : TaskRecord) (rs : list TaskRecord) : result TaskRecord :=
  foldl (fun acc r' => let! a := acc in merge_records a r' None) (Ok r) rs.
End merge.

(** [==] of records as an equivalence. *)
Global Instance rec_equiv : Equiv TaskRecord := fun a b => rec_eq a b = true.

(** Records of one task with a comparable lease and a normalised clock. *)
Definition mergeable (tid : pystr) (r : TaskRecord) : Prop :=
  task_id r = tid /\ isnan (lease_expiry r) = false /\ vc_wf (vector_clock r).

(** The information order of the lattice: the key and the clock both grow. *)
Definition rec_le (a b : TaskRecord) : Prop :=
  py_ge (record_lattice_key b) (record_lattice_key a) = true /\
  vc_le (vector_clock a) (vector_clock b).

(** ** The lattice key *)

#[local] Obligation Tactic := idtac.
Global Program Instance pyord_FenceToken_laws : PyOrdLaws FenceToken := {| py_ok := fun _ => True |}.
Next Obligation.
  intros x y _ _. apply (pycmp_total (ft_tuple x) (ft_tuple y)); (split; [done|apply py_ok_pystr]).
Qed.
Next Obligation. intros x _. apply (pycmp_refl (ft_tuple x)). split; [done|apply py_ok_pystr]. Qed.
Next Obligation. intros x y. exact (pycmp_opp (ft_tuple x) (ft_tuple y)). Qed.
Next Obligation. intros x y z. exact (pycmp_trans (ft_tuple x) (ft_tuple y) (ft_tuple z)). Qed.
Next Obligation. intros x y z. exact (pycmp_eq_l (ft_tuple x) (ft_tuple y) (ft_tuple z)). Qed.

Global Instance pyord_FenceToken_strict : PyOrdStrict FenceToken.
Proof.
  intros [e p] [e' p'] E. change (pycmp (e, p) (e', p') = Some Eq) in E.
  apply pycmp_strict in E. by injection E as -> ->.
Qed.

Lemma pycmp_pair_eq {A B} `{PyOrd A, PyOrd B} (a a' : A) (b b' : B) :
  pycmp (a, b) (a', b') = Some Eq -> pycmp a a' = Some Eq /\ pycmp b b' = Some Eq.
Proof. unfold pycmp at 1, pyord_prod; cbn. destruct (pycmp a a') as [[]|]; try done. Qed.

Lemma pycmp_pair_intro {A B} `{PyOrd A, PyOrd B} (a a' : A) (b b' : B) :
  pycmp a a' = Some Eq -> pycmp b b' = Some Eq -> pycmp (a, b) (a', b') = Some Eq.
Proof. intros E1 E2. unfold pycmp, pyord_prod; cbn. by rewrite E1. Qed.

Lemma opt_tuple_inj {A} (o o' : option (list A)) : opt_tuple o = opt_tuple o' -> o = o'.
Proof. destruct o, o'; cbn; congruence. Qed.

Lemma py_ok_key r : isnan (lease_expiry r) = false -> py_ok (record_lattice_key r).
Proof.
  intros Hl. unfold record_lattice_key.
  repeat (split; cbn [fst snd]); auto using py_ok_pystr, py_ok_bytes.
  intros E. by rewrite E in Hl.
Qed.

Lemma terminal_rank s s' : lattice_rank s = lattice_rank s' -> s = s'.
Proof. by destruct s, s'. Qed.

Lemma rec_equiv_iff (a b : TaskRecord) :
  a ≡ b <->
  task_id a = task_id b /\ state a = state b /\ payload a = payload b /\
  task_result a = task_result b /\ task_error a = task_error b /\
  claimed_by a = claimed_by b /\ fence_token a = fence_token b /\
  pycmp (lease_expiry a) (lease_expiry b) = Some Eq /\
  vector_clock a = vector_clock b /\ updated_by a = updated_by b /\
  signature a = signature b /\ signer_id a = signer_id b.
Proof.
  unfold equiv, rec_equiv, rec_eq. rewrite !andb_true_iff, !bool_decide_eq_true.
  assert (clock (vector_clock a) = clock (vector_clock b) <-> vector_clock a = vector_clock b) as ->.
  { destruct (vector_clock a), (vector_clock b); cbn; split; congruence. }
  assert (py_eq (lease_expiry a) (lease_expiry b) = true <->
          pycmp (lease_expiry a) (lease_expiry b) = Some Eq) as ->.
  { unfold py_eq. destruct (pycmp _ _) as [[]|]; split; congruence. }
  tauto.
Qed.

Global Instance rec_equiv_per : RelationClasses.PER (≡@{TaskRecord}).
Proof.
  split.
  - intros a b. rewrite !rec_equiv_iff. intros H. decompose [and] H.
    split_and!; try congruence. by apply pycmp_eq_sym.
  - intros a b c. rewrite !rec_equiv_iff. intros H1 H2. decompose [and] H1. decompose [and] H2.
    split_and!; try congruence. by eapply pycmp_eq_trans.
Qed.

Lemma rec_equiv_refl r : isnan (lease_expiry r) = false -> r ≡ r.
Proof.
  intros Hl. apply rec_equiv_iff. split_and!; try done. apply pycmp_refl. intros E. by rewrite E in Hl.
Qed.

(** Equal keys mean equal records, clocks aside. *)
Lemma key_eq_core a b c :
  task_id a = task_id b -> pycmp (record_lattice_key a) (record_lattice_key b) = Some Eq ->
  with_clock a c ≡ with_clock b c.
Proof.
  intros Ht Hk. unfold record_lattice_key in Hk.
  repeat match goal with H : pycmp (_, _) (_, _) = Some Eq |- _ =>
    let H1 := fresh "E" in apply pycmp_pair_eq in H as [H1 H]; try apply pycmp_strict in H1 end.
  apply pycmp_strict in Hk.
  apply rec_equiv_iff; cbn. split_and!; try done; auto using opt_tuple_inj, terminal_rank.
Qed.

Lemma key_equiv (a b : TaskRecord) :
  a ≡ b -> pycmp (record_lattice_key a) (record_lattice_key b) = Some Eq.
Proof.
  rewrite rec_equiv_iff. intros (_ & Hs & Hp & Hr & He & Hc & Hf & Hl & _ & Hu & Hg & Hi).
  unfold record_lattice_key. rewrite Hs, Hp, Hr, He, Hc, Hf, Hu, Hg, Hi.
  repeat apply pycmp_pair_intro; first [exact Hl | apply pycmp_refl];
    auto using py_ok_pystr, py_ok_bytes; try done; (split; [done|auto using py_ok_pystr, py_ok_bytes]).
Qed.

Lemma key_with_clock r c : record_lattice_key (with_clock r c) = record_lattice_key r.
Proof. done. Qed.

(** ** The winner *)

Lemma winner_cases a b : merge_winner a b = a \/ merge_winner a b = b.
Proof. unfold merge_winner. destruct (py_ge _ _); auto. Qed.

Lemma winner_ge_l a b :
  isnan (lease_expiry a) = false -> isnan (lease_expiry b) = false ->
  py_ge (record_lattice_key (merge_winner a b)) (record_lattice_key a) = true.
Proof.
  intros Ha%py_ok_key Hb%py_ok_key. unfold merge_winner.
  destruct (py_ge (record_lattice_key a) (record_lattice_key b)) eqn:E; [by apply py_ge_refl|].
  by apply py_ge_total.
Qed.

Lemma winner_ge_r a b :
  isnan (lease_expiry a) = false -> isnan (lease_expiry b) = false ->
  py_ge (record_lattice_key (merge_winner a b)) (record_lattice_key b) = true.
Proof.
  intros Ha%py_ok_key Hb%py_ok_key. unfold merge_winner.
  destruct (py_ge (record_lattice_key a) (record_lattice_key b)) eqn:E; [done|by apply py_ge_refl].
Qed.

Lemma merge_core_key a b :
  record_lattice_key (merge_core a b) = record_lattice_key (merge_winner a b).
Proof. done. Qed.

Lemma merge_core_mergeable tid a b :
  mergeable tid a -> mergeable tid b -> mergeable tid (merge_core a b).
Proof.
  intros (Ha1 & Ha2 & Ha3) (Hb1 & Hb2 & Hb3). unfold mergeable, merge_core. cbn.
  destruct (winner_cases a b) as [-> | ->]; split_and!; auto using vc_merge_wf.
Qed.

(** Two merges whose winners have equal keys and whose clocks agree are equal records. *)
Lemma merge_core_equiv a b a' b' :
  task_id (merge_winner a b) = task_id (merge_winner a' b') ->
  py_ge (record_lattice_key (merge_winner a b)) (record_lattice_key (merge_winner a' b')) = true ->
  py_ge (record_lattice_key (merge_winner a' b')) (record_lattice_key (merge_winner a b)) = true ->
  vc_merge (vector_clock a) (vector_clock b) = vc_merge (vector_clock a') (vector_clock b') ->
  merge_core a b ≡ merge_core a' b'.
Proof.
  intros Ht H1 H2 Hv. unfold merge_core. rewrite Hv. apply key_eq_core; [done|].
  by apply py_ge_antisym.
Qed.

Lemma winner_id tid a b : mergeable tid a -> mergeable tid b -> task_id (merge_winner a b) = tid.
Proof. intros [Ha _] [Hb _]. by destruct (winner_cases a b) as [-> | ->]. Qed.

Lemma winner_le a b c :
  py_ge (record_lattice_key c) (record_lattice_key a) = true ->
  py_ge (record_lattice_key c) (record_lattice_key b) = true ->
  py_ge (record_lattice_key c) (record_lattice_key (merge_winner a b)) = true.
Proof. intros. by destruct (winner_cases a b) as [-> | ->]. Qed.

(** ** The semilattice *)

Lemma mergeable_nan tid r : mergeable tid r -> isnan (lease_expiry r) = false.
Proof. by intros (_ & ? & _). Qed.
Lemma mergeable_wf tid r : mergeable tid r -> vc_wf (vector_clock r).
Proof. by intros (_ & _ & ?). Qed.
#[export] Hint Resolve mergeable_nan mergeable_wf merge_core_mergeable winner_ge_l winner_ge_r
  winner_le : peerq.

(** The clocks of a merge, and the keys it dominates. *)
Lemma merge_core_clock a b : vector_clock (merge_core a b) = vc_merge (vector_clock a) (vector_clock b).
Proof. done. Qed.

Lemma merge_ge_l tid a b : mergeable tid a -> mergeable tid b ->
  py_ge (record_lattice_key (merge_core a b)) (record_lattice_key a) = true.
Proof. rewrite merge_core_key. eauto with peerq. Qed.

Lemma merge_ge_r tid a b : mergeable tid a -> mergeable tid b ->
  py_ge (record_lattice_key (merge_core a b)) (record_lattice_key b) = true.
Proof. rewrite merge_core_key. eauto with peerq. Qed.

Lemma merge_le a b c :
  py_ge (record_lattice_key c) (record_lattice_key a) = true ->
  py_ge (record_lattice_key c) (record_lattice_key b) = true ->
  py_ge (record_lattice_key c) (record_lattice_key (merge_core a b)) = true.
Proof. rewrite merge_core_key. eauto with peerq. Qed.

(** Records with the same key and the same clock are equal. *)
Lemma rec_equiv_key tid a b :
  mergeable tid a -> mergeable tid b ->
  py_ge (record_lattice_key a) (record_lattice_key b) = true ->
  py_ge (record_lattice_key b) (record_lattice_key a) = true ->
  vector_clock a = vector_clock b -> a ≡ b.
Proof.
  intros [Ha _] [Hb _] H1 H2 Hv.
  pose proof (key_eq_core a b (vector_clock a) ltac:(congruence) (py_ge_antisym _ _ H1 H2)) as H.
  rewrite Hv in H at 2. by destruct a, b.
Qed.

Lemma merge_comm tid a b : mergeable tid a -> mergeable tid b -> merge_core a b ≡ merge_core b a.
Proof.
  intros Ha Hb. apply (rec_equiv_key tid); [by eauto with peerq..| | |].
  - apply merge_le; [eapply merge_ge_r|eapply merge_ge_l]; done.
  - apply merge_le; [eapply merge_ge_r|eapply merge_ge_l]; done.
  - rewrite !merge_core_clock. apply vc_merge_comm; eauto with peerq.
Qed.

Lemma merge_assoc tid a b c : mergeable tid a -> mergeable tid b -> mergeable tid c ->
  merge_core a (merge_core b c) ≡ merge_core (merge_core a b) c.
Proof.
  intros Ha Hb Hc.
  pose proof (merge_core_mergeable tid a b Ha Hb) as Hab.
  pose proof (merge_core_mergeable tid b c Hb Hc) as Hbc.
  apply (rec_equiv_key tid); [by eauto with peerq..| | |].
  - repeat apply merge_le.
    + by eapply merge_ge_l.
    + eapply py_ge_trans; [by eapply merge_ge_r|by eapply merge_ge_l].
    + eapply py_ge_trans; [by eapply merge_ge_r|by eapply merge_ge_r].
  - repeat apply merge_le.
    + eapply py_ge_trans; [by eapply merge_ge_l|by eapply merge_ge_l].
    + eapply py_ge_trans; [by eapply merge_ge_l|by eapply merge_ge_r].
    + by eapply merge_ge_r.
  - rewrite !merge_core_clock. apply vc_merge_assoc; eauto with peerq.
Qed.

Lemma merge_idem tid a : mergeable tid a -> merge_core a a ≡ a.
Proof.
  intros Ha. apply (rec_equiv_key tid); [by eauto with peerq|done| | |].
  - by eapply merge_ge_l.
  - apply merge_le; apply py_ge_refl, py_ok_key; eauto with peerq.
  - rewrite merge_core_clock. apply vc_merge_idem; eauto with peerq.
Qed.

Lemma py_ge_equiv (a b : TaskRecord) :
  a ≡ b -> py_ge (record_lattice_key a) (record_lattice_key b) = true.
Proof. intros E%key_equiv. unfold py_ge. by rewrite E. Qed.

Lemma rec_equiv_clock (a b : TaskRecord) : a ≡ b -> vector_clock a = vector_clock b.
Proof. rewrite rec_equiv_iff. tauto. Qed.

Lemma merge_proper tid a a' b b' :
  mergeable tid a -> mergeable tid a' -> mergeable tid b -> mergeable tid b' ->
  a ≡ a' -> b ≡ b' -> merge_core a b ≡ merge_core a' b'.
Proof.
  intros Ha Ha' Hb Hb' Ea Eb.
  apply (rec_equiv_key tid); [by eauto with peerq..| | |].
  - apply merge_le; (eapply py_ge_trans; [|by apply py_ge_equiv]);
      [by eapply merge_ge_l|by eapply merge_ge_r].
  - apply merge_le; (eapply py_ge_trans; [|apply py_ge_equiv; by symmetry]);
      [by eapply merge_ge_l|by eapply merge_ge_r].
  - rewrite !merge_core_clock. f_equal; by apply rec_equiv_clock.
Qed.

Global Instance merge_semilattice tid : SemilatticeOn (mergeable tid) (≡) merge_core := {|
  sl_per := rec_equiv_per;
  sl_refl := fun r Hr => rec_equiv_refl r (mergeable_nan tid r Hr);
  sl_closed := merge_core_mergeable tid;
  sl_proper := merge_proper tid;
  sl_comm := merge_comm tid;
  sl_assoc := merge_assoc tid;
  sl_idem := merge_idem tid;
|}.

(** ** Convergence

    In any semilattice, the joins of two streams with the same elements are equivalent. *)
Section stream.
Context {A : Type} (P : A -> Prop) (R : relation A) (join : A -> A -> A).
Context {SL : SemilatticeOn P R join}.

Let st_closed := (sl_closed (P:=P) (R:=R) (join:=join)).
Let st_refl := (sl_refl (P:=P) (R:=R) (join:=join)).
Let st_comm := (sl_comm (P:=P) (R:=R) (join:=join)).
Let st_idem := (sl_idem (P:=P) (R:=R) (join:=join)).
Let st_assoc := (sl_assoc (P:=P) (R:=R) (join:=join)).
Let st_proper := (sl_proper (P:=P) (R:=R) (join:=join)).

Definition joins (x : A) (l : list A) : A := foldl join x l.

(** [x] is below [y]: joining it changes nothing. *)
Definition below (x y : A) : Prop := R (join y x) y.

Lemma joins_closed x l : P x -> Forall P l -> P (joins x l).
Proof.
  intros Hx Hl. revert x Hx. induction Hl as [|y l Hy Hl IH]; intros x Hx; cbn; [done|].
  apply IH. by apply st_closed.
Qed.

Lemma below_join_l x y z : P x -> P y -> P z -> below x y -> below x (join y z).
Proof.
  unfold below. intros Hx Hy Hz H.
  assert (R (join (join y z) x) (join y (join z x))) as E1.
  { symmetry. by apply st_assoc. }
  assert (R (join y (join z x)) (join y (join x z))) as E2.
  { apply st_proper; auto using st_closed, st_refl, st_comm. }
  assert (R (join y (join x z)) (join (join y x) z)) as E3 by (by apply st_assoc).
  assert (R (join (join y x) z) (join y z)) as E4.
  { apply st_proper; auto using st_closed, st_refl. }
  etrans; [exact E1|]. etrans; [exact E2|]. by etrans.
Qed.

Lemma below_join_r x y : P x -> P y -> below x (join y x).
Proof.
  unfold below. intros Hx Hy. etrans; [symmetry; by apply st_assoc|].
  apply st_proper; auto using st_closed, st_refl, st_idem.
Qed.

Lemma joins_upper x l y : P x -> Forall P l -> y ∈ x :: l -> below y (joins x l).
Proof.
  intros Hx Hl. revert x Hx. induction Hl as [|z l Hz Hl IH]; intros x Hx Hy; cbn [joins foldl].
  - apply list_elem_of_singleton in Hy as ->. by apply st_idem.
  - change (below y (joins (join x z) l)).
    assert (P y) as Hyy.
    { apply elem_of_cons in Hy as [->|Hy]; [done|].
      apply elem_of_cons in Hy as [->|Hy]; [done|]. by eapply Forall_forall. }
    assert (forall w, P w -> below y w -> below y (joins w l)) as Hmono.
    { clear IH Hx Hy Hz x z. induction Hl as [|z l Hz Hl IH]; intros w Hw Hb; cbn; [done|].
      apply IH; [by apply st_closed|]. by apply below_join_l. }
    apply elem_of_cons in Hy as [->|Hy].
    { apply Hmono; [by apply st_closed|]. apply below_join_l; [done..|]. by apply st_idem. }
    apply elem_of_cons in Hy as [->|Hy].
    { apply Hmono; [by apply st_closed|by apply below_join_r]. }
    apply IH; [by apply st_closed|]. by right.
Qed.

Lemma joins_least x l y :
  P x -> Forall P l -> P y -> (forall z, z ∈ x :: l -> below z y) -> below (joins x l) y.
Proof.
  intros Hx Hl Hy. revert x Hx. induction Hl as [|z l Hz Hl IH]; intros x Hx Hb; cbn [joins foldl].
  - apply Hb. by left.
  - apply IH; [by apply st_closed|]. intros w [->|Hw]%elem_of_cons; [|apply Hb; right; by right].
    unfold below. etrans; [by apply st_assoc|].
    etrans; [apply st_proper; [| | | |apply Hb; by left|apply st_refl]|]; auto using st_closed.
    apply Hb. right. by left.
Qed.

Lemma below_antisym x y : P x -> P y -> below x y -> below y x -> R x y.
Proof.
  unfold below. intros Hx Hy H1 H2. etrans; [symmetry; exact H2|].
  etrans; [by apply st_comm|done].
Qed.

Lemma joins_converge x l x' l' :
  P x -> Forall P l -> P x' -> Forall P l' -> (forall z, z ∈ x :: l <-> z ∈ x' :: l') ->
  R (joins x l) (joins x' l').
Proof.
  intros Hx Hl Hx' Hl' Heq. apply below_antisym; auto using joins_closed.
  - apply joins_least; auto using joins_closed. intros z Hz%Heq. by apply joins_upper.
  - apply joins_least; auto using joins_closed. intros z Hz%Heq. by apply joins_upper.
Qed.
End stream.

(** ** Theorems *)

Lemma merge_records_None `{Ed25519} tid a b :
  mergeable tid a -> mergeable tid b -> merge_records a b None = Ok (merge_core a b).
Proof.
  intros [Ha _] [Hb _]. unfold merge_records. by rewrite bool_decide_eq_true_2 by congruence.
Qed.

(** C9: without a key ring, merging the records of a task is a join-semilattice up to the
    dataclass equality: the merge always succeeds, and it is commutative, associative and
    idempotent. *)
Theorem merge_records_semilattice `{Ed25519} (tid : pystr) (a b c : TaskRecord) :
  mergeable tid a -> mergeable tid b -> mergeable tid c ->
  (exists ab ba, merge_records a b None = Ok ab /\ merge_records b a None = Ok ba /\ ab ≡ ba) /\
  (exists ab bc l r, merge_records a b None = Ok ab /\ merge_records b c None = Ok bc /\
     merge_records a bc None = Ok l /\ merge_records ab c None = Ok r /\ l ≡ r) /\
  (exists aa, merge_records a a None = Ok aa /\ aa ≡ a).
Proof.
  intros Ha Hb Hc. split_and!.
  - exists (merge_core a b), (merge_core b a).
    split_and!; [by eapply merge_records_None..|by eapply merge_comm].
  - exists (merge_core a b), (merge_core b c), (merge_core a (merge_core b c)),
      (merge_core (merge_core a b) c).
    split_and!; [eapply merge_records_None; eauto with peerq..|by eapply merge_assoc].
  - exists (merge_core a a). split; [by eapply merge_records_None|by eapply merge_idem].
Qed.

Lemma merge_stream_joins `{Ed25519} tid r rs :
  mergeable tid r -> Forall (mergeable tid) rs -> merge_stream r rs = Ok (joins merge_core r rs).
Proof.
  intros Hr Hrs. unfold merge_stream, joins. revert r Hr.
  induction Hrs as [|x rs Hx Hrs IH]; intros r Hr; cbn [foldl]; [done|].
  cbn [rbind]. rewrite (merge_records_None tid) by done. apply IH. eauto with peerq.
Qed.

(** Strong eventual consistency: two replicas that have received the same set of records of
    a task, in any order and with any repetitions, hold equal records. *)
Theorem replicas_converge `{Ed25519} (tid : pystr) (r r' : TaskRecord) (rs rs' : list TaskRecord) :
  Forall (mergeable tid) (r :: rs) ->
  (forall x, x ∈ r :: rs <-> x ∈ r' :: rs') ->
  exists m m', merge_stream r rs = Ok m /\ merge_stream r' rs' = Ok m' /\ m ≡ m'.
Proof.
  intros Hall Heq.
  assert (Forall (mergeable tid) (r' :: rs')) as Hall'.
  { apply Forall_forall. intros x Hx%Heq. by eapply Forall_forall in Hall. }
  apply Forall_cons in Hall as [Hr Hrs], Hall' as [Hr' Hrs'].
  exists (joins merge_core r rs), (joins merge_core r' rs').
  split_and!; [by eapply merge_stream_joins..|].
  exact (joins_converge (mergeable tid) _ _ r rs r' rs' Hr Hrs Hr' Hrs' Heq).
Qed.

(** The merge is the least upper bound of the two records in the information order, in which
    both the lattice key and the vector clock grow; in particular no merge loses information. *)
Theorem merge_least_upper_bound `{Ed25519} (tid : pystr) (a b : TaskRecord) :
  mergeable tid a -> mergeable tid b ->
  exists m, merge_records a b None = Ok m /\ rec_le a m /\ rec_le b m /\
    (forall c, mergeable tid c -> rec_le a c -> rec_le b c -> rec_le m c).
Proof.
  intros Ha Hb. exists (merge_core a b). split_and!; [by eapply merge_records_None| | |].
  - split; [by eapply merge_ge_l|]. apply vc_merge_le_l; eauto with peerq.
  - split; [by eapply merge_ge_r|]. apply vc_merge_le_r; eauto with peerq.
  - intros c Hc [Hka Hva] [Hkb Hvb]. split; [by apply merge_le|].
    rewrite merge_core_clock. intros k. rewrite vc_get_merge by eauto with peerq.
    specialize (Hva k). specialize (Hvb k). lia.
Qed.

Lemma py_ge_pair_inv {A B} `{PyOrd A, PyOrd B} (a a' : A) (b b' : B) :
  py_ge (a, b) (a', b') = true -> pycmp a a' = Some Gt \/ (pycmp a a' = Some Eq /\ py_ge b b' = true).
Proof.
  unfold py_ge. unfold pycmp at 1, pyord_prod; cbn. destruct (pycmp a a') as [[]|]; auto; done.
Qed.

(** A larger key means at least the terminal flag, then the fence, then the rank. *)
Lemma key_ge_cases a b :
  py_ge (record_lattice_key a) (record_lattice_key b) = true ->
  (is_terminal (state b) = true -> is_terminal (state a) = true) /\
  (is_terminal (state a) = is_terminal (state b) ->
   py_ge (fence_token a) (fence_token b) = true /\
   (fence_token a = fence_token b -> lattice_rank (state b) <= lattice_rank (state a))).
Proof.
  unfold record_lattice_key. intros [E|[E H]]%py_ge_pair_inv.
  - destruct (is_terminal (state a)), (is_terminal (state b));
      try discriminate E; split; done.
  - apply pycmp_strict in E. split.
    { destruct (is_terminal (state a)), (is_terminal (state b)); congruence. }
    intros _. apply py_ge_pair_inv in H as [E'|[E' H]].
    + unfold py_ge. rewrite E'. split; [done|]. intros Heq. rewrite Heq, pycmp_refl in E' by done.
      congruence.
    + unfold py_ge. rewrite E'. split; [done|]. intros _.
      apply py_ge_pair_inv in H as [E2|[E2 _]]; unfold pycmp, pyord_Z in E2; injection E2 as E2.
      * rewrite Z.compare_gt_iff in E2. lia.
      * apply Z.compare_eq in E2. lia.
Qed.

(** A merge never demotes a task: a terminal record stays terminal, and between records that
    are both terminal or both live the fencing token never decreases, nor the state's rank under
    the same token. *)
Theorem merge_never_demotes `{Ed25519} (tid : pystr) (a b m : TaskRecord) :
  mergeable tid a -> mergeable tid b -> merge_records a b None = Ok m ->
  (is_terminal (state a) = true -> is_terminal (state m) = true) /\
  (is_terminal (state m) = is_terminal (state a) ->
   py_ge (fence_token m) (fence_token a) = true /\
   (fence_token m = fence_token a -> lattice_rank (state a) <= lattice_rank (state m))).
Proof.
  intros Ha Hb Hm. rewrite (merge_records_None tid) in Hm by done. injection Hm as <-.
  apply key_ge_cases. by eapply merge_ge_l.
Qed.

(** Under a key ring the merge only ever returns authorised content: with one authorised
    record it returns that record unchanged, with two it is the lattice merge, and with none it
    raises [ValueError]. *)
Theorem merge_records_authorized `{Ed25519} (a b : TaskRecord) (ring : PeerKeyRing) (va vb : bool) :
  task_id a = task_id b ->
  verify_task_authorization a ring = Ok va -> verify_task_authorization b ring = Ok vb ->
  merge_records a b (Some ring) =
    match va, vb with
    | true, true => Ok (merge_core a b)
    | true, false => Ok a
    | false, true => Ok b
    | false, false => Raise ValueError
    end.
Proof.
  intros Ht Ea Eb. unfold merge_records. rewrite bool_decide_eq_true_2 by done.
  rewrite Ea, Eb. by destruct va, vb.
Qed.

(** ** Witnesses *)

(** A completion of [sample_record] by its claimant, seen by a replica that missed peer p2. *)
Definition done_record : TaskRecord := {|
  task_id := str "task-1"; state := DONE; payload := str_bytes "work";
  task_result := Some (str_bytes "ok"); task_error := None; claimed_by := Some (str "p1");
  fence_token := ftoken 3 (str "p1"); lease_expiry := decimal_float false 125 (-1);
  vector_clock := VectorClock_init {[str "p1" := 3]};
  updated_by := str "p1"; signature := None; signer_id := None |}.

Definition signed_done : TaskRecord :=
  match sign_task (toy_seed 1) done_record (str "p1") with Ok t => t | Raise _ => done_record end.

Lemma sample_mergeable : mergeable (str "task-1") sample_record.
Proof. split_and!; [reflexivity|reflexivity|apply VectorClock_init_wf]. Qed.
Lemma done_mergeable : mergeable (str "task-1") done_record.
Proof. split_and!; [reflexivity|reflexivity|apply VectorClock_init_wf]. Qed.

Lemma merge_records_semilattice_witness :
  exists ab ba, merge_records sample_record done_record None = Ok ab /\
    merge_records done_record sample_record None = Ok ba /\ ab ≡ ba.
Proof.
  exact (proj1 (merge_records_semilattice (str "task-1") sample_record done_record done_record
    sample_mergeable done_mergeable done_mergeable)).
Defined.

Lemma replicas_converge_witness :
  exists m m', merge_stream sample_record [done_record] = Ok m /\
    merge_stream done_record [sample_record; done_record; sample_record] = Ok m' /\ m ≡ m'.
Proof.
  apply (replicas_converge (str "task-1")).
  - repeat constructor; first [exact sample_mergeable | exact done_mergeable | apply VectorClock_init_wf].
  - intros x. rewrite !elem_of_cons. tauto.
Defined.

Lemma merge_least_upper_bound_witness :
  exists m, merge_records sample_record done_record None = Ok m /\ rec_le sample_record m.
Proof.
  destruct (merge_least_upper_bound (str "task-1") sample_record done_record
    sample_mergeable done_mergeable) as (m & H1 & H2 & _).
  exists m. split; [exact H1|exact H2].
Defined.

Lemma merge_never_demotes_witness :
  exists m, merge_records done_record sample_record None = Ok m /\ is_terminal (state m) = true.
Proof.
  exists (merge_core done_record sample_record). split; [reflexivity|].
  apply (merge_never_demotes (str "task-1") done_record sample_record);
    [exact done_mergeable|exact sample_mergeable|reflexivity|reflexivity].
Defined.

(** The claim of [sample_record] with a clock its signature does not cover. *)
Definition stale_claim : TaskRecord := with_clock signed_sample (vector_clock done_record).

Lemma merge_records_authorized_witness :
  merge_records signed_done stale_claim (Some toy_ring) = Ok signed_done.
Proof.
  assert (task_id signed_done = task_id stale_claim) as H1 by (vm_compute; reflexivity).
  assert (verify_task_authorization signed_done toy_ring = Ok true) as H2 by (vm_compute; reflexivity).
  assert (verify_task_authorization stale_claim toy_ring = Ok false) as H3 by (vm_compute; reflexivity).
  exact (merge_records_authorized signed_done stale_claim toy_ring true false H1 H2 H3).
Defined.

(** With a key ring the merge is not associative, and it can demote a finished task: merging
    two authorised records changes the vector clock that the winner's signature covers, the
    result is no longer authorised, and merging it with the older authorised record returns the
    older one. *)
Theorem keyring_merge_can_demote :
  exists a b m : TaskRecord,
    verify_task_authorization a toy_ring = Ok true /\
    verify_task_authorization b toy_ring = Ok true /\
    merge_records a b (Some toy_ring) = Ok m /\ state m = DONE /\
    verify_task_authorization m toy_ring = Ok false /\
    merge_records m a (Some toy_ring) = Ok a /\ state a = CLAIMED.
Proof.
  exists signed_sample, signed_done, (merge_core signed_sample signed_done).
  split_and!; vm_compute; reflexivity.
Qed.

(** Finality outranks fencing: a result under a superseded token beats the running claim of the
    peer that reclaimed the task. *)
Theorem stale_result_wins :
  exists old new m : TaskRecord,
    py_lt (fence_token old) (fence_token new) = true /\ state old = DONE /\ state new = CLAIMED /\
    merge_records new old None = Ok m /\ state m = DONE /\ fence_token m = fence_token old.
Proof.
  set (new := {|
    task_id := str "task-1"; state := CLAIMED; payload := str_bytes "work"; task_result := None;
    task_error := None; claimed_by := Some (str "p2"); fence_token := ftoken 4 (str "p2");
    lease_expiry := decimal_float false 125 (-1); vector_clock := VectorClock_init {[str "p2" := 1]};
    updated_by := str "p2"; signature := None; signer_id := None |}).
  exists done_record, new, (merge_core new done_record). split_and!; vm_compute; reflexivity.
Qed.
