(* ===== verification/Heapq.v ===== *)
(** * Binary heaps in a list (the standard library's [heapq])

    The algorithms the queue and the simulated clock rely on, with the array updates in the order
    the library makes them: [heappush] sifts the appended item towards the root, [heappop] moves
    the smaller child up to a leaf, places the last item there and sifts it back. *)

From Stdlib Require Import Arith Lia.
From S2P Require Import Prelude.
Open Scope nat_scope.

Section heapq.
Context {A : Type} (lt : A -> A -> bool).

(** [_siftdown]: the loop; [newitem] belongs at [pos]. *)
Fixpoint siftdown_loop (fuel : nat) (newitem : A) (startpos pos : nat) (h : list A) : list A :=
  match fuel with
  | O => <[pos := newitem]> h
  | S f =>
      if startpos <? pos then
        let parentpos := (pos - 1) / 2 in
        match h !! parentpos with
        | Some parent =>
            if lt newitem parent
            then siftdown_loop f newitem startpos parentpos (<[pos := parent]> h)
            else <[pos := newitem]> h
        | None => h
        end
      else <[pos := newitem]> h
  end.

Definition siftdown (h : list A) (startpos pos : nat) : list A :=
  match h !! pos with
  | Some newitem => siftdown_loop pos newitem startpos pos h
  | None => h
  end.

(** [_siftup]: the loop that moves the smaller child up; returns the leaf reached. *)
Fixpoint siftup_loop (fuel pos : nat) (h : list A) : nat * list A :=
  match fuel with
  | O => (pos, h)
  | S f =>
      let childpos := 2 * pos + 1 in
      match h !! childpos with
      | None => (pos, h)
      | Some lchild =>
          let rightpos := childpos + 1 in
          let '(childpos, child) :=
            match h !! rightpos with
            | Some rchild => if negb (lt lchild rchild) then (rightpos, rchild) else (childpos, lchild)
            | None => (childpos, lchild)
            end in
          siftup_loop f childpos (<[pos := child]> h)
      end
  end.

Definition siftup (h : list A) (pos : nat) : list A :=
  match h !! pos with
  | Some newitem =>
      let '(leaf, h1) := siftup_loop (length h) pos h in
      siftdown (<[leaf := newitem]> h1) pos leaf
  | None => h
  end.

Definition heappush (h : list A) (item : A) : list A := siftdown (h ++ [item]) 0 (length h).

(** [heappop]; [None] for the [IndexError] of an empty list. *)
Definition heappop (h : list A) : option (A * list A) :=
  match last h with
  | None => None
  | Some lastelt =>
      let h1 := removelast h in
      match h1 with
      | [] => Some (lastelt, [])
      | returnitem :: _ => Some (returnitem, siftup (<[0 := lastelt]> h1) 0)
      end
  end.

(** ** The heap order *)

Definition le (x y : A) : Prop := lt y x = false.

(** [c] is a child of [p]. *)
Definition edge (p c : nat) : Prop := c = 2 * p + 1 \/ c = 2 * p + 2.

Definition heap (h : list A) : Prop :=
  forall p c x y, edge p c -> h !! p = Some x -> h !! c = Some y -> le x y.

(** The heap order except at [pos], whose children are above its parent. *)
Definition heap_but (pos : nat) (h : list A) : Prop :=
  (forall p c x y, edge p c -> c <> pos -> h !! p = Some x -> h !! c = Some y -> le x y) /\
  (forall g c x y, edge g pos -> edge pos c -> h !! g = Some x -> h !! c = Some y -> le x y).

(** The heap order on the edges that avoid the hole [pos]. *)
Definition heap_hole (pos : nat) (h : list A) : Prop :=
  (forall p c x y, edge p c -> c <> pos -> p <> pos -> h !! p = Some x -> h !! c = Some y -> le x y) /\
  (forall g c x y, edge g pos -> edge pos c -> h !! g = Some x -> h !! c = Some y -> le x y).

(** The elements compared, among which [lt] is a strict weak order. *)
Context (P : A -> Prop).
Context (lt_le : forall x y, P x -> P y -> lt x y = true -> le x y).
Context (le_trans : forall x y z, P x -> P y -> P z -> le x y -> le y z -> le x z).
Context (le_refl : forall x, P x -> le x x).

Lemma edge_parent pos : 0 < pos -> edge ((pos - 1) / 2) pos.
Proof.
  intros Hp. unfold edge. pose proof (Nat.div_mod_eq (pos - 1) 2).
  pose proof (Nat.mod_upper_bound (pos - 1) 2). lia.
Qed.

Lemma edge_lt p c : edge p c -> p < c.
Proof. unfold edge. lia. Qed.

Lemma edge_inj p p' c : edge p c -> edge p' c -> p = p'.
Proof. unfold edge. lia. Qed.

(** Moving an entry into the hole and the hole to that entry. *)
Lemma move_hole_perm (h : list A) i j x y :
  i <> j -> i < length h -> h !! j = Some y -> <[j := x]> (<[i := y]> h) ≡ₚ <[i := x]> h.
Proof.
  intros Hij Hi Hj. rewrite <- (list_insert_insert_eq h i y x).
  apply Permutation_insert_swap.
  - by apply list_lookup_insert_eq.
  - by rewrite list_lookup_insert_ne.
Qed.

Lemma siftdown_loop_perm fuel x s pos h :
  pos < length h -> siftdown_loop fuel x s pos h ≡ₚ <[pos := x]> h.
Proof.
  revert pos h. induction fuel as [|f IH]; intros pos h Hpos; cbn [siftdown_loop]; [done|].
  destruct (Nat.ltb_spec s pos) as [Hs|Hs]; [|done].
  assert ((pos - 1) / 2 < pos) as Hpp by (apply edge_lt, edge_parent; lia).
  destruct (h !! ((pos - 1) / 2)) as [parent|] eqn:E.
  - destruct (lt x parent); [|done]. rewrite IH by (rewrite length_insert; lia).
    apply move_hole_perm; [lia|done|done].
  - apply lookup_ge_None in E. lia.
Qed.

Lemma siftdown_perm h s pos : siftdown h s pos ≡ₚ h.
Proof.
  unfold siftdown. destruct (h !! pos) as [x|] eqn:E; [|done].
  rewrite siftdown_loop_perm by (by eapply lookup_lt_Some).
  by rewrite list_insert_id.
Qed.

Lemma siftup_loop_perm fuel pos h x :
  pos < length h ->
  let '(leaf, h1) := siftup_loop fuel pos h in
  leaf < length h /\ length h1 = length h /\ <[leaf := x]> h1 ≡ₚ <[pos := x]> h.
Proof.
  revert pos h. induction fuel as [|f IH]; intros pos h Hpos; cbn [siftup_loop]; [done|].
  destruct (h !! (2 * pos + 1)) as [lchild|] eqn:El; [|done].
  assert (exists c cv, h !! c = Some cv /\ edge pos c /\
    match h !! (2 * pos + 1 + 1) with
    | Some rchild => if negb (lt lchild rchild) then (2 * pos + 1 + 1, rchild) else (2 * pos + 1, lchild)
    | None => (2 * pos + 1, lchild)
    end = (c, cv)) as (c & cv & Hc & He & ->).
  { destruct (h !! (2 * pos + 1 + 1)) as [rchild|] eqn:Er.
    - destruct (negb (lt lchild rchild)).
      + exists (2 * pos + 1 + 1), rchild. unfold edge. split_and!; [done|lia|done].
      + exists (2 * pos + 1), lchild. unfold edge. split_and!; [done|lia|done].
    - exists (2 * pos + 1), lchild. unfold edge. split_and!; [done|lia|done]. }
  pose proof (edge_lt _ _ He). pose proof (lookup_lt_Some _ _ _ Hc).
  specialize (IH c (<[pos := cv]> h) ltac:(by rewrite length_insert)).
  destruct (siftup_loop f c (<[pos := cv]> h)) as [leaf h1]. rewrite length_insert in IH.
  destruct IH as (H1 & H2 & H3). split_and!; [done|done|]. rewrite H3.
  apply move_hole_perm; [lia|done|done].
Qed.

Lemma siftup_perm h pos : siftup h pos ≡ₚ h.
Proof.
  unfold siftup. destruct (h !! pos) as [x|] eqn:E; [|done].
  pose proof (siftup_loop_perm (length h) pos h x ltac:(by eapply lookup_lt_Some)) as H.
  destruct (siftup_loop (length h) pos h) as [leaf h1]. destruct H as (H1 & H2 & H3).
  rewrite siftdown_perm, H3. by rewrite list_insert_id.
Qed.

Lemma heappush_perm h x : heappush h x ≡ₚ x :: h.
Proof. unfold heappush. rewrite siftdown_perm. by rewrite Permutation_app_comm. Qed.

(** Reading after two updates inside the list. *)
Lemma lookup_two (h : list A) i j x y k :
  i < length h -> j < length h -> i <> j ->
  (<[j := x]> (<[i := y]> h)) !! k =
  if decide (k = j) then Some x else if decide (k = i) then Some y else h !! k.
Proof.
  intros Hi Hj Hij. destruct (decide (k = j)) as [->|Hkj].
  - apply list_lookup_insert_eq. by rewrite length_insert.
  - rewrite list_lookup_insert_ne by done. destruct (decide (k = i)) as [->|Hki].
    + by apply list_lookup_insert_eq.
    + by rewrite list_lookup_insert_ne.
Qed.

Lemma lookup_one (h : list A) i x k :
  i < length h -> (<[i := x]> h) !! k = if decide (k = i) then Some x else h !! k.
Proof.
  intros Hi. destruct (decide (k = i)) as [->|Hk]; [by apply list_lookup_insert_eq|].
  by rewrite list_lookup_insert_ne.
Qed.

Lemma Forall_lookup_P (h : list A) k x : Forall P h -> h !! k = Some x -> P x.
Proof. intros Hf Hk. by eapply Forall_lookup_1. Qed.

(** One step of the sift towards the root keeps the order except at the new position. *)
Lemma heap_but_step x parent pos pp h :
  edge pp pos -> pos < length h -> h !! pp = Some parent -> lt x parent = true ->
  Forall P (<[pos := x]> h) -> heap_but pos (<[pos := x]> h) ->
  heap_but pp (<[pp := x]> (<[pos := parent]> h)).
Proof.
  intros He Hpos Hpp Hlt HP [H1 H2]. pose proof (edge_lt _ _ He) as Hlp.
  assert (forall k, (<[pos := x]> h) !! k = if decide (k = pos) then Some x else h !! k) as L
    by (intros; by apply lookup_one).
  assert (P x) as Px by (apply (Forall_lookup_P _ pos x HP); rewrite L; by rewrite decide_True).
  assert (P parent) as Pp
    by (apply (Forall_lookup_P _ pp parent HP); rewrite L; by rewrite decide_False by lia).
  assert (forall k z, k <> pos -> h !! k = Some z -> (<[pos := x]> h) !! k = Some z /\ P z) as R.
  { intros k z Hk Hz. assert ((<[pos := x]> h) !! k = Some z) as E by (by rewrite L, decide_False).
    split; [done|by eapply Forall_lookup_P]. }
  split.
  - intros p c u w Hpc Hc. rewrite !lookup_two by lia. pose proof (edge_lt _ _ Hpc).
    destruct (decide (c = pp)); [done|].
    destruct (decide (p = pp)) as [->|Hppp].
    + intros [= <-]. destruct (decide (c = pos)); [intros [= <-]; by apply lt_le|].
      intros Hw. destruct (R c w) as [Hw' Pw]; [done|done|]. apply (le_trans x parent w); auto.
      eapply (H1 pp c); eauto. by apply R; [lia|].
    + destruct (decide (p = pos)) as [->|Hp].
      * intros [= <-]. destruct (decide (c = pos)); [lia|]. intros Hw.
        eapply (H2 pp c); eauto; by apply R; [lia|].
      * intros Hu. destruct (decide (c = pos)) as [->|Hcp].
        { destruct Hppp. by eapply edge_inj. }
        intros Hw. eapply (H1 p c); eauto; by apply R.
  - intros g c u w Hg Hc. rewrite !lookup_two by lia. pose proof (edge_lt _ _ Hg).
    pose proof (edge_lt _ _ Hc). rewrite (decide_False (P:=g = pp)), (decide_False (P:=g = pos)),
      (decide_False (P:=c = pp)) by lia.
    intros Hu. destruct (R g u) as [Hu' Pu]; [lia|done|].
    assert (le u parent) as Hup.
    { eapply (H1 g pp); eauto; [lia|]. by apply R; [lia|]. }
    destruct (decide (c = pos)); [by intros [= <-]|]. intros Hw.
    destruct (R c w) as [Hw' Pw]; [done|done|]. apply (le_trans u parent w); auto.
    eapply (H1 pp c); eauto. by apply R; [lia|].
Qed.

Lemma siftdown_loop_heap fuel x pos h :
  pos <= fuel -> pos < length h -> Forall P (<[pos := x]> h) -> heap_but pos (<[pos := x]> h) ->
  heap (siftdown_loop fuel x 0 pos h).
Proof.
  revert pos h. induction fuel as [|f IH]; intros pos h Hf Hpos HP Hb; cbn [siftdown_loop].
  - intros p c u w He. pose proof (edge_lt _ _ He). apply (proj1 Hb); [done|lia].
  - destruct (Nat.ltb_spec 0 pos) as [Hp|Hp].
    2: { intros p c u w He. pose proof (edge_lt _ _ He). apply (proj1 Hb); [done|lia]. }
    pose proof (edge_parent pos Hp) as He. pose proof (edge_lt _ _ He) as Hlt.
    destruct (h !! ((pos - 1) / 2)) as [parent|] eqn:E.
    2: { apply lookup_ge_None in E. lia. }
    destruct (lt x parent) eqn:El.
    + apply IH; [lia|rewrite length_insert; lia| |].
      * by rewrite move_hole_perm by (done || lia).
      * by apply heap_but_step.
    + intros p c u w Hpc. destruct (decide (c = pos)) as [->|Hc]; [|by apply (proj1 Hb)].
      rewrite (edge_inj _ _ _ Hpc He), !lookup_one by done.
      rewrite decide_False, decide_True by lia. intros Hu [= <-].
      rewrite E in Hu. by injection Hu as <-.
Qed.

Lemma siftdown_heap h pos :
  pos < length h -> Forall P h -> heap_but pos h -> heap (siftdown h 0 pos).
Proof.
  intros Hpos HP Hb. unfold siftdown. destruct (h !! pos) as [x|] eqn:E.
  - apply siftdown_loop_heap; [done|done|by rewrite list_insert_id|by rewrite list_insert_id].
  - apply lookup_ge_None in E. lia.
Qed.

Lemma heappush_heap h x : Forall P h -> P x -> heap h -> heap (heappush h x).
Proof.
  intros HP Px Hh. apply siftdown_heap.
  - rewrite length_app. cbn. lia.
  - apply Forall_app_2; [done|]. by constructor.
  - split.
    + intros p c u w He Hc Hu Hw. pose proof (edge_lt _ _ He).
      apply lookup_lt_Some in Hw as Hlen. rewrite length_app in Hlen. cbn in Hlen.
      rewrite lookup_app_l in Hw by lia. rewrite lookup_app_l in Hu by lia. by eapply Hh.
    + intros g c u w _ He _ Hw. pose proof (edge_lt _ _ He).
      apply lookup_lt_Some in Hw. rewrite length_app in Hw. cbn in Hw. lia.
Qed.

(** The hole moves down along the smaller child. *)
Lemma heap_hole_step pos c cv h :
  edge pos c -> c < length h -> h !! c = Some cv -> Forall P h -> heap_hole pos h ->
  (forall d dv, edge pos d -> h !! d = Some dv -> le cv dv) ->
  heap_hole c (<[pos := cv]> h).
Proof.
  intros He Hc Hcv HP [H1 H2] Hmin. pose proof (edge_lt _ _ He) as Hlt. split.
  - intros p d u w Hpd Hd Hp. rewrite !lookup_one by lia. pose proof (edge_lt _ _ Hpd).
    destruct (decide (p = pos)) as [->|Hpp].
    + intros [= <-]. rewrite decide_False by lia. by apply Hmin.
    + intros Hu. destruct (decide (d = pos)) as [->|Hdp].
      * intros [= <-]. by eapply (H2 p c).
      * intros Hw. by eapply (H1 p d).
  - intros g d u w Hg Hd. rewrite (edge_inj _ _ _ Hg He), !lookup_one by lia.
    pose proof (edge_lt _ _ Hd). rewrite decide_True, decide_False by lia. intros [= <-] Hw.
    eapply (H1 c d); eauto; lia.
Qed.

Lemma siftup_loop_hole fuel pos h :
  length h <= fuel + pos -> pos < length h -> Forall P h -> heap_hole pos h ->
  let '(leaf, h1) := siftup_loop fuel pos h in
  heap_hole leaf h1 /\ h1 !! (2 * leaf + 1) = None.
Proof.
  revert pos h. induction fuel as [|f IH]; intros pos h Hf Hpos HP Hh; cbn [siftup_loop]; [lia|].
  destruct (h !! (2 * pos + 1)) as [l|] eqn:El; [|done].
  pose proof (Forall_lookup_P _ _ _ HP El) as Pl.
  assert (exists c cv, h !! c = Some cv /\ edge pos c /\
    (forall d dv, edge pos d -> h !! d = Some dv -> le cv dv) /\
    match h !! (2 * pos + 1 + 1) with
    | Some r => if negb (lt l r) then (2 * pos + 1 + 1, r) else (2 * pos + 1, l)
    | None => (2 * pos + 1, l)
    end = (c, cv)) as (c & cv & Hc & He & Hmin & ->).
  { replace (2 * pos + 1 + 1) with (2 * pos + 2) by lia.
    destruct (h !! (2 * pos + 2)) as [r|] eqn:Er.
    - pose proof (Forall_lookup_P _ _ _ HP Er) as Pr.
      destruct (lt l r) eqn:E; cbn [negb].
      + exists (2 * pos + 1), l. unfold edge. split_and!; [done|lia| |done].
        intros d dv [->| ->]; [rewrite El|rewrite Er]; intros [= <-]; auto.
      + exists (2 * pos + 2), r. unfold edge. split_and!; [done|lia| |done].
        intros d dv [->| ->]; [rewrite El|rewrite Er]; intros [= <-]; auto.
    - exists (2 * pos + 1), l. unfold edge. split_and!; [done|lia| |done].
      intros d dv [->| ->]; [rewrite El|by rewrite Er]; intros [= <-]; auto. }
  pose proof (edge_lt _ _ He). pose proof (lookup_lt_Some _ _ _ Hc).
  apply IH; rewrite ?length_insert; [lia|done| |by apply heap_hole_step].
  apply Forall_insert; [done|by eapply Forall_lookup_P].
Qed.

Lemma siftup_heap h : Forall P h -> heap_hole 0 h -> heap (siftup h 0).
Proof.
  intros HP Hh. unfold siftup. destruct (h !! 0) as [x|] eqn:E.
  2: { apply lookup_ge_None in E. destruct h; [|cbn in E; lia]. by intros ?????. }
  pose proof (lookup_lt_Some _ _ _ E) as Hlen.
  pose proof (siftup_loop_perm (length h) 0 h x Hlen) as Hp.
  pose proof (siftup_loop_hole (length h) 0 h ltac:(lia) Hlen HP Hh) as Hl.
  destruct (siftup_loop (length h) 0 h) as [leaf h1].
  destruct Hp as (H1 & H2 & H3), Hl as [[Ha Hb] Hn]. apply siftdown_heap.
  - rewrite length_insert. lia.
  - rewrite H3, list_insert_id by done. done.
  - apply lookup_ge_None in Hn. split.
    + intros p c u w He Hc. rewrite !lookup_one by lia. rewrite (decide_False (P:=c = leaf)) by done.
      destruct (decide (p = leaf)) as [->|Hpl]; [|by apply Ha].
      intros _ Hw%lookup_lt_Some. unfold edge in He. lia.
    + intros g c u w _ He _. rewrite lookup_one by lia. pose proof (edge_lt _ _ He).
      rewrite decide_False by lia. intros Hw%lookup_lt_Some. unfold edge in He. lia.
Qed.

(** The root is a least element. *)
Lemma heap_root_min h x : Forall P h -> heap h -> h !! 0 = Some x -> Forall (le x) h.
Proof.
  intros HP Hh Hx. apply Forall_lookup. intros i. induction i as [i IH] using lt_wf_ind.
  intros y Hy. pose proof (Forall_lookup_P _ _ _ HP Hx) as Px.
  pose proof (Forall_lookup_P _ _ _ HP Hy) as Py. destruct (decide (i = 0)) as [->|Hi].
  - rewrite Hx in Hy. injection Hy as <-. auto.
  - pose proof (edge_parent i ltac:(lia)) as He. pose proof (edge_lt _ _ He) as Hlt.
    destruct (h !! ((i - 1) / 2)) as [p|] eqn:E.
    2: { apply lookup_ge_None in E. apply lookup_lt_Some in Hy. lia. }
    apply (le_trans x p y); eauto using Forall_lookup_P.
Qed.

Lemma heap_prefix h k : heap (h ++ k) -> heap h.
Proof. intros Hh p c x y He Hp Hc. eapply Hh; eauto using lookup_app_l_Some. Qed.

Lemma heappop_spec h :
  Forall P h -> heap h ->
  match heappop h with
  | None => h = []
  | Some (m, h') => m :: h' ≡ₚ h /\ heap h' /\ Forall (le m) h
  end.
Proof.
  intros HP Hh. unfold heappop.
  destruct (last h) as [x|] eqn:El; [|by apply last_None in El].
  apply last_Some in El as [h1 ->]. rewrite removelast_last.
  apply Forall_app in HP as HP'. destruct HP' as [HP1 [Px _]%Forall_cons].
  pose proof (heap_prefix _ _ Hh) as Hh1.
  destruct h1 as [|r h2].
  { cbn. split_and!; [done|by intros ?????|]. constructor; [auto|done]. }
  split_and!.
  - rewrite siftup_perm. cbn. f_equiv. apply Permutation_cons_append.
  - apply siftup_heap.
    + apply Forall_cons in HP1 as [_ HP2]. by constructor.
    + split.
      * intros p c u w He Hc Hp. rewrite !list_lookup_insert_ne by done. by apply Hh1.
      * intros g c u w Hg. pose proof (edge_lt _ _ Hg). lia.
  - by apply heap_root_min.
Qed.
End heapq.
