(* ===== verification/Queue.v ===== *)
(** * The bounded priority queue and the credit windows ([peerq/queue.py])

    [BackpressurePriorityQueue]: the heap of prioritised items, its operations, a step relation
    for coroutines that share the queue's condition variable, and a refinement to a sequence in
    dequeue order.  [CreditFlowController]: send windows with their waiters. *)

From Stdlib Require Import ZArith Lia.
From S2P Require Import Prelude Security Heapq.
Open Scope Z_scope.

Inductive QueuePolicy := REJECT_ON_FULL | BLOCK_ON_FULL.

(** [_PrioritizedItem]: compared as the tuple of its fields; the sequence numbers in a queue are
    distinct ([q_wf]), so the comparison is decided before it reaches the item. *)
Record PrioritizedItem (T : Type) := pitem { priority_neg : Z; seq : Z; item : T }.
Arguments pitem {T} _ _ _.
Arguments priority_neg {T} _.
Arguments seq {T} _.
Arguments item {T} _.

Definition pi_key {T} (e : PrioritizedItem T) : Z * Z := (priority_neg e, seq e).
Definition pi_lt {T} (a b : PrioritizedItem T) : bool := py_lt (pi_key a) (pi_key b).

Record PriorityQueue (T : Type) := {
  maxsize : Z;
  policy : QueuePolicy;
  q_heap : list (PrioritizedItem T);
  q_seq : Z;
}.
Arguments maxsize {T} _.
Arguments policy {T} _.
Arguments q_heap {T} _.
Arguments q_seq {T} _.

Section queue.
Context {T : Type}.
Implicit Types (q : PriorityQueue T).

Definition queue_init (n : Z) (p : QueuePolicy) : PriorityQueue T :=
  {| maxsize := n; policy := p; q_heap := []; q_seq := 0 |}.

Definition qsize q : Z := len (q_heap q).
Definition empty q : bool := len (q_heap q) =? 0.
Definition full q : bool := if maxsize q <=? 0 then false else maxsize q <=? len (q_heap q).

(** The tail of [put] and [put_nowait]: push an entry with the next sequence number. *)
Definition push_entry (x : T) (priority : Z) q : PriorityQueue T :=
  {| maxsize := maxsize q; policy := policy q;
     q_heap := heappush pi_lt (q_heap q) (pitem (- priority) (q_seq q) x);
     q_seq := q_seq q + 1 |}.

Definition put_nowait (x : T) (priority : Z) q : result (PriorityQueue T) :=
  raise_if (full q) QueueFull ;;! Ok (push_entry x priority q).

(** [put] up to its next suspension: [Ok None] when it waits on the condition. *)
Definition put_section (x : T) (priority : Z) q : result (option (PriorityQueue T)) :=
  match policy q with
  | REJECT_ON_FULL => raise_if (full q) QueueFull ;;! Ok (Some (push_entry x priority q))
  | BLOCK_ON_FULL => if full q then Ok None else Ok (Some (push_entry x priority q))
  end.

(** The tail of [get] and [get_nowait]. *)
Definition pop_entry q : option ((Z * T) * PriorityQueue T) :=
  match heappop pi_lt (q_heap q) with
  | Some (e, h) =>
      Some ((- priority_neg e, item e),
            {| maxsize := maxsize q; policy := policy q; q_heap := h; q_seq := q_seq q |})
  | None => None
  end.

Definition get_nowait q : result ((Z * T) * PriorityQueue T) :=
  if empty q then Raise QueueEmpty
  else match pop_entry q with Some r => Ok r | None => Raise QueueEmpty end.

(** [get] up to its next suspension: [None] when it waits on the condition. *)
Definition get_section q : option ((Z * T) * PriorityQueue T) :=
  if empty q then None else pop_entry q.

Definition peek q : option (Z * T) :=
  if empty q then None
  else match q_heap q with e :: _ => Some (- priority_neg e, item e) | [] => None end.

(** ** Coroutines sharing the condition

    A coroutine runs [put] or [get] atomically between suspensions.  The condition keeps its
    waiters in order; [notify] makes the first one ready, and a ready coroutine re-checks its
    loop when it is scheduled. *)
Inductive Coroutine := PutCall (x : T) (priority : Z) | GetCall.

Record CondState := cond_state {
  cq : PriorityQueue T;
  waiting : list Coroutine;
  ready : list Coroutine;
  notify_tasks : nat;
}.

Definition notify (st : CondState) : CondState :=
  match waiting st with
  | w :: ws => cond_state (cq st) ws (ready st ++ [w]) (notify_tasks st)
  | [] => st
  end.

(** Run a coroutine from the head of its loop to its next suspension or its end. *)
Definition run_coroutine (c : Coroutine) (st : CondState) : CondState :=
  let wait := cond_state (cq st) (waiting st ++ [c]) (ready st) (notify_tasks st) in
  let done q := notify (cond_state q (waiting st) (ready st) (notify_tasks st)) in
  match c with
  | PutCall x p =>
      match put_section x p (cq st) with
      | Raise _ => st
      | Ok None => wait
      | Ok (Some q) => done q
      end
  | GetCall =>
      match get_section (cq st) with
      | None => wait
      | Some (_, q) => done q
      end
  end.

(** [_notify_condition] outside the lock: a task that will notify, if a loop is running. *)
Definition schedule_notify (loop : bool) (st : CondState) : CondState :=
  if loop then cond_state (cq st) (waiting st) (ready st) (S (notify_tasks st)) else st.

Inductive qstep : CondState -> CondState -> Prop :=
| step_call c st : qstep st (run_coroutine c st)
| step_resume c r1 r2 st :
    ready st = r1 ++ c :: r2 ->
    qstep st (run_coroutine c (cond_state (cq st) (waiting st) (r1 ++ r2) (notify_tasks st)))
| step_notify n st :
    notify_tasks st = S n ->
    qstep st (notify (cond_state (cq st) (waiting st) (ready st) n))
| step_put_nowait x p q loop st :
    put_nowait x p (cq st) = Ok q ->
    qstep st (schedule_notify loop (cond_state q (waiting st) (ready st) (notify_tasks st)))
| step_get_nowait r q loop st :
    get_nowait (cq st) = Ok (r, q) ->
    qstep st (schedule_notify loop (cond_state q (waiting st) (ready st) (notify_tasks st))).

(** ** Abstract queue: a sequence in dequeue order *)

(** Insert after every element of at least the same priority. *)
Fixpoint spec_put (x : T) (p : Z) (l : list (Z * T)) : list (Z * T) :=
  match l with
  | [] => [(p, x)]
  | (q, y) :: l' => if p <=? q then (q, y) :: spec_put x p l' else (p, x) :: l
  end.

Definition pi_le (a b : PrioritizedItem T) : bool := py_le (pi_key a) (pi_key b).

(** The items in dequeue order. *)
Definition qview q : list (Z * T) :=
  (fun e => (- priority_neg e, item e)) <$> sort_by pi_le (q_heap q).

Definition q_wf q : Prop :=
  heap pi_lt (q_heap q) /\ NoDup (seq <$> q_heap q) /\
  Forall (fun e => seq e < q_seq q) (q_heap q) /\
  (0 < maxsize q -> len (q_heap q) <= maxsize q).
End queue.

(** ** Order facts *)

Section queue_facts.
Context {T : Type}.
Implicit Types (q : PriorityQueue T) (e : PrioritizedItem T).

Lemma key_ok (k : Z * Z) : py_ok k.
Proof. done. Qed.

Lemma pi_le_lt a b : pi_lt b a = false <-> pi_le (T:=T) a b = true.
Proof.
  unfold pi_lt, pi_le, py_lt, py_le. rewrite (pycmp_opp (pi_key a) (pi_key b)).
  destruct (pycmp_total (pi_key a) (pi_key b) (key_ok _) (key_ok _)) as [[] ->]; cbn; split; congruence.
Qed.

Lemma pi_le_key a b :
  pi_le (T:=T) a b = true <->
  priority_neg a < priority_neg b \/ (priority_neg a = priority_neg b /\ seq a <= seq b).
Proof.
  unfold pi_le, py_le, pi_key, pycmp, pyord_prod; cbn. unfold pyord_Z.
  destruct (Z.compare_spec (priority_neg a) (priority_neg b)); 
    [|split; [intros _; lia|done]|split; [done|intros; exfalso; lia]].
  unfold pycmp, pyord_Z. destruct (Z.compare_spec (seq a) (seq b)); split; intros; first [done|lia|exfalso; lia].
Qed.

Lemma heap_lt_le a b : pi_lt (T:=T) a b = true -> le pi_lt a b.
Proof.
  unfold le. intros H. destruct (pi_lt b a) eqn:E; [|done].
  apply not_false_iff_true in H, E. rewrite pi_le_lt, pi_le_key in H, E. lia.
Qed.

Lemma heap_le_trans a b c : le (A:=PrioritizedItem T) pi_lt a b -> le pi_lt b c -> le pi_lt a c.
Proof. unfold le. rewrite !pi_le_lt, !pi_le_key. lia. Qed.

Lemma heap_le_refl a : le (A:=PrioritizedItem T) pi_lt a a.
Proof. unfold le. rewrite pi_le_lt, pi_le_key. lia. Qed.

Lemma pi_le_total (a b : PrioritizedItem T) : pi_le a b = false -> pi_le b a = true.
Proof. intros H%not_true_iff_false. rewrite pi_le_key in *. lia. Qed.

Lemma pi_le_trans (a b c : PrioritizedItem T) : pi_le a b = true -> pi_le b c = true -> pi_le a c = true.
Proof. rewrite !pi_le_key. lia. Qed.

Lemma NoDup_fmap_inj {A B} (f : A -> B) l x y :
  NoDup (f <$> l) -> x ∈ l -> y ∈ l -> f x = f y -> x = y.
Proof.
  induction l as [|z l IH]; cbn; [set_solver|]. intros [Hz Hl]%NoDup_cons.
  intros [->|Hx]%elem_of_cons [->|Hy]%elem_of_cons E; try done.
  - destruct Hz. rewrite E. by apply list_elem_of_fmap_2.
  - destruct Hz. rewrite <- E. by apply list_elem_of_fmap_2.
  - auto.
Qed.

Lemma sort_entries_perm (l l' : list (PrioritizedItem T)) :
  NoDup (seq <$> l) -> l ≡ₚ l' -> sort_by pi_le l = sort_by pi_le l'.
Proof.
  intros Hnd Hp. apply (sorted_perm_unique pi_le).
  - apply sort_by_sorted; eauto using pi_le_total, pi_le_trans.
  - apply sort_by_sorted; eauto using pi_le_total, pi_le_trans.
  - intros x y Hx Hy. rewrite !sort_by_perm in Hx, Hy. rewrite !pi_le_key. intros H1 H2.
    apply (NoDup_fmap_inj seq l x y Hnd); [done|done|lia].
  - by rewrite !sort_by_perm.
Qed.

(** The newest entry goes behind every entry of at least its priority. *)
Lemma insert_newest (x : T) (p n : Z) l :
  Forall (fun e => seq e < n) l ->
  (fun e => (- priority_neg e, item e)) <$> insert_by pi_le (pitem (- p) n x) l =
  spec_put x p ((fun e => (- priority_neg e, item e)) <$> l).
Proof.
  induction 1 as [|e l He Hl IH]; cbn; [by rewrite Z.opp_involutive|].
  destruct (pi_le (pitem (- p) n x) e) eqn:E.
  - rewrite pi_le_key in E. cbn in E. destruct (Z.leb_spec p (- priority_neg e)); [lia|].
    cbn. by rewrite Z.opp_involutive.
  - apply not_true_iff_false in E. rewrite pi_le_key in E. cbn in E.
    destruct (Z.leb_spec p (- priority_neg e)); [|lia]. cbn. by f_equal.
Qed.

(** ** Operations preserve well-formedness and implement the sequence *)

Lemma full_false q : full q = false -> 0 < maxsize q -> len (q_heap q) < maxsize q.
Proof. unfold full. destruct (Z.leb_spec (maxsize q) 0); [lia|]. intros ?%Z.leb_gt. lia. Qed.

Lemma push_entry_spec x p q :
  q_wf q -> full q = false ->
  q_wf (push_entry x p q) /\ qview (push_entry x p q) = spec_put x p (qview q).
Proof.
  intros (Hh & Hnd & Hs & Hm) Hf. unfold push_entry, qview. cbn [q_heap q_seq maxsize policy].
  set (e := pitem (- p) (q_seq q) x).
  pose proof (heappush_perm pi_lt (q_heap q) e) as Hp.
  assert (NoDup (seq <$> heappush pi_lt (q_heap q) e)) as Hnd'.
  { rewrite Hp, fmap_cons, NoDup_cons. split; [|done]. intros (e' & He & Hin)%list_elem_of_fmap.
    rewrite Forall_forall in Hs. specialize (Hs e' Hin). cbn in He. lia. }
  split.
  - split_and!; cbn.
    + eapply (heappush_heap pi_lt (fun _ => True)); eauto using heap_lt_le, heap_le_trans, Forall_true.
    + done.
    + rewrite Hp. constructor; [cbn; lia|]. eapply Forall_impl; [exact Hs|]. cbn. lia.
    + intros H0. pose proof (full_false q Hf H0). unfold len in *. rewrite Hp. cbn [length]. lia.
  - rewrite (sort_entries_perm _ _ Hnd' Hp). cbn [sort_by foldr]. apply insert_newest.
    change (Forall (fun e => seq e < q_seq q) (sort_by pi_le (q_heap q))). by rewrite sort_by_perm.
Qed.

Lemma pop_entry_spec q :
  q_wf q ->
  match pop_entry q with
  | None => qview q = [] /\ q_heap q = []
  | Some (r, q') => q_wf q' /\ qview q = r :: qview q' /\ maxsize q' = maxsize q /\ policy q' = policy q
  end.
Proof.
  intros (Hh & Hnd & Hs & Hm). unfold pop_entry, qview.
  pose proof (heappop_spec pi_lt (fun _ => True) ltac:(eauto using heap_lt_le)
    ltac:(eauto using heap_le_trans) ltac:(eauto using heap_le_refl)
    (q_heap q) ltac:(by apply Forall_true) Hh) as Hpop.
  destruct (heappop pi_lt (q_heap q)) as [[e h]|]; [|by rewrite Hpop].
  destruct Hpop as (Hp & Hh' & Hmin).
  assert (NoDup (seq <$> e :: h)) as Hnd' by (by rewrite Hp).
  rewrite fmap_cons, NoDup_cons in Hnd'. cbn [q_heap q_seq maxsize policy].
  split; [split_and!; cbn [q_heap q_seq maxsize policy]|split_and!]; try done.
  - by apply Hnd'.
  - rewrite <- Hp in Hs. by apply Forall_cons in Hs as [_ ?].
  - intros H0. specialize (Hm H0). unfold len in *. rewrite <- Hp in Hm. cbn in Hm. lia.
  - rewrite (sort_entries_perm (q_heap q) (e :: h)) by done. cbn [sort_by foldr].
    change (foldr (insert_by pi_le) [] h) with (sort_by pi_le h).
    enough (insert_by pi_le e (sort_by pi_le h) = e :: sort_by pi_le h) as -> by done.
    rewrite <- Hp in Hmin. apply Forall_cons in Hmin as [_ Hmin].
    rewrite <- (sort_by_perm pi_le h) in Hmin. destruct (sort_by pi_le h) as [|y l]; [done|].
    apply Forall_cons in Hmin as [Hy _]. cbn [insert_by]. unfold le in Hy.
    rewrite pi_le_lt in Hy. by rewrite Hy.
Qed.

Lemma empty_true q : empty q = true <-> q_heap q = [].
Proof. unfold empty, len. rewrite Z.eqb_eq. destruct (q_heap q); cbn; split; try done; lia. Qed.

Lemma qview_nil q : qview q = [] <-> q_heap q = [].
Proof.
  unfold qview. split.
  - intros H%fmap_nil_inv. apply Permutation_nil_r. by rewrite <- H, sort_by_perm.
  - by intros ->.
Qed.

Lemma peek_spec q : q_wf q -> peek q = head (qview q).
Proof.
  intros Hwf. pose proof (pop_entry_spec q Hwf) as Hpop. unfold peek.
  destruct (empty q) eqn:E.
  - apply empty_true in E. assert (qview q = []) as -> by (by apply qview_nil). done.
  - unfold pop_entry, heappop in Hpop. destruct (last (q_heap q)) as [x|] eqn:El.
    + apply last_Some in El as [h1 Eh]. rewrite Eh, removelast_last in Hpop. rewrite Eh.
      destruct h1 as [|r h2]; destruct Hpop as (_ & -> & _); done.
    + apply last_None in El. by rewrite (proj2 (empty_true q)) in E.
Qed.
End queue_facts.

(** ** Theorems on the queue *)

Section queue_theorems.
Context {T : Type}.
Implicit Types (q : PriorityQueue T).

(** C22: the heap implements a sequence in dequeue order: an item put goes behind every item of at
    least its priority unless the queue is full, [get_nowait] removes the head or raises
    [QueueEmpty], [peek] shows the head; every operation keeps the queue well formed. *)
Theorem queue_refines_sequence (q : PriorityQueue T) (x : T) (p : Z) :
  q_wf q ->
  match put_nowait x p q with
  | Ok q' => full q = false /\ q_wf q' /\ qview q' = spec_put x p (qview q)
  | Raise e => full q = true /\ e = QueueFull
  end /\
  match get_nowait q with
  | Ok (r, q') => q_wf q' /\ qview q = r :: qview q'
  | Raise e => qview q = [] /\ e = QueueEmpty
  end /\
  peek q = head (qview q).
Proof.
  intros Hwf. split_and!.
  - unfold put_nowait, raise_if. destruct (full q) eqn:Ef; cbn; [done|].
    split; [done|]. by apply push_entry_spec.
  - unfold get_nowait. pose proof (pop_entry_spec q Hwf) as Hp. destruct (empty q) eqn:E.
    + apply empty_true, qview_nil in E. done.
    + destruct (pop_entry q) as [[r q']|]; [tauto|]. split; [|done]. by apply Hp.
  - by apply peek_spec.
Qed.

Lemma spec_put_le (x : T) p l :
  Forall (fun r => p <= r.1) l -> spec_put x p l = l ++ [(p, x)].
Proof.
  induction 1 as [|[k y] l Hk Hl IH]; cbn in *; [done|].
  destruct (Z.leb_spec p k); [by rewrite IH|lia].
Qed.

Lemma spec_put_Forall (P : Z * T -> Prop) x p l :
  P (p, x) -> Forall P l -> Forall P (spec_put x p l).
Proof.
  intros Hx. induction 1 as [|[k y] l Hk Hl IH]; cbn; [by constructor|].
  destruct (p <=? k); repeat constructor; done.
Qed.

Lemma filter_none (f : Z * T -> bool) l :
  Forall (fun r => f r = false) l -> List.filter f l = [].
Proof. induction 1 as [|r l Hr Hl IH]; cbn; [done|]. by rewrite Hr. Qed.

(** The sequence is a stable priority order: it stays sorted by decreasing priority, and
    among items of one priority a new item goes last while the others keep their order. *)
Theorem spec_put_stable (x : T) (p k : Z) (l : list (Z * T)) :
  StronglySorted (fun a b => b.1 <= a.1) l ->
  StronglySorted (fun a b => b.1 <= a.1) (spec_put x p l) /\
  List.filter (fun r => r.1 =? k) (spec_put x p l) =
    List.filter (fun r => r.1 =? k) l ++ (if p =? k then [(p, x)] else []).
Proof.
  induction 1 as [|[j y] l Hl IH Hj]; cbn [spec_put List.filter fst].
  - split; [repeat constructor|]. by destruct (p =? k).
  - destruct IH as [IH1 IH2]. destruct (Z.leb_spec p j) as [Hpj|Hpj].
    + split.
      * constructor; [done|]. apply spec_put_Forall; done.
      * cbn [List.filter fst]. rewrite IH2. by destruct (j =? k).
    + assert (Forall (fun r : Z * T => r.1 < p) ((j, y) :: l)) as Hlt.
      { constructor; [done|]. eapply Forall_impl; [exact Hj|]. cbn. lia. }
      split.
      * constructor; [by constructor|]. eapply Forall_impl; [exact Hlt|]. cbn. lia.
      * change (List.filter (fun r => r.1 =? k) ((p, x) :: (j, y) :: l) =
          List.filter (fun r => r.1 =? k) ((j, y) :: l) ++ (if p =? k then [(p, x)] else [])).
        cbn [List.filter fst]. destruct (Z.eqb_spec p k) as [<-|Hne]; [|by rewrite app_nil_r].
        change ((p, x) :: List.filter (fun r => r.1 =? p) ((j, y) :: l) =
          List.filter (fun r => r.1 =? p) ((j, y) :: l) ++ [(p, x)]).
        rewrite filter_none; [done|]. eapply Forall_impl; [exact Hlt|].
        cbn. intros r ?. apply Z.eqb_neq. lia.
Qed.

Lemma notify_cq (st : CondState (T:=T)) : cq (notify st) = cq st.
Proof. unfold notify. by destruct (waiting st). Qed.

Lemma run_coroutine_wf c (st : CondState (T:=T)) :
  q_wf (cq st) ->
  q_wf (cq (run_coroutine c st)) /\ maxsize (cq (run_coroutine c st)) = maxsize (cq st).
Proof.
  intros Hwf. unfold run_coroutine. destruct c as [x p|].
  - unfold put_section, raise_if.
    destruct (policy (cq st)), (full (cq st)) eqn:Ef; cbn; try done;
      rewrite notify_cq; cbn; (split; [by apply push_entry_spec|done]).
  - unfold get_section. destruct (empty (cq st)); [done|].
    pose proof (pop_entry_spec (cq st) Hwf) as Hp.
    destruct (pop_entry (cq st)) as [[r q]|]; [|done]. rewrite notify_cq. cbn. tauto.
Qed.

Lemma schedule_notify_cq loop (st : CondState (T:=T)) : cq (schedule_notify loop st) = cq st.
Proof. by destruct loop. Qed.

Lemma qstep_wf (st st' : CondState (T:=T)) :
  qstep st st' -> q_wf (cq st) -> q_wf (cq st') /\ maxsize (cq st') = maxsize (cq st).
Proof.
  intros Hs Hwf. destruct Hs as [c st|c r1 r2 st Hr|n st Hn|x p q loop st Hq|r q loop st Hq].
  - by apply run_coroutine_wf.
  - by apply (run_coroutine_wf c (cond_state (cq st) _ _ _)).
  - by rewrite notify_cq.
  - rewrite schedule_notify_cq. unfold put_nowait in Hq. inv_result. cbn.
    split; [by apply push_entry_spec|done].
  - rewrite schedule_notify_cq. unfold get_nowait in Hq. destruct (empty (cq st)); [done|].
    pose proof (pop_entry_spec (cq st) Hwf) as Hp.
    destruct (pop_entry (cq st)) as [[r' q']|]; [|done]. injection Hq as -> ->. cbn. tauto.
Qed.

Lemma queue_init_wf n pol : q_wf (queue_init (T:=T) n pol).
Proof. split_and!; cbn; [by intros ?????|constructor|constructor|unfold len; cbn; lia]. Qed.

(** C23: whatever coroutines and direct calls interleave, the queue stays well formed and a
    bounded queue never holds more than [maxsize] items. *)
Theorem queue_interleaving_safe (n : Z) (pol : QueuePolicy) (st : CondState (T:=T)) :
  rtc qstep (cond_state (queue_init n pol) [] [] 0) st ->
  q_wf (cq st) /\ (0 < n -> qsize (cq st) <= n).
Proof.
  intros Hr.
  assert (q_wf (cq st) /\ maxsize (cq st) = n) as [Hwf Hm].
  { pose proof (queue_init_wf n pol) as H0.
    apply rtc_nsteps in Hr as [k Hk].
    remember (cond_state (queue_init n pol) [] [] 0) as st0 eqn:E0.
    assert (q_wf (cq st0) /\ maxsize (cq st0) = n) as H1 by (by subst).
    clear E0 H0. induction Hk as [|k a b c Hab Hbc IH]; [done|].
    destruct H1 as [Ha Hn]. apply IH. destruct (qstep_wf a b Hab Ha) as [? Hmb].
    split; [done|congruence]. }
  split; [done|]. intros H0. unfold qsize. destruct Hwf as (_ & _ & _ & Hb). rewrite Hm in Hb. auto.
Qed.
End queue_theorems.

Lemma queue_refines_sequence_witness :
  let q := push_entry (str "b") 5 (push_entry (str "a") 1 (queue_init 2 REJECT_ON_FULL)) in
  q_wf q /\ peek q = Some (5, str "b").
Proof.
  intros q.
  assert (q_wf q) as Hq.
  { apply push_entry_spec; [|reflexivity]. apply push_entry_spec; [|reflexivity]. apply queue_init_wf. }
  split; [exact Hq|]. exact (proj2 (proj2 (queue_refines_sequence q (str "c") 0 Hq))).
Defined.

Lemma spec_put_stable_witness :
  List.filter (fun r => r.1 =? 1) (spec_put (str "c") 1 [(2, str "a"); (1, str "b")]) =
  [(1, str "b"); (1, str "c")].
Proof.
  apply (spec_put_stable (str "c") 1 1 [(2, str "a"); (1, str "b")]).
  repeat constructor. cbn. lia.
Defined.

Lemma queue_interleaving_safe_witness :
  let st0 := cond_state (queue_init (T:=pystr) 1 BLOCK_ON_FULL) [] [] 0 in
  let st := run_coroutine (PutCall (str "b") 0) (run_coroutine (PutCall (str "a") 0) st0) in
  waiting st = [PutCall (str "b") 0] /\ qsize (cq st) <= 1.
Proof.
  intros st0 st. split; [reflexivity|].
  apply (queue_interleaving_safe 1 BLOCK_ON_FULL st); [|reflexivity].
  eapply rtc_l; [apply (step_call (PutCall (str "a") 0))|].
  eapply rtc_l; [apply (step_call (PutCall (str "b") 0))|]. apply rtc_refl.
Defined.

(** The single condition variable loses wake-ups when producers and consumers wait together:
    from an empty queue of capacity one under BLOCK_ON_FULL, two gets and two puts reach a state
    in which the queue is empty, a put and a get both wait, and nobody is left to notify them. *)
Theorem queue_lost_wakeup :
  exists st : CondState (T:=pystr),
    rtc qstep (cond_state (queue_init 1 BLOCK_ON_FULL) [] [] 0) st /\
    full (cq st) = false /\ waiting st = [PutCall (str "b") 0; GetCall] /\
    ready st = [] /\ notify_tasks st = 0%nat.
Proof.
  eexists. split.
  - eapply rtc_l; [apply (step_call GetCall)|].
    eapply rtc_l; [apply (step_call GetCall)|].
    eapply rtc_l; [apply (step_call (PutCall (str "a") 0))|].
    eapply rtc_l; [apply (step_call (PutCall (str "b") 0))|].
    eapply rtc_l; [apply (step_resume GetCall [] []); vm_compute; reflexivity|].
    eapply rtc_l; [apply (step_resume GetCall [] []); vm_compute; reflexivity|].
    apply rtc_refl.
  - vm_compute. done.
Qed.

(** ** Credit windows

    Futures are numbered; [futures] holds their state. *)

Inductive FutState := FPending | FDone | FCancelled.

Record CreditFlow := {
  default_initial_credits : Z;
  credits : gmap pystr Z;
  cf_waiters : gmap pystr (list nat);
  futures : gmap nat FutState;
  next_future : nat;
}.

Definition credit_flow_init (initial : Z) : CreditFlow := {|
  default_initial_credits := initial; credits := ∅; cf_waiters := ∅; futures := ∅; next_future := 0
|}.

Definition set_credits (c : gmap pystr Z) (st : CreditFlow) : CreditFlow := {|
  default_initial_credits := default_initial_credits st; credits := c; cf_waiters := cf_waiters st;
  futures := futures st; next_future := next_future st
|}.

Definition init_peer (peer : pystr) (amount : option Z) (st : CreditFlow) : CreditFlow := {|
  default_initial_credits := default_initial_credits st;
  credits := <[peer := default (default_initial_credits st) amount]> (credits st);
  cf_waiters := match cf_waiters st !! peer with
                | None => <[peer := []]> (cf_waiters st)
                | Some _ => cf_waiters st
                end;
  futures := futures st; next_future := next_future st
|}.

Definition get_credits (peer : pystr) (st : CreditFlow) : Z :=
  default (default_initial_credits st) (credits st !! peer).

Definition try_acquire (peer : pystr) (amount : Z) (st : CreditFlow) : bool * CreditFlow :=
  let current := get_credits peer st in
  if amount <=? current then (true, set_credits (<[peer := current - amount]> (credits st)) st)
  else (false, st).

(** [acquire] from the head of its loop to its next suspension or its end: the future it waits
    for, or [None] when the credits were taken. *)
Definition acquire_section (peer : pystr) (amount : Z) (st : CreditFlow) : option nat * CreditFlow :=
  let balance := get_credits peer st in
  let credits1 := match credits st !! peer with
                  | None => <[peer := default_initial_credits st]> (credits st)
                  | Some _ => credits st
                  end in
  if balance <? amount then
    let future := next_future st in
    (Some future,
     {| default_initial_credits := default_initial_credits st; credits := credits1;
        cf_waiters := <[peer := default [] (cf_waiters st !! peer) ++ [future]]> (cf_waiters st);
        futures := <[future := FPending]> (futures st); next_future := S future |})
  else (None, set_credits (<[peer := balance - amount]> credits1) st).

(** The [CancelledError] handler of [acquire]. *)
Definition cancel_acquire (peer : pystr) (future : nat) (st : CreditFlow) : CreditFlow := {|
  default_initial_credits := default_initial_credits st; credits := credits st;
  cf_waiters := match cf_waiters st !! peer with
                | Some ws => <[peer := List.remove Nat.eq_dec future ws]> (cf_waiters st)
                | None => cf_waiters st
                end;
  futures := <[future := FCancelled]> (futures st); next_future := next_future st
|}.

(** [while waiters and self._credits[peer_id] > 0: ...] *)
Fixpoint wake_loop (balance : Z) (ws : list nat) (futs : gmap nat FutState)
    : list nat * gmap nat FutState :=
  match ws with
  | [] => ([], futs)
  | fut :: ws' =>
      if 0 <? balance then
        wake_loop balance ws'
          (match futs !! fut with Some FPending => <[fut := FDone]> futs | _ => futs end)
      else (ws, futs)
  end.

Definition replenish (peer : pystr) (amount : Z) (st : CreditFlow) : CreditFlow :=
  if amount <=? 0 then st
  else
    let balance := get_credits peer st + amount in
    let '(ws, futs) := wake_loop balance (default [] (cf_waiters st !! peer)) (futures st) in
    {| default_initial_credits := default_initial_credits st;
       credits := <[peer := balance]> (credits st);
       cf_waiters := match cf_waiters st !! peer with
                     | Some _ => <[peer := ws]> (cf_waiters st)
                     | None => cf_waiters st
                     end;
       futures := futs; next_future := next_future st |}.

(** A history of the controller: the calls, with the amount each one took from (positive) or
    returned to (negative) the window of its peer. *)
Inductive CreditOp :=
| OTry (peer : pystr) (amount : Z)
| OAcquire (peer : pystr) (amount : Z)
| OCancel (peer : pystr) (future : nat)
| OReplenish (peer : pystr) (amount : Z).

Definition credit_step (op : CreditOp) (st : CreditFlow) : (pystr * Z) * CreditFlow :=
  match op with
  | OTry p n => let '(ok, st') := try_acquire p n st in ((p, if ok then n else 0), st')
  | OAcquire p n =>
      let '(w, st') := acquire_section p n st in ((p, match w with Some _ => 0 | None => n end), st')
  | OCancel p f => ((p, 0), cancel_acquire p f st)
  | OReplenish p n => ((p, if n <=? 0 then 0 else - n), replenish p n st)
  end.

Fixpoint credit_run (ops : list CreditOp) (st : CreditFlow) : list (pystr * Z) * CreditFlow :=
  match ops with
  | [] => ([], st)
  | op :: ops' =>
      let '(t, st1) := credit_step op st in
      let '(ts, st2) := credit_run ops' st1 in
      (t :: ts, st2)
  end.

(** The credits outstanding for a peer according to a history. *)
Definition outstanding (peer : pystr) (ts : list (pystr * Z)) : Z :=
  zsum ((fun t => if bool_decide (t.1 = peer) then t.2 else 0) <$> ts).

Definition op_amount_ok (op : CreditOp) : bool :=
  match op with OTry _ n | OAcquire _ n | OReplenish _ n => 0 <=? n | OCancel _ _ => true end.

Lemma get_credits_insert st p q n :
  get_credits q (set_credits (<[p := n]> (credits st)) st) =
  if decide (p = q) then n else get_credits q st.
Proof.
  unfold get_credits. cbn. destruct (decide (p = q)) as [->|Hne].
  - by rewrite lookup_insert_eq.
  - by rewrite lookup_insert_ne.
Qed.

Lemma get_credits_default st p q :
  get_credits q (set_credits (match credits st !! p with
     None => <[p := default_initial_credits st]> (credits st) | Some _ => credits st end) st) =
  get_credits q st.
Proof.
  unfold get_credits. cbn. destruct (credits st !! p) eqn:E; [done|].
  destruct (decide (p = q)) as [->|Hne]; [by rewrite lookup_insert_eq, E|by rewrite lookup_insert_ne].
Qed.

(** One call moves the credits of its own peer by the recorded amount. *)
Lemma credit_step_balance op st q :
  get_credits q (credit_step op st).2 =
  get_credits q st - outstanding q [(credit_step op st).1].
Proof.
  unfold outstanding, zsum. destruct op as [p n|p n|p f|p n]; cbn [credit_step].
  - unfold try_acquire. destruct (n <=? get_credits p st) eqn:E; cbn [snd fst fmap list_fmap foldr].
    + rewrite get_credits_insert. case_bool_decide; destruct (decide _); subst; try done; lia.
    + case_bool_decide; lia.
  - unfold acquire_section. destruct (get_credits p st <? n) eqn:E; cbn [snd fst fmap list_fmap foldr].
    + etrans; [exact (get_credits_default st p q)|]. case_bool_decide; lia.
    + unfold get_credits at 1. cbn.
      case_bool_decide as Hq; [subst; rewrite lookup_insert_eq; cbn; lia|].
      rewrite lookup_insert_ne by done. rewrite Z.sub_0_r.
      destruct (credits st !! p) eqn:Ep; [done|]. unfold get_credits.
      by rewrite lookup_insert_ne.
  - cbn. case_bool_decide; unfold get_credits; cbn; lia.
  - unfold replenish. destruct (Z.leb_spec n 0); cbn [snd fst fmap list_fmap foldr].
    + case_bool_decide; lia.
    + destruct (wake_loop _ _ _) as [ws futs]. unfold get_credits at 1. cbn.
      case_bool_decide as Hq; [subst; rewrite lookup_insert_eq; cbn; lia|].
      rewrite lookup_insert_ne by done. fold (get_credits q st). lia.
Qed.

Lemma credit_step_nonneg op st q :
  op_amount_ok op = true -> 0 <= get_credits q st -> 0 <= get_credits q (credit_step op st).2.
Proof.
  intros Hop Hq. rewrite credit_step_balance. unfold outstanding, zsum.
  destruct op as [p n|p n|p f|p n]; cbn [credit_step op_amount_ok] in *; rewrite ?Z.leb_le in Hop.
  - unfold try_acquire. destruct (Z.leb_spec n (get_credits p st)); cbn;
      case_bool_decide; subst; lia.
  - unfold acquire_section. destruct (Z.ltb_spec (get_credits p st) n); cbn;
      case_bool_decide; subst; lia.
  - cbn. case_bool_decide; lia.
  - cbn. destruct (Z.leb_spec n 0); case_bool_decide; lia.
Qed.

(** Credits are conserved: after any history of calls the window of a peer is its initial
    window less the credits outstanding, and with non-negative amounts it never becomes negative,
    so the credits in flight never exceed the initial window. *)
Theorem credit_conservation (ops : list CreditOp) (st : CreditFlow) (peer : pystr) :
  let '(ts, st') := credit_run ops st in
  get_credits peer st' = get_credits peer st - outstanding peer ts /\
  (forallb op_amount_ok ops = true -> 0 <= get_credits peer st ->
   0 <= get_credits peer st' /\ outstanding peer ts <= get_credits peer st).
Proof.
  revert st. induction ops as [|op ops IH]; intros st; cbn [credit_run].
  - unfold outstanding, zsum. cbn. split; [lia|]. intros. lia.
  - pose proof (credit_step_balance op st peer) as Hb.
    pose proof (credit_step_nonneg op st peer) as Hn.
    destruct (credit_step op st) as [t st1]. cbn [fst snd] in *. specialize (IH st1).
    destruct (credit_run ops st1) as [ts st2]. destruct IH as [IH1 IH2].
    assert (outstanding peer (t :: ts) = outstanding peer [t] + outstanding peer ts) as ->.
    { unfold outstanding, zsum. cbn. lia. }
    split; [lia|]. cbn [forallb]. intros [Ho Hos]%andb_true_iff H0.
    specialize (IH2 Hos (Hn Ho H0)). lia.
Qed.

Lemma wake_loop_all balance ws futs :
  0 < balance ->
  (wake_loop balance ws futs).1 = [] /\
  (forall f, f ∈ ws -> (wake_loop balance ws futs).2 !! f <> Some FPending) /\
  (forall f, futs !! f <> Some FPending -> (wake_loop balance ws futs).2 !! f <> Some FPending).
Proof.
  intros Hb. revert futs. induction ws as [|w ws IH]; intros futs; cbn [wake_loop].
  - split_and!; [done|set_solver|done].
  - destruct (Z.ltb_spec 0 balance); [|lia].
    set (futs' := match futs !! w with Some FPending => <[w := FDone]> futs | _ => futs end).
    assert (forall f, (f = w \/ futs !! f <> Some FPending) -> futs' !! f <> Some FPending) as Hw.
    { intros f Hf. unfold futs'. destruct (futs !! w) as [[]|] eqn:E; try naive_solver.
      destruct (decide (w = f)) as [<-|]; [by rewrite lookup_insert_eq|].
      rewrite lookup_insert_ne by done. naive_solver. }
    destruct (IH futs') as (H1 & H2 & H3). split_and!; [done| |].
    + intros f [->|Hf]%elem_of_cons; auto.
    + auto.
Qed.

(** No sender is left behind: a replenishment that leaves a positive window empties the
    peer's list of waiters, and every future in it is resolved or cancelled afterwards. *)
Theorem replenish_wakes_waiters (peer : pystr) (amount : Z) (st : CreditFlow) (ws : list nat) :
  0 < amount -> 0 < get_credits peer st + amount -> cf_waiters st !! peer = Some ws ->
  cf_waiters (replenish peer amount st) !! peer = Some [] /\
  (forall f, f ∈ ws -> futures (replenish peer amount st) !! f <> Some FPending).
Proof.
  intros Ha Hb Hw. unfold replenish. destruct (Z.leb_spec amount 0); [lia|]. rewrite Hw. cbn [default].
  destruct (wake_loop_all (get_credits peer st + amount) ws (futures st) Hb) as (H1 & H2 & _).
  destruct (wake_loop _ _ _) as [ws' futs]. cbn in *. subst ws'.
  by rewrite lookup_insert_eq.
Qed.

Lemma replenish_wakes_waiters_witness :
  let st := (acquire_section (str "p") 1 (credit_flow_init 0)).2 in
  futures st !! 0%nat = Some FPending /\
  futures (replenish (str "p") 2 st) !! 0%nat <> Some FPending.
Proof.
  intros st. split; [reflexivity|].
  apply (replenish_wakes_waiters (str "p") 2 st [0%nat]); [reflexivity|reflexivity|reflexivity|].
  by left.
Defined.
