(* ===== verification/SimClock.v ===== *)
(** * The clocks ([SimClock] and [RealClock] of [peerq/clock.py])

    Virtual time, the heap of sleepers and the operations that advance it.  A sleeper is a
    deadline, a registration number and the future its coroutine awaits. *)

From Stdlib Require Import ZArith Lia.
From S2P Require Import Prelude PyFloat Security Heapq Queue.
Open Scope Z_scope.

Record Sleeper := sleeper { deadline : float; sl_counter : Z; sl_future : nat }.

(** The tuple order; the registration numbers are distinct, so futures are never compared. *)
Definition sl_key (s : Sleeper) : float * Z := (deadline s, sl_counter s).
Definition sl_lt (a b : Sleeper) : bool := py_lt (sl_key a) (sl_key b).

Record SimClock := {
  sc_now : float;
  sleepers : list Sleeper;
  sc_counter : Z;
  sc_futures : gmap nat FutState;
  sc_next : nat;
}.

Definition sim_clock_init (t : float) : SimClock :=
  {| sc_now := t; sleepers := []; sc_counter := 0; sc_futures := ∅; sc_next := 0 |}.

Definition set_sleepers (h : list Sleeper) (c : SimClock) : SimClock :=
  {| sc_now := sc_now c; sleepers := h; sc_counter := sc_counter c; sc_futures := sc_futures c;
     sc_next := sc_next c |}.

(** [sleep] up to its suspension: the future awaited.  A delay that is not positive only yields
    to the event loop, on a future that the loop itself resolves. *)
Definition sleep (delay : float) (c : SimClock) : nat * SimClock :=
  let future := sc_next c in
  if py_le delay fzero then
    (future, {| sc_now := sc_now c; sleepers := sleepers c; sc_counter := sc_counter c;
                sc_futures := <[future := FPending]> (sc_futures c); sc_next := S future |})
  else
    let entry := sleeper (fadd (sc_now c) delay) (sc_counter c) future in
    (future, {| sc_now := sc_now c; sleepers := heappush sl_lt (sleepers c) entry;
                sc_counter := sc_counter c + 1;
                sc_futures := <[future := FPending]> (sc_futures c); sc_next := S future |}).

(** The awaiting task is cancelled: its future is cancelled, the heap keeps the entry. *)
Definition cancel_sleep (future : nat) (c : SimClock) : SimClock :=
  {| sc_now := sc_now c; sleepers := sleepers c; sc_counter := sc_counter c;
     sc_futures := <[future := FCancelled]> (sc_futures c); sc_next := sc_next c |}.

Definition is_cancelled (c : SimClock) (f : nat) : bool :=
  match sc_futures c !! f with Some FCancelled => true | _ => false end.
Definition is_done (c : SimClock) (f : nat) : bool :=
  match sc_futures c !! f with Some FDone | Some FCancelled => true | _ => false end.

(** [while self._sleepers and self._sleepers[0][2].cancelled(): heappop] *)
Fixpoint drop_cancelled (fuel : nat) (c : SimClock) : SimClock :=
  match fuel, sleepers c with
  | S f, s :: _ =>
      if is_cancelled c (sl_future s) then
        match heappop sl_lt (sleepers c) with
        | Some (_, h) => drop_cancelled f (set_sleepers h c)
        | None => c
        end
      else c
  | _, _ => c
  end.

Definition clean (c : SimClock) : SimClock := drop_cancelled (length (sleepers c)) c.

Definition has_pending_sleepers (c : SimClock) : bool * SimClock :=
  let c := clean c in (0 <? len (sleepers c), c).

Definition next_deadline (c : SimClock) : option float * SimClock :=
  let c := clean c in
  (match sleepers c with s :: _ => Some (deadline s) | [] => None end, c).

(** The loop of [advance_to]; returns the entries popped, in order, each with whether its sleeper
    was woken. *)
Fixpoint advance_loop (fuel : nat) (target : float) (c : SimClock)
    : list (Sleeper * bool) * SimClock :=
  match fuel, sleepers c with
  | S f, s :: _ =>
      if py_gt (deadline s) target then ([], c)
      else
        match heappop sl_lt (sleepers c) with
        | Some (_, h) =>
            let c1 := set_sleepers h c in
            let wake := negb (is_cancelled c1 (sl_future s)) && negb (is_done c1 (sl_future s)) in
            let c2 :=
              if wake then
                {| sc_now := deadline s; sleepers := sleepers c1; sc_counter := sc_counter c1;
                   sc_futures := <[sl_future s := FDone]> (sc_futures c1); sc_next := sc_next c1 |}
              else c1 in
            let '(es, c3) := advance_loop f target c2 in ((s, wake) :: es, c3)
        | None => ([], c)
        end
  | _, _ => ([], c)
  end.

Definition woken (popped : list (Sleeper * bool)) : list (Sleeper * bool) :=
  List.filter (fun p => p.2) popped.

(** [advance_to]: returns the number of sleepers woken. *)
Definition advance_to (target : float) (c : SimClock) : result (Z * SimClock) :=
  raise_if (py_lt target (sc_now c)) ValueError ;;!
  let '(popped, c1) := advance_loop (length (sleepers c)) target c in
  Ok (len (woken popped),
      {| sc_now := target; sleepers := sleepers c1; sc_counter := sc_counter c1;
         sc_futures := sc_futures c1; sc_next := sc_next c1 |}).

Definition advance (duration : float) (c : SimClock) : result (Z * SimClock) :=
  raise_if (py_lt duration fzero) ValueError ;;! advance_to (fadd (sc_now c) duration) c.

Definition step (c : SimClock) : result (option float * SimClock) :=
  let c := clean c in
  match sleepers c with
  | [] => Ok (None, c)
  | s :: _ =>
      let! r := advance_to (deadline s) c in
      Ok (Some (sc_now r.2), r.2)
  end.

(** ** Well-formed clocks *)

Definition timed (s : Sleeper) : Prop := isnan (deadline s) = false.

Definition sc_wf (c : SimClock) : Prop :=
  heap sl_lt (sleepers c) /\ Forall timed (sleepers c) /\
  NoDup (sl_future <$> sleepers c) /\
  Forall (fun s => (sl_future s < sc_next c)%nat) (sleepers c).

(** [a] wakes no later than [b]. *)
Definition sl_before (a b : Sleeper) : Prop := py_le (sl_key a) (sl_key b) = true.

Lemma timed_ok s : timed s -> py_ok (sl_key s).
Proof. intros H. split; cbn; [|done]. intros E. unfold timed in H. by rewrite E in H. Qed.

Lemma sl_le_before a b : timed a -> timed b -> le sl_lt a b <-> sl_before a b.
Proof.
  intros Ha%timed_ok Hb%timed_ok. unfold le, sl_before, sl_lt, py_lt, py_le.
  rewrite (pycmp_opp (sl_key a) (sl_key b)).
  destruct (pycmp_total _ _ Ha Hb) as [[] ->]; cbn; split; congruence.
Qed.

Lemma sl_before_ge a b : sl_before a b <-> py_ge (sl_key b) (sl_key a) = true.
Proof.
  unfold sl_before, py_le, py_ge. rewrite (pycmp_opp (sl_key a) (sl_key b)).
  destruct (pycmp (sl_key a) (sl_key b)) as [[]|]; cbn; split; congruence.
Qed.

Lemma sl_lt_le a b : timed a -> timed b -> sl_lt a b = true -> le sl_lt a b.
Proof.
  intros Ha Hb. rewrite sl_le_before by done. unfold sl_lt, sl_before, py_lt, py_le.
  by destruct (pycmp _ _) as [[]|].
Qed.

Lemma sl_le_trans a b c : timed a -> timed b -> timed c -> le sl_lt a b -> le sl_lt b c -> le sl_lt a c.
Proof.
  intros Ha Hb Hc. rewrite !sl_le_before, !sl_before_ge by done. intros H1 H2.
  exact (py_ge_trans _ _ _ H2 H1).
Qed.

Lemma sl_le_refl a : timed a -> le sl_lt a a.
Proof. intros Ha. rewrite sl_le_before, sl_before_ge by done. by apply py_ge_refl, timed_ok. Qed.

Lemma sl_pop h :
  Forall timed h -> heap sl_lt h ->
  match heappop sl_lt h with
  | None => h = []
  | Some (m, h') => m :: h' ≡ₚ h /\ heap sl_lt h' /\ Forall (le sl_lt m) h
  end.
Proof. apply heappop_spec; eauto using sl_lt_le, sl_le_trans, sl_le_refl. Qed.

Lemma heappop_head {A} lt (s : A) h m h' : heappop lt (s :: h) = Some (m, h') -> m = s.
Proof.
  unfold heappop. destruct (last (s :: h)) as [x|] eqn:E; [|done].
  apply last_Some in E as [l El]. rewrite El, removelast_last.
  destruct l as [|y l]; cbn in El; injection El as -> ->; intros [= <- _]; done.
Qed.

Lemma sl_before_deadline a b : sl_before a b -> py_le (deadline a) (deadline b) = true.
Proof.
  unfold sl_before, py_le, sl_key, pycmp, pyord_prod. cbn [fst snd].
  destruct (pyord_float (deadline a) (deadline b)) as [[]|] eqn:E; unfold pycmp in *; rewrite ?E; done.
Qed.

Lemma sc_wf_pop c h now futs m :
  sc_wf c -> m :: h ≡ₚ sleepers c -> heap sl_lt h ->
  sc_wf {| sc_now := now; sleepers := h; sc_counter := sc_counter c; sc_futures := futs;
           sc_next := sc_next c |}.
Proof.
  intros (_ & Ht & Hnd & Hn) Hp Hh. rewrite <- Hp in Ht, Hnd, Hn.
  apply Forall_cons in Ht as [_ Ht], Hn as [_ Hn]. rewrite fmap_cons, NoDup_cons in Hnd.
  split_and!; cbn; [done|done|apply Hnd|done].
Qed.

Lemma wake_flag c f : negb (is_cancelled c f) && negb (is_done c f) = negb (is_done c f).
Proof. unfold is_cancelled, is_done. by destruct (sc_futures c !! f) as [[]|]. Qed.

Lemma py_gt_trans_le (a b t : float) : py_gt a t = true -> py_le a b = true -> py_gt b t = true.
Proof.
  unfold py_gt, py_le. rewrite (pycmp_opp t a), (pycmp_opp t b).
  destruct (pycmp t a) as [[]|] eqn:E1; try done. intros _.
  destruct (pycmp a b) as [[]|] eqn:E2; try done; intros _.
  - by rewrite <- (pycmp_eq_r _ _ t E2), E1.
  - by rewrite (pycmp_trans _ _ _ E1 E2).
Qed.

Lemma py_gt_le (a b : float) : py_ok a -> py_ok b -> py_gt a b = false -> py_le a b = true.
Proof.
  intros Ha Hb. unfold py_gt, py_le. destruct (pycmp_total a b Ha Hb) as [[] ->]; done.
Qed.

(** The outcome of waking the sleepers due at [target]. *)
Definition woke_up_to (target : float) (c : SimClock) (popped : list (Sleeper * bool)) (c' : SimClock)
    : Prop :=
  popped.*1 ++ sleepers c' ≡ₚ sleepers c /\
  StronglySorted sl_before popped.*1 /\
  Forall (fun p => py_le (deadline p.1) target = true /\ p.2 = negb (is_done c (sl_future p.1))) popped /\
  Forall (fun s => py_gt (deadline s) target = true) (sleepers c') /\
  sc_wf c' /\
  (forall f, sc_futures c' !! f =
     if bool_decide (f ∈ sl_future <$> (woken popped).*1) then Some FDone else sc_futures c !! f).

Lemma woke_none target c :
  sc_wf c -> Forall (fun s => py_gt (deadline s) target = true) (sleepers c) ->
  woke_up_to target c [] c.
Proof.
  intros Hwf Hf. split; [done|]. split; [constructor|]. split; [constructor|].
  split; [done|]. split; [done|]. intros f.
  rewrite bool_decide_eq_false_2; [done|]. set_solver.
Qed.

(** Popping the head [s] of the heap and then waking the rest. *)
Lemma woke_cons target c c2 c' s h es :
  sc_wf c -> s :: h ≡ₚ sleepers c -> Forall (le sl_lt s) (sleepers c) ->
  py_le (deadline s) target = true -> sleepers c2 = h ->
  sc_futures c2 = (if is_done c (sl_future s) then sc_futures c
                   else <[sl_future s := FDone]> (sc_futures c)) ->
  woke_up_to target c2 es c' ->
  woke_up_to target c ((s, negb (is_done c (sl_future s))) :: es) c'.
Proof.
  intros (Hh & Ht & Hnd & Hn) Hp Hmin Hdl Hs2 Hf2 (W1 & W2 & W3 & W4 & W5 & W6).
  rewrite Hs2 in W1. rewrite <- Hp in Hmin, Ht, Hnd.
  apply Forall_cons in Hmin as [_ Hmin], Ht as [Hts Ht]. rewrite fmap_cons, NoDup_cons in Hnd.
  destruct Hnd as [Hnot Hnd].
  assert (forall f, f <> sl_future s -> sc_futures c2 !! f = sc_futures c !! f) as Hsame.
  { intros f Hf. rewrite Hf2. destruct (is_done c (sl_future s)); [done|].
    by rewrite lookup_insert_ne. }
  assert (Forall (fun x => x ∈ h) es.*1) as Hin.
  { apply Forall_forall. intros x Hx. rewrite <- W1. apply elem_of_app. by left. }
  split_and!.
  - cbn. rewrite W1. by rewrite Hp.
  - cbn. constructor; [done|]. eapply Forall_impl; [exact Hin|]. intros x Hx.
    rewrite Forall_forall in Hmin, Ht. apply sl_le_before; auto.
  - constructor; [by cbn|]. apply Forall_forall. intros p Hpin. rewrite Forall_forall in W3.
    destruct (W3 p Hpin) as [Hd Hw]. split; [done|]. rewrite Hw. f_equal. unfold is_done.
    rewrite Hsame; [done|]. intros Heq. apply Hnot. rewrite <- Heq.
    apply list_elem_of_fmap. exists p.1. split; [done|]. rewrite Forall_forall in Hin.
    apply Hin. apply list_elem_of_fmap. eauto.
  - done.
  - done.
  - intros f. rewrite W6. unfold woken. cbn [List.filter snd].
    assert (f ∈ sl_future <$> (woken es).*1 -> f <> sl_future s) as Hdisj.
    { intros (x & -> & (p & -> & Hpw)%list_elem_of_fmap)%list_elem_of_fmap Heq. apply Hnot.
      rewrite <- Heq. apply list_elem_of_fmap. exists p.1. split; [done|].
      rewrite Forall_forall in Hin. apply Hin. apply list_elem_of_fmap. exists p.
      split; [done|]. unfold woken in Hpw. apply list_elem_of_In in Hpw.
      apply list_elem_of_In. by apply filter_In in Hpw as [? _]. }
    fold (woken es).
    destruct (is_done c (sl_future s)) eqn:Ed; cbn [negb].
    + case_bool_decide as Hb; [done|]. by rewrite Hf2.
    + rewrite !fmap_cons. cbn [fst]. case_bool_decide as Hb.
      * rewrite bool_decide_eq_true_2; [done|]. by right.
      * rewrite Hf2. destruct (decide (f = sl_future s)) as [->|Hne].
        { rewrite lookup_insert_eq, bool_decide_eq_true_2; [done|]. by left. }
        rewrite lookup_insert_ne, bool_decide_eq_false_2; [done| |done]. set_solver.
Qed.

Lemma advance_loop_spec fuel target c :
  sc_wf c -> isnan target = false -> (length (sleepers c) <= fuel)%nat ->
  woke_up_to target c (advance_loop fuel target c).1 (advance_loop fuel target c).2.
Proof.
  intros Hwf Hnan. revert c Hwf. induction fuel as [|f IH]; intros c Hwf Hlen; cbn [advance_loop].
  - cbn [fst snd]. apply woke_none; [done|]. destruct (sleepers c); [constructor|cbn in Hlen; lia].
  - destruct (sleepers c) as [|s h] eqn:Es; [cbn [fst snd]; apply woke_none; [done|by rewrite Es]|].
    destruct Hwf as (Hh & Ht & Hnd & Hn). rewrite Es in *.
    assert (timed s) as Hts by (by apply Forall_cons in Ht as [? _]).
    assert (sc_wf c) as Hwf by (split_and!; rewrite Es; done).
    destruct (py_gt (deadline s) target) eqn:Eg.
    + cbn. apply woke_none; [done|]. rewrite Es. apply Forall_forall. intros x Hx.
      pose proof (heap_root_min sl_lt timed sl_le_trans sl_le_refl _ s Ht Hh eq_refl) as Hmin.
      rewrite Forall_forall in Hmin, Ht. eapply py_gt_trans_le; [exact Eg|].
      apply sl_before_deadline, sl_le_before; auto.
    + pose proof (sl_pop (s :: h) Ht Hh) as Hp.
      destruct (heappop sl_lt (s :: h)) as [[m h']|] eqn:Epop; [|done].
      pose proof (heappop_head _ _ _ _ _ Epop) as ->. destruct Hp as (Hp & Hh' & Hmin).
      rewrite <- Es in Hp, Hmin. rewrite wake_flag.
      change (is_done (set_sleepers h' c) (sl_future s)) with (is_done c (sl_future s)).
      assert (py_le (deadline s) target = true) as Hdl.
      { apply py_gt_le; [|by intros ->|done]. intros E. unfold timed in Hts. by rewrite E in Hts. }
      match goal with |- context [advance_loop f target ?x] => set (c2 := x) end.
      assert (sc_wf c2 /\ sleepers c2 = h' /\ sc_futures c2 =
        (if is_done c (sl_future s) then sc_futures c else <[sl_future s := FDone]> (sc_futures c)))
        as (Hwf2 & Hs2 & Hf2).
      { unfold c2. destruct (is_done c (sl_future s)); cbn [negb]; split_and!; try done;
          exact (sc_wf_pop c h' _ _ s Hwf Hp Hh'). }
      specialize (IH c2 Hwf2). rewrite Hs2 in IH.
      assert (length h' <= f)%nat as Hl.
      { apply Permutation_length in Hp. rewrite Es in Hp. cbn in *. lia. }
      specialize (IH Hl). destruct (advance_loop f target c2) as [es c3]. cbn [fst snd] in *.
      eapply woke_cons; eauto.
Qed.

Lemma drop_cancelled_spec fuel c :
  sc_wf c -> (length (sleepers c) <= fuel)%nat ->
  exists dropped, dropped ++ sleepers (drop_cancelled fuel c) ≡ₚ sleepers c /\
    Forall (fun s => is_cancelled c (sl_future s) = true) dropped /\
    sc_wf (drop_cancelled fuel c) /\ sc_futures (drop_cancelled fuel c) = sc_futures c /\
    sc_now (drop_cancelled fuel c) = sc_now c /\
    match sleepers (drop_cancelled fuel c) with
    | s :: _ => is_cancelled c (sl_future s) = false
    | [] => True
    end.
Proof.
  revert c. induction fuel as [|f IH]; intros c Hwf Hlen; cbn [drop_cancelled].
  - exists []. destruct (sleepers c) eqn:Es; [|cbn in Hlen; lia]. by rewrite ?Es.
  - destruct (sleepers c) as [|s h] eqn:Es; [exists []; by rewrite Es|].
    destruct (is_cancelled c (sl_future s)) eqn:Ec; [|exists []; by rewrite Es].
    destruct Hwf as (Hh & Ht & Hnd & Hn). rewrite Es in *.
    assert (sc_wf c) as Hwf by (split_and!; rewrite Es; done).
    pose proof (sl_pop (s :: h) Ht Hh) as Hp.
    destruct (heappop sl_lt (s :: h)) as [[m h']|] eqn:Epop; [|done].
    pose proof (heappop_head _ _ _ _ _ Epop) as ->. destruct Hp as (Hp & Hh' & _).
    destruct (IH (set_sleepers h' c)) as (dropped & D1 & D2 & D3 & D4 & D5 & D6).
    { apply (sc_wf_pop c h' _ _ s Hwf); [by rewrite Es|done]. }
    { apply Permutation_length in Hp. cbn in *. lia. }
    exists (s :: dropped). split_and!; try done.
    + cbn. rewrite D1. exact Hp.
    + by constructor.
Qed.

(** ** Theorems *)

(** [advance_to] refuses to go backwards; otherwise it wakes exactly the live sleepers whose
    deadline has come, in order of deadline and registration, leaves the later ones asleep, moves
    the clock to the target and returns the number of sleepers woken. *)
Theorem advance_to_wakes_in_order (c : SimClock) (target : float) :
  sc_wf c -> isnan target = false ->
  if py_lt target (sc_now c) then advance_to target c = Raise ValueError
  else exists popped c', advance_to target c = Ok (len (woken popped), c') /\
         sc_now c' = target /\ woke_up_to target c popped c'.
Proof.
  intros Hwf Hn. unfold advance_to. destruct (py_lt target (sc_now c)); [done|]. cbn [raise_if rbind].
  pose proof (advance_loop_spec (length (sleepers c)) target c Hwf Hn (Nat.le_refl _)) as H.
  destruct (advance_loop (length (sleepers c)) target c) as [popped c1]. cbn [fst snd] in H.
  exists popped. eexists. split; [done|]. split; [done|].
  destruct H as (W1 & W2 & W3 & W4 & W5 & W6). split_and!; try done.
Qed.

(** [next_deadline] is the least deadline of the sleepers that are not cancelled, and [None]
    exactly when every registered sleeper is cancelled; dropping cancelled entries changes
    neither the time nor any future. *)
Theorem next_deadline_least (c : SimClock) :
  sc_wf c ->
  let '(d, c') := next_deadline c in
  sc_wf c' /\ sc_now c' = sc_now c /\ sc_futures c' = sc_futures c /\
  match d with
  | None => Forall (fun s => is_cancelled c (sl_future s) = true) (sleepers c)
  | Some d =>
      (exists s, s ∈ sleepers c /\ is_cancelled c (sl_future s) = false /\ deadline s = d) /\
      Forall (fun s => is_cancelled c (sl_future s) = false -> py_le d (deadline s) = true) (sleepers c)
  end.
Proof.
  intros Hwf. unfold next_deadline, clean.
  destruct (drop_cancelled_spec (length (sleepers c)) c Hwf (Nat.le_refl _))
    as (dropped & D1 & D2 & D3 & D4 & D5 & D6).
  set (c' := drop_cancelled (length (sleepers c)) c) in *. split_and!; try done.
  destruct D3 as (Hh & Ht & _). destruct (sleepers c') as [|s h].
  - rewrite app_nil_r in D1. by rewrite <- D1.
  - split.
    + exists s. split_and!; try done. rewrite <- D1. apply elem_of_app. right. by left.
    + rewrite <- D1. apply Forall_app_2.
      * eapply Forall_impl; [exact D2|]. cbn. congruence.
      * pose proof (heap_root_min sl_lt timed sl_le_trans sl_le_refl _ s Ht Hh eq_refl) as Hmin.
        apply Forall_forall. intros x Hx _. rewrite Forall_forall in Hmin, Ht.
        apply sl_before_deadline, sl_le_before; auto. apply Ht. by left.
Qed.

Lemma sleep_wf c delay :
  sc_wf c -> isnan (fadd (sc_now c) delay) = false -> sc_wf (sleep delay c).2.
Proof.
  intros (Hh & Ht & Hnd & Hn) Hnan. unfold sleep. destruct (py_le delay fzero).
  { split_and!; cbn; try done. eapply Forall_impl; [exact Hn|]. cbn. lia. }
  set (e := sleeper (fadd (sc_now c) delay) (sc_counter c) (sc_next c)).
  pose proof (heappush_perm sl_lt (sleepers c) e) as Hp.
  split_and!; cbn [sleepers sc_next sc_now snd].
  - apply (heappush_heap sl_lt timed); eauto using sl_lt_le, sl_le_trans.
  - rewrite Hp. by constructor.
  - rewrite Hp, fmap_cons, NoDup_cons. split; [|done]. intros (x & Hx & Hin)%list_elem_of_fmap.
    rewrite Forall_forall in Hn. specialize (Hn x Hin). cbn in Hx. lia.
  - rewrite Hp. constructor; [cbn; lia|]. eapply Forall_impl; [exact Hn|]. cbn. lia.
Qed.

Lemma sim_clock_init_wf t : sc_wf (sim_clock_init t).
Proof. split_and!; cbn; try constructor. by intros ?????. Qed.

(** Registering a sleeper with a positive delay keeps the clock well formed and the time
    unchanged; its future is pending and its deadline is the current time plus the delay. *)
Theorem sleep_registers (c : SimClock) (delay : float) :
  sc_wf c -> py_le delay fzero = false -> isnan (fadd (sc_now c) delay) = false ->
  let '(f, c') := sleep delay c in
  sc_wf c' /\ sc_now c' = sc_now c /\ is_done c' f = false /\
  exists s, s ∈ sleepers c' /\ sl_future s = f /\ deadline s = fadd (sc_now c) delay.
Proof.
  intros Hwf Hd Hnan. pose proof (sleep_wf c delay Hwf Hnan) as Hwf'. unfold sleep in *.
  rewrite Hd in *. split_and!; try done.
  - unfold is_done. cbn. by rewrite lookup_insert_eq.
  - exists (sleeper (fadd (sc_now c) delay) (sc_counter c) (sc_next c)). split_and!; try done.
    cbn. rewrite heappush_perm. by left.
Qed.

(** ** [RealClock] *)

(** What the system's monotonic and wall clocks show. *)
Record SystemTime := { monotonic : float; wall_time : float }.

Definition real_now (t : SystemTime) : float := monotonic t.
Definition real_wall_now (t : SystemTime) : float := wall_time t.

(** [RealClock.sleep]: the delay that [asyncio.sleep] is given. *)
Definition real_sleep (delay : float) : float := if py_gt delay fzero then delay else fzero.

(** The delay that [asyncio.sleep] is given is never negative and never NaN, and the two clocks agree on
    what a delay means: the one waits for exactly the delay where the other registers a sleeper, and
    both only yield otherwise; they differ on NaN, for which the simulated clock registers a sleeper. *)
Lemma real_sleep_delay delay c :
  py_ge (real_sleep delay) fzero = true /\
  (isnan delay = false ->
     if py_le delay fzero then real_sleep delay = fzero /\ sleepers (sleep delay c).2 = sleepers c
     else real_sleep delay = delay /\ len (sleepers (sleep delay c).2) = len (sleepers c) + 1) /\
  (isnan delay = true -> real_sleep delay = fzero /\ len (sleepers (sleep delay c).2) = len (sleepers c) + 1).
Proof.
  assert (forall e, len (heappush sl_lt (sleepers c) e) = len (sleepers c) + 1) as Hpush.
  { intros e. unfold len. rewrite (Permutation_length (heappush_perm _ _ _)). cbn [length]. lia. }
  unfold real_sleep, sleep, py_gt, py_ge, py_le.
  destruct (pycmp delay fzero) as [[]|] eqn:E; cbn; rewrite ?E; (split_and!; [done|..]); intros Hn; rewrite ?Hpush;
    try (by split); try (by destruct delay).
Qed.

(** Two sleepers registered at time zero, for three and for one second. *)
Definition two_sleepers : SimClock :=
  (sleep (decimal_float false 1 0) (sleep (decimal_float false 3 0) (sim_clock_init fzero)).2).2.

Lemma two_sleepers_wf : sc_wf two_sleepers.
Proof.
  apply sleep_wf; [|vm_compute; reflexivity]. apply sleep_wf; [|vm_compute; reflexivity].
  apply sim_clock_init_wf.
Qed.

Lemma advance_to_wakes_in_order_witness :
  exists popped c', advance_to (decimal_float false 2 0) two_sleepers = Ok (1, c') /\
    woke_up_to (decimal_float false 2 0) two_sleepers popped c'.
Proof.
  destruct (advance_to_wakes_in_order two_sleepers (decimal_float false 2 0) two_sleepers_wf eq_refl)
    as (popped & c' & H1 & _ & H2).
  exists popped, c'. split; [|exact H2].
  assert (rmap fst (advance_to (decimal_float false 2 0) two_sleepers) = Ok 1) as H
    by (vm_compute; reflexivity).
  rewrite H1 in *. cbn [rmap fst] in H. injection H as ->. reflexivity.
Defined.

Lemma next_deadline_least_witness :
  exists s, s ∈ sleepers two_sleepers /\ deadline s = decimal_float false 1 0.
Proof.
  pose proof (next_deadline_least two_sleepers two_sleepers_wf) as H.
  destruct (next_deadline two_sleepers) as [d c'] eqn:E. destruct H as (_ & _ & _ & H).
  vm_compute in E. injection E as <- <-. destruct H as [(s & H1 & _ & H2) _].
  exists s. split; [exact H1|]. rewrite H2. vm_compute. reflexivity.
Defined.

Lemma sleep_registers_witness :
  sc_wf (sleep (decimal_float false 1 0) (sim_clock_init fzero)).2.
Proof.
  apply (sleep_registers (sim_clock_init fzero) (decimal_float false 1 0));
    [apply sim_clock_init_wf|vm_compute; reflexivity|vm_compute; reflexivity].
Defined.
