(* ===== verification/Wal.v ===== *)
(** * The write-ahead log ([peerq/wal.py])

    The log file is its sequence of bytes: an eight-byte magic header, then frames of a length, a
    CRC-32, a record type and a JSON payload.  Appending, replaying, checkpointing and the states
    a crash can leave are modelled on that sequence. *)

From Stdlib Require Import ZArith NArith Lia.
From S2P Require Import Prelude PyFloat Text Json JsonFacts Security Consensus.
Open Scope Z_scope.

(** ** Format *)

Definition WAL_MAGIC : list byte := Z_byte <$> [0x50; 0x51; 0x57; 0x4C; 1; 0; 0; 0].
Definition WAL_HEADER_LEN : Z := len WAL_MAGIC.
Definition FRAME_HEADER_LEN : Z := 9.

Definition RECORD_TASK : Z := 1.
Definition RECORD_CLOCK : Z := 2.
Definition RECORD_CHECKPOINT : Z := 3.

Definition known_type (rt : Z) : bool :=
  (rt =? RECORD_TASK) || (rt =? RECORD_CLOCK) || (rt =? RECORD_CHECKPOINT).

(** [zlib.crc32]: the reflected CRC-32 of polynomial 0xEDB88320, bit by bit. *)
Definition crc_bit (c : Z) : Z :=
  if Z.testbit c 0 then Z.lxor (Z.shiftr c 1) 0xEDB88320 else Z.shiftr c 1.
Definition crc_byte (c : Z) (b : byte) : Z := Nat.iter 8 crc_bit (Z.lxor c (byte_Z b)).
Definition crc32 (b : list byte) : Z := Z.lxor (foldl crc_byte 0xFFFFFFFF b) 0xFFFFFFFF.

(** The checksum of a record: [zlib.crc32(bytes([record_type]) + payload_bytes) & 0xFFFFFFFF]. *)
Definition record_crc (rt : Z) (payload : list byte) : Z :=
  Z.land (crc32 (Z_byte rt :: payload)) 0xFFFFFFFF.

(** Four bytes, most significant first. *)
Definition be32 (z : Z) : list byte :=
  [Z_byte (Z.shiftr z 24); Z_byte (Z.shiftr z 16); Z_byte (Z.shiftr z 8); Z_byte z].
Definition of_be (b : list byte) : Z := foldl (fun a x => a * 256 + byte_Z x) 0 b.

(** [FRAME_HEADER_STRUCT.pack]; a field out of range is a [struct.error]. *)
Definition pack_header (payload_len crc rt : Z) : result (list byte) :=
  let u32 z := (0 <=? z) && (z <? 2 ^ 32) in
  if u32 payload_len && u32 crc && (0 <=? rt) && (rt <? 256)
  then Ok (be32 payload_len ++ be32 crc ++ [Z_byte rt])
  else Raise StructError.

(** [FRAME_HEADER_STRUCT.unpack] of nine bytes. *)
Definition unpack_header (h : list byte) : Z * Z * Z :=
  (of_be (take 4 h), of_be (take 4 (drop 4 h)), of_be (drop 8 h)).

(** ** The log *)

Record WriteAheadLog := {
  wal_data : option (list byte);
  is_open : bool;
  max_record_bytes : Z;
}.

Definition with_data (d : option (list byte)) (o : bool) (w : WriteAheadLog) : WriteAheadLog :=
  {| wal_data := d; is_open := o; max_record_bytes := max_record_bytes w |}.

Definition bytes_eqb (a b : list byte) : bool := bool_decide (a = b).

(** [_verify_header] *)
Definition verify_header (w : WriteAheadLog) : result () :=
  if is_open w then
    let hdr := take (length WAL_MAGIC) (default [] (wal_data w)) in
    raise_if ((len hdr <? WAL_HEADER_LEN) || negb (bytes_eqb (take 4 hdr) (take 4 WAL_MAGIC)))
      WalCorruptError ;;!
    raise_if (negb (bytes_eqb (take 1 (drop 4 hdr)) [Z_byte 1])) WalCorruptError
  else Raise WalError.

(** [_open]: a missing or empty file gets the magic header. *)
Definition wal_open (w : WriteAheadLog) : result WriteAheadLog :=
  let data := match wal_data w with None | Some [] => WAL_MAGIC | Some d => d end in
  let w := with_data (Some data) true w in
  verify_header w ;;! Ok w.

(** [__init__] on the file content found at the path. *)
Definition wal_init (found : option (list byte)) (max_bytes : Z) : result WriteAheadLog :=
  raise_if (max_bytes <=? 0) ValueError ;;!
  wal_open {| wal_data := found; is_open := false; max_record_bytes := max_bytes |}.

Definition wal_close (w : WriteAheadLog) : WriteAheadLog := with_data (wal_data w) false w.

(** Validate and serialise a payload: the [try] block of [append] and [checkpoint]. *)
Definition encode_payload (v : json) (w : WriteAheadLog) : result (list byte) :=
  match (validate_json_tree 16 10000 (max_record_bytes w) v ;;! dumps_bytes true v) with
  | Ok b => raise_if (max_record_bytes w <? len b) WalError ;;! Ok b
  | Raise MessageDecodeError | Raise TypeError | Raise ValueError => Raise WalError
  | Raise e => Raise e
  end.

(** The frame of a record. *)
Definition frame (rt : Z) (payload : list byte) : result (list byte) :=
  let! header := pack_header (len payload) (record_crc rt payload) rt in
  Ok (header ++ payload).

(** [append]: the offset of the record and the log. *)
Definition append (rt : Z) (v : json) (w : WriteAheadLog) : result (Z * WriteAheadLog) :=
  raise_if (negb (is_open w)) WalError ;;!
  raise_if (negb (known_type rt)) WalError ;;!
  let! payload_bytes := encode_payload v w in
  let! f := frame rt payload_bytes in
  let data := default [] (wal_data w) in
  Ok (len data, with_data (Some (data ++ f)) true w).

Definition append_task (r : TaskRecord) (w : WriteAheadLog) : result (Z * WriteAheadLog) :=
  append RECORD_TASK (JObj (to_dict r)) w.

Definition append_clock (c : VectorClock) (w : WriteAheadLog) : result (Z * WriteAheadLog) :=
  append RECORD_CLOCK (JObj (vc_json c)) w.

Record WalRecord := wal_record { offset : Z; record_type : Z; wr_payload : list (pystr * json) }.

(** ** Replay

    The generator is the list of records it yields and the exception that ends it, if any. *)
Definition replay_outcome : Type := list WalRecord * option exc.

Definition yield_record (r : WalRecord) (o : replay_outcome) : replay_outcome := (r :: o.1, o.2).

Fixpoint replay_loop (fuel : nat) (strict : bool) (max_bytes : Z) (file : list byte) (off : nat)
    : replay_outcome :=
  match fuel with
  | O => ([], Some RuntimeError)
  | S f =>
      let torn : replay_outcome := ([], if strict then Some WalCorruptError else None) in
      let corrupt : replay_outcome := ([], Some WalCorruptError) in
      let hdr_bytes := take 9 (drop off file) in
      if len hdr_bytes =? 0 then ([], None)
      else if len hdr_bytes <? FRAME_HEADER_LEN then torn
      else
        let '(payload_len, expected_crc, rt) := unpack_header hdr_bytes in
        if negb (known_type rt) then corrupt
        else if max_bytes <? payload_len then corrupt
        else
          let payload_bytes := take (Z.to_nat payload_len) (drop (off + 9) file) in
          if len payload_bytes <? payload_len then torn
          else if negb (record_crc rt payload_bytes =? expected_crc) then corrupt
          else
            match loads_bytes payload_bytes with
            | None => corrupt
            | Some v =>
                if negb (is_ok (validate_json_tree 16 10000 max_bytes v)) then corrupt
                else
                  match v with
                  | JObj d =>
                      yield_record (wal_record (Z.of_nat off) rt d)
                        (replay_loop f strict max_bytes file (off + 9 + Z.to_nat payload_len))
                  | _ => corrupt
                  end
            end
  end.

Definition replay (strict : bool) (w : WriteAheadLog) : replay_outcome :=
  match wal_data w with
  | None => ([], None)
  | Some file =>
      let hdr := take (length WAL_MAGIC) file in
      if len hdr <? WAL_HEADER_LEN then ([], if strict then Some WalCorruptError else None)
      else if negb (bytes_eqb (take 4 hdr) (take 4 WAL_MAGIC))
              || negb (bytes_eqb (take 1 (drop 4 hdr)) [Z_byte 1])
      then ([], Some WalCorruptError)
      else replay_loop (S (length file)) strict (max_record_bytes w) file (length WAL_MAGIC)
  end.

(** ** Checkpoint *)

Definition checkpoint_payload (tasks : list (pystr * TaskRecord)) (c : VectorClock) : json :=
  JObj [(str "tasks", JObj ((fun kr => (kr.1, JObj (to_dict kr.2))) <$> tasks));
        (str "vector_clock", JObj (vc_json c))].

(** The content of the temporary file. *)
Definition checkpoint_file (tasks : list (pystr * TaskRecord)) (c : VectorClock) (w : WriteAheadLog)
    : result (list byte) :=
  let! payload_bytes := encode_payload (checkpoint_payload tasks c) w in
  let! f := frame RECORD_CHECKPOINT payload_bytes in
  Ok (WAL_MAGIC ++ f).

Definition checkpoint (tasks : list (pystr * TaskRecord)) (c : VectorClock) (w : WriteAheadLog)
    : result WriteAheadLog :=
  let! content := checkpoint_file tasks c w in
  wal_open (with_data (Some content) false (wal_close w)).

(** The content of the log file after a crash during [checkpoint]: before the atomic replacement
    only the temporary file has changed, afterwards the new content is in place. *)
Inductive checkpoint_crash (content : list byte) (w : WriteAheadLog) : option (list byte) -> Prop :=
| crash_before : checkpoint_crash content w (wal_data w)
| crash_after : checkpoint_crash content w (Some content).

(** The content of the log file after a crash during [append]: any prefix of the frame may have
    reached the disk. *)
Inductive append_crash (data f : list byte) : list byte -> Prop :=
| torn_write k : append_crash data f (data ++ take k f).

(** The check value of the CRC-32 catalogue. *)
Example crc32_check : crc32 (str_bytes "123456789") = 0xCBF43926.
Proof. vm_compute. reflexivity. Qed.

(** ** Checksums *)

Lemma lxor_range a b n : 0 <= n -> 0 <= a < 2 ^ n -> 0 <= b < 2 ^ n -> 0 <= Z.lxor a b < 2 ^ n.
Proof.
  intros Hn Ha Hb. assert (0 <= Z.lxor a b) as H0 by (apply Z.lxor_nonneg; lia).
  split; [done|]. destruct (Z.eq_dec (Z.lxor a b) 0) as [->|Hz]; [lia|].
  apply Z.log2_lt_pow2; [lia|]. eapply Z.le_lt_trans; [apply Z.log2_lxor; lia|].
  assert (forall x, 0 <= x < 2 ^ n -> x <> 0 -> Z.log2 x < n) as Hl.
  { intros x Hx Hxz. apply Z.log2_lt_pow2; lia. }
  destruct (Z.eq_dec a 0) as [->|Ha0]; destruct (Z.eq_dec b 0) as [->|Hb0]; cbn; try done.
  - rewrite Z.max_r by apply Z.log2_nonneg. auto.
  - rewrite Z.max_l by apply Z.log2_nonneg. auto.
  - apply Z.max_lub_lt; auto.
Qed.

Lemma crc_bit_range c : 0 <= c < 2 ^ 32 -> 0 <= crc_bit c < 2 ^ 32.
Proof.
  intros Hc. unfold crc_bit. rewrite Z.shiftr_div_pow2 by lia. change (2 ^ 1) with 2.
  assert (0 <= c / 2 < 2 ^ 32) as Hd.
  { pose proof (Z.div_mod c 2 ltac:(lia)). pose proof (Z.mod_pos_bound c 2 ltac:(lia)). lia. }
  destruct (Z.testbit c 0); [|done].
  by apply (lxor_range _ _ 32).
Qed.

Lemma crc_bit_inj c c' :
  0 <= c < 2 ^ 32 -> 0 <= c' < 2 ^ 32 -> crc_bit c = crc_bit c' -> c = c'.
Proof.
  intros Hc Hc'. unfold crc_bit. rewrite !Z.shiftr_div_pow2 by lia. change (2 ^ 1) with 2.
  rewrite !Z.bit0_odd.
  assert (forall x, 0 <= x < 2 ^ 32 -> Z.testbit (x / 2) 31 = false) as Hb.
  { intros x Hx. apply Z.testbit_false; [lia|]. rewrite Z.div_small; [done|].
    pose proof (Z.div_mod x 2 ltac:(lia)). pose proof (Z.mod_pos_bound x 2 ltac:(lia)). lia. }
  assert (forall x y, Z.odd x = Z.odd y -> x / 2 = y / 2 -> x = y) as Hxy.
  { intros x y Ho Hd. pose proof (Z.div_mod x 2 ltac:(lia)). pose proof (Z.div_mod y 2 ltac:(lia)).
    rewrite !Zmod_odd, Ho in *. lia. }
  destruct (Z.odd c) eqn:E, (Z.odd c') eqn:E'; intros H.
  - apply Hxy; [congruence|]. apply (f_equal (fun z => Z.lxor z 3988292384)) in H.
    by rewrite !Z.lxor_assoc, Z.lxor_nilpotent, !Z.lxor_0_r in H.
  - apply (f_equal (fun z => Z.testbit z 31)) in H. rewrite Z.lxor_spec, !Hb in H by done. done.
  - apply (f_equal (fun z => Z.testbit z 31)) in H. rewrite Z.lxor_spec, !Hb in H by done. done.
  - apply Hxy; [congruence|done].
Qed.

Lemma iter_crc_range n c : 0 <= c < 2 ^ 32 -> 0 <= Nat.iter n crc_bit c < 2 ^ 32.
Proof. intros Hc. induction n as [|n IH]; cbn [Nat.iter nat_rect]; [done|]. by apply crc_bit_range. Qed.

Lemma iter_crc_inj n c c' :
  0 <= c < 2 ^ 32 -> 0 <= c' < 2 ^ 32 -> Nat.iter n crc_bit c = Nat.iter n crc_bit c' -> c = c'.
Proof.
  intros Hc Hc'. induction n as [|n IH]; cbn [Nat.iter nat_rect]; [done|].
  intros H. apply IH, crc_bit_inj; [by apply iter_crc_range..|done].
Qed.

Lemma byte_Z_32 b : 0 <= byte_Z b < 2 ^ 32.
Proof. pose proof (byte_Z_range b). lia. Qed.

Lemma crc_byte_range c b : 0 <= c < 2 ^ 32 -> 0 <= crc_byte c b < 2 ^ 32.
Proof. intros. apply iter_crc_range, lxor_range; [lia|done|apply byte_Z_32]. Qed.

Lemma lxor_cancel_r a b c : Z.lxor a c = Z.lxor b c -> a = b.
Proof.
  intros H%(f_equal (fun z => Z.lxor z c)).
  by rewrite !Z.lxor_assoc, Z.lxor_nilpotent, !Z.lxor_0_r in H.
Qed.

Lemma crc_byte_inj_c c c' b :
  0 <= c < 2 ^ 32 -> 0 <= c' < 2 ^ 32 -> crc_byte c b = crc_byte c' b -> c = c'.
Proof.
  intros Hc Hc' H. apply iter_crc_inj in H; [by apply lxor_cancel_r in H|..];
    (apply lxor_range; [lia|done|apply byte_Z_32]).
Qed.

Lemma crc_byte_inj_b c b b' : 0 <= c < 2 ^ 32 -> crc_byte c b = crc_byte c b' -> b = b'.
Proof.
  intros Hc H. apply iter_crc_inj in H; [|apply lxor_range; [lia|done|apply byte_Z_32]..].
  rewrite !(Z.lxor_comm c) in H. apply lxor_cancel_r in H.
  rewrite <- (Z_byte_Z b), <- (Z_byte_Z b'). by rewrite H.
Qed.

Lemma crc_fold_range l c : 0 <= c < 2 ^ 32 -> 0 <= foldl crc_byte c l < 2 ^ 32.
Proof. revert c. induction l as [|b l IH]; intros c Hc; cbn; [done|]. by apply IH, crc_byte_range. Qed.

Lemma crc_fold_inj l c c' :
  0 <= c < 2 ^ 32 -> 0 <= c' < 2 ^ 32 -> foldl crc_byte c l = foldl crc_byte c' l -> c = c'.
Proof.
  revert c c'. induction l as [|b l IH]; intros c c' Hc Hc' H; cbn in H; [done|].
  apply (crc_byte_inj_c _ _ b); [done..|]. by apply IH; [apply crc_byte_range..|].
Qed.

(** Changing one byte changes the checksum. *)
Lemma crc32_byte_change pre b b' post :
  b <> b' -> crc32 (pre ++ b :: post) <> crc32 (pre ++ b' :: post).
Proof.
  intros Hne H. unfold crc32 in H. apply lxor_cancel_r in H. rewrite !foldl_app in H. cbn [foldl] in H.
  assert (0 <= foldl crc_byte 0xFFFFFFFF pre < 2 ^ 32) as Hr by (apply crc_fold_range; lia).
  apply crc_fold_inj in H; [|by apply crc_byte_range..].
  apply Hne. by eapply crc_byte_inj_b.
Qed.

Lemma crc32_range b : 0 <= crc32 b < 2 ^ 32.
Proof. unfold crc32. apply lxor_range; [lia|apply crc_fold_range; lia|lia]. Qed.

Lemma record_crc_eq rt p : record_crc rt p = crc32 (Z_byte rt :: p).
Proof.
  unfold record_crc. change 0xFFFFFFFF with (Z.ones 32). rewrite Z.land_ones by lia.
  apply Z.mod_small, crc32_range.
Qed.

Lemma record_crc_range rt p : 0 <= record_crc rt p < 2 ^ 32.
Proof. rewrite record_crc_eq. apply crc32_range. Qed.

(** ** Frames *)

Lemma of_be_be32 z : 0 <= z < 2 ^ 32 -> of_be (be32 z) = z.
Proof.
  intros Hz. unfold be32, of_be. cbn [foldl].
  rewrite !Z.shiftr_div_pow2 by lia.
  change (2 ^ 24) with 16777216. change (2 ^ 16) with 65536. change (2 ^ 8) with 256.
  assert (forall x, byte_Z (Z_byte x) = x mod 256) as Hb.
  { intros x. rewrite <- (byte_Z_byte (x mod 256)) by (apply Z.mod_pos_bound; lia).
    unfold Z_byte at 2. by rewrite Z.mod_mod by lia. }
  rewrite !Hb.
  rewrite (Z.mod_small (z / 16777216)) by (split; [apply Z.div_pos; lia|apply Z.div_lt_upper_bound; lia]).
  pose proof (Z.div_mod z 256 ltac:(lia)). pose proof (Z.div_mod (z / 256) 256 ltac:(lia)).
  pose proof (Z.div_mod (z / 65536) 256 ltac:(lia)).
  assert (z / 65536 = z / 256 / 256) as E1 by (by rewrite Z.div_div by lia).
  assert (z / 16777216 = z / 65536 / 256) as E2 by (by rewrite Z.div_div by lia).
  lia.
Qed.

Lemma known_type_range rt : known_type rt = true -> 1 <= rt <= 3.
Proof.
  unfold known_type, RECORD_TASK, RECORD_CLOCK, RECORD_CHECKPOINT.
  rewrite !orb_true_iff, !Z.eqb_eq. lia.
Qed.

Lemma frame_ok rt p :
  known_type rt = true -> len p < 2 ^ 32 ->
  frame rt p = Ok ((be32 (len p) ++ be32 (record_crc rt p) ++ [Z_byte rt]) ++ p).
Proof.
  intros Hrt%known_type_range Hp. unfold frame, pack_header.
  pose proof (record_crc_range rt p) as Hc.
  assert ((0 <=? len p) && (len p <? 2 ^ 32) && ((0 <=? record_crc rt p) && (record_crc rt p <? 2 ^ 32))
     && (0 <=? rt) && (rt <? 256) = true) as ->; [|done].
  unfold len in *. rewrite !andb_true_iff, !Z.leb_le, !Z.ltb_lt. lia.
Qed.

Lemma frame_inv rt p f :
  frame rt p = Ok f ->
  f = (be32 (len p) ++ be32 (record_crc rt p) ++ [Z_byte rt]) ++ p /\ len p < 2 ^ 32.
Proof.
  unfold frame, pack_header. intros H. inv_result.
  destruct ((0 <=? len p) && (len p <? 2 ^ 32)) eqn:E1; [|done]. cbn [andb] in E.
  match type of E with (if ?b then _ else _) = _ => destruct b end; [|done].
  injection E as <-. split; [done|].
  apply andb_true_iff in E1 as [_ ?]. by apply Z.ltb_lt.
Qed.

Lemma frame_length rt p f : frame rt p = Ok f -> length f = (9 + length p)%nat.
Proof. intros [-> _]%frame_inv. by rewrite length_app. Qed.

Lemma unpack_frame rt p :
  known_type rt = true -> len p < 2 ^ 32 ->
  unpack_header (be32 (len p) ++ be32 (record_crc rt p) ++ [Z_byte rt]) = (len p, record_crc rt p, rt).
Proof.
  intros Hrt Hp. unfold unpack_header.
  assert (0 <= len p < 2 ^ 32) as Hl by (unfold len in *; lia).
  change ((of_be (be32 (len p)), of_be (be32 (record_crc rt p)), of_be [Z_byte rt]) =
    (len p, record_crc rt p, rt)).
  rewrite !of_be_be32 by (done || apply record_crc_range). f_equal.
  pose proof (known_type_range rt Hrt). unfold of_be. cbn [foldl]. rewrite byte_Z_byte; lia.
Qed.

(** The content of a record that replay accepts. *)
Definition payload_ok (max_bytes : Z) (p : list byte) (d : list (pystr * json)) : Prop :=
  len p <= max_bytes /\ loads_bytes p = Some (JObj d) /\
  validate_json_tree 16 10000 max_bytes (JObj d) = Ok ().

(** One iteration of replay at a frame. *)
Lemma replay_at_frame fuel strict max_bytes pre rt p f d rest :
  known_type rt = true -> payload_ok max_bytes p d -> frame rt p = Ok f ->
  replay_loop (S fuel) strict max_bytes (pre ++ f ++ rest) (length pre) =
  yield_record (wal_record (len pre) rt d)
    (replay_loop fuel strict max_bytes (pre ++ f ++ rest) (length (pre ++ f))).
Proof.
  intros Hrt (Hmax & Hload & Hval) Hf. pose proof (frame_length _ _ _ Hf) as Hfl.
  apply frame_inv in Hf as [-> Hlen]. set (h := be32 (len p) ++ be32 (record_crc rt p) ++ [Z_byte rt]) in *.
  assert (length h = 9%nat) as Hh by done.
  cbn [replay_loop]. rewrite drop_app_length, <- app_assoc.
  rewrite (take_app_length' h (p ++ rest) 9) by done.
  assert (len h = 9) as Hlh by (unfold len; by rewrite Hh). rewrite Hlh.
  change (9 =? 0) with false. change (9 <? FRAME_HEADER_LEN) with false. cbv iota.
  unfold h at 1. rewrite unpack_frame by done. rewrite Hrt. cbn [negb].
  destruct (Z.ltb_spec max_bytes (len p)); [lia|].
  rewrite (app_assoc pre h), (drop_app_length' (pre ++ h)) by (rewrite length_app, Hh; done).
  assert (Z.to_nat (len p) = length p) as Hnp by (unfold len; lia).
  rewrite Hnp, take_app_length, Z.ltb_irrefl, Z.eqb_refl. cbn [negb].
  rewrite Hload, Hval. cbn [is_ok negb].
  replace (length (pre ++ h ++ p)) with (length pre + 9 + length p)%nat; [done|].
  rewrite !length_app, Hh. lia.
Qed.

Lemma replay_at_end fuel strict max_bytes file :
  replay_loop (S fuel) strict max_bytes file (length file) = ([], None).
Proof. cbn [replay_loop]. by rewrite drop_all. Qed.

(** ** Well-formed logs *)

(** The bytes of a log and the records it holds. *)
Inductive wal_log (max_bytes : Z) : list byte -> list WalRecord -> Prop :=
| log_empty : wal_log max_bytes WAL_MAGIC []
| log_append data rs rt p d f :
    wal_log max_bytes data rs -> known_type rt = true -> payload_ok max_bytes p d ->
    frame rt p = Ok f ->
    wal_log max_bytes (data ++ f) (rs ++ [wal_record (len data) rt d]).

Lemma wal_log_length max_bytes data rs :
  wal_log max_bytes data rs -> (length rs + 8 <= length data)%nat.
Proof.
  induction 1 as [|data rs rt p d f Hl IH Hrt Hp Hf]; [done|].
  rewrite !length_app. rewrite (frame_length _ _ _ Hf). cbn. lia.
Qed.

Lemma wal_log_magic max_bytes data rs :
  wal_log max_bytes data rs -> exists rest, data = WAL_MAGIC ++ rest.
Proof.
  induction 1 as [|data rs rt p d f Hl [rest ->] Hrt Hp Hf]; [by exists []|].
  exists (rest ++ f). by rewrite app_assoc.
Qed.

(** Replay goes through the records of a log and continues behind them. *)
Lemma replay_through max_bytes data rs tail fuel strict :
  wal_log max_bytes data rs ->
  replay_loop (length rs + fuel) strict max_bytes (data ++ tail) 8 =
  (rs ++ (replay_loop fuel strict max_bytes (data ++ tail) (length data)).1,
   (replay_loop fuel strict max_bytes (data ++ tail) (length data)).2).
Proof.
  intros Hl. revert tail fuel.
  induction Hl as [|data rs rt p d f Hl IH Hrt Hp Hf]; intros tail fuel.
  - change (length WAL_MAGIC) with 8%nat. cbn [length Nat.add app].
    by destruct (replay_loop fuel strict max_bytes (WAL_MAGIC ++ tail) 8).
  - rewrite length_app. cbn [length]. rewrite <- Nat.add_assoc, <- app_assoc. cbn [Nat.add].
    rewrite IH, (replay_at_frame fuel strict max_bytes data rt p f d tail) by done.
    unfold yield_record. cbn [fst snd]. by rewrite <- app_assoc.
Qed.

Lemma replay_log max_bytes data rs tail strict o :
  wal_log max_bytes data rs ->
  replay strict {| wal_data := Some (data ++ tail); is_open := o; max_record_bytes := max_bytes |} =
  (let fuel := (S (length (data ++ tail)) - length rs)%nat in
   (rs ++ (replay_loop fuel strict max_bytes (data ++ tail) (length data)).1,
    (replay_loop fuel strict max_bytes (data ++ tail) (length data)).2)).
Proof.
  intros Hl. destruct (wal_log_magic _ _ _ Hl) as [rest E].
  pose proof (wal_log_length _ _ _ Hl) as Hlen. unfold replay. cbn [wal_data max_record_bytes].
  assert (take (length WAL_MAGIC) (data ++ tail) = WAL_MAGIC) as ->
    by (rewrite E, <- app_assoc; apply take_app_length).
  change (len WAL_MAGIC <? WAL_HEADER_LEN) with false. cbv iota.
  change (negb (bytes_eqb (take 4 WAL_MAGIC) (take 4 WAL_MAGIC))
          || negb (bytes_eqb (take 1 (drop 4 WAL_MAGIC)) [Z_byte 1])) with false. cbv iota.
  cbv zeta. rewrite <- replay_through by done. f_equal. rewrite length_app. lia.
Qed.

(** A log with nothing behind its records. *)
Lemma replay_clean max_bytes data rs strict o :
  wal_log max_bytes data rs ->
  replay strict {| wal_data := Some data; is_open := o; max_record_bytes := max_bytes |} = (rs, None).
Proof.
  intros Hl. pose proof (replay_log max_bytes data rs [] strict o Hl) as H.
  rewrite app_nil_r in H. rewrite H. pose proof (wal_log_length _ _ _ Hl). cbv zeta.
  destruct (S (length data) - length rs)%nat eqn:E; [lia|].
  rewrite replay_at_end. cbn. by rewrite app_nil_r.
Qed.

(** The header of a frame that was written in part is torn. *)
Lemma replay_torn fuel strict max_bytes data rt p f k :
  known_type rt = true -> len p <= max_bytes -> frame rt p = Ok f -> (0 < k < length f)%nat ->
  replay_loop (S fuel) strict max_bytes (data ++ take k f) (length data) =
  ([], if strict then Some WalCorruptError else None).
Proof.
  intros Hrt Hmax Hf Hk. pose proof (frame_length _ _ _ Hf) as Hfl.
  apply frame_inv in Hf as [-> Hlen]. set (h := be32 (len p) ++ be32 (record_crc rt p) ++ [Z_byte rt]) in *.
  assert (length h = 9%nat) as Hh by done.
  cbn [replay_loop]. rewrite drop_app_length.
  assert (len (take 9 (take k (h ++ p))) = Z.min 9 (Z.of_nat k)) as El.
  { unfold len. rewrite !length_take, length_app, Hh. rewrite length_app, Hh in Hk. lia. }
  rewrite El. destruct (Z.eqb_spec (Z.min 9 (Z.of_nat k)) 0); [lia|].
  unfold FRAME_HEADER_LEN. destruct (Z.ltb_spec (Z.min 9 (Z.of_nat k)) 9); [done|].
  rewrite take_take, Nat.min_l, (take_app_length' h p 9) by (done || lia).
  unfold h at 1. rewrite unpack_frame by done. rewrite Hrt. cbn [negb].
  destruct (Z.ltb_spec max_bytes (len p)); [lia|].
  destruct (Z.ltb_spec (len (take (Z.to_nat (len p)) (drop (length data + 9) (data ++ take k (h ++ p))))) (len p))
    as [|Hge]; [done|]. exfalso. revert Hge. unfold len.
  rewrite length_take, length_drop, length_app, length_take, length_app, Hh.
  rewrite length_app, Hh in Hk. lia.
Qed.

(** ** Serialisation keeps what validation checks *)

Lemma zsum_perm l l' : l ≡ₚ l' -> zsum l = zsum l'.
Proof. unfold zsum. induction 1; cbn [foldr] in *; lia. Qed.

Lemma tree_ok_sort_keys md ms v : forall depth, tree_ok md ms depth (sort_keys v) = tree_ok md ms depth v.
Proof.
  induction v as [|b|z|f|s|l IH|d IH] using json_ind; intros depth; cbn [sort_keys tree_ok]; try done.
  - f_equal. induction IH as [|x l Hx Hl IHl]; cbn [map forallb]; [done|]. by rewrite Hx, IHl.
  - f_equal. unfold sort_items.
    rewrite (forallb_perm_eq _ _ _ (sort_by_perm _ (map (fun kv => (kv.1, sort_keys kv.2)) d))).
    induction IH as [|x l Hx Hl IHl]; cbn [map forallb fst snd]; [done|]. by rewrite Hx, IHl.
Qed.

Lemma tree_items_sort_keys v : tree_items (sort_keys v) = tree_items v.
Proof.
  induction v as [|b|z|f|s|l IH|d IH] using json_ind; cbn [sort_keys tree_items]; try done.
  - unfold len. rewrite length_map. f_equal. f_equal. rewrite map_map. apply map_ext_in.
    intros x Hx. rewrite Forall_forall in IH. by apply IH, list_elem_of_In.
  - unfold sort_items, len.
    rewrite (zsum_perm _ (map (fun kv => tree_items kv.2) (map (fun kv => (kv.1, sort_keys kv.2)) d)))
      by (by rewrite sort_by_perm).
    rewrite sort_by_perm, length_map. f_equal. f_equal. rewrite map_map. apply map_ext_in.
    intros x Hx. cbn. rewrite Forall_forall in IH. by apply IH, list_elem_of_In.
Qed.

Lemma validate_sort_keys mb v :
  validate_json_tree 16 10000 mb v = Ok () -> validate_json_tree 16 10000 mb (sort_keys v) = Ok ().
Proof.
  rewrite !validate_json_tree_iff by done. by rewrite tree_ok_sort_keys, tree_items_sort_keys.
Qed.

(** What [append] and [checkpoint] write is what replay reads. *)
Lemma encode_payload_ok d w p :
  json_ok (JObj d) = true -> encode_payload (JObj d) w = Ok p ->
  exists d', JObj d' = sort_keys (JObj d) /\ payload_ok (max_record_bytes w) p d'.
Proof.
  intros Hok. unfold encode_payload.
  destruct (validate_json_tree 16 10000 (max_record_bytes w) (JObj d)) as [[]|e] eqn:Ev;
    cbn [rbind]; [|by destruct e].
  destruct (loads_dumps_bytes true (JObj d) Hok) as (b & -> & Hl). intros H. inv_result.
  eexists. split; [reflexivity|]. split_and!; [by apply Z.ltb_ge|exact Hl|].
  exact (validate_sort_keys _ _ Ev).
Qed.

(** A log object over well-formed bytes. *)
Definition wal_holds (w : WriteAheadLog) (rs : list WalRecord) : Prop :=
  exists data, wal_data w = Some data /\ wal_log (max_record_bytes w) data rs.

Lemma wal_holds_replay w rs strict : wal_holds w rs -> replay strict w = (rs, None).
Proof. destruct w. intros (data & E & Hl). cbn in *. subst. by apply replay_clean. Qed.

Lemma append_holds rt d w off w' rs :
  json_ok (JObj d) = true -> wal_holds w rs -> append rt (JObj d) w = Ok (off, w') ->
  exists d', JObj d' = sort_keys (JObj d) /\ wal_holds w' (rs ++ [wal_record off rt d']) /\
    is_open w' = true /\ max_record_bytes w' = max_record_bytes w.
Proof.
  intros Hok (data & Ed & Hl) H. unfold append in H. inv_result. rewrite Ed in H. cbn in H. breflect.
  destruct (encode_payload_ok d w a1 Hok E1) as (d' & Hd' & Hp).
  injection H as <- <-. exists d'. split_and!; try done.
  eexists. split; [done|]. by eapply log_append.
Qed.

Lemma wal_open_magic b o mb :
  wal_open {| wal_data := Some (WAL_MAGIC ++ b); is_open := o; max_record_bytes := mb |} =
  Ok {| wal_data := Some (WAL_MAGIC ++ b); is_open := true; max_record_bytes := mb |}.
Proof. done. Qed.

(** ** Theorems *)

(** Append a sequence of records of given types. *)
Fixpoint append_all (ops : list (Z * list (pystr * json))) (w : WriteAheadLog) : result WriteAheadLog :=
  match ops with
  | [] => Ok w
  | (rt, d) :: ops' => let! r := append rt (JObj d) w in append_all ops' r.2
  end.

Lemma append_all_holds ops w w' rs :
  Forall (fun op => json_ok (JObj op.2) = true) ops -> wal_holds w rs -> append_all ops w = Ok w' ->
  exists rs', wal_holds w' (rs ++ rs') /\
    (fun r => (record_type r, JObj (wr_payload r))) <$> rs' =
    (fun op => (op.1, sort_keys (JObj op.2))) <$> ops.
Proof.
  intros Hok. revert w rs. induction Hok as [|[rt d] ops Hd Hok IH]; intros w rs Hw H; cbn [append_all] in H.
  - inv_result. exists []. by rewrite app_nil_r.
  - inv_result. destruct a as [off w1]. cbn [snd fst] in *.
    destruct (append_holds rt d w off w1 rs Hd Hw E) as (d' & Hd' & Hw1 & _ & _).
    destruct (IH w1 _ Hw1 H) as (rs' & Hw' & Hrs').
    exists (wal_record off rt d' :: rs'). split; [by rewrite <- app_assoc in Hw'|].
    rewrite !fmap_cons, Hrs'. cbn [record_type wr_payload fst snd]. by rewrite Hd'.
Qed.

Lemma wal_init_holds mb w : wal_init None mb = Ok w -> wal_holds w [].
Proof.
  unfold wal_init. intros H. inv_result. change (wal_open _) with
    (@Ok WriteAheadLog {| wal_data := Some WAL_MAGIC; is_open := true; max_record_bytes := mb |}) in H.
  injection H as <-. exists WAL_MAGIC. split; [done|constructor].
Qed.

(** C17: what is appended is what is replayed: replaying a log written from scratch yields exactly
    the appended records, in order, each with its type and its payload (object keys sorted), and
    ends without an error, strict or not. *)
Theorem wal_append_replay (mb : Z) (w0 w : WriteAheadLog) (ops : list (Z * list (pystr * json)))
    (strict : bool) :
  wal_init None mb = Ok w0 -> Forall (fun op => json_ok (JObj op.2) = true) ops ->
  append_all ops w0 = Ok w ->
  exists rs, replay strict w = (rs, None) /\
    (fun r => (record_type r, JObj (wr_payload r))) <$> rs =
    (fun op => (op.1, sort_keys (JObj op.2))) <$> ops.
Proof.
  intros Hinit%wal_init_holds Hok Happ.
  destruct (append_all_holds ops w0 w [] Hok Hinit Happ) as (rs & Hw & Hrs).
  exists rs. split; [by apply wal_holds_replay|done].
Qed.

(** A task record appended to a log is recovered from it: replay yields the earlier records
    and then one whose payload [from_dict] turns back into the same record. *)
Theorem wal_task_recovered (w w' : WriteAheadLog) (rs : list WalRecord) (r : TaskRecord) (off : Z)
    (strict : bool) :
  wal_holds w rs -> record_ok r = true -> record_text_ok r = true -> vc_wf (vector_clock r) ->
  append_task r w = Ok (off, w') ->
  exists d, replay strict w' = (rs ++ [wal_record off RECORD_TASK d], None) /\ from_dict (JObj d) = Ok r.
Proof.
  intros Hw Hr Ht Hv Happ. unfold append_task in Happ.
  destruct (append_holds _ _ _ _ _ rs (to_dict_json_ok r Ht) Hw Happ) as (d & Hd & Hw' & _).
  exists d. split; [by apply wal_holds_replay|]. rewrite Hd. by apply from_dict_to_dict.
Qed.

(** C19: a crash while appending loses nothing that was written before: with any strict prefix of
    the new frame on disk, replay yields all earlier records and, not strict, ends cleanly;
    strict, it reports corruption exactly when part of the frame is there. *)
Theorem wal_torn_write_tolerated (w : WriteAheadLog) (rs : list WalRecord) (rt : Z)
    (p f : list byte) (k : nat) (strict : bool) :
  wal_holds w rs -> known_type rt = true -> len p <= max_record_bytes w -> frame rt p = Ok f ->
  (k < length f)%nat ->
  replay strict (with_data (Some (default [] (wal_data w) ++ take k f)) false w) =
  (rs, if strict && negb (k =? 0)%nat then Some WalCorruptError else None).
Proof.
  intros (data & Ed & Hl) Hrt Hp Hf Hk. rewrite Ed. cbn [from_option id].
  unfold with_data. rewrite replay_log with (rs := rs) by done. cbv zeta.
  pose proof (wal_log_length _ _ _ Hl) as Hlen.
  destruct (S (length (data ++ take k f)) - length rs)%nat as [|fuel] eqn:E.
  { rewrite length_app in E. lia. }
  destruct k as [|k].
  - rewrite take_0, app_nil_r, replay_at_end. cbn [fst snd Nat.eqb negb].
    by rewrite app_nil_r, andb_false_r.
  - rewrite (replay_torn fuel strict _ data rt p f (S k)) by (done || lia).
    cbn [fst snd Nat.eqb negb]. by rewrite app_nil_r, andb_true_r.
Qed.

(** A damaged payload is detected: changing any one byte of a record's payload makes replay
    stop at that record with [WalCorruptError], after yielding the records before it. *)
Theorem wal_detects_payload_damage (w : WriteAheadLog) (rs : list WalRecord) (rt : Z)
    (p1 p2 rest f : list byte) (b b' : byte) (strict : bool) :
  wal_holds w rs -> known_type rt = true ->
  len (p1 ++ b :: p2) <= max_record_bytes w -> frame rt (p1 ++ b :: p2) = Ok f -> b <> b' ->
  replay strict (with_data (Some (default [] (wal_data w) ++ take (9 + length p1) f ++ b' :: p2 ++ rest))
                   false w) = (rs, Some WalCorruptError).
Proof.
  intros (data & Ed & Hl) Hrt Hp Hf Hb. rewrite Ed. cbn [from_option id].
  apply frame_inv in Hf as [-> Hlen]. set (p := p1 ++ b :: p2) in *.
  set (h := be32 (len p) ++ be32 (record_crc rt p) ++ [Z_byte rt]).
  assert (length h = 9%nat) as Hh by done.
  assert (take (9 + length p1) (h ++ p) = h ++ p1) as ->.
  { unfold p. rewrite app_assoc. apply take_app_length'. rewrite length_app. lia. }
  set (q := p1 ++ b' :: p2).
  assert (data ++ (h ++ p1) ++ b' :: p2 ++ rest = data ++ h ++ q ++ rest) as ->.
  { unfold q. rewrite <- !app_assoc. done. }
  unfold with_data. rewrite replay_log with (rs := rs) by done. cbv zeta.
  pose proof (wal_log_length _ _ _ Hl) as Hll.
  destruct (S (length (data ++ h ++ q ++ rest)) - length rs)%nat as [|fuel] eqn:E.
  { rewrite length_app in E. lia. }
  assert (replay_loop (S fuel) strict (max_record_bytes w) (data ++ h ++ q ++ rest) (length data) =
    ([], Some WalCorruptError)) as ->; [|cbn; by rewrite app_nil_r].
  cbn [replay_loop]. rewrite drop_app_length, (take_app_length' h _ 9) by done.
  change (len h) with 9. change (9 =? 0) with false. change (9 <? FRAME_HEADER_LEN) with false. cbv iota.
  unfold h at 1. rewrite unpack_frame by done. rewrite Hrt. cbn [negb].
  destruct (Z.ltb_spec (max_record_bytes w) (len p)); [lia|].
  rewrite (app_assoc data h), (drop_app_length' (data ++ h)) by (rewrite length_app, Hh; done).
  assert (Z.to_nat (len p) = length q) as ->.
  { unfold len, p, q. rewrite !length_app. cbn [length]. lia. }
  rewrite take_app_length. assert (len q = len p) as ->.
  { unfold len, p, q. rewrite !length_app. done. }
  rewrite Z.ltb_irrefl. destruct (Z.eqb_spec (record_crc rt q) (record_crc rt p)) as [Hc|]; [|done].
  exfalso. rewrite !record_crc_eq in Hc. unfold p, q in Hc.
  exact (crc32_byte_change (Z_byte rt :: p1) b' b p2 (not_eq_sym Hb) Hc).
Qed.

Lemma replay_loop_errors fuel strict mb file off :
  (off <= length file)%nat -> (length file < fuel + off)%nat ->
  (replay_loop fuel strict mb file off).2 = None \/
  (replay_loop fuel strict mb file off).2 = Some WalCorruptError.
Proof.
  revert off. induction fuel as [|f IH]; intros off Ho Hf; [lia|]. cbn [replay_loop].
  destruct (_ =? 0); [by left|].
  destruct (len (take 9 (drop off file)) <? FRAME_HEADER_LEN) eqn:Eh; [destruct strict; auto|].
  destruct (unpack_header _) as [[plen crc] rt]. destruct (negb (known_type rt)); [by right|].
  destruct (mb <? plen); [by right|].
  destruct (len (take (Z.to_nat plen) (drop (off + 9) file)) <? plen) eqn:Ep; [destruct strict; auto|].
  destruct (negb _); [by right|]. destruct (loads_bytes _) as [v|]; [|by right].
  destruct (negb _); [by right|]. destruct v; try by right.
  apply Z.ltb_ge in Eh, Ep. unfold len, FRAME_HEADER_LEN in *. rewrite length_take, length_drop in *.
  apply IH; lia.
Qed.

(** Replay is total on arbitrary files: whatever the bytes, it ends after finitely many
    records, either cleanly or with [WalCorruptError]. *)
Theorem wal_replay_total (w : WriteAheadLog) (strict : bool) :
  (replay strict w).2 = None \/ (replay strict w).2 = Some WalCorruptError.
Proof.
  unfold replay. destruct (wal_data w) as [file|]; [|by left].
  destruct (_ <? _) eqn:Eh; [destruct strict; auto|]. destruct (_ || _); [by right|].
  apply replay_loop_errors; [|lia].
  apply Z.ltb_ge in Eh. revert Eh. change WAL_HEADER_LEN with 8.
  unfold len. rewrite length_take. change (length WAL_MAGIC) with 8%nat. lia.
Qed.

(** ** Checkpoints *)

Lemma checkpoint_payload_ok tasks c :
  NoDup tasks.*1 -> forallb (fun kr => scalar_str kr.1 && record_text_ok kr.2) tasks = true ->
  forallb (fun kv => scalar_str kv.1 && json_ok (JInt kv.2)) (map_to_list (clock c)) = true ->
  json_ok (checkpoint_payload tasks c) = true.
Proof.
  intros Hnd Ht Hc. unfold checkpoint_payload. pose proof (vc_json_ok c Hc) as Hvc.
  assert (json_ok (JObj ((fun kr => (kr.1, JObj (to_dict kr.2))) <$> tasks)) = true) as Htasks.
  { cbn [json_ok]. apply andb_true_iff. split.
    - apply bool_decide_eq_true. by rewrite <- list_fmap_compose.
    - apply forallb_Forall in Ht. apply forallb_Forall, Forall_fmap. eapply Forall_impl; [exact Ht|].
      intros [k r] [Hk Hr]%andb_true_iff. cbn [compose fst snd] in *. rewrite Hk.
      by apply to_dict_json_ok. }
  set (a := JObj (_ <$> tasks)) in *. set (b := JObj (vc_json c)) in *. clearbody a b.
  cbn [json_ok forallb fst snd]. rewrite Htasks, Hvc. reflexivity.
Qed.


(** ** Witnesses *)

Definition sample_obj (n : Z) : list (pystr * json) := [(str "p1", JInt n)].

Definition get_ok {A} (dflt : A) (r : result A) : A := match r with Ok a => a | Raise _ => dflt end.

Definition closed_log : WriteAheadLog :=
  {| wal_data := None; is_open := false; max_record_bytes := MAX_FRAME_SIZE |}.

(** A log of one clock record. *)
Definition sample_log : WriteAheadLog :=
  get_ok closed_log (let! w0 := wal_init None MAX_FRAME_SIZE in
                     append_all [(RECORD_CLOCK, sample_obj 1)] w0).

Lemma sample_log_holds : exists d, wal_holds sample_log [wal_record 8 RECORD_CLOCK d].
Proof.
  assert (exists w0, wal_init None MAX_FRAME_SIZE = Ok w0 /\
    append RECORD_CLOCK (JObj (sample_obj 1)) w0 = Ok (8, sample_log)) as (w0 & H0 & H1)
    by (eexists; split; [reflexivity|vm_compute; reflexivity]).
  destruct (append_holds RECORD_CLOCK (sample_obj 1) w0 8 sample_log []) as (d & _ & H & _);
    [reflexivity|by apply wal_init_holds in H0|exact H1|]. by exists d.
Qed.

Lemma wal_append_replay_witness :
  exists rs, replay true sample_log = (rs, None) /\
    (fun r => (record_type r, JObj (wr_payload r))) <$> rs = [(RECORD_CLOCK, JObj (sample_obj 1))].
Proof.
  apply (wal_append_replay MAX_FRAME_SIZE (get_ok closed_log (wal_init None MAX_FRAME_SIZE)) sample_log
    [(RECORD_CLOCK, sample_obj 1)] true).
  - reflexivity.
  - repeat constructor.
  - vm_compute. reflexivity.
Defined.

Lemma wal_task_recovered_witness :
  exists w' off d rs, append_task sample_record sample_log = Ok (off, w') /\
    replay false w' = (rs ++ [wal_record off RECORD_TASK d], None) /\
    from_dict (JObj d) = Ok sample_record.
Proof.
  destruct sample_log_holds as (d0 & Hw).
  assert (exists off w', append_task sample_record sample_log = Ok (off, w')) as (off & w' & Ha).
  { assert (is_ok (append_task sample_record sample_log) = true) as H by (vm_compute; reflexivity).
    destruct (append_task sample_record sample_log) as [[off w']|]; [eauto|discriminate H]. }
  destruct (wal_task_recovered sample_log w' [wal_record 8 RECORD_CLOCK d0] sample_record off false)
    as (d & H1 & H2).
  - exact Hw.
  - reflexivity.
  - vm_compute. reflexivity.
  - apply VectorClock_init_wf.
  - exact Ha.
  - exists w', off, d, [wal_record 8 RECORD_CLOCK d0]. split_and!; [exact Ha|exact H1|exact H2].
Defined.

Definition sample_frame : list byte := get_ok [] (frame RECORD_CLOCK (str_bytes "{}")).

Lemma wal_torn_write_tolerated_witness :
  exists rs, replay false (with_data (Some (default [] (wal_data sample_log) ++ take 10 sample_frame)) false
                 sample_log) = (rs, None).
Proof.
  destruct sample_log_holds as (d & Hw). exists [wal_record 8 RECORD_CLOCK d].
  refine (wal_torn_write_tolerated sample_log _ RECORD_CLOCK (str_bytes "{}") sample_frame 10 false Hw _ _ _ _).
  - reflexivity.
  - vm_compute. discriminate.
  - vm_compute. reflexivity.
  - vm_compute. lia.
Defined.

Lemma wal_detects_payload_damage_witness :
  exists rs, replay false (with_data (Some (default [] (wal_data sample_log)
      ++ take 10 sample_frame ++ Z_byte 0x5D :: [])) false sample_log) = (rs, Some WalCorruptError).
Proof.
  destruct sample_log_holds as (d & Hw). exists [wal_record 8 RECORD_CLOCK d].
  refine (wal_detects_payload_damage sample_log _ RECORD_CLOCK (str_bytes "{") [] [] sample_frame
    (Z_byte 0x7D) (Z_byte 0x5D) false Hw _ _ _ _).
  - reflexivity.
  - vm_compute. discriminate.
  - vm_compute. reflexivity.
  - vm_compute. discriminate.
Defined.


(** A torn tail is not removed when the log is opened again: after a crash that left ten bytes
    of a frame, the log opens and accepts a new record behind the torn bytes, and the next replay
    fails with [WalCorruptError] without yielding the new record. *)
Theorem wal_append_after_torn_write :
  exists torn w1 w2 off rs,
    append_crash (default [] (wal_data sample_log)) sample_frame torn /\
    wal_init (Some torn) MAX_FRAME_SIZE = Ok w1 /\ replay false w1 = (rs, None) /\
    append RECORD_CLOCK (JObj (sample_obj 2)) w1 = Ok (off, w2) /\
    replay false w2 = (rs, Some WalCorruptError).
Proof.
  exists (default [] (wal_data sample_log) ++ take 10 sample_frame).
  do 4 eexists. split_and!; [apply torn_write|vm_compute; reflexivity..].
Qed.
