(* ===== verification/Metrics.v ===== *)
(** * Telemetry ([peerq/metrics.py])

    The log-linear histogram and the collector of counters and latencies.  The library function
    [math.log2], used once to size the bucket array, is a parameter. *)

From Stdlib Require Import ZArith Lia.
From S2P Require Import Prelude PyFloat Security.
Open Scope Z_scope.

(** [max(a, b)] and [min(a, b)] of two floats: the first unless the second is beyond it. *)
Definition py_max (a b : float) : float := if py_gt b a then b else a.
Definition py_min (a b : float) : float := if py_lt b a then b else a.

(** [math.ceil] of a float. *)
Definition math_ceil (f : float) : result Z :=
  let! t := int_of_float f in
  Ok (if py_lt (Z_to_float t) f then t + 1 else t).

Record LogLinearHistogram := {
  sub_bucket_bits : Z;
  total_buckets : Z;
  counts : list Z;
  total_count : Z;
  h_sum : float;
  h_min : float;
  h_max : float;
}.

Definition sub_bucket_count (h : LogLinearHistogram) : Z := Z.shiftl 1 (sub_bucket_bits h).
Definition sub_bucket_mask (h : LogLinearHistogram) : Z := sub_bucket_count h - 1.
Definition linear_sub_range (h : LogLinearHistogram) : Z := sub_bucket_count h.

(** [LogLinearHistogram.__init__] *)
Definition histogram_init (math_log2 : float -> float) (bits : Z) (max_value : float)
    : result LogLinearHistogram :=
  raise_if ((bits <? 1) || (16 <? bits)) ValueError ;;!
  let count := Z.shiftl 1 bits in
  let! max_octave := if py_gt max_value (Z_to_float count) then math_ceil (math_log2 max_value)
                     else Ok bits in
  let octave_count := Z.max 1 (max_octave - bits + 1) in
  let total := count + octave_count * count in
  Ok {| sub_bucket_bits := bits; total_buckets := total;
        counts := replicate (Z.to_nat total) 0; total_count := 0;
        h_sum := fzero; h_min := finf; h_max := fzero |}.

(** The properties [min], [max] and [mean]. *)
Definition hist_min (h : LogLinearHistogram) : float := if 0 <? total_count h then h_min h else fzero.
Definition hist_max (h : LogLinearHistogram) : float := if 0 <? total_count h then h_max h else fzero.
Definition hist_mean (h : LogLinearHistogram) : float :=
  if 0 <? total_count h then fdiv (h_sum h) (Z_to_float (total_count h)) else fzero.

(** [int.bit_length()] of a non-negative integer. *)
Definition bit_length (z : Z) : Z := if z =? 0 then 0 else Z.log2 z + 1.

(** [_value_to_index] of a value whose integer part is at least the linear range. *)
Definition octave_bucket (h : LogLinearHistogram) (val_int : Z) : Z :=
  let octave := bit_length val_int - 1 in
  let octave_index := octave - sub_bucket_bits h in
  let sub_index := Z.land (Z.shiftr val_int (octave - sub_bucket_bits h)) (sub_bucket_mask h) in
  linear_sub_range h + octave_index * sub_bucket_count h + sub_index.

Definition value_to_index (h : LogLinearHistogram) (value : float) : result Z :=
  if py_lt value (Z_to_float (linear_sub_range h)) then
    let! v := int_of_float value in Ok (Z.max 0 v)
  else
    let! val_int := int_of_float value in
    Ok (Z.min (octave_bucket h val_int) (total_buckets h - 1)).

(** The lower bound and the width of a bucket. *)
Definition bucket_low (h : LogLinearHistogram) (index : Z) : Z :=
  if index <? linear_sub_range h then index
  else
    let offset := index - linear_sub_range h in
    let octave := offset / sub_bucket_count h + sub_bucket_bits h in
    Z.shiftl 1 octave + (offset mod sub_bucket_count h) * Z.shiftl 1 (octave - sub_bucket_bits h).
Definition bucket_width (h : LogLinearHistogram) (index : Z) : Z :=
  if index <? linear_sub_range h then 1
  else
    let offset := index - linear_sub_range h in
    let octave := offset / sub_bucket_count h + sub_bucket_bits h in
    Z.shiftl 1 (octave - sub_bucket_bits h).

(** [_index_to_approx_value] *)
Definition index_to_approx_value (h : LogLinearHistogram) (index : Z) : float :=
  if index <? linear_sub_range h then fadd (Z_to_float index) (decimal_float false 5 (-1))
  else fadd (Z_to_float (bucket_low h index))
            (fdiv (Z_to_float (bucket_width h index)) (decimal_float false 2 0)).

(** [self._counts[idx] += 1]; an index out of range raises. *)
Definition bump (idx : Z) (l : list Z) : result (list Z) :=
  match (if idx <? 0 then None else l !! Z.to_nat idx) with
  | Some n => Ok (<[Z.to_nat idx := n + 1]> l)
  | None => Raise ValueError
  end.

Definition record (value : float) (h : LogLinearHistogram) : result LogLinearHistogram :=
  raise_if (py_lt value fzero) ValueError ;;!
  let! idx := value_to_index h value in
  let! c := bump idx (counts h) in
  Ok {| sub_bucket_bits := sub_bucket_bits h; total_buckets := total_buckets h; counts := c;
        total_count := total_count h + 1; h_sum := fadd (h_sum h) value;
        h_min := if py_lt value (h_min h) then value else h_min h;
        h_max := if py_gt value (h_max h) then value else h_max h |}.

(** [for idx, count in enumerate(self._counts): ...]: the first bucket at which the cumulative
    count reaches the target. *)
Fixpoint quantile_index (cs : list Z) (idx cumulative target : Z) : option Z :=
  match cs with
  | [] => None
  | c :: cs' =>
      let cumulative := cumulative + c in
      if target <=? cumulative then Some idx else quantile_index cs' (idx + 1) cumulative target
  end.

Definition quantile (q : float) (h : LogLinearHistogram) : result float :=
  if total_count h =? 0 then Ok fzero
  else if py_le q fzero then Ok (h_min h)
  else if py_ge q (decimal_float false 1 0) then Ok (h_max h)
  else
    let! target := math_ceil (fmul q (Z_to_float (total_count h))) in
    match quantile_index (counts h) 0 0 target with
    | Some idx => Ok (py_max (h_min h) (py_min (h_max h) (index_to_approx_value h idx)))
    | None => Ok (h_max h)
    end.

(** ** The collector *)

Record MetricsCollector := {
  counters : list (pystr * Z);
  histograms : list (pystr * LogLinearHistogram);
}.

Definition COUNTER_NAMES : list pystr :=
  [str "enqueued"; str "claimed"; str "completed"; str "failed"; str "reclaimed"; str "rejected"].

Definition metrics_init (math_log2 : float -> float) (bits : Z) : result MetricsCollector :=
  let! h := histogram_init math_log2 bits (decimal_float false 1 8) in
  Ok {| counters := (fun n => (n, 0)) <$> COUNTER_NAMES;
        histograms := [(str "task_latency", h); (str "claim_latency", h); (str "gossip_latency", h)] |}.

Definition get_counter (name : pystr) (m : MetricsCollector) : Z := default 0 (dict_get name (counters m)).

Definition increment_counter (name : pystr) (amount : Z) (m : MetricsCollector) : MetricsCollector :=
  {| counters := match dict_get name (counters m) with
                 | Some n => dict_set name (n + amount) (counters m)
                 | None => dict_set name amount (counters m)
                 end;
     histograms := histograms m |}.

(** [record_latency]: its outcome and the collector it leaves (a histogram created for a new name
    stays registered when recording raises). *)
Definition record_latency (math_log2 : float -> float) (name : pystr) (latency_us : float)
    (m : MetricsCollector) : result () * MetricsCollector :=
  match (match dict_get name (histograms m) with
         | Some h => Ok h
         | None => histogram_init math_log2 7 (decimal_float false 1 9)
         end) with
  | Raise e => (Raise e, m)
  | Ok h =>
      let with_hist h := {| counters := counters m; histograms := dict_set name h (histograms m) |} in
      match record latency_us h with
      | Ok h' => (Ok (), with_hist h')
      | Raise e => (Raise e, with_hist h)
      end
  end.

Definition get_histogram (name : pystr) (m : MetricsCollector) : option LogLinearHistogram :=
  dict_get name (histograms m).

(** One entry of [snapshot]'s latencies. *)
Definition hist_summary (h : LogLinearHistogram) : result (list (pystr * float)) :=
  let! p50 := quantile (decimal_float false 50 (-2)) h in
  let! p95 := quantile (decimal_float false 95 (-2)) h in
  let! p99 := quantile (decimal_float false 99 (-2)) h in
  let! p999 := quantile (decimal_float false 999 (-3)) h in
  Ok [(str "count", Z_to_float (total_count h)); (str "min", hist_min h); (str "mean", hist_mean h);
      (str "max", hist_max h); (str "p50", p50); (str "p95", p95); (str "p99", p99); (str "p999", p999)].

Fixpoint summaries (hs : list (pystr * LogLinearHistogram)) : result (list (pystr * list (pystr * float))) :=
  match hs with
  | [] => Ok []
  | (n, h) :: hs' =>
      let! s := hist_summary h in
      let! rest := summaries hs' in
      Ok ((n, s) :: rest)
  end.

Definition snapshot (m : MetricsCollector)
    : result (list (pystr * Z) * list (pystr * list (pystr * float))) :=
  let! s := summaries (histograms m) in Ok (counters m, s).

(** ** Well-formed histograms *)

Definition hist_wf (h : LogLinearHistogram) : Prop :=
  1 <= sub_bucket_bits h <= 16 /\
  linear_sub_range h < total_buckets h /\ len (counts h) = total_buckets h /\
  Forall (fun c => 0 <= c) (counts h) /\ zsum (counts h) = total_count h /\
  isnan (h_min h) = false /\ isnan (h_max h) = false /\
  py_ge (h_max h) fzero = true /\
  (0 < total_count h -> py_le (h_min h) (h_max h) = true) /\
  (total_count h = 0 -> h_min h = finf).

(** ** Doubles and powers of two *)

(** A double as the machine represents it. *)
Definition double (f : float) : bool := valid_binary 53 1024 f.

Lemma digits2_pos_bounds m : 2 ^ (Zpos (digits2_pos m) - 1) <= Zpos m < 2 ^ Zpos (digits2_pos m).
Proof.
  induction m as [m IH|m IH|]; cbn [digits2_pos]; [| |done].
  - rewrite Pos2Z.inj_succ. replace (Z.succ (Zpos (digits2_pos m)) - 1) with (Zpos (digits2_pos m)) by lia.
    rewrite Z.pow_succ_r by lia.
    replace (2 ^ Zpos (digits2_pos m)) with (2 * 2 ^ (Zpos (digits2_pos m) - 1)) in *
      by (rewrite <- Z.pow_succ_r by lia; f_equal; lia). lia.
  - rewrite Pos2Z.inj_succ. replace (Z.succ (Zpos (digits2_pos m)) - 1) with (Zpos (digits2_pos m)) by lia.
    rewrite Z.pow_succ_r by lia.
    replace (2 ^ Zpos (digits2_pos m)) with (2 * 2 ^ (Zpos (digits2_pos m) - 1)) in *
      by (rewrite <- Z.pow_succ_r by lia; f_equal; lia). lia.
Qed.

(** The mantissa of a double has at most 53 bits, exactly 53 unless it is subnormal. *)
Lemma double_mantissa s m e :
  double (S754_finite s m e) = true ->
  Zpos m < 2 ^ 53 /\ (-1074 < e -> 2 ^ 52 <= Zpos m) /\ -1074 <= e.
Proof.
  unfold double, valid_binary, bounded, canonical_mantissa, fexp, emin.
  intros [Hc _]%andb_true_iff. apply Z.eqb_eq in Hc.
  pose proof (digits2_pos_bounds m) as [Hlo Hhi].
  change (3 - 1024 - 53) with (-1074) in Hc.
  assert (Zpos (digits2_pos m) <= 53) as Hd by lia. split_and!.
  - eapply Z.lt_le_trans; [exact Hhi|]. apply Z.pow_le_mono_r; lia.
  - intros He. assert (Zpos (digits2_pos m) = 53) as Hd' by lia. rewrite Hd' in Hlo. exact Hlo.
  - lia.
Qed.

Lemma power_float k : 1 <= k <= 16 -> Z_to_float (2 ^ k) = S754_finite false 4503599627370496 (k - 52).
Proof.
  intros Hk. assert (k = 1 \/ k = 2 \/ k = 3 \/ k = 4 \/ k = 5 \/ k = 6 \/ k = 7 \/ k = 8 \/ k = 9 \/ k = 10
    \/ k = 11 \/ k = 12 \/ k = 13 \/ k = 14 \/ k = 15 \/ k = 16) as H by lia.
  repeat destruct H as [->|H]; [vm_compute; reflexivity..|]. subst. vm_compute. reflexivity.
Qed.

Lemma pos_cont p q : Pos.compare_cont Eq p q = Pos.compare p q.
Proof. reflexivity. Qed.

(** The integer part of a non-negative double on either side of a small power of two. *)
Lemma trunc_below k s m e :
  1 <= k <= 16 -> double (S754_finite s m e) = true ->
  py_lt (S754_finite s m e) (Z_to_float (2 ^ k)) = true -> trunc (S754_finite s m e) < 2 ^ k.
Proof.
  intros Hk Hd. rewrite power_float by done. destruct (double_mantissa _ _ _ Hd) as (Hm & _ & _).
  assert (0 < 2 ^ k) as Hpos by (apply Z.pow_pos_nonneg; lia).
  destruct s.
  - intros _. cbn [trunc]. assert (0 <= if 0 <=? e then Zpos m * 2 ^ e else Zpos m / 2 ^ (- e)).
    { destruct (Z.leb_spec 0 e); [pose proof (Z.pow_nonneg 2 e); lia|].
      apply Z.div_pos; [lia|]. apply Z.pow_pos_nonneg; lia. }
    lia.
  - unfold py_lt, pycmp, pyord_float. cbn [SFcompare]. intros H.
    assert (e <= k - 52 /\ (e = k - 52 -> Zpos m < 2 ^ 52)) as [He Hme].
    { rewrite pos_cont in H.
      destruct (Z.compare_spec e (k - 52)); try done; [|split; lia].
      destruct (Pos.compare_spec m 4503599627370496) as [|Hlt|]; try discriminate H. clear H.
      split; [by apply Z.eq_le_incl|]. intros _. exact Hlt. }
    cbn [trunc]. destruct (Z.leb_spec 0 e); [lia|]. apply Z.div_lt_upper_bound; [apply Z.pow_pos_nonneg; lia|].
    rewrite <- Z.pow_add_r by lia. destruct (Z.eq_dec e (k - 52)) as [->|Hne].
    + replace (- (k - 52) + k) with 52 by lia. auto.
    + eapply Z.lt_le_trans; [exact Hm|]. apply Z.pow_le_mono_r; lia.
Qed.

Lemma trunc_above k s m e :
  1 <= k <= 16 -> double (S754_finite s m e) = true ->
  py_lt (S754_finite s m e) fzero = false ->
  py_lt (S754_finite s m e) (Z_to_float (2 ^ k)) = false -> 2 ^ k <= trunc (S754_finite s m e).
Proof.
  intros Hk Hd Hs. destruct s; [done|]. rewrite power_float by done.
  destruct (double_mantissa _ _ _ Hd) as (_ & Hm & _).
  unfold py_lt, pycmp, pyord_float. cbn [SFcompare]. intros H.
  assert (k - 52 <= e /\ 2 ^ 52 <= Zpos m) as [He Hme].
  { rewrite pos_cont in H.
    destruct (Z.compare_spec e (k - 52)); try done; (split; [lia|apply Hm; lia]). }
  cbn [trunc]. destruct (Z.leb_spec 0 e).
  - assert (2 ^ k <= 2 ^ 52) by (apply Z.pow_le_mono_r; lia).
    assert (1 <= 2 ^ e) by (apply (Z.pow_le_mono_r 2 0 e); lia). nia.
  - apply Z.div_le_lower_bound; [apply Z.pow_pos_nonneg; lia|]. rewrite <- Z.pow_add_r by lia.
    transitivity (2 ^ 52); [apply Z.pow_le_mono_r; lia|done].
Qed.

(** ** Buckets *)

Lemma sub_bucket_pow h : 0 <= sub_bucket_bits h -> sub_bucket_count h = 2 ^ sub_bucket_bits h.
Proof. intros. unfold sub_bucket_count. by rewrite Z.shiftl_1_l. Qed.

(** The bucket of an integer [v] of the octave range: its octave and position. *)
Lemma octave_bucket_eq h v :
  0 <= sub_bucket_bits h -> linear_sub_range h <= v ->
  let s := Z.log2 v - sub_bucket_bits h in
  0 <= s /\ octave_bucket h v = linear_sub_range h + (s * sub_bucket_count h + (v / 2 ^ s - sub_bucket_count h)) /\
  sub_bucket_count h <= v / 2 ^ s < 2 * sub_bucket_count h.
Proof.
  intros Hb Hv s. unfold linear_sub_range in *. rewrite sub_bucket_pow in * by done.
  set (B := sub_bucket_bits h) in *.
  assert (0 < 2 ^ B) as HB by (apply Z.pow_pos_nonneg; lia).
  pose proof (Z.log2_spec v ltac:(lia)) as [Hlo Hhi].
  assert (B <= Z.log2 v) as Hs.
  { rewrite <- (Z.log2_pow2 B) by done. by apply Z.log2_le_mono. }
  assert (0 <= s) as Hs0 by (unfold s; lia).
  assert (0 < 2 ^ s) as Hps by (apply Z.pow_pos_nonneg; lia).
  assert (2 ^ B <= v / 2 ^ s < 2 * 2 ^ B) as Hq.
  { split.
    - apply Z.div_le_lower_bound; [done|]. rewrite <- Z.pow_add_r by lia.
      replace (s + B) with (Z.log2 v) by (unfold s; lia). done.
    - apply Z.div_lt_upper_bound; [done|]. replace (2 ^ s * (2 * 2 ^ B)) with (2 ^ Z.succ (Z.log2 v)); [done|].
      rewrite <- (Z.pow_succ_r 2 B), <- Z.pow_add_r by lia. f_equal. unfold s. lia. }
  split; [done|]. split; [|exact Hq].
  unfold octave_bucket, linear_sub_range, sub_bucket_mask, bit_length.
  destruct (Z.eqb_spec v 0); [lia|]. rewrite !sub_bucket_pow by done. fold B.
  replace (Z.log2 v + 1 - 1) with (Z.log2 v) by lia. fold s.
  rewrite Z.shiftr_div_pow2 by done.
  replace (2 ^ B - 1) with (Z.ones B) by (rewrite Z.ones_equiv; lia).
  rewrite Z.land_ones by done.
  rewrite <- (Z.mod_unique (v / 2 ^ s) (2 ^ B) 1 (v / 2 ^ s - 2 ^ B)) by lia. lia.
Qed.

(** The histogram keeps its documented precision: a value of integer part [v] beyond the
    linear range is counted in the bucket whose bounds contain [v] and whose width is at most
    [v] divided by the number of sub-buckets. *)
Theorem bucket_relative_error (h : LogLinearHistogram) (v : Z) :
  hist_wf h -> linear_sub_range h <= v ->
  let idx := octave_bucket h v in
  bucket_low h idx <= v < bucket_low h idx + bucket_width h idx /\
  bucket_width h idx * sub_bucket_count h <= v /\ linear_sub_range h <= idx.
Proof.
  intros (HB & _) Hv idx. destruct (octave_bucket_eq h v ltac:(lia) Hv) as (Hs & E & Hq).
  set (s := Z.log2 v - sub_bucket_bits h) in *.
  assert (0 < sub_bucket_count h) as Hc by (rewrite sub_bucket_pow by lia; apply Z.pow_pos_nonneg; lia).
  assert (0 < 2 ^ s) as Hps by (apply Z.pow_pos_nonneg; lia).
  assert (linear_sub_range h <= idx) as Hidx by (unfold idx; rewrite E; nia).
  assert (idx - linear_sub_range h = sub_bucket_count h * s + (v / 2 ^ s - sub_bucket_count h)) as Eoff
    by (unfold idx; rewrite E; lia).
  assert ((idx - linear_sub_range h) / sub_bucket_count h = s) as Ediv.
  { symmetry. apply (Z.div_unique _ _ s (v / 2 ^ s - sub_bucket_count h)); lia. }
  assert ((idx - linear_sub_range h) mod sub_bucket_count h = v / 2 ^ s - sub_bucket_count h) as Emod.
  { symmetry. apply (Z.mod_unique _ _ s); lia. }
  unfold bucket_low, bucket_width. destruct (Z.ltb_spec idx (linear_sub_range h)); [lia|].
  rewrite Ediv, Emod. replace (s + sub_bucket_bits h - sub_bucket_bits h) with s by lia.
  rewrite !Z.shiftl_1_l.
  assert (2 ^ (s + sub_bucket_bits h) = sub_bucket_count h * 2 ^ s) as ->.
  { rewrite sub_bucket_pow, <- Z.pow_add_r by lia. f_equal. lia. }
  pose proof (Z.div_mod v (2 ^ s) ltac:(lia)). pose proof (Z.mod_pos_bound v (2 ^ s) ltac:(lia)).
  split_and!; nia.
Qed.

(** ** Recording *)

Lemma value_to_index_ok h v :
  hist_wf h -> double v = true -> isfinite v = true -> py_lt v fzero = false ->
  exists idx, value_to_index h v = Ok idx /\ 0 <= idx < total_buckets h.
Proof.
  intros (HB & Ht & _) Hd Hf Hn. unfold value_to_index.
  assert (linear_sub_range h = 2 ^ sub_bucket_bits h) as El by (apply sub_bucket_pow; lia).
  assert (0 < 2 ^ sub_bucket_bits h) as Hp by (apply Z.pow_pos_nonneg; lia).
  rewrite El in *. destruct v as [s|s| |s m e]; try done.
  - rewrite power_float by done. exists 0. split; [done|lia].
  - destruct (py_lt (S754_finite s m e) (Z_to_float (2 ^ sub_bucket_bits h))) eqn:E;
      cbn [int_of_float rbind]; eexists; (split; [done|]).
    + pose proof (trunc_below _ s m e HB Hd E). lia.
    + pose proof (trunc_above _ s m e HB Hd Hn E) as Hge. rewrite <- El in Hge.
      destruct (octave_bucket_eq h _ ltac:(lia) Hge) as (Hs & Eo & Hq). rewrite Eo. rewrite <- El in *.
      assert (0 < sub_bucket_count h) by (unfold linear_sub_range in *; lia). nia.
Qed.

Lemma zsum_insert l i n : l !! i = Some n -> zsum (<[i := n + 1]> l) = zsum l + 1.
Proof.
  unfold zsum. revert i. induction l as [|x l IH]; intros [|i] H; cbn in H; try done.
  - injection H as ->. cbn [insert list_insert foldr]. lia.
  - cbn [insert list_insert foldr]. change (list_insert i (n + 1) l) with (<[i := n + 1]> l).
    rewrite IH by done. lia.
Qed.

Lemma get_counter_increment name name' n m :
  get_counter name (increment_counter name' n m) = get_counter name m + (if decide (name' = name) then n else 0).
Proof.
  unfold get_counter, increment_counter. cbn [counters].
  destruct (dict_get name' (counters m)) as [x|] eqn:E; rewrite dict_get_set;
    (destruct (decide (name' = name)) as [->|]; [rewrite E; cbn; lia|lia]).
Qed.

Lemma py_lt_le (a b : float) : py_lt a b = true -> py_le a b = true.
Proof. unfold py_lt, py_le. by destruct (pycmp a b) as [[]|]. Qed.

Lemma py_not_lt_ge (a b : float) : isnan a = false -> isnan b = false -> py_lt a b = false -> py_le b a = true.
Proof.
  intros Ha Hb. unfold py_lt, py_le. rewrite (pycmp_opp a b).
  destruct (pycmp_total a b) as [[] ->]; cbn; try done; intros ->; done.
Qed.

Lemma py_le_trans (a b c : float) : py_le a b = true -> py_le b c = true -> py_le a c = true.
Proof.
  unfold py_le. destruct (pycmp a b) as [[]|] eqn:E1; try done; intros _;
    destruct (pycmp b c) as [[]|] eqn:E2; try done; intros _;
    first [by rewrite (pycmp_eq_l _ _ _ E1), E2 | by rewrite <- (pycmp_eq_r _ _ _ E2), E1
          | by rewrite (pycmp_trans _ _ _ E1 E2)].
Qed.

Lemma bump_ok h idx :
  hist_wf h -> 0 <= idx < total_buckets h ->
  exists c, bump idx (counts h) = Ok c /\ len c = len (counts h) /\
    Forall (fun n => 0 <= n) c /\ zsum c = zsum (counts h) + 1.
Proof.
  intros (_ & _ & Hl & Hc & _) Hi. unfold bump. destruct (Z.ltb_spec idx 0); [lia|].
  destruct (counts h !! Z.to_nat idx) as [n|] eqn:E.
  2: { apply lookup_ge_None in E. unfold len in Hl. lia. }
  eexists. split; [done|]. split_and!.
  - unfold len. by rewrite length_insert.
  - apply Forall_insert; [done|]. pose proof (Forall_lookup_1 _ _ _ _ Hc E) as H0. cbn in H0. lia.
  - by apply zsum_insert.
Qed.

Lemma histogram_record_cases (h : LogLinearHistogram) (v : float) :
  hist_wf h -> double v = true ->
  if py_lt v fzero then record v h = Raise ValueError
  else match v with
       | S754_nan => record v h = Raise ValueError
       | S754_infinity _ => record v h = Raise OverflowError
       | _ => exists h', record v h = Ok h' /\ hist_wf h' /\ total_count h' = total_count h + 1 /\
                py_le (h_min h') v = true /\ py_le v (h_max h') = true
       end.
Proof.
  intros Hwf Hd. unfold record. destruct (py_lt v fzero) eqn:En; [done|]. cbn [raise_if rbind].
  pose proof Hwf as (HB & Ht & Hl & Hc & Hs & Hmin & Hmax & Hmz & Hord & Hfirst).
  assert (isnan (Z_to_float (linear_sub_range h)) = false) as Hnl.
  { unfold linear_sub_range. rewrite sub_bucket_pow by lia. by rewrite power_float by lia. }
  destruct (isfinite v) eqn:Ef.
  - assert (isnan v = false) as Hnv by (by destruct v).
    destruct (value_to_index_ok h v Hwf Hd Ef En) as (idx & -> & Hi). cbn [rbind].
    destruct (bump_ok h idx Hwf Hi) as (c & -> & Hcl & Hcp & Hcs). cbn [rbind].
    set (h' := {| sub_bucket_bits := _ |}).
    assert (py_le (h_min h') v = true) as Hlo.
    { cbn. destruct (py_lt v (h_min h)) eqn:E; [|by apply py_not_lt_ge].
      unfold py_le. rewrite pycmp_refl; [done|]. by intros ->. }
    assert (py_le v (h_max h') = true) as Hhi.
    { cbn. destruct (py_gt v (h_max h)) eqn:E.
      - unfold py_le. rewrite pycmp_refl; [done|]. by intros ->.
      - unfold py_gt, py_le in *. destruct (pycmp_total v (h_max h)) as [[] Ec]; rewrite ?Ec in *;
          try done; intros E'; subst; try done. by rewrite E' in Hmax. }
    assert (hist_wf h') as Hwf'.
    { assert (total_count h' = total_count h + 1) as Etc by done.
      split; [exact HB|]. split; [exact Ht|]. split; [etrans; [exact Hcl|exact Hl]|].
      split; [exact Hcp|]. split; [rewrite Etc, <- Hs; exact Hcs|].
      unfold h' at 1 2 3. cbn [h_min h_max]. split_and!.
      - by destruct (py_lt v (h_min h)).
      - by destruct (py_gt v (h_max h)).
      - destruct (py_gt v (h_max h)); [|done]. unfold py_ge, py_lt in *.
        destruct (pycmp_total v fzero) as [[] Ec]; rewrite ?Ec in *; try done. by intros ->.
      - intros _. exact (py_le_trans _ _ _ Hlo Hhi).
      - assert (0 <= zsum (counts h)) by (by apply zsum_nonneg). rewrite Etc. lia. }
    destruct v; try done; exists h'; (split_and!; [done|exact Hwf'|done|exact Hlo|exact Hhi]).
  - destruct v as [s|s| |s m e]; try done.
    unfold value_to_index. cbn [int_of_float rbind].
    by destruct (py_lt _ (Z_to_float (linear_sub_range h))).
Qed.

(** Recording is total on measurements: a finite non-negative double is counted in one bucket
    and the histogram stays well formed (the counts add up to the number of samples, minimum and
    maximum are in order), a negative value or a NaN raises [ValueError] and an infinity
    [OverflowError], leaving the histogram as it was. *)
Theorem histogram_record (h : LogLinearHistogram) (v : float) :
  hist_wf h -> double v = true ->
  if py_lt v fzero then record v h = Raise ValueError
  else match v with
       | S754_nan => record v h = Raise ValueError
       | S754_infinity _ => record v h = Raise OverflowError
       | _ => exists h', record v h = Ok h' /\ hist_wf h' /\ total_count h' = total_count h + 1 /\
                py_le (h_min h') v = true /\ py_le v (h_max h') = true
       end.
Proof. apply histogram_record_cases. Qed.

Lemma quantile_index_spec cs idx cum target j :
  quantile_index cs idx cum target = Some j -> cum < target ->
  exists k, j = idx + Z.of_nat k /\ (k < length cs)%nat /\
    cum + zsum (take k cs) < target <= cum + zsum (take (S k) cs).
Proof.
  revert idx cum. induction cs as [|c cs IH]; intros idx cum; cbn [quantile_index]; [done|].
  destruct (Z.leb_spec target (cum + c)) as [Ht|Ht].
  - intros [= <-] Hc. exists 0%nat. rewrite firstn_cons, !take_0. unfold zsum. cbn. split_and!; lia.
  - intros Hj Hc. destruct (IH _ _ Hj ltac:(lia)) as (k & -> & Hk & H1).
    exists (S k). rewrite !firstn_cons. unfold zsum in *. cbn [foldr length] in *. split_and!; lia.
Qed.

(** A quantile is read at the right rank and within the recorded range: for 0 < q < 1 the
    bucket chosen is the first at which the cumulative count reaches the rank ceil(q * count), and
    the value returned lies between the recorded minimum and maximum. *)
Theorem quantile_in_range (h : LogLinearHistogram) (q x : float) :
  hist_wf h -> 0 < total_count h -> quantile q h = Ok x ->
  py_le (h_min h) x = true /\ py_le x (h_max h) = true /\
  (py_le q fzero = false -> py_ge q (decimal_float false 1 0) = false ->
   forall target, math_ceil (fmul q (Z_to_float (total_count h))) = Ok target -> 0 < target <= total_count h ->
   exists k, (k < length (counts h))%nat /\
     x = py_max (h_min h) (py_min (h_max h) (index_to_approx_value h (Z.of_nat k))) /\
     zsum (take k (counts h)) < target <= zsum (take (S k) (counts h))).
Proof.
  intros (HB & Ht & Hl & Hc & Hs & Hmin & Hmax & Hmz & Hord & _) H0 Hq. specialize (Hord H0).
  assert (forall f, isnan f = false -> py_le f f = true) as Hrefl.
  { intros f Hf. unfold py_le. rewrite pycmp_refl; [done|]. by intros ->. }
  assert (forall y, py_le (h_min h) (py_max (h_min h) (py_min (h_max h) y)) = true /\
                    py_le (py_max (h_min h) (py_min (h_max h) y)) (h_max h) = true) as Hclamp.
  { intros y. unfold py_max, py_min. destruct (py_lt y (h_max h)) eqn:E1.
    - destruct (py_gt y (h_min h)) eqn:E2; [|by auto].
      split; [|by apply py_lt_le]. unfold py_gt, py_le in *. rewrite (pycmp_opp y (h_min h)).
      by destruct (pycmp y (h_min h)) as [[]|].
    - destruct (py_gt (h_max h) (h_min h)); auto. }
  unfold quantile in Hq. destruct (Z.eqb_spec (total_count h) 0); [lia|].
  destruct (py_le q fzero); [inv_result; split_and!; by auto|].
  destruct (py_ge q (decimal_float false 1 0)); [inv_result; split_and!; by auto|].
  inv_result. rename a into target.
  destruct (quantile_index (counts h) 0 0 target) as [j|] eqn:Ej; inv_result.
  - destruct (Hclamp (index_to_approx_value h j)) as [H1 H2]. split_and!; [done|done|].
    intros _ _ t [= <-] [Hpos _]. destruct (quantile_index_spec _ _ _ _ _ Ej Hpos) as (k & -> & Hk & Hr).
    exists k. rewrite !Z.add_0_l in *. done.
  - split_and!; [done|by auto|]. intros _ _ t [= <-] [Hpos Hle]. exfalso.
    assert (forall cs idx cum, quantile_index cs idx cum target = None -> cum < target ->
      cum + zsum cs < target) as Hnone.
    { clear. induction cs as [|c cs IH]; intros idx cum; cbn [quantile_index]; unfold zsum; cbn.
      - intros _ ?. lia.
      - destruct (Z.leb_spec target (cum + c)); [done|]. intros Hn _.
        specialize (IH _ _ Hn ltac:(lia)). unfold zsum in IH. lia. }
    specialize (Hnone _ _ _ Ej Hpos). lia.
Qed.

Lemma zsum_replicate n : zsum (replicate n 0) = 0.
Proof. unfold zsum. induction n as [|n IH]; cbn; [done|exact IH]. Qed.

(** A new histogram is well formed, whatever [math.log2] returns. *)
Lemma histogram_init_wf math_log2 bits mv h :
  histogram_init math_log2 bits mv = Ok h -> hist_wf h.
Proof.
  unfold histogram_init. intros H. inv_result. apply orb_false_iff in Eif as [H1 H2].
  apply Z.ltb_ge in H1, H2.
  assert (0 < Z.shiftl 1 bits) as Hp by (rewrite Z.shiftl_1_l; apply Z.pow_pos_nonneg; lia).
  split; [cbn; lia|].
  split; [unfold linear_sub_range, sub_bucket_count; cbn [sub_bucket_bits total_buckets]; nia|].
  cbn [total_buckets counts total_count h_min h_max].
  split_and!; try done.
  - unfold len. rewrite length_replicate. nia.
  - by apply Forall_replicate.
  - apply zsum_replicate.
Qed.

(** A histogram of two linear and two octave buckets. *)
Definition tiny_histogram : LogLinearHistogram :=
  match histogram_init (fun x => x) 1 (decimal_float false 1 0) with
  | Ok h => h
  | Raise _ => {| sub_bucket_bits := 0; total_buckets := 0; counts := []; total_count := 0;
                  h_sum := fzero; h_min := fzero; h_max := fzero |}
  end.

Lemma tiny_histogram_wf : hist_wf tiny_histogram.
Proof. by apply (histogram_init_wf (fun x => x) 1 (decimal_float false 1 0)). Qed.

Lemma bucket_relative_error_witness :
  bucket_low tiny_histogram (octave_bucket tiny_histogram 13) <= 13.
Proof. apply (bucket_relative_error tiny_histogram 13 tiny_histogram_wf). vm_compute. discriminate. Defined.

Lemma histogram_record_witness :
  exists h', record (decimal_float false 25 (-1)) tiny_histogram = Ok h' /\ hist_wf h'.
Proof.
  destruct (histogram_record tiny_histogram (decimal_float false 25 (-1)) tiny_histogram_wf eq_refl)
    as (h' & H1 & H2 & _).
  exists h'. split; [exact H1|exact H2].
Defined.

Lemma quantile_in_range_witness :
  exists h' x, record (decimal_float false 25 (-1)) tiny_histogram = Ok h' /\
    quantile (decimal_float false 5 (-1)) h' = Ok x /\ py_le x (h_max h') = true.
Proof.
  destruct (histogram_record_cases tiny_histogram (decimal_float false 25 (-1)) tiny_histogram_wf eq_refl)
    as (h' & H1 & H2 & _).
  assert (exists x, (let! h := record (decimal_float false 25 (-1)) tiny_histogram in
                     quantile (decimal_float false 5 (-1)) h) = Ok x) as (x & Hx)
    by (eexists; vm_compute; reflexivity).
  rewrite H1 in Hx. cbn [rbind] in Hx. exists h', x. split; [exact H1|]. split; [exact Hx|].
  apply (quantile_in_range h' (decimal_float false 5 (-1)) x H2); [|exact Hx].
  assert (rmap total_count (record (decimal_float false 25 (-1)) tiny_histogram) = Ok 1) as Ht
    by (vm_compute; reflexivity).
  rewrite H1 in Ht. cbn [rmap] in Ht. injection Ht as ->. reflexivity.
Defined.
