(* ===== verification/Failure.v ===== *)
(** * The phi-accrual failure detector ([peerq/failure.py])

    Heartbeat windows per peer and the suspicion level.  The numerical library functions whose
    result the language does not fix bit by bit ([math.erfc], [math.log10] and the built-in [sum],
    whose rounding depends on the interpreter's version) are the operations of [MathLib]; the
    theorems hold for all of them. *)

From Stdlib Require Import ZArith Lia.
From S2P Require Import Prelude PyFloat Security Metrics.
Open Scope Z_scope.

Class MathLib := {
  math_erfc : float -> float;
  math_log10 : float -> float;
  py_sum : list float -> float;
}.

Record PhiAccrualDetector := {
  window_size : Z;
  min_samples : Z;
  variance_floor : float;
  intervals : list (pystr * list float);
  last_heartbeat : list (pystr * float);
}.

Definition detector_init (window samples : Z) (floor : float) : PhiAccrualDetector :=
  {| window_size := window; min_samples := samples; variance_floor := floor;
     intervals := []; last_heartbeat := [] |}.

(** [deque(maxlen=n).append(x)]: the oldest elements fall out. *)
Definition deque_append (maxlen : Z) (l : list float) (x : float) : list float :=
  let l' := l ++ [x] in drop (length l' - Z.to_nat maxlen) l'.

(** [heartbeat]; [now] is the timestamp given or the clock's. *)
Definition heartbeat (peer : pystr) (now : float) (d : PhiAccrualDetector) : PhiAccrualDetector :=
  let intervals' :=
    match dict_get peer (last_heartbeat d) with
    | Some last =>
        let delta := fsub now last in
        if py_gt delta fzero then
          let window := default [] (dict_get peer (intervals d)) in
          dict_set peer (deque_append (window_size d) window delta) (intervals d)
        else intervals d
    | None => intervals d
    end in
  {| window_size := window_size d; min_samples := min_samples d; variance_floor := variance_floor d;
     intervals := intervals'; last_heartbeat := dict_set peer now (last_heartbeat d) |}.

Definition is_known (peer : pystr) (d : PhiAccrualDetector) : bool := dict_mem peer (last_heartbeat d).

(** [a / b], [x ** 2] and [math.sqrt(x)] with the exceptions they raise. *)
Definition py_div (a b : float) : result float :=
  match b with S754_zero _ => Raise ZeroDivisionError | _ => Ok (fdiv a b) end.
Definition py_square (x : float) : result float :=
  let r := fmul x x in
  if isfinite x && negb (isfinite r) then Raise OverflowError else Ok r.
Definition math_sqrt (x : float) : result float :=
  if py_lt x fzero then Raise ValueError else Ok (fsqrt x).

Section phi.
Context `{MathLib}.

(** The variance of a window: [sum((x - mean) ** 2 for x in intervals) / n]. *)
Fixpoint squares (mean : float) (window : list float) : result (list float) :=
  match window with
  | [] => Ok []
  | x :: rest =>
      let! s := py_square (fsub x mean) in
      let! ss := squares mean rest in
      Ok (s :: ss)
  end.

(** The suspicion of a silence of [time_since_last] given the window of intervals. *)
Definition phi_of_window (floor : float) (window : list float) (time_since_last : float) : result float :=
  let n := Z_to_float (len window) in
  let! mean := py_div (py_sum window) n in
  let! ss := squares mean window in
  let! variance := py_div (py_sum ss) n in
  let! std_dev := math_sqrt (py_max variance floor) in
  let! root2 := math_sqrt (decimal_float false 2 0) in
  let! y := py_div (fsub time_since_last mean) (fmul std_dev root2) in
  let p_later := fmul (decimal_float false 5 (-1)) (math_erfc y) in
  let p_later := py_max p_later (decimal_float false 1 (-100)) in
  let phi_val := fopp (math_log10 p_later) in
  Ok (py_max fzero phi_val).

Definition phi (peer : pystr) (now : float) (d : PhiAccrualDetector) : result float :=
  match dict_get peer (last_heartbeat d) with
  | None => Ok finf
  | Some last =>
      match dict_get peer (intervals d) with
      | None => Ok fzero
      | Some window =>
          if len window <? min_samples d then Ok fzero
          else
            let time_since_last := fsub now last in
            if py_le time_since_last fzero then Ok fzero
            else phi_of_window (variance_floor d) window time_since_last
      end
  end.

Definition is_suspected (peer : pystr) (threshold now : float) (d : PhiAccrualDetector) : result bool :=
  let! x := phi peer now d in Ok (py_ge x threshold).
End phi.

(** ** The windows *)

(** Every window is bounded and holds positive intervals, and belongs to a known peer. *)
Definition detector_wf (d : PhiAccrualDetector) : Prop :=
  NoDup (intervals d).*1 /\
  (forall p w, dict_get p (intervals d) = Some w ->
     len w <= window_size d /\ Forall (fun x => py_gt x fzero = true) w /\
     is_Some (dict_get p (last_heartbeat d))).

Lemma deque_append_len maxlen l x : 0 <= maxlen -> len (deque_append maxlen l x) <= maxlen.
Proof. intros H. unfold deque_append, len. rewrite length_drop. lia. Qed.

Lemma deque_append_Forall (P : float -> Prop) maxlen l x :
  Forall P l -> P x -> Forall P (deque_append maxlen l x).
Proof. intros Hl Hx. unfold deque_append. apply Forall_drop, Forall_app_2; [done|by constructor]. Qed.

Lemma heartbeat_wf peer now d :
  0 <= window_size d -> detector_wf d -> detector_wf (heartbeat peer now d).
Proof.
  intros Hw [Hnd Hd]. unfold heartbeat. split; cbn.
  - destruct (dict_get peer (last_heartbeat d)); [|done].
    destruct (py_gt _ _); [by apply dict_set_NoDup|done].
  - assert (forall p, is_Some (dict_get p (last_heartbeat d)) ->
      is_Some (dict_get p (dict_set peer now (last_heartbeat d)))) as Hk.
    { intros p Hp. rewrite dict_get_set. destruct (decide (peer = p)); [by eauto|done]. }
    intros p w. destruct (dict_get peer (last_heartbeat d)) as [last|] eqn:El.
    + destruct (py_gt (fsub now last) fzero) eqn:Eg.
      * rewrite dict_get_set. destruct (decide (peer = p)) as [<-|Hne].
        { intros [= <-]. split_and!; [by apply deque_append_len| |apply Hk; by eauto].
          apply deque_append_Forall; [|done].
          destruct (dict_get peer (intervals d)) as [w|] eqn:E; [|constructor]. by apply (Hd peer w E). }
        intros (? & ? & ?)%Hd. auto.
      * intros (? & ? & ?)%Hd. auto.
    + intros (? & ? & ?)%Hd. auto.
Qed.

Lemma heartbeat_window peer now d : window_size (heartbeat peer now d) = window_size d.
Proof. done. Qed.

(** Whatever heartbeats arrive, and whatever their timestamps, every peer's window holds at
    most [window_size] intervals, all of them positive. *)
Theorem heartbeat_windows_bounded (d : PhiAccrualDetector) (beats : list (pystr * float)) :
  0 <= window_size d -> detector_wf d ->
  detector_wf (foldl (fun d b => heartbeat b.1 b.2 d) d beats).
Proof.
  revert d. induction beats as [|[p t] beats IH]; intros d Hw Hd; cbn; [done|].
  apply IH; [done|]. by apply heartbeat_wf.
Qed.

Section phi_facts.
Context `{MathLib}.

Lemma py_max_zero x : py_ge (py_max fzero x) fzero = true.
Proof.
  unfold py_max, py_gt. destruct (pycmp x fzero) as [[]|] eqn:E; try done. unfold py_ge. by rewrite E.
Qed.

(** Every suspicion level returned is a non-negative number, whatever the numerical library
    returns; it is infinite for a peer never heard from, and zero before [min_samples] intervals
    are known or when no time has passed. *)
Theorem phi_branches (peer : pystr) (now : float) (d : PhiAccrualDetector) :
  (forall x, phi peer now d = Ok x -> py_ge x fzero = true) /\
  (is_known peer d = false -> phi peer now d = Ok finf) /\
  (forall last, dict_get peer (last_heartbeat d) = Some last ->
     len (default [] (dict_get peer (intervals d))) < min_samples d \/ py_le (fsub now last) fzero = true ->
     phi peer now d = Ok fzero).
Proof.
  unfold phi, is_known, dict_mem. destruct (dict_get peer (last_heartbeat d)) as [last|].
  - split_and!; [|done|].
    + intros x. destruct (dict_get peer (intervals d)) as [w|]; [|by intros [= <-]].
      destruct (_ <? _); [by intros [= <-]|]. destruct (py_le _ _); [by intros [= <-]|].
      unfold phi_of_window. intros Hx. inv_result. apply py_max_zero.
    + intros last' [= <-]. destruct (dict_get peer (intervals d)) as [w|]; [|done].
      cbn [from_option id]. intros [Hc|Hc].
      * destruct (Z.ltb_spec (len w) (min_samples d)); [done|lia].
      * rewrite Hc. by destruct (_ <? _).
  - split_and!; try done. by intros x [= <-].
Qed.

(** Suspicion follows what is known: a peer never heard from is suspected under every
    positive threshold, and a peer with too few samples is suspected under none. *)
Theorem suspicion_cold_start (peer : pystr) (threshold now : float) (d : PhiAccrualDetector) :
  py_gt threshold fzero = true ->
  (is_known peer d = false -> is_suspected peer threshold now d = Ok true) /\
  (is_known peer d = true -> len (default [] (dict_get peer (intervals d))) < min_samples d ->
   is_suspected peer threshold now d = Ok false).
Proof.
  intros Ht. unfold is_suspected, phi, is_known, dict_mem.
  destruct (dict_get peer (last_heartbeat d)) as [last|]; (split; [intros Hk|intros Hk Hc]); try done.
  - assert ((match dict_get peer (intervals d) with
             | None => Ok fzero
             | Some window => if len window <? min_samples d then Ok fzero
                else if py_le (fsub now last) fzero then Ok fzero
                     else phi_of_window (variance_floor d) window (fsub now last)
             end) = Ok fzero) as ->.
    { destruct (dict_get peer (intervals d)) as [w|]; [|done]. cbn [from_option id] in Hc.
      destruct (Z.ltb_spec (len w) (min_samples d)); [done|lia]. }
    cbn [rbind]. unfold py_gt, py_ge in *. rewrite (pycmp_opp threshold fzero).
    by destruct (pycmp threshold fzero) as [[]|].
  - cbn [rbind]. f_equal. unfold py_gt, py_ge in *.
    destruct threshold as [s|s| |s m e]; try done; destruct s; done.
Qed.
End phi_facts.

Lemma heartbeat_windows_bounded_witness :
  detector_wf (foldl (fun d b => heartbeat b.1 b.2 d) (detector_init 2 5 fzero)
    [(str "p", decimal_float false 1 0); (str "p", decimal_float false 2 0);
     (str "p", decimal_float false 4 0); (str "p", decimal_float false 9 0)]).
Proof.
  apply heartbeat_windows_bounded; [discriminate|]. split; [constructor|]. intros p w H. discriminate H.
Defined.

(** A stand-in for the numerical library. *)
Definition flat_math : MathLib :=
  {| math_erfc := fun _ => fzero; math_log10 := fun _ => fzero; py_sum := fun _ => fzero |}.

Lemma suspicion_cold_start_witness :
  is_suspected (H := flat_math) (str "p") (decimal_float false 8 0) fzero (detector_init 2 5 fzero) = Ok true.
Proof.
  apply (suspicion_cold_start (H := flat_math) (str "p") (decimal_float false 8 0) fzero
    (detector_init 2 5 fzero)); reflexivity.
Defined.

Lemma phi_branches_witness :
  phi (H := flat_math) (str "p") fzero (detector_init 2 5 fzero) = Ok finf.
Proof. apply (phi_branches (H := flat_math) (str "p") fzero (detector_init 2 5 fzero)). reflexivity. Defined.
