(* ===== verification/Message.v ===== *)
(** * Signed message envelopes ([Message] of [peerq/transport.py])

    The envelope of every network message: its signed form, its wire format and the validation of
    what is received. *)

From Stdlib Require Import ZArith NArith Lia.
From S2P Require Import Prelude PyFloat Text Json JsonFacts Security Consensus Crypto Wal.
Open Scope Z_scope.

Record Message := {
  msg_type : pystr;
  sender_id : pystr;
  msg_payload : list (pystr * json);
  timestamp : option float;
  nonce : option pystr;
  msg_signature : option (list byte);
  msg_version : Z;
}.

Definition unsigned_document (m : Message) : list (pystr * json) := [
  (str "msg_type", JStr (msg_type m));
  (str "nonce", opt_json JStr (nonce m));
  (str "payload", JObj (msg_payload m));
  (str "protocol_version", JInt (msg_version m));
  (str "sender_id", JStr (sender_id m));
  (str "timestamp", opt_json JFloat (timestamp m))
].

(** [Message.canonical_bytes] *)
Definition message_bytes (m : Message) : result (list byte) :=
  canonical_json_bytes (JObj (unsigned_document m)).

(** The document on the wire. *)
Definition wire_document (m : Message) : list (pystr * json) :=
  unsigned_document m ++ [(str "signature", opt_json (fun b => JStr (hex b)) (msg_signature m))].

(** [Message.to_bytes]: the length-prefixed frame. *)
Definition message_to_bytes (max_size : Z) (m : Message) : result (list byte) :=
  raise_if (bool_decide (msg_type m = []) || (MAX_MESSAGE_TYPE_LENGTH <? len (msg_type m)))
    MessageDecodeError ;;!
  raise_if (bool_decide (sender_id m = []) || (MAX_PEER_ID_LENGTH <? len (sender_id m)))
    MessageDecodeError ;;!
  validate_json_tree 16 10000 (256 * 1024) (JObj (msg_payload m)) ;;!
  let! data := canonical_json_bytes (JObj (wire_document m)) in
  raise_if (max_size <? len data) MessageDecodeError ;;!
  if len data <? 2 ^ 32 then Ok (be32 (len data) ++ data) else Raise StructError.

(** [timestamp] of a received document: absent, or a finite number. *)
Definition read_timestamp (v : json) : result (option float) :=
  match v with
  | JNull => Ok None
  | _ =>
      match finite_number v with
      | Ok f => Ok (Some f)
      | Raise ValueError => Raise MessageDecodeError
      | Raise e => Raise e
      end
  end.

Definition read_nonce (v : json) : result (option pystr) :=
  match v with
  | JNull => Ok None
  | JStr s => raise_if (negb ((1 <=? len s) && (len s <=? 128))) MessageDecodeError ;;! Ok (Some s)
  | _ => Raise MessageDecodeError
  end.

Definition read_wire_signature (v : json) : result (option (list byte)) :=
  match v with
  | JNull => Ok None
  | JStr s =>
      raise_if (negb (len s =? 128)) MessageDecodeError ;;!
      match fromhex s with Some b => Ok (Some b) | None => Raise MessageDecodeError end
  | _ => Raise MessageDecodeError
  end.

(** [Message.from_bytes] *)
Definition message_from_bytes (data : list byte) (config : SecurityConfig) : result Message :=
  raise_if (max_frame_size config <? len data) MessageDecodeError ;;!
  match loads_bytes data with
  | None => Raise MessageDecodeError
  | Some parsed =>
      validate_json_tree (max_json_depth config) (max_json_items config) (max_string_length config) parsed ;;!
      match parsed with
      | JObj d =>
          raise_if (negb (forallb (fun k => dict_mem k d)
            [str "msg_type"; str "sender_id"; str "payload"; str "protocol_version"]))
            MessageDecodeError ;;!
          match jget (str "msg_type") d, jget (str "sender_id") d, jget (str "payload") d,
                jget (str "protocol_version") d with
          | JStr mt, JStr sid, JObj p, JInt v =>
              raise_if (bool_decide (mt = []) || (MAX_MESSAGE_TYPE_LENGTH <? len mt)
                        || bool_decide (sid = []) || (MAX_PEER_ID_LENGTH <? len sid)) MessageDecodeError ;;!
              let! ts := read_timestamp (jget (str "timestamp") d) in
              let! nc := read_nonce (jget (str "nonce") d) in
              let! sg := read_wire_signature (jget (str "signature") d) in
              Ok {| msg_type := mt; sender_id := sid; msg_payload := p; timestamp := ts; nonce := nc;
                    msg_signature := sg; msg_version := v |}
          | _, _, _, _ => Raise MessageDecodeError
          end
      | _ => Raise MessageDecodeError
      end
  end.

Section message.
Context `{Ed25519}.

(** [Message.signed]; [chosen_nonce] is the nonce given or the random one drawn. *)
Definition signed (key_pair : PrivateKey) (ts : float) (chosen_nonce : pystr) (m : Message) : result Message :=
  raise_if (negb (isfinite ts)) ValueError ;;!
  raise_if (negb ((1 <=? len chosen_nonce) && (len chosen_nonce <=? 128))) ValueError ;;!
  let unsigned := {| msg_type := msg_type m; sender_id := sender_id m; msg_payload := msg_payload m;
                     timestamp := Some ts; nonce := Some chosen_nonce; msg_signature := None;
                     msg_version := msg_version m |} in
  let! data := message_bytes unsigned in
  Ok {| msg_type := msg_type m; sender_id := sender_id m; msg_payload := msg_payload m;
        timestamp := Some ts; nonce := Some chosen_nonce;
        msg_signature := Some (ed_sign key_pair data); msg_version := msg_version m |}.

(** [Message.verify_signature] *)
Definition verify_signature (m : Message) (ring : PeerKeyRing) : result bool :=
  match msg_signature m, nonce m, timestamp m with
  | Some sig, Some _, Some _ =>
      let! data := message_bytes m in
      Ok (ring_verify ring (sender_id m) sig data)
  | _, _, _ => Ok false
  end.
End message.

(** The messages the wire represents without loss. *)
Definition message_ok (m : Message) : bool :=
  scalar_str (msg_type m) && scalar_str (sender_id m) && json_ok (JObj (msg_payload m)) &&
  opt_ok float_ok (timestamp m) &&
  opt_ok (fun s => scalar_str s && (1 <=? len s) && (len s <=? 128)) (nonce m) &&
  opt_ok (fun b => len b =? 64) (msg_signature m) && json_ok (JInt (msg_version m)).

(** The message with the keys of its payload sorted. *)
Definition sorted_message (m : Message) : Message := {|
  msg_type := msg_type m; sender_id := sender_id m;
  msg_payload := match sort_keys (JObj (msg_payload m)) with JObj d => d | _ => [] end;
  timestamp := timestamp m; nonce := nonce m; msg_signature := msg_signature m;
  msg_version := msg_version m |}.

(** ** The wire format *)

Lemma wire_keys_NoDup m : NoDup (wire_document m).*1.
Proof. cbn [wire_document unsigned_document app fmap list_fmap fst]. apply (bool_decide_unpack _). by vm_compute. Qed.

Lemma unsigned_keys_NoDup m : NoDup (unsigned_document m).*1.
Proof. cbn [unsigned_document fmap list_fmap fst]. apply (bool_decide_unpack _). by vm_compute. Qed.

Lemma message_ok_inv m :
  message_ok m = true ->
  (scalar_str (msg_type m) = true /\ scalar_str (sender_id m) = true) /\
  json_ok (JObj (msg_payload m)) = true /\ opt_ok float_ok (timestamp m) = true /\
  opt_ok (fun s => scalar_str s && (1 <=? len s) && (len s <=? 128)) (nonce m) = true /\
  opt_ok (fun b => len b =? 64) (msg_signature m) = true /\ json_ok (JInt (msg_version m)) = true.
Proof. unfold message_ok. rewrite !andb_true_iff. tauto. Qed.

Lemma unsigned_document_ok m :
  message_ok m = true ->
  Forall (fun kv => scalar_str kv.1 && json_ok kv.2 = true) (unsigned_document m).
Proof.
  intros ((Hmt & Hs) & Hp & Hts & Hn & _ & Hv)%message_ok_inv. unfold unsigned_document.
  repeat apply Forall_cons_2; try apply Forall_nil_2; cbn [fst snd]; apply andb_true_iff;
    (split; [reflexivity|]); try done.
  - apply opt_str_json_ok. destruct (nonce m) as [s|]; [|done]. cbn [opt_ok] in *.
    by apply andb_true_iff in Hn as [[? _]%andb_true_iff _].
  - by destruct (timestamp m).
Qed.

Lemma unsigned_json_ok m : message_ok m = true -> json_ok (JObj (unsigned_document m)) = true.
Proof.
  intros H%unsigned_document_ok.
  change (bool_decide (NoDup (unsigned_document m).*1) &&
    forallb (fun kv => scalar_str kv.1 && json_ok kv.2) (unsigned_document m) = true).
  rewrite bool_decide_eq_true_2 by apply unsigned_keys_NoDup. by apply forallb_Forall.
Qed.

Lemma wire_json_ok m : message_ok m = true -> json_ok (JObj (wire_document m)) = true.
Proof.
  intros H%unsigned_document_ok.
  change (bool_decide (NoDup (wire_document m).*1) &&
    forallb (fun kv => scalar_str kv.1 && json_ok kv.2) (wire_document m) = true).
  rewrite bool_decide_eq_true_2 by apply wire_keys_NoDup. apply forallb_Forall.
  apply Forall_app_2; [done|]. repeat constructor. cbn [fst snd].
  by rewrite (opt_hex_json_ok (msg_signature m)).
Qed.

Lemma canonical_json_ok v :
  json_ok v = true -> exists b, canonical_json_bytes v = Ok b /\ loads_bytes b = Some (sort_keys v).
Proof.
  intros H. destruct (loads_dumps_bytes false v H) as (b & Hd & Hl). exists b.
  unfold canonical_json_bytes. by rewrite Hd.
Qed.

Lemma canonical_sort_keys v : json_ok v = true -> canonical_json_bytes (sort_keys v) = canonical_json_bytes v.
Proof. intros H. unfold canonical_json_bytes. by rewrite dumps_bytes_sort_keys. Qed.

Lemma canonical_json_inv v b : canonical_json_bytes v = Ok b -> dumps_bytes false v = Ok b.
Proof. unfold canonical_json_bytes. destruct (dumps_bytes false v) as [|[]]; congruence. Qed.

(** Sorting the payload's keys does not change the bytes that are signed. *)
Lemma message_bytes_sorted m : message_ok m = true -> message_bytes (sorted_message m) = message_bytes m.
Proof.
  intros (_ & Hp & _)%message_ok_inv. unfold message_bytes, canonical_json_bytes, dumps_bytes.
  assert (dumps false (JObj (msg_payload (sorted_message m))) = dumps false (JObj (msg_payload m))) as E
    by exact (dumps_sort_keys false _ Hp).
  rewrite !dumps_obj. unfold unsigned_document.
  cbn [dump_members msg_type sender_id timestamp nonce msg_version sorted_message] in *.
  by rewrite E.
Qed.

Lemma opt_float_sorted o : sort_keys (opt_json JFloat o) = opt_json JFloat o.
Proof. by destruct o. Qed.

Lemma read_timestamp_ok o : opt_ok float_ok o = true -> read_timestamp (opt_json JFloat o) = Ok o.
Proof.
  destruct o as [f|]; [|done]. cbn. unfold float_ok. intros H.
  apply andb_true_iff in H as [[Hf _]%andb_true_iff _]. by rewrite Hf.
Qed.

Lemma read_nonce_ok o :
  opt_ok (fun s => scalar_str s && (1 <=? len s) && (len s <=? 128)) o = true ->
  read_nonce (opt_json JStr o) = Ok o.
Proof.
  destruct o as [s|]; [|done]. cbn [opt_ok opt_json read_nonce]. intros [[_ H1]%andb_true_iff H2]%andb_true_iff.
  by rewrite H1, H2.
Qed.

Lemma read_wire_signature_ok o :
  opt_ok (fun b => len b =? 64) o = true ->
  read_wire_signature (opt_json (fun b => JStr (hex b)) o) = Ok o.
Proof.
  destruct o as [b|]; [|done]. cbn [opt_ok opt_json read_wire_signature]. intros H%Z.eqb_eq.
  rewrite raise_if_false, fromhex_hex; [done|]. apply negb_false_iff, Z.eqb_eq. rewrite hex_len. lia.
Qed.

Lemma dict_mem_elem {V} k (v : V) (d : list (pystr * V)) : (k, v) ∈ d -> dict_mem k d = true.
Proof.
  intros Hin. apply dict_mem_true. destruct (dict_get k d) eqn:E; [by eauto|].
  apply dict_get_None in E. destruct E. apply list_elem_of_fmap. by exists (k, v).
Qed.

Lemma sorted_keys_elem k v d :
  (k, v) ∈ d -> (k, sort_keys v) ∈ sort_items (map (fun kv => (kv.1, sort_keys kv.2)) d).
Proof.
  intros Hin. unfold sort_items. rewrite sort_by_perm. apply list_elem_of_In, in_map_iff.
  exists (k, v). split; [done|by apply list_elem_of_In].
Qed.

(** Parsing the document of a valid message gives the message back, its payload's keys sorted. *)
Lemma message_from_wire m data config :
  message_ok m = true ->
  msg_type m <> [] -> len (msg_type m) <= MAX_MESSAGE_TYPE_LENGTH ->
  sender_id m <> [] -> len (sender_id m) <= MAX_PEER_ID_LENGTH ->
  len data <= max_frame_size config ->
  loads_bytes data = Some (sort_keys (JObj (wire_document m))) ->
  validate_json_tree (max_json_depth config) (max_json_items config) (max_string_length config)
    (sort_keys (JObj (wire_document m))) = Ok () ->
  message_from_bytes data config = Ok (sorted_message m).
Proof.
  intros (_ & Hp & Hts & Hn & Hsig & _)%message_ok_inv Hmt Hmtl Hs Hsl Hlen Hload Hval.
  unfold message_from_bytes. rewrite raise_if_false by (by apply Z.ltb_ge).
  rewrite Hload, Hval. cbn [rbind]. cbn [sort_keys].
  set (d := wire_document m). pose proof (wire_keys_NoDup m) as nd. fold d in nd.
  rewrite raise_if_false.
  2: { apply negb_false_iff, forallb_Forall. repeat constructor;
       (eapply dict_mem_elem, sorted_keys_elem; dict_field). }
  rewrite !jget_sorted by exact nd.
  jget_field d nd "msg_type"%string. jget_field d nd "sender_id"%string.
  jget_field d nd "payload"%string. jget_field d nd "protocol_version"%string.
  jget_field d nd "timestamp"%string. jget_field d nd "nonce"%string. jget_field d nd "signature"%string.
  rewrite !sort_keys_opt_str, opt_float_sorted. cbn [sort_keys].
  rewrite read_timestamp_ok, read_nonce_ok, read_wire_signature_ok by done.
  rewrite raise_if_false; [done|].
  rewrite !bool_decide_eq_false_2 by done. rewrite !orb_false_iff, !Z.ltb_ge. done.
Qed.

Lemma message_to_bytes_inv max_size m frame :
  message_to_bytes max_size m = Ok frame ->
  exists data, frame = be32 (len data) ++ data /\ canonical_json_bytes (JObj (wire_document m)) = Ok data /\
    len data <= max_size /\ len data < 2 ^ 32 /\
    msg_type m <> [] /\ len (msg_type m) <= MAX_MESSAGE_TYPE_LENGTH /\
    sender_id m <> [] /\ len (sender_id m) <= MAX_PEER_ID_LENGTH.
Proof.
  unfold message_to_bytes. intros H. inv_result. breflect.
  destruct (Z.ltb_spec (len a2) (2 ^ 32)); [|done]. injection H as <-. exists a2.
  repeat match goal with E : (_ <? _) = false |- _ => apply Z.ltb_ge in E end. done.
Qed.

(** The frame of a message: its length and what its body decodes to. *)
Lemma message_frame_decodes (m : Message) (max_size : Z) (frame : list byte) (config : SecurityConfig) :
  message_ok m = true -> message_to_bytes max_size m = Ok frame -> max_size <= max_frame_size config ->
  0 <= max_json_items config ->
  validate_json_tree (max_json_depth config) (max_json_items config) (max_string_length config)
    (JObj (wire_document m)) = Ok () ->
  of_be (take 4 frame) = len (drop 4 frame) /\
  message_from_bytes (drop 4 frame) config = Ok (sorted_message m).
Proof.
  intros Hok Hf Hmax Hitems Hval.
  destruct (message_to_bytes_inv _ _ _ Hf) as (data & -> & Hc & Hl & Hl32 & Hmt & Hmtl & Hs & Hsl).
  change (drop 4 (be32 (len data) ++ data)) with data.
  split; [exact (of_be_be32 (len data) ltac:(unfold len in *; lia))|].
  destruct (canonical_json_ok _ (wire_json_ok m Hok)) as (b & Hb & Hload).
  rewrite Hc in Hb. injection Hb as <-.
  apply message_from_wire; try done; [lia|].
  rewrite validate_json_tree_iff in * by done. by rewrite tree_ok_sort_keys, tree_items_sort_keys.
Qed.

(** C25: the wire format is faithful: a message that [to_bytes] frames is read back from the frame's
    body by [from_bytes] as the same message (the payload's keys sorted), under every configuration
    whose limits admit it. *)
Theorem message_wire_round_trip (m : Message) (max_size : Z) (frame : list byte) (config : SecurityConfig) :
  message_ok m = true -> message_to_bytes max_size m = Ok frame -> max_size <= max_frame_size config ->
  0 <= max_json_items config ->
  validate_json_tree (max_json_depth config) (max_json_items config) (max_string_length config)
    (JObj (wire_document m)) = Ok () ->
  of_be (take 4 frame) = len (drop 4 frame) /\
  message_from_bytes (drop 4 frame) config = Ok (sorted_message m).
Proof. apply message_frame_decodes. Qed.

Section message_theorems.
Context `{Ed25519Laws}.

Lemma signed_inv key ts n m s :
  signed key ts n m = Ok s ->
  timestamp s = Some ts /\ nonce s = Some n /\ isfinite ts = true /\ sender_id s = sender_id m /\
  msg_payload s = msg_payload m /\ msg_type s = msg_type m /\ msg_version s = msg_version m /\
  exists data, message_bytes s = Ok data /\ msg_signature s = Some (ed_sign key data).
Proof. unfold signed. intros H1. inv_result. breflect. split_and!; try done. by exists a1. Qed.

(** Verification of a signed message, before and after the wire. *)
Lemma signed_verifies (key : PrivateKey) (ts : float) (n : pystr) (m s : Message)
    (ring : PeerKeyRing) :
  signed key ts n m = Ok s -> message_ok s = true ->
  (get_peer_key (sender_id m) ring = Some (public_key key) ->
   verify_signature s ring = Ok true /\ verify_signature (sorted_message s) ring = Ok true) /\
  (get_peer_key (sender_id m) ring = None ->
   verify_signature s ring = Ok false /\ verify_signature (sorted_message s) ring = Ok false).
Proof.
  intros Hs Hok. destruct (signed_inv _ _ _ _ _ Hs) as (Ht & Hn & _ & Hsd & _ & _ & _ & data & Hd & Hg).
  pose proof (message_bytes_sorted s Hok) as Hsorted. unfold verify_signature.
  cbn [msg_signature nonce timestamp sender_id sorted_message]. rewrite Hg, Hn, Ht, Hsorted, Hd.
  cbn [rbind]. rewrite Hsd. unfold ring_verify, get_peer_key.
  split; intros ->; [|done]. by rewrite pub_verify_sign.
Qed.

(** A signed message authenticates its sender end to end: it verifies under the sender's key,
    also after the trip over the wire, and under a ring without that sender it never verifies. *)
Theorem signed_message_verifies (key : PrivateKey) (ts : float) (n : pystr) (m s : Message)
    (ring : PeerKeyRing) :
  signed key ts n m = Ok s -> message_ok s = true ->
  (get_peer_key (sender_id m) ring = Some (public_key key) ->
   verify_signature s ring = Ok true /\ verify_signature (sorted_message s) ring = Ok true) /\
  (get_peer_key (sender_id m) ring = None ->
   verify_signature s ring = Ok false /\ verify_signature (sorted_message s) ring = Ok false).
Proof. apply signed_verifies. Qed.
End message_theorems.

(** A heartbeat of peer p1, signed at time 12.5. *)
Definition sample_message : Message := {|
  msg_type := str "heartbeat"; sender_id := str "p1"; msg_payload := [(str "ts", JInt 7)];
  timestamp := None; nonce := None; msg_signature := None; msg_version := 2 |}.

Definition sample_signed : Message :=
  match signed (toy_seed 1) (decimal_float false 125 (-1)) (str "n1") sample_message with
  | Ok s => s
  | Raise _ => sample_message
  end.

Lemma message_wire_round_trip_witness :
  exists frame, message_to_bytes MAX_FRAME_SIZE sample_signed = Ok frame /\
    message_from_bytes (drop 4 frame) default_security = Ok (sorted_message sample_signed).
Proof.
  assert (message_ok sample_signed = true) as H1 by (vm_compute; reflexivity).
  assert (is_ok (message_to_bytes MAX_FRAME_SIZE sample_signed) = true) as H2
    by (vm_compute; reflexivity).
  assert (MAX_FRAME_SIZE <= max_frame_size default_security) as H3 by (vm_compute; discriminate).
  assert (0 <= max_json_items default_security) as H4 by (vm_compute; discriminate).
  assert (validate_json_tree (max_json_depth default_security) (max_json_items default_security)
    (max_string_length default_security) (JObj (wire_document sample_signed)) = Ok ()) as H5
    by (vm_compute; reflexivity).
  destruct (message_to_bytes MAX_FRAME_SIZE sample_signed) as [frame|e] eqn:E; [|discriminate H2].
  exact (ex_intro _ frame (conj eq_refl (proj2
    (message_wire_round_trip sample_signed MAX_FRAME_SIZE frame default_security H1 E H3 H4 H5)))).
Defined.

Lemma signed_message_verifies_witness :
  verify_signature sample_signed toy_ring = Ok true.
Proof.
  assert (signed (toy_seed 1) (decimal_float false 125 (-1)) (str "n1") sample_message = Ok sample_signed)
    as H1 by (vm_compute; reflexivity).
  assert (message_ok sample_signed = true) as H2 by (vm_compute; reflexivity).
  assert (get_peer_key (sender_id sample_message) toy_ring = Some (public_key (toy_seed 1))) as H3
    by (vm_compute; reflexivity).
  exact (proj1 (proj1 (signed_message_verifies (toy_seed 1) (decimal_float false 125 (-1)) (str "n1")
    sample_message sample_signed toy_ring H1 H2) H3)).
Defined.
