(* ===== verification/Encodable.v ===== *)
(** * What was read can be written

    The parser refuses integers of more digits than the printer writes, and [validate_json_tree] refuses
    lone surrogates and infinite numbers; so every document that the code accepts from outside has a
    canonical form, and the signature of an accepted message can be verified without an exception. *)

From Stdlib Require Import ZArith NArith Lia.
From S2P Require Import Prelude PyFloat Text Json JsonFacts Security Consensus Crypto Wal Message.
Open Scope N_scope.

(** ** Lengths of decimal numerals *)

Lemma digits_value_cons c ds : digits_value (c :: ds) = (c - 48) * 10 ^ N.of_nat (length ds) + digits_value ds.
Proof.
  induction ds as [|d ds IH] using rev_ind; [cbn; lia|].
  rewrite app_comm_cons, !digits_value_app, IH, length_app. cbn [length].
  replace (N.of_nat (length ds + 1)) with (N.succ (N.of_nat (length ds))) by lia. rewrite N.pow_succ_r by lia. lia.
Qed.

Lemma digits_value_lt ds : Forall (fun c => is_digit c = true) ds -> digits_value ds < 10 ^ N.of_nat (length ds).
Proof.
  induction 1 as [|c ds Hc _ IH]; [done|]. rewrite digits_value_cons. cbn [length].
  rewrite Nat2N.inj_succ, N.pow_succ_r by lia. unfold is_digit in Hc.
  apply andb_true_iff in Hc as [?%N.leb_le ?%N.leb_le]. nia.
Qed.

Lemma N_str_length ds :
  Forall (fun c => is_digit c = true) ds -> ds <> [] -> (length (N_str (digits_value ds)) <= length ds)%nat.
Proof.
  intros Hds Hne. pose proof (digits_value_lt ds Hds) as Hlt. pose proof (digits_value_N_str (digits_value ds)) as Hv.
  destruct (N_str_head (digits_value ds)) as (c & cs & E & Hc). pose proof (N_str_digit (digits_value ds)) as Hd.
  rewrite E in Hv, Hd |- *. rewrite digits_value_cons in Hv. apply Forall_cons in Hd as [Hcd _].
  destruct (decide (c = 48)) as [Hz|Hz].
  { destruct (Hc Hz) as [_ ->]. destruct ds; [done|]. cbn. lia. }
  unfold is_digit in Hcd. apply andb_true_iff in Hcd as [?%N.leb_le ?%N.leb_le].
  assert (10 ^ N.of_nat (length cs) < 10 ^ N.of_nat (length ds)) as Hp by nia.
  apply N.pow_lt_mono_r_iff in Hp; [|lia]. cbn [length]. lia.
Qed.

(** ** The integers of a parsed document *)

Definition short_int (z : Z) : bool := json_ok (JInt z).

Fixpoint short_ints (v : json) : bool :=
  match v with
  | JInt z => short_int z
  | JArr l => forallb short_ints l
  | JObj d => forallb (fun kv => short_ints kv.2) d
  | _ => true
  end.

Lemma take_while_digits s : Forall (fun c => is_digit c = true) (take_while is_digit s).
Proof. induction s as [|c s IH]; cbn; [done|]. destruct (is_digit c) eqn:E; [by constructor|done]. Qed.

Lemma cond_opp_abs b z : Z.abs_N (cond_Zopp b z) = Z.abs_N z.
Proof. destruct b; cbn; lia. Qed.

Lemma parse_number_short tok v : parse_number tok = Some v -> short_ints v = true.
Proof.
  unfold parse_number. set (ip := take_while is_digit (default tok (strip_char 45 tok))). cbv zeta.
  match goal with |- (if ?b then None else _) = _ -> _ => destruct b eqn:Ev; [done|] end. apply negb_false_iff in Ev.
  match goal with |- (if ?b then _ else _) = _ -> _ => destruct b; [|by intros [= <-]] end.
  destruct (Z.ltb_spec int_max_str_digits (Z.of_nat (length ip))) as [|Hl]; [done|]. intros [= <-].
  cbn [short_ints]. unfold short_int. cbn [json_ok]. apply Z.leb_le. rewrite cond_opp_abs.
  assert (ip <> []) as Hne by (by intros Hn; rewrite Hn in Ev).
  pose proof (N_str_length ip (take_while_digits _) Hne). replace (Z.abs_N (Z.of_N (digits_value ip))) with (digits_value ip) by lia.
  lia.
Qed.

Lemma scan_literal_short s v r : @scan_literal reject_json_constants s = Some (v, r) -> short_ints v = true.
Proof.
  unfold scan_literal, allow_constants, reject_json_constants, scan_number. intros Hs.
  repeat case_match; try (by injection Hs as <- <-); simplify_eq; try done; by eapply parse_number_short.
Qed.

Lemma dict_set_short k v (d : list (pystr * json)) :
  short_ints v = true -> forallb (fun kv => short_ints kv.2) d = true -> forallb (fun kv => short_ints kv.2) (dict_set k v d) = true.
Proof.
  intros Hv. rewrite !forallb_Forall, !Forall_forall. intros Hd [k' v'] [[= -> ->]|Hin]%dict_set_elem; [done|by apply Hd].
Qed.

Lemma scan_short fuel :
  (forall s v r, scan_value fuel s = Some (v, r) -> short_ints v = true) /\
  (forall s l r, scan_elems fuel s = Some (l, r) -> forallb short_ints l = true) /\
  (forall s acc d r, scan_members fuel s acc = Some (d, r) -> forallb (fun kv => short_ints kv.2) acc = true ->
     forallb (fun kv => short_ints kv.2) d = true).
Proof.
  induction fuel as [|f (IHv & IHl & IHm)]; [done|]. split_and!.
  - intros s v r. cbn [scan_value]. destruct s as [|c s]; [done|]. intros Hs.
    repeat case_match; simplify_eq; try done; cbn [short_ints]; [by eapply IHm|by eapply IHl|by eapply scan_literal_short].
  - intros s l r. cbn [scan_elems]. intros Hs.
    repeat case_match; simplify_eq; cbn [forallb]; rewrite ?andb_true_r; [by eapply IHv|].
    apply andb_true_iff. split; [by eapply IHv|by eapply IHl].
  - intros s acc d r. cbn [scan_members]. intros Hs Hacc.
    repeat case_match; simplify_eq; [apply dict_set_short; [by eapply IHv|done]|].
    eapply IHm; [done|]. apply dict_set_short; [by eapply IHv|done].
Qed.

Lemma loads_bytes_short b v : loads_bytes b = Some v -> short_ints v = true.
Proof.
  unfold loads_bytes, loads, loads_text. intros Hl. repeat case_match; simplify_eq. by eapply scan_short.
Qed.

(** ** Printing *)

(** The texts of a value are encodable and its numbers printable. *)
Fixpoint writable (v : json) : bool :=
  match v with
  | JNull | JBool _ => true
  | JInt z => short_int z
  | JFloat f => isfinite f
  | JStr s => scalar_str s
  | JArr l => forallb writable l
  | JObj d => forallb (fun kv => scalar_str kv.1 && writable kv.2) d
  end.

Lemma drop_while_Forall {A} (P : A -> Prop) p (l : list A) : Forall P l -> Forall P (drop_while p l).
Proof. induction 1 as [|x l Hx Hl IH]; cbn; [done|]. destruct (p x); [done|by constructor]. Qed.

Abbreviation num_chars l := (Forall (fun c => num_char c = true) l).

Lemma digits_num l : Forall (fun c => is_digit c = true) l -> num_chars l.
Proof. intros Hl. eapply Forall_impl; [exact Hl|]. apply digit_num_char. Qed.

Lemma layout_num ds p : num_chars ds -> num_chars (layout_digits ds p).
Proof.
  intros Hds. unfold layout_digits. pose proof (digits_num _ (N_str_digit (Z.abs_N (p - 1)))) as Hn. cbv zeta.
  repeat case_match; repeat apply Forall_app_2; try apply Forall_take; try apply Forall_drop; try done;
    try (by apply Forall_replicate); by repeat constructor.
Qed.

Lemma float_repr_num f : num_chars (float_repr f).
Proof.
  destruct f as [s|s| |s m e]; cbn [float_repr]; [destruct s; by repeat constructor|constructor|constructor|].
  destruct (shortest_decimal _ _ _ _ _) as [c k]. cbv zeta. apply Forall_app_2; [destruct s; by repeat constructor|].
  apply layout_num. unfold strip_zeros. apply Forall_reverse, drop_while_Forall, Forall_reverse, digits_num, N_str_digit.
Qed.

Lemma float_repr_scalar f : scalars (float_repr f).
Proof. eapply Forall_impl; [apply float_repr_num|apply num_char_scalar]. Qed.

Lemma dumps_writable a v : writable v = true -> exists t, dumps a v = Ok t /\ scalars t.
Proof.
  induction v as [|b|z|f|s|l IH|d IH] using json_ind; intros Hw.
  - eexists. split; [reflexivity|]. by repeat constructor.
  - eexists. split; [reflexivity|]. destruct b; by repeat constructor.
  - exists (Z_str z). split; [by apply int_repr_ok|]. eapply Forall_impl; [apply Z_str_num_char|apply num_char_scalar].
  - exists (float_repr f). cbn [writable dumps] in *. rewrite Hw. split; [done|apply float_repr_scalar].
  - eexists. split; [reflexivity|by apply quote_scalar].
  - rewrite dumps_arr. cbn [writable] in Hw.
    assert (exists ts, dump_list (dumps a) l = Ok ts /\ Forall (fun t => scalars t) ts) as (ts & -> & Hts).
    { induction IH as [|x l Hx Hl IHl]; cbn [dump_list]; [by exists []|]. cbn [forallb] in Hw.
      apply andb_true_iff in Hw as [Hwx Hwl]. destruct (Hx Hwx) as (t & -> & Ht), (IHl Hwl) as (ts & -> & Hts).
      eexists. split; [reflexivity|]. by constructor. }
    eexists. split; [reflexivity|]. repeat apply Forall_app_2; try (by repeat constructor).
    apply join_scalar; [by repeat constructor|done].
  - rewrite dumps_obj. cbn [writable] in Hw.
    assert (exists ts, dump_members (dumps a) d = Ok ts /\ Forall (fun kt => scalar_str kt.1 = true /\ scalars kt.2) ts) as (ts & -> & Hts).
    { induction IH as [|[k x] d Hx Hl IHl]; cbn [dump_members]; [by exists []|]. cbn [forallb fst snd] in *.
      apply andb_true_iff in Hw as [[Hk Hwx]%andb_true_iff Hwl]. destruct (Hx Hwx) as (t & -> & Ht), (IHl Hwl) as (ts & -> & Hts).
      eexists. split; [reflexivity|]. by constructor. }
    eexists. split; [reflexivity|]. repeat apply Forall_app_2; try (by repeat constructor).
    apply join_scalar; [by repeat constructor|]. apply Forall_fmap. unfold sort_items. rewrite sort_by_perm.
    eapply Forall_impl; [exact Hts|]. intros [k x] [Hk Hx]. apply Forall_app_2; [by apply quote_scalar|]. by constructor.
Qed.

Lemma writable_bytes v : writable v = true -> is_ok (canonical_json_bytes v) = true.
Proof.
  intros Hv. unfold canonical_json_bytes, dumps_bytes. destruct (dumps_writable false v Hv) as (t & -> & Ht). cbn [rbind].
  by destruct (utf8_encode_scalar t Ht) as [b ->].
Qed.

(** ** What [validate_json_tree] accepts *)

Lemma check_string_scalar n s : is_ok (check_string n s) = true -> scalar_str s = true.
Proof.
  unfold check_string. destruct (utf8_encode s) as [b|] eqn:E; [|done]. intros _. apply forallb_Forall.
  by eapply utf8_encode_Some_scalar.
Qed.

Lemma tree_ok_writable maxd maxs depth v : tree_ok maxd maxs depth v = true -> short_ints v = true -> writable v = true.
Proof.
  revert depth. induction v as [|b|z|f|s|l IH|d IH] using json_ind; intros depth; cbn [tree_ok short_ints writable];
    rewrite ?andb_true_iff; intros [_ Ht] Hs; try done; [by apply check_string_scalar in Ht|..];
    rewrite ?forallb_Forall in *; rewrite Forall_forall in *.
  - intros x Hx. by eapply IH; [|apply Ht|apply Hs].
  - intros kv Hkv. specialize (Ht kv Hkv). specialize (Hs kv Hkv). cbn beta in *. rewrite !andb_true_iff in Ht. destruct Ht as [[_ Hk] Ht].
    apply andb_true_iff. split; [by eapply check_string_scalar|by eapply IH].
Qed.

Lemma jget_writable k d : writable (JObj d) = true -> writable (jget k d) = true.
Proof.
  cbn [writable]. rewrite forallb_Forall, Forall_forall. intros Hd. unfold jget.
  destruct (dict_get k d) as [v|] eqn:E; [|done]. apply dict_get_Some_elem in E. specialize (Hd _ E).
  by apply andb_true_iff in Hd as [_ ?].
Qed.

Lemma read_timestamp_writable v o : read_timestamp v = Ok o -> writable (opt_json JFloat o) = true.
Proof.
  unfold read_timestamp. destruct v; try (by intros [= <-]); intros Hr; repeat case_match; simplify_eq; cbn [opt_json writable];
    by eapply finite_number_sound.
Qed.

Lemma read_nonce_writable v o : read_nonce v = Ok o -> writable v = true -> writable (opt_json JStr o) = true.
Proof. unfold read_nonce. destruct v; intros Hr Hv; inv_result; done. Qed.

(** What [from_bytes] accepts has canonical bytes. *)
Lemma decoded_message_writable (data : list byte) (config : SecurityConfig) (m : Message) :
  (0 <= max_json_items config)%Z -> message_from_bytes data config = Ok m -> is_ok (message_bytes m) = true.
Proof.
  intros Hi Hm. unfold message_from_bytes in Hm. inv_result.
  destruct (loads_bytes data) as [v|] eqn:El; [|done]. inv_result.
  match goal with Hv : validate_json_tree _ _ _ _ = Ok _ |- _ => rename Hv into Hval end.
  destruct v as [| | | | | |d]; try done. inv_result.
  destruct a. apply validate_json_tree_iff in Hval as [Ht _]; [|done].
  pose proof (tree_ok_writable _ _ _ _ Ht (loads_bytes_short _ _ El)) as Hw.
  pose proof (jget_writable (str "msg_type") d Hw) as H1. pose proof (jget_writable (str "sender_id") d Hw) as H2.
  pose proof (jget_writable (str "payload") d Hw) as H3. pose proof (jget_writable (str "protocol_version") d Hw) as H4.
  pose proof (jget_writable (str "nonce") d Hw) as H5.
  destruct (jget (str "msg_type") d); try done. destruct (jget (str "sender_id") d); try done.
  destruct (jget (str "payload") d); try done. destruct (jget (str "protocol_version") d); try done. inv_result.
  apply writable_bytes. unfold unsigned_document. cbn [msg_type sender_id msg_payload timestamp nonce msg_version].
  match goal with |- writable (JObj [(_, ?a); (_, ?b); (_, ?c); (_, ?e); (_, ?f); (_, ?g)]) = true =>
    change (writable a && (writable b && (writable c && (writable e && (writable f && (writable g && true))))) = true) end.
  rewrite H1, H2, H3, H4. erewrite read_nonce_writable by done. by erewrite read_timestamp_writable.
Qed.

(** C24: A message that was decoded can be verified: whatever the sender put into the frame, the message
    that [from_bytes] returns has canonical bytes, and verifying its signature under any key ring
    answers and raises nothing. *)
Theorem decoded_message_encodes `{Ed25519} (data : list byte) (config : SecurityConfig) (m : Message) (ring : PeerKeyRing) :
  (0 <= max_json_items config)%Z -> message_from_bytes data config = Ok m ->
  is_ok (message_bytes m) = true /\ exists b, verify_signature m ring = Ok b.
Proof.
  intros Hi Hm. pose proof (decoded_message_writable data config m Hi Hm) as Hb. split; [exact Hb|].
  unfold verify_signature. destruct (message_bytes m) as [d|]; [|done]. repeat case_match; by eexists.
Qed.

(** A frame with a payload of every kind of value is accepted, and what it says can be encoded again. *)
Definition sample_frame : list byte :=
  (fun b => if bool_decide (b = Z_byte 39) then Z_byte 34 else b) <$> str_bytes
    "{'msg_type':'gossip','sender_id':'p1','payload':{'x':[1,-2.5e-3,null,true,'\u00e9'],'y':{}},'timestamp':3,'nonce':'n','protocol_version':2}".

Lemma decoded_message_encodes_witness :
  exists m, message_from_bytes sample_frame default_security = Ok m /\ is_ok (message_bytes m) = true /\
    exists b, verify_signature m [] = Ok b.
Proof.
  destruct (message_from_bytes sample_frame default_security) as [m|e] eqn:E; [|vm_compute in E; discriminate].
  exists m. split; [reflexivity|].
  apply (decoded_message_encodes sample_frame default_security m []); [vm_compute; discriminate|exact E].
Defined.
