(* ===== verification/LogSize.v ===== *)
(** * How large a record is in the log

    The JSON of a record is bounded by the sizes of its fields.  A record whose bound is below the limit
    of the log is always appended; and a record that the protocol's limits allow can exceed that limit. *)

From Stdlib Require Import ZArith NArith Lia.
From S2P Require Import Prelude PyFloat Text Json JsonFacts Security Consensus Crypto Wal Message Encodable.
Open Scope Z_scope.

(** ** Printed texts are ASCII *)

Abbreviation ascii_chars t := (Forall (fun c => (c < 128)%N) t).

Lemma utf8_ascii t : ascii_chars t -> exists b, utf8_encode t = Some b /\ len b = len t.
Proof.
  induction 1 as [|c t Hc Ht (b & Hb & Hl)]; [by exists []|]. cbn [utf8_encode]. rewrite small_scalar by done. rewrite Hb.
  eexists. split; [reflexivity|]. unfold utf8_char. rewrite (proj2 (N.ltb_lt c 128) Hc). unfold len in *.
  cbn [app length]. lia.
Qed.

Lemma hex4_ascii c : ascii_chars (hex4 c) /\ len (hex4 c) = 4.
Proof. split; [|done]. unfold hex4. repeat constructor; apply hex_digit_small, mod16. Qed.

Lemma esc_char_ascii c : is_scalar c = true -> ascii_chars (esc_char true c) /\ 1 <= len (esc_char true c) <= 12.
Proof.
  intros Hc. unfold esc_char. cbn [negb orb].
  repeat (match goal with |- context [if ?b then [92; _]%N else _] => destruct b; [split; [by repeat constructor|unfold len; cbn; lia]|] end).
  destruct (c <? 32)%N; [split; [apply Forall_app_2; [by repeat constructor|apply hex4_ascii]|unfold len; cbn; lia]|].
  destruct (N.ltb_spec c 127); [split; [constructor; [lia|done]|unfold len; cbn; lia]|].
  destruct (c <? 0x10000)%N; (split; [repeat apply Forall_app_2; try (by repeat constructor); apply hex4_ascii|unfold len; cbn; lia]).
Qed.

Lemma quote_ascii s : scalar_str s = true -> ascii_chars (quote true s) /\ len (quote true s) <= 2 + 12 * len s.
Proof.
  intros Hs%forallb_Forall. unfold quote.
  assert (ascii_chars (s ≫= esc_char true) /\ len (s ≫= esc_char true) <= 12 * len s) as [Ha Hl].
  { induction Hs as [|c s Hc Hs [IHa IHl]]; [split; [constructor|done]|]. rewrite bind_cons.
    destruct (esc_char_ascii c Hc) as [Hca Hcl]. split; [by apply Forall_app_2|]. unfold len in *. rewrite length_app. cbn [length]. lia. }
  split; [constructor; [done|]; apply Forall_app_2; [done|by repeat constructor]|].
  unfold len in *. cbn [length]. rewrite length_app. cbn [length]. lia.
Qed.

(** A text of plain characters is printed as it is. *)
Lemma quote_plain s : Forall (fun c => esc_char true c = [c]) s -> len (quote true s) = 2 + len s.
Proof.
  intros Hs. unfold quote. assert (s ≫= esc_char true = s) as ->.
  { induction Hs as [|c s Hc Hs IH]; [done|]. by rewrite bind_cons, Hc, IH. }
  unfold len. cbn [length]. rewrite length_app. cbn [length]. lia.
Qed.

(** ** The size of a printed value *)

Fixpoint json_bound (v : json) : Z :=
  match v with
  | JNull => 4
  | JBool _ => 5
  | JInt z => 1 + len (N_str (Z.abs_N z))
  | JFloat f => len (float_repr f)
  | JStr s => len (quote true s)
  | JArr l => 2 + zsum (map (fun x => 1 + json_bound x) l)
  | JObj d => 2 + zsum (map (fun kv => len (quote true kv.1) + 2 + json_bound kv.2) d)
  end.

Lemma num_ascii l : num_chars l -> ascii_chars l.
Proof.
  intros Hl. eapply Forall_impl; [exact Hl|]. intros c. unfold num_char, is_digit.
  rewrite !orb_true_iff, andb_true_iff, !N.eqb_eq, !N.leb_le. lia.
Qed.

Lemma Z_str_bound z : ascii_chars (Z_str z) /\ len (Z_str z) <= 1 + len (N_str (Z.abs_N z)).
Proof.
  split; [apply num_ascii, Z_str_num_char|].
  destruct z as [|p|p]; cbn [Z_str Z.abs_N Z.to_N]; unfold len; cbn [length]; lia.
Qed.

Lemma join_bound ts n : Forall (fun t => ascii_chars t) ts -> zsum (map (fun t => 1 + len t) ts) <= n ->
  ascii_chars (join (str ",") ts) /\ len (join (str ",") ts) <= n.
Proof.
  intros Hts Hn. split.
  - clear Hn. induction Hts as [|t ts Ht Hts IH]; [constructor|]. destruct ts; [done|]. cbn [join].
    repeat apply Forall_app_2; try done. by repeat constructor.
  - etrans; [|exact Hn]. clear. induction ts as [|t ts IH]; [done|]. unfold zsum in *. cbn [map foldr join] in *.
    destruct ts; [unfold len in *; cbn [map foldr] in *; lia|]. unfold len in *. rewrite !length_app. change (length (str ",")) with 1%nat. lia.
Qed.

(** What is printed is ASCII and no longer than its bound. *)
Lemma dumps_bound v : writable v = true ->
  exists t, dumps true v = Ok t /\ ascii_chars t /\ len t <= json_bound v.
Proof.
  induction v as [|b|z|f|s|l IH|d IH] using json_ind; intros Hw.
  - eexists. split; [reflexivity|]. split; [by repeat constructor|done].
  - eexists. split; [reflexivity|]. destruct b; (split; [by repeat constructor|done]).
  - exists (Z_str z). split; [by apply int_repr_ok|apply Z_str_bound].
  - exists (float_repr f). cbn [writable dumps] in *. rewrite Hw. split_and!; [done|apply num_ascii, float_repr_num|done].
  - eexists. split; [reflexivity|]. split; [by apply quote_ascii|done].
  - rewrite dumps_arr. cbn [writable json_bound] in *.
    assert (exists ts, dump_list (dumps true) l = Ok ts /\ Forall (fun t => ascii_chars t) ts /\
      zsum (map (fun t => 1 + len t) ts) <= zsum (map (fun x => 1 + json_bound x) l)) as (ts & -> & Ha & Hl).
    { induction IH as [|x l Hx Hl IHl]; cbn [dump_list]; [by exists []|]. cbn [forallb] in Hw.
      apply andb_true_iff in Hw as [Hwx Hwl]. destruct (Hx Hwx) as (t & -> & Ht & Htl), (IHl Hwl) as (ts & -> & Hts & Hsl).
      eexists. split; [reflexivity|]. split; [by constructor|]. unfold zsum in *. cbn [map foldr]. lia. }
    eexists. split; [reflexivity|]. destruct (join_bound ts _ Ha Hl) as [Hj Hjl].
    split; [repeat apply Forall_app_2; try done; by repeat constructor|]. unfold len in *. rewrite !length_app.
    change (length (str "[")) with 1%nat. change (length (str "]")) with 1%nat. lia.
  - rewrite dumps_obj. cbn [writable json_bound] in *.
    assert (exists items, dump_members (dumps true) d = Ok items /\
      Forall (fun kt => ascii_chars (quote true kt.1 ++ str ":" ++ kt.2)) items /\
      zsum (map (fun kt => 1 + len (quote true kt.1 ++ str ":" ++ kt.2)) items) <=
      zsum (map (fun kv => len (quote true kv.1) + 2 + json_bound kv.2) d)) as (items & -> & Ha & Hl).
    { induction IH as [|[k x] d Hx Hl IHl]; cbn [dump_members]; [by exists []|]. cbn [forallb fst snd] in *.
      apply andb_true_iff in Hw as [[Hk Hwx]%andb_true_iff Hwl].
      destruct (Hx Hwx) as (t & -> & Ht & Htl), (IHl Hwl) as (ts & -> & Hts & Hsl).
      eexists. split; [reflexivity|]. split.
      - constructor; [|done]. cbn [fst snd]. repeat apply Forall_app_2; [by apply quote_ascii|by repeat constructor|done].
      - unfold zsum, len in *. cbn [map foldr fst snd]. rewrite !length_app. change (length (str ":")) with 1%nat. lia. }
    eexists. split; [reflexivity|].
    assert (items ≡ₚ sort_items items) as Hp by (symmetry; apply sort_by_perm).
    destruct (join_bound ((fun kt => quote true kt.1 ++ str ":" ++ kt.2) <$> sort_items items)
      (zsum (map (fun kv => len (quote true kv.1) + 2 + json_bound kv.2) d))) as [Hj Hjl].
    { apply Forall_fmap. by rewrite <- Hp. }
    { etrans; [|exact Hl]. rewrite map_map. apply Z.eq_le_incl, zsum_perm. by rewrite <- Hp. }
    split; [repeat apply Forall_app_2; try done; by repeat constructor|]. unfold len in *. rewrite !length_app.
    change (length (str "{")) with 1%nat. change (length (str "}")) with 1%nat. lia.
Qed.

(** ** A value below the limits is valid *)

Lemma json_bound_nonneg v : 0 <= json_bound v.
Proof.
  induction v as [|b|z|f|s|l IH|d IH] using json_ind; cbn [json_bound]; try (unfold len; lia).
  - enough (0 <= zsum (map (fun x => 1 + json_bound x) l)) by lia. apply zsum_nonneg, Forall_map.
    eapply Forall_impl; [exact IH|]. cbn. lia.
  - enough (0 <= zsum (map (fun kv => len (quote true kv.1) + 2 + json_bound kv.2) d)) by lia. apply zsum_nonneg, Forall_map.
    eapply Forall_impl; [exact IH|]. unfold len. cbn. lia.
Qed.

Lemma zsum_elem {A} (f : A -> Z) l x : (forall y, 0 <= f y) -> x ∈ l -> f x <= zsum (map f l).
Proof.
  intros Hf. induction 1 as [x l|x y l Hx IH]; unfold zsum in *; cbn [map foldr].
  - pose proof (zsum_nonneg (map f l)) as Hn. unfold zsum in Hn. enough (0 <= foldr Z.add 0 (map f l)) by lia. apply Hn, Forall_map, Forall_true. done.
  - specialize (Hf y). lia.
Qed.

Lemma utf8_char_short c : is_scalar c = true -> len (utf8_char c) <= len (esc_char true c).
Proof.
  intros Hc. pose proof (proj2 (esc_char_ascii c Hc)) as Hl. unfold utf8_char.
  destruct (N.ltb_spec c 0x80) as [|H128]; [unfold len in *; cbn [length]; lia|]. unfold esc_char. cbn [negb orb].
  repeat match goal with |- context [if (c =? ?x)%N then [92; _]%N else _] => destruct (N.eqb_spec c x) as [->|]; [done|] end.
  destruct (N.ltb_spec c 32); [lia|]. destruct (N.ltb_spec c 127); [lia|].
  destruct (c <? 0x10000)%N; repeat case_match; unfold len; cbn; lia.
Qed.

Lemma check_string_ok n s : scalar_str s = true -> len (quote true s) <= n -> is_ok (check_string n s) = true.
Proof.
  intros Hs Hn. unfold check_string. apply forallb_Forall in Hs.
  assert (exists b, utf8_encode s = Some b /\ len b <= len (s ≫= esc_char true)) as (b & -> & Hb).
  { clear Hn. induction Hs as [|c s Hc Hs (b & Hb & Hl)]; [by exists []|]. cbn [utf8_encode]. rewrite Hc, Hb.
    eexists. split; [reflexivity|]. rewrite bind_cons. pose proof (utf8_char_short c Hc). unfold len in *. rewrite !length_app. lia. }
  unfold quote, len in *. cbn [length] in Hn. rewrite length_app in Hn. cbn [length] in Hn.
  unfold raise_if. by rewrite (proj2 (Z.ltb_ge _ _)) by lia.
Qed.

(** The nesting of a value. *)
Fixpoint json_height (v : json) : Z :=
  match v with
  | JArr l => 1 + foldr Z.max 0 (map json_height l)
  | JObj d => 1 + foldr Z.max 0 (map (fun kv => json_height kv.2) d)
  | _ => 0
  end.

Lemma zmax_elem {A} (f : A -> Z) l x : x ∈ l -> f x <= foldr Z.max 0 (map f l).
Proof. induction 1; cbn [map foldr]; lia. Qed.

Lemma zmax_nonneg l : 0 <= foldr Z.max 0 l.
Proof. induction l; cbn; lia. Qed.

Lemma json_height_nonneg v : 0 <= json_height v.
Proof. destruct v; cbn [json_height]; try lia; match goal with |- context [foldr Z.max 0 ?l] => pose proof (zmax_nonneg l); lia end. Qed.

Lemma tree_ok_bound maxd maxs v : writable v = true -> json_bound v <= maxs -> forall depth, depth + json_height v <= maxd ->
  tree_ok maxd maxs depth v = true.
Proof.
  induction v as [|b|z|f|s|l IH|d IH] using json_ind; intros Hw Hb depth Hd;
    match goal with |- tree_ok _ _ _ ?v = true => pose proof (json_height_nonneg v) end;
    cbn [tree_ok json_height json_bound writable] in *; (apply andb_true_iff; split; [apply Z.leb_le; lia|]); try done.
  - by apply check_string_ok.
  - rewrite forallb_Forall in *. rewrite Forall_forall in *. intros x Hx. apply IH; [done|by apply Hw| |].
    + pose proof (zsum_elem (fun x => 1 + json_bound x) l x ltac:(intros y; pose proof (json_bound_nonneg y); lia) Hx). cbn beta in *. lia.
    + pose proof (zmax_elem json_height l x Hx). lia.
  - rewrite forallb_Forall in *. rewrite Forall_forall in *. intros kv Hkv. specialize (Hw kv Hkv). cbn beta in Hw.
    apply andb_true_iff in Hw as [Hk Hw].
    pose proof (zsum_elem (fun kv => len (quote true kv.1) + 2 + json_bound kv.2) d kv
      ltac:(intros y; pose proof (json_bound_nonneg y.2); unfold len; lia) Hkv). cbn beta in *.
    pose proof (zmax_elem (fun kv => json_height kv.2) d kv Hkv). cbn beta in *.
    pose proof (json_bound_nonneg kv.2). pose proof (json_height_nonneg kv.2).
    rewrite !andb_true_iff. split_and!; [apply Z.leb_le; lia|apply check_string_ok; [done|lia]|].
    apply IH; [done|done|unfold len in *; lia|lia].
Qed.

(** ** Appending *)

Lemma append_succeeds rt d w :
  is_open w = true -> known_type rt = true -> writable (JObj d) = true -> json_bound (JObj d) <= max_record_bytes w < 2 ^ 32 ->
  json_height (JObj d) <= 16 -> tree_items (JObj d) <= 10000 ->
  exists f, append rt (JObj d) w = Ok (len (default [] (wal_data w)), with_data (Some (default [] (wal_data w) ++ f)) true w).
Proof.
  intros Ho Hrt Hw Hb Hh Hi. unfold append. rewrite Ho, Hrt. cbn [negb raise_if rbind].
  destruct (dumps_bound (JObj d) Hw) as (t & Hd & Ha & Hl). destruct (utf8_ascii t Ha) as (b & Hbt & Hbl).
  assert (validate_json_tree 16 10000 (max_record_bytes w) (JObj d) = Ok ()) as Hv.
  { apply validate_json_tree_iff; [lia|]. split; [|done]. apply tree_ok_bound; [done|lia|lia]. }
  unfold encode_payload. rewrite Hv. cbn [rbind]. unfold dumps_bytes. rewrite Hd. cbn [rbind]. rewrite Hbt.
  rewrite (raise_if_false (max_record_bytes w <? len b)) by (apply Z.ltb_ge; lia). cbn [rbind].
  rewrite frame_ok; [|done|lia]. cbn [rbind]. eexists. reflexivity.
Qed.

(** ** Records *)

Definition opt_len {A} (o : option (list A)) : Z := len (default [] o).
Definition clock_size (c : VectorClock) : Z := zsum (map (fun kv => 12 * len kv.1 + len (N_str (Z.abs_N kv.2)) + 5) (map_to_list (clock c))).

(** A bound on the JSON of a record: two characters for a byte of payload, result and signature, up to
    twelve for a character of text. *)
Definition record_bound (r : TaskRecord) : Z :=
  260 + 2 * (len (payload r) + opt_len (task_result r) + opt_len (signature r)) +
  12 * (len (task_id r) + opt_len (task_error r) + opt_len (claimed_by r) + len (updated_by r) + opt_len (signer_id r)
        + len (ft_peer_id (fence_token r))) +
  len (N_str (Z.abs_N (epoch (fence_token r)))) + len (float_repr (lease_expiry r)) + clock_size (vector_clock r).

Lemma hex_quote b : len (quote true (hex b)) = 2 + 2 * len b.
Proof.
  rewrite quote_plain, hex_len; [done|]. induction b as [|x b IH]; [constructor|]. cbn [hex].
  assert (forall n, (n < 16)%N -> esc_char true (hex_digit n) = [hex_digit n]) as Hd.
  { intros n Hn. unfold hex_digit. destruct n as [|p]; [done|]. do 4 (destruct p as [p|p|]; try done; try lia). }
  pose proof (Byte.to_N_bounded x). constructor; [|constructor; [|done]]; apply Hd; [|by apply N.mod_lt].
  apply N.Div0.div_lt_upper_bound. lia.
Qed.

Lemma opt_hex_bound o : json_bound (opt_json (fun b => JStr (hex b)) o) <= 4 + 2 * opt_len o.
Proof. destruct o as [b|]; cbn [opt_json json_bound]; [rewrite hex_quote|]; unfold opt_len; cbn; unfold len; cbn; lia. Qed.

Lemma opt_str_bound o : opt_ok scalar_str o = true -> json_bound (opt_json JStr o) <= 4 + 12 * opt_len o.
Proof.
  destruct o as [s|]; cbn [opt_json json_bound opt_ok]; intros Hs; [pose proof (proj2 (quote_ascii s Hs)); unfold opt_len; cbn in *; lia|done].
Qed.

Lemma vc_json_bound c :
  forallb (fun kv => scalar_str kv.1 && json_ok (JInt kv.2)) (map_to_list (clock c)) = true ->
  json_bound (JObj (vc_json c)) <= 2 + clock_size c.
Proof.
  unfold clock_size, vc_json. cbn [json_bound]. rewrite map_map. intros Hc%forallb_Forall.
  induction Hc as [|[k n] l [Hk _]%andb_true_iff Hl IH]; [done|]. unfold zsum in *. cbn [map foldr fst snd json_bound] in *.
  pose proof (proj2 (quote_ascii k Hk)). lia.
Qed.

Lemma to_dict_bound r : record_text_ok r = true -> json_bound (JObj (to_dict r)) <= record_bound r.
Proof.
  unfold record_text_ok. rewrite !andb_true_iff. intros ((((((((Ht & He) & Hc) & Hu) & Hs) & Hf) & _) & _) & Hv).
  pose proof (proj2 (quote_ascii _ Ht)). pose proof (proj2 (quote_ascii _ Hu)). pose proof (proj2 (quote_ascii _ Hf)).
  pose proof (opt_str_bound _ He). pose proof (opt_str_bound _ Hc). pose proof (opt_str_bound _ Hs).
  pose proof (opt_hex_bound (task_result r)). pose proof (opt_hex_bound (signature r)). pose proof (vc_json_bound _ Hv).
  pose proof (hex_quote (payload r)).
  assert (json_bound (JStr (state_value (state r))) <= 9) by (destruct (state r); by vm_compute).
  unfold record_bound. unfold to_dict. cbn [json_bound map fst snd] in *. unfold zsum at 1 2. cbn [foldr].
  repeat match goal with |- context [len (quote true (str ?k))] =>
    let n := eval vm_compute in (len (quote true (str k))) in change (len (quote true (str k))) with n end.
  lia.
Qed.

Lemma json_ok_writable v : json_ok v = true -> writable v = true.
Proof.
  induction v as [|b|z|f|s|l IH|d IH] using json_ind; try done; cbn [json_ok writable].
  - unfold float_ok. by intros [[? _]%andb_true_iff _]%andb_true_iff.
  - rewrite !forallb_Forall, !Forall_forall in *. auto.
  - intros [_ Hd]%andb_true_iff. rewrite !forallb_Forall, !Forall_forall in *. intros kv Hkv. specialize (Hd kv Hkv).
    apply andb_true_iff in Hd as [-> Hd]. by apply IH.
Qed.

Lemma to_dict_writable r : record_text_ok r = true -> writable (JObj (to_dict r)) = true.
Proof. intros Hr. by apply json_ok_writable, to_dict_json_ok. Qed.

Lemma opt_json_flat {A} (f : A -> pystr) o :
  json_height (opt_json (fun a => JStr (f a)) o) = 0 /\ tree_items (opt_json (fun a => JStr (f a)) o) = 0.
Proof. by destruct o. Qed.

Lemma flat_ints (l : list (pystr * Z)) :
  foldr Z.max 0 (map (fun kv => json_height kv.2) ((fun kv => (kv.1, JInt kv.2)) <$> l)) = 0 /\
  zsum (map (fun kv => tree_items kv.2) ((fun kv => (kv.1, JInt kv.2)) <$> l)) = 0.
Proof. induction l as [|x l [IH1 IH2]]; [done|]. unfold zsum in *. cbn in *. lia. Qed.

Lemma to_dict_shape r :
  json_height (JObj (to_dict r)) <= 16 /\ tree_items (JObj (to_dict r)) = 14 + Z.of_nat (size (clock (vector_clock r))).
Proof.
  pose proof (opt_json_flat hex (task_result r)) as [E1 F1]. pose proof (opt_json_flat hex (signature r)) as [E2 F2].
  pose proof (opt_json_flat (fun a => a) (task_error r)) as [E3 F3]. pose proof (opt_json_flat (fun a => a) (claimed_by r)) as [E4 F4].
  pose proof (opt_json_flat (fun a => a) (signer_id r)) as [E5 F5].
  pose proof (flat_ints (map_to_list (clock (vector_clock r)))) as [E6 F6].
  assert (len (vc_json (vector_clock r)) = Z.of_nat (size (clock (vector_clock r)))) as Hl.
  { unfold len, vc_json. by rewrite length_fmap, length_map_to_list. }
  split.
  - cbn [json_height to_dict map foldr fst snd]. unfold vc_json. rewrite E6.
    change (fun a : pystr => JStr a) with JStr in *. rewrite E1, E2, E3, E4, E5. done.
  - cbn [tree_items to_dict map fst snd]. unfold zsum. cbn [foldr]. unfold zsum in F6. unfold vc_json at 2. rewrite F6, Hl.
    change (fun a : pystr => JStr a) with JStr in *. rewrite F1, F2, F3, F4, F5. change (len (to_dict r)) with 12. unfold len. cbn [length]. lia.
Qed.

(** Every record whose bound is within the limit of an open log is appended. *)
Lemma append_task_fits (r : TaskRecord) (w : WriteAheadLog) :
  is_open w = true -> record_text_ok r = true -> Z.of_nat (size (clock (vector_clock r))) <= 9986 ->
  record_bound r <= max_record_bytes w < 2 ^ 32 ->
  exists f, append_task r w = Ok (len (default [] (wal_data w)), with_data (Some (default [] (wal_data w) ++ f)) true w).
Proof.
  intros Ho Ht Hc Hb. apply append_succeeds; [done|done|by apply to_dict_writable| | |].
  - pose proof (to_dict_bound r Ht). lia.
  - apply to_dict_shape.
  - rewrite (proj2 (to_dict_shape r)). lia.
Qed.


(** ** A record within the limits that no log takes *)

Definition full_record : TaskRecord := {|
  task_id := str "t"; state := DONE; payload := replicate (Z.to_nat MAX_TASK_PAYLOAD) (Z_byte 0);
  task_result := Some (replicate (Z.to_nat MAX_TASK_RESULT) (Z_byte 0)); task_error := None; claimed_by := Some (str "p1");
  fence_token := ftoken 1 (str "p1"); lease_expiry := fzero; vector_clock := VectorClock_init {[str "p1" := 1]};
  updated_by := str "p1"; signature := None; signer_id := None |}.

(** The limits of payload and result are each half of the limit of a log record, and their hexadecimal
    form is twice as long: a record that every reader accepts is refused by a log with the default limit. *)
Example full_record_not_logged :
  record_ok full_record = true /\ record_text_ok full_record = true /\
  append_task full_record {| wal_data := Some WAL_MAGIC; is_open := true; max_record_bytes := MAX_FRAME_SIZE |} = Raise WalError.
Proof. vm_compute. split_and!; reflexivity. Qed.

Definition small_record : TaskRecord := {|
  task_id := str "t"; state := DONE; payload := str_bytes "in"; task_result := Some (str_bytes "out"); task_error := None;
  claimed_by := Some (str "p1"); fence_token := ftoken 1 (str "p1"); lease_expiry := fzero;
  vector_clock := VectorClock_init {[str "p1" := 1]}; updated_by := str "p1"; signature := None; signer_id := None |}.

Definition new_log : WriteAheadLog := {| wal_data := Some WAL_MAGIC; is_open := true; max_record_bytes := MAX_FRAME_SIZE |}.

