(* ===== verification/SimNetwork.v ===== *)
(** * The simulated network ([InMemoryTransport], [SimNetwork] and [SimBroadcastTransport] of
    [peerq/transport.py])

    Endpoints are objects of a store: the directory of a network names them, and a message in
    transit keeps the object it was routed to.  [route_message] is cut where it sleeps. *)

From Stdlib Require Import ZArith NArith Lia.
From S2P Require Import Prelude PyFloat Text Json JsonFacts Security Consensus Crypto Wal Message.
Open Scope Z_scope.

(** [asyncio.Queue.full] *)
Definition inbox_full {A} (maxsize : Z) (inbox : list A) : bool :=
  if maxsize <=? 0 then false else maxsize <=? len inbox.

Record InMemoryTransport := {
  ep_node_id : pystr;
  ep_security : SecurityConfig;
  ep_inbox : list (pystr * Message);
  ep_closed : bool;
}.

Record SimBroadcastTransport := {
  bt_node_id : pystr;
  bt_inbox : list (pystr * list byte);
}.

Record SimNetwork := {
  endpoints : gmap nat InMemoryTransport;
  transports : list (pystr * nat);
  listeners : gmap nat SimBroadcastTransport;
  broadcast_transports : list (pystr * nat);
  next_object : nat;
  blocked_links : gset (pystr * pystr);
  has_rng : bool;
  drop_rate : float;
  base_latency : float;
}.

Definition sim_network_init (rng : bool) : SimNetwork := {|
  endpoints := ∅; transports := []; listeners := ∅; broadcast_transports := []; next_object := 0;
  blocked_links := ∅; has_rng := rng; drop_rate := fzero; base_latency := fzero |}.

Definition with_endpoints (es : gmap nat InMemoryTransport) (ts : list (pystr * nat)) (n : SimNetwork) : SimNetwork := {|
  endpoints := es; transports := ts; listeners := listeners n; broadcast_transports := broadcast_transports n;
  next_object := next_object n; blocked_links := blocked_links n; has_rng := has_rng n;
  drop_rate := drop_rate n; base_latency := base_latency n |}.

Definition with_listeners (ls : gmap nat SimBroadcastTransport) (bs : list (pystr * nat)) (n : SimNetwork) : SimNetwork := {|
  endpoints := endpoints n; transports := transports n; listeners := ls; broadcast_transports := bs;
  next_object := next_object n; blocked_links := blocked_links n; has_rng := has_rng n;
  drop_rate := drop_rate n; base_latency := base_latency n |}.

Definition with_links (ls : gset (pystr * pystr)) (n : SimNetwork) : SimNetwork := {|
  endpoints := endpoints n; transports := transports n; listeners := listeners n;
  broadcast_transports := broadcast_transports n; next_object := next_object n; blocked_links := ls;
  has_rng := has_rng n; drop_rate := drop_rate n; base_latency := base_latency n |}.

(** The attributes [drop_rate] and [base_latency], which callers set. *)
Definition with_rates (drop latency : float) (n : SimNetwork) : SimNetwork := {|
  endpoints := endpoints n; transports := transports n; listeners := listeners n;
  broadcast_transports := broadcast_transports n; next_object := next_object n; blocked_links := blocked_links n;
  has_rng := has_rng n; drop_rate := drop; base_latency := latency |}.

Definition with_next (k : nat) (n : SimNetwork) : SimNetwork := {|
  endpoints := endpoints n; transports := transports n; listeners := listeners n;
  broadcast_transports := broadcast_transports n; next_object := k; blocked_links := blocked_links n;
  has_rng := has_rng n; drop_rate := drop_rate n; base_latency := base_latency n |}.

(** ** Directory and partitions *)

Definition register (node_id : pystr) (obj : nat) (n : SimNetwork) : SimNetwork :=
  with_endpoints (endpoints n) (dict_set node_id obj (transports n)) n.
Definition unregister (node_id : pystr) (n : SimNetwork) : SimNetwork :=
  with_endpoints (endpoints n) (dict_del node_id (transports n)) n.
Definition register_broadcast (node_id : pystr) (obj : nat) (n : SimNetwork) : SimNetwork :=
  with_listeners (listeners n) (dict_set node_id obj (broadcast_transports n)) n.
Definition unregister_broadcast (node_id : pystr) (n : SimNetwork) : SimNetwork :=
  with_listeners (listeners n) (dict_del node_id (broadcast_transports n)) n.

(** Blocking and unblocking the link from [a] to [b], and back when [symmetric]. *)
Definition block_link (symmetric : bool) (a b : pystr) (links : gset (pystr * pystr)) : gset (pystr * pystr) :=
  let links := {[(a, b)]} ∪ links in if symmetric then {[(b, a)]} ∪ links else links.
Definition unblock_link (symmetric : bool) (a b : pystr) (links : gset (pystr * pystr)) : gset (pystr * pystr) :=
  let links := links ∖ {[(a, b)]} in if symmetric then links ∖ {[(b, a)]} else links.

(** A change of the link for every pair of the two groups. *)
Definition for_pairs (f : pystr -> pystr -> gset (pystr * pystr) -> gset (pystr * pystr))
    (group_a group_b : list pystr) (links : gset (pystr * pystr)) : gset (pystr * pystr) :=
  foldl (fun links a => foldl (fun links b => f a b links) links group_b) links group_a.

Definition partition (group_a group_b : list pystr) (symmetric : bool) (n : SimNetwork) : SimNetwork :=
  with_links (for_pairs (block_link symmetric) group_a group_b (blocked_links n)) n.

Definition heal_partition (group_a group_b : list pystr) (symmetric : bool) (n : SimNetwork) : SimNetwork :=
  with_links (for_pairs (unblock_link symmetric) group_a group_b (blocked_links n)) n.

Definition heal_all (n : SimNetwork) : SimNetwork := with_links ∅ n.

Definition is_blocked (source target : pystr) (n : SimNetwork) : bool :=
  bool_decide ((source, target) ∈ blocked_links n).

(** ** Endpoints *)

(** [InMemoryTransport.__init__]: the new object and the network that lists it. *)
Definition in_memory_init (node_id : pystr) (sec : SecurityConfig) (n : SimNetwork) : nat * SimNetwork :=
  let obj := next_object n in
  let ep := {| ep_node_id := node_id; ep_security := sec; ep_inbox := []; ep_closed := false |} in
  (obj, register node_id obj (with_next (S obj) (with_endpoints (<[obj := ep]> (endpoints n)) (transports n) n))).

Definition put_inbox (obj : nat) (ep : InMemoryTransport) (inbox : list (pystr * Message)) (closed : bool)
    (n : SimNetwork) : SimNetwork :=
  with_endpoints (<[obj := {| ep_node_id := ep_node_id ep; ep_security := ep_security ep; ep_inbox := inbox;
                              ep_closed := closed |}]> (endpoints n)) (transports n) n.

(** [deliver_packet]: a copy of the message, through its wire format, enters an inbox with room. *)
Definition deliver_packet (obj : nat) (sender : pystr) (m : Message) (n : SimNetwork) : result () * SimNetwork :=
  match endpoints n !! obj with
  | None => (Ok (), n)
  | Some ep =>
      if ep_closed ep then (Ok (), n)
      else
        match (let! data := message_to_bytes (max_frame_size (ep_security ep)) m in
               message_from_bytes (drop 4 data) (ep_security ep)) with
        | Raise e => (Raise e, n)
        | Ok isolated_msg =>
            if inbox_full (max_inbox_size (ep_security ep)) (ep_inbox ep) then (Ok (), n)
            else (Ok (), put_inbox obj ep (ep_inbox ep ++ [(sender, isolated_msg)]) (ep_closed ep) n)
        end
  end.

(** [route_message] up to its sleep: the object the message travels to, if it is not lost; [draw]
    is what [rng.random()] returns. *)
Definition route_begin (source target : pystr) (draw : float) (n : SimNetwork) : option nat :=
  if is_blocked source target n then None
  else if has_rng n && py_gt (drop_rate n) fzero && py_lt draw (drop_rate n) then None
  else dict_get target (transports n).

(** [route_message] after its sleep. *)
Definition route_arrive (source target : pystr) (obj : nat) (m : Message) (n : SimNetwork)
    : result () * SimNetwork :=
  if is_blocked source target n then (Ok (), n) else deliver_packet obj source m n.

(** [InMemoryTransport.send] up to the sleep. *)
Definition ep_send (obj : nat) (target : pystr) (draw : float) (n : SimNetwork) : result (option nat) :=
  match endpoints n !! obj with
  | Some ep =>
      if ep_closed ep then Raise RuntimeError else Ok (route_begin (ep_node_id ep) target draw n)
  | None => Ok None
  end.

(** [InMemoryTransport.recv]: the next message; [Ok None] while it waits for one. *)
Definition ep_recv (obj : nat) (n : SimNetwork) : result (option ((pystr * Message) * SimNetwork)) :=
  match endpoints n !! obj with
  | None => Ok None
  | Some ep =>
      match ep_inbox ep with
      | [] => if ep_closed ep then Raise RuntimeError else Ok None
      | sm :: rest => Ok (Some (sm, put_inbox obj ep rest (ep_closed ep) n))
      end
  end.

(** [InMemoryTransport.close] *)
Definition ep_close (obj : nat) (n : SimNetwork) : SimNetwork :=
  match endpoints n !! obj with
  | None => n
  | Some ep => unregister (ep_node_id ep) (put_inbox obj ep (ep_inbox ep) true n)
  end.

(** ** Broadcast *)

Definition sim_broadcast_init (node_id : pystr) (n : SimNetwork) : nat * SimNetwork :=
  let obj := next_object n in
  (obj, register_broadcast node_id obj (with_next (S obj)
     (with_listeners (<[obj := {| bt_node_id := node_id; bt_inbox := [] |}]> (listeners n))
        (broadcast_transports n) n))).

(** [SimBroadcastTransport.deliver] *)
Definition bt_deliver (obj : nat) (sender : pystr) (data : list byte) (n : SimNetwork) : SimNetwork :=
  match listeners n !! obj with
  | None => n
  | Some bt =>
      if inbox_full 256 (bt_inbox bt) then n
      else with_listeners (<[obj := {| bt_node_id := bt_node_id bt;
                                       bt_inbox := bt_inbox bt ++ [(sender, data)] |}]> (listeners n))
             (broadcast_transports n) n
  end.

(** [SimNetwork.deliver_broadcast] *)
Definition deliver_broadcast (sender : pystr) (data : list byte) (n : SimNetwork) : SimNetwork :=
  foldl (fun n kv =>
    if bool_decide (kv.1 = sender) then n
    else if is_blocked sender kv.1 n then n
    else bt_deliver kv.2 sender data n) n (broadcast_transports n).

(** [SimBroadcastTransport.send_broadcast] *)
Definition bt_send_broadcast (obj : nat) (data : list byte) (n : SimNetwork) : SimNetwork :=
  match listeners n !! obj with
  | Some bt => deliver_broadcast (bt_node_id bt) data n
  | None => n
  end.

(** [SimBroadcastTransport.recv_broadcast]: [None] while it waits for a datagram. *)
Definition bt_recv_broadcast (obj : nat) (n : SimNetwork) : option ((pystr * list byte) * SimNetwork) :=
  match listeners n !! obj with
  | Some bt =>
      match bt_inbox bt with
      | [] => None
      | x :: rest =>
          Some (x, with_listeners (<[obj := {| bt_node_id := bt_node_id bt; bt_inbox := rest |}]> (listeners n))
                     (broadcast_transports n) n)
      end
  | None => None
  end.

(** [SimBroadcastTransport.close] *)
Definition bt_close (obj : nat) (n : SimNetwork) : SimNetwork :=
  match listeners n !! obj with
  | Some bt => unregister_broadcast (bt_node_id bt) n
  | None => n
  end.

(** ** Executions of the network

    Messages in transit arrive in any order; the history of what was sent is kept for the
    specification. *)
Record Flight := { fl_source : pystr; fl_target : pystr; fl_object : nat; fl_message : Message }.

Record NetState := {
  net : SimNetwork;
  transit : list Flight;
  history : list (pystr * pystr * Message);
}.

Inductive net_step : NetState -> NetState -> Prop :=
| net_open node_id sec st :
    net_step st {| net := (in_memory_init node_id sec (net st)).2; transit := transit st; history := history st |}
| net_rates drop latency st :
    net_step st {| net := with_rates drop latency (net st); transit := transit st; history := history st |}
| net_partition a b sym st :
    net_step st {| net := partition a b sym (net st); transit := transit st; history := history st |}
| net_heal a b sym st :
    net_step st {| net := heal_partition a b sym (net st); transit := transit st; history := history st |}
| net_heal_all st : net_step st {| net := heal_all (net st); transit := transit st; history := history st |}
| net_send obj ep target draw m dest st :
    endpoints (net st) !! obj = Some ep -> ep_send obj target draw (net st) = Ok (Some dest) ->
    net_step st {| net := net st;
      transit := {| fl_source := ep_node_id ep; fl_target := target; fl_object := dest; fl_message := m |}
                 :: transit st;
      history := (ep_node_id ep, target, m) :: history st |}
| net_arrive f t1 t2 st :
    transit st = t1 ++ f :: t2 ->
    net_step st {| net := (route_arrive (fl_source f) (fl_target f) (fl_object f) (fl_message f) (net st)).2;
                   transit := t1 ++ t2; history := history st |}
| net_recv obj sm n st :
    ep_recv obj (net st) = Ok (Some (sm, n)) ->
    net_step st {| net := n; transit := transit st; history := history st |}
| net_close obj st :
    net_step st {| net := ep_close obj (net st); transit := transit st; history := history st |}.

Inductive net_reachable : NetState -> Prop :=
| net_start rng : net_reachable {| net := sim_network_init rng; transit := []; history := [] |}
| net_more st st' : net_reachable st -> net_step st st' -> net_reachable st'.

(** ** Partitions *)

Lemma partition_links a b sym links p :
  p ∈ for_pairs (block_link sym) a b links <->
  p ∈ links \/ (p.1 ∈ a /\ p.2 ∈ b) \/ (sym = true /\ p.2 ∈ a /\ p.1 ∈ b).
Proof.
  assert (forall x links, p ∈ foldl (fun links b => block_link sym x b links) links b <->
    p ∈ links \/ (p.1 = x /\ p.2 ∈ b) \/ (sym = true /\ p.2 = x /\ p.1 ∈ b)) as Hin.
  { intros x. induction b as [|y b IH]; intros l; cbn [foldl]; [set_solver|]. rewrite IH.
    destruct p as [p1 p2]. unfold block_link. cbn. destruct sym; set_solver. }
  unfold for_pairs. revert links. induction a as [|x a IH]; intros links; cbn [foldl]; [set_solver|].
  rewrite IH, Hin. set_solver.
Qed.

Lemma heal_links a b sym links p :
  p ∈ for_pairs (unblock_link sym) a b links <->
  p ∈ links /\ ~ (p.1 ∈ a /\ p.2 ∈ b) /\ ~ (sym = true /\ p.2 ∈ a /\ p.1 ∈ b).
Proof.
  assert (forall x links, p ∈ foldl (fun links b => unblock_link sym x b links) links b <->
    p ∈ links /\ ~ (p.1 = x /\ p.2 ∈ b) /\ ~ (sym = true /\ p.2 = x /\ p.1 ∈ b)) as Hin.
  { intros x. induction b as [|y b IH]; intros l; cbn [foldl]; [set_solver|]. rewrite IH.
    destruct p as [p1 p2]. unfold unblock_link. cbn. destruct sym; set_solver. }
  unfold for_pairs. revert links. induction a as [|x a IH]; intros links; cbn [foldl]; [set_solver|].
  rewrite IH, Hin. set_solver.
Qed.

(** A partition blocks exactly the links between its two groups (both ways when it is
    symmetric) on top of those already blocked, healing unblocks exactly those, and a message
    over a blocked link is never delivered, wherever in its transit the partition appears. *)
Theorem partition_isolates (a b : list pystr) (sym : bool) (n : SimNetwork) (s t : pystr) :
  let across := (s ∈ a /\ t ∈ b) \/ (sym = true /\ t ∈ a /\ s ∈ b) in
  (is_blocked s t (partition a b sym n) = true <-> is_blocked s t n = true \/ across) /\
  (is_blocked s t (heal_partition a b sym n) = true <-> is_blocked s t n = true /\ ~ across) /\
  is_blocked s t (heal_all n) = false /\
  (across -> forall obj m draw, route_begin s t draw (partition a b sym n) = None /\
     route_arrive s t obj m (partition a b sym n) = (Ok (), partition a b sym n)).
Proof.
  cbv zeta. assert (is_blocked s t (partition a b sym n) = true <->
    is_blocked s t n = true \/ ((s ∈ a /\ t ∈ b) \/ (sym = true /\ t ∈ a /\ s ∈ b))) as Hp.
  { unfold is_blocked. rewrite !bool_decide_eq_true. cbn [partition with_links blocked_links].
    apply partition_links. }
  split_and!; [done| | |].
  - unfold is_blocked. rewrite !bool_decide_eq_true. cbn [heal_partition with_links blocked_links].
    rewrite heal_links. cbn. tauto.
  - unfold is_blocked. apply bool_decide_eq_false. cbn. set_solver.
  - intros Hacross obj m draw. unfold route_begin, route_arrive.
    by rewrite (proj2 Hp (or_intror Hacross)).
Qed.

(** ** Delivery *)

(** The copy of a message an endpoint makes of it. *)
Definition isolate (ep : InMemoryTransport) (m : Message) : result Message :=
  let! data := message_to_bytes (max_frame_size (ep_security ep)) m in
  message_from_bytes (drop 4 data) (ep_security ep).

Record net_wf (st : NetState) : Prop := {
  nw_nodup : NoDup (transports (net st)).*1;
  nw_names : forall name obj, dict_get name (transports (net st)) = Some obj ->
    exists ep, endpoints (net st) !! obj = Some ep /\ ep_node_id ep = name;
  nw_fresh : forall obj, is_Some (endpoints (net st) !! obj) -> (obj < next_object (net st))%nat;
  nw_transit : Forall (fun f => (exists ep, endpoints (net st) !! fl_object f = Some ep /\
                                   ep_node_id ep = fl_target f) /\
                                (fl_source f, fl_target f, fl_message f) ∈ history st) (transit st);
  nw_inbox : forall obj ep, endpoints (net st) !! obj = Some ep ->
    (0 < max_inbox_size (ep_security ep) -> len (ep_inbox ep) <= max_inbox_size (ep_security ep)) /\
    Forall (fun sm => exists m, (sm.1, ep_node_id ep, m) ∈ history st /\ isolate ep m = Ok sm.2) (ep_inbox ep);
}.

(** What the invariant asks of an inbox. *)
Definition inbox_ok (h : list (pystr * pystr * Message)) (ep : InMemoryTransport)
    (inbox : list (pystr * Message)) : Prop :=
  (0 < max_inbox_size (ep_security ep) -> len inbox <= max_inbox_size (ep_security ep)) /\
  Forall (fun sm => exists m, (sm.1, ep_node_id ep, m) ∈ h /\ isolate ep m = Ok sm.2) inbox.

(** Changing an endpoint's inbox, and the flights in transit. *)
Lemma put_inbox_wf obj ep inbox closed fs st :
  net_wf st -> endpoints (net st) !! obj = Some ep -> inbox_ok (history st) ep inbox -> fs ⊆ transit st ->
  net_wf {| net := put_inbox obj ep inbox closed (net st); transit := fs; history := history st |}.
Proof.
  intros [Hnd Hnames Hfresh Htr Hin] Hep Hok Hfs.
  assert (forall o e, endpoints (net st) !! o = Some e ->
    exists e', endpoints (put_inbox obj ep inbox closed (net st)) !! o = Some e' /\
      ep_node_id e' = ep_node_id e) as Hkeep.
  { intros o e He. cbn. destruct (decide (obj = o)) as [->|].
    - rewrite lookup_insert. rewrite decide_True by done. rewrite Hep in He. injection He as <-. by eexists.
    - rewrite lookup_insert_ne by done. eauto. }
  split; cbn [net transit history].
  - done.
  - intros name o Ho. destruct (Hnames name o Ho) as (e & He & <-). by apply Hkeep.
  - cbn. intros o [e He]. apply Hfresh. destruct (decide (obj = o)) as [->|]; [by eauto|].
    rewrite lookup_insert_ne in He by done. by eauto.
  - apply Forall_forall. intros f Hf. rewrite Forall_forall in Htr.
    destruct (Htr f (Hfs f Hf)) as [(e & He & <-) Hh]. split; [by apply Hkeep|done].
  - cbn. intros o e He. destruct (decide (obj = o)) as [->|].
    + rewrite lookup_insert, decide_True in He by done. injection He as <-. exact Hok.
    + rewrite lookup_insert_ne in He by done. exact (Hin o e He).
Qed.

Lemma links_wf links st :
  net_wf st -> net_wf {| net := with_links links (net st); transit := transit st; history := history st |}.
Proof. by intros []. Qed.

Lemma flights_wf fs st :
  net_wf st -> fs ⊆ transit st -> net_wf {| net := net st; transit := fs; history := history st |}.
Proof.
  intros [Hnd Hnames Hfresh Htr Hin] Hfs. split; try done. cbn. apply Forall_forall. intros f Hf.
  rewrite Forall_forall in Htr. by apply Htr, Hfs.
Qed.

Lemma unregister_wf name st :
  net_wf st -> net_wf {| net := unregister name (net st); transit := transit st; history := history st |}.
Proof.
  intros [Hnd Hnames Hfresh Htr Hin]. split; try done; cbn.
  - eapply sublist_NoDup; [exact Hnd|]. by apply fmap_sublist, dict_del_sublist.
  - intros k o. destruct (decide (name = k)) as [->|Hne].
    + by rewrite dict_get_del_eq by done.
    + rewrite dict_get_del_ne by done. apply Hnames.
Qed.

Lemma open_wf name sec st :
  net_wf st ->
  net_wf {| net := (in_memory_init name sec (net st)).2; transit := transit st; history := history st |}.
Proof.
  intros [Hnd Hnames Hfresh Htr Hin]. set (o0 := next_object (net st)).
  assert (forall o e, endpoints (net st) !! o = Some e -> o <> o0) as Hne.
  { intros o e He ->. pose proof (Hfresh o0 (ex_intro _ e He)). unfold o0 in *. lia. }
  split; cbn; fold o0.
  - by apply dict_set_NoDup.
  - intros k o. rewrite dict_get_set. destruct (decide (name = k)) as [->|].
    + intros [= <-]. rewrite lookup_insert, decide_True by done. by eexists.
    + intros Ho. destruct (Hnames k o Ho) as (e & He & Hid). exists e.
      rewrite lookup_insert_ne by (by apply not_eq_sym, (Hne o e)). done.
  - intros o [e He]. destruct (decide (o0 = o)) as [<-|]; [lia|]. rewrite lookup_insert_ne in He by done.
    pose proof (Hfresh o (ex_intro _ e He)). unfold o0. lia.
  - eapply Forall_impl; [exact Htr|]. intros f [(e & He & Hid) Hh]. split; [|done]. exists e.
    rewrite lookup_insert_ne by (by apply not_eq_sym, (Hne _ e)). done.
  - intros o e He. destruct (decide (o0 = o)) as [<-|].
    + rewrite lookup_insert, decide_True in He by done. injection He as <-. cbn. split; [unfold len; cbn; lia|done].
    + rewrite lookup_insert_ne in He by done. exact (Hin o e He).
Qed.

Lemma history_wf e st :
  net_wf st -> net_wf {| net := net st; transit := transit st; history := e :: history st |}.
Proof.
  intros [Hnd Hnames Hfresh Htr Hin]. split; try done; cbn.
  - eapply Forall_impl; [exact Htr|]. intros f [He Hh]. split; [done|by right].
  - intros o ep Hep. destruct (Hin o ep Hep) as [Hb Hf]. split; [done|].
    eapply Forall_impl; [exact Hf|]. intros sm (m & Hm & Hi). exists m. split; [by right|done].
Qed.

Lemma send_wf obj ep target draw m dest st :
  net_wf st -> endpoints (net st) !! obj = Some ep -> ep_send obj target draw (net st) = Ok (Some dest) ->
  net_wf {| net := net st;
    transit := {| fl_source := ep_node_id ep; fl_target := target; fl_object := dest; fl_message := m |}
               :: transit st;
    history := (ep_node_id ep, target, m) :: history st |}.
Proof.
  intros Hwf Hep Hs. pose proof (history_wf (ep_node_id ep, target, m) st Hwf) as [H1 H2 H3 H4 H5].
  split; try done. cbn in *. constructor; [|done]. cbn. split; [|by left].
  unfold ep_send in Hs. rewrite Hep in Hs. destruct (ep_closed ep); [done|]. injection Hs as Hs.
  unfold route_begin in Hs. destruct (is_blocked _ _ _); [done|].
  destruct (has_rng (net st) && _ && _); [done|]. by apply (nw_names _ Hwf).
Qed.

(** What an arrival does to the network. *)
Lemma route_arrive_cases s t obj m n :
  (route_arrive s t obj m n).2 = n \/
  exists ep m', endpoints n !! obj = Some ep /\ ep_closed ep = false /\ isolate ep m = Ok m' /\
    inbox_full (max_inbox_size (ep_security ep)) (ep_inbox ep) = false /\
    (route_arrive s t obj m n).2 = put_inbox obj ep (ep_inbox ep ++ [(s, m')]) (ep_closed ep) n.
Proof.
  unfold route_arrive, deliver_packet. destruct (is_blocked s t n); [by left|].
  destruct (endpoints n !! obj) as [ep|] eqn:Eep; [|by left].
  destruct (ep_closed ep) eqn:Ec; [by left|]. fold (isolate ep m).
  destruct (isolate ep m) as [m'|] eqn:Ei; [|by left].
  destruct (inbox_full _ _) eqn:Ef; [by left|]. right. exists ep, m'. split_and!; try done. by rewrite Ec.
Qed.

Lemma arrive_wf f t1 t2 st :
  net_wf st -> transit st = t1 ++ f :: t2 ->
  net_wf {| net := (route_arrive (fl_source f) (fl_target f) (fl_object f) (fl_message f) (net st)).2;
            transit := t1 ++ t2; history := history st |}.
Proof.
  intros Hwf Ht. assert (t1 ++ t2 ⊆ transit st) as Hsub by (rewrite Ht; set_solver).
  assert (f ∈ transit st) as Hf by (rewrite Ht; set_solver).
  pose proof (proj1 (Forall_forall _ _) (nw_transit _ Hwf) f Hf) as [(e & He & Hid) Hh].
  destruct (route_arrive_cases (fl_source f) (fl_target f) (fl_object f) (fl_message f) (net st))
    as [-> | (ep & m' & Hep & _ & Hi & Hfull & ->)]; [by apply flights_wf|].
  apply put_inbox_wf; [done|done| |done]. destruct (nw_inbox _ Hwf _ _ Hep) as [Hb Hin].
  rewrite He in Hep. injection Hep as <-. split.
  - intros H0. specialize (Hb H0). unfold inbox_full in Hfull. unfold len in *. rewrite length_app. cbn [length].
    destruct (Z.leb_spec (max_inbox_size (ep_security e)) 0); [lia|]. apply Z.leb_gt in Hfull. lia.
  - apply Forall_app_2; [done|]. repeat constructor. exists (fl_message f). cbn. by rewrite Hid.
Qed.

Lemma net_step_wf st st' : net_step st st' -> net_wf st -> net_wf st'.
Proof.
  intros Hs Hwf. destruct Hs as [name sec st|drop lat st|a b sym st|a b sym st|st|obj ep target draw m dest st Hep Hs
    |f t1 t2 st Ht|obj sm n st Hr|obj st].
  - by apply open_wf.
  - by destruct Hwf.
  - by apply links_wf.
  - by apply links_wf.
  - by apply links_wf.
  - by eapply send_wf.
  - by apply arrive_wf.
  - unfold ep_recv in Hr. destruct (endpoints (net st) !! obj) as [ep|] eqn:Eep; [|done].
    destruct (ep_inbox ep) as [|x rest] eqn:Ei; [by destruct (ep_closed ep)|]. injection Hr as <- <-.
    destruct (nw_inbox _ Hwf _ _ Eep) as [Hb Hin]. rewrite Ei in Hb, Hin. apply put_inbox_wf; try done.
    split; [intros H0; specialize (Hb H0); unfold len in *; cbn [length] in Hb; lia|].
    by apply Forall_cons in Hin as [_ ?].
  - unfold ep_close. destruct (endpoints (net st) !! obj) as [ep|] eqn:Eep; [|by apply flights_wf].
    pose proof (put_inbox_wf obj ep (ep_inbox ep) true (transit st) st Hwf Eep
      (nw_inbox _ Hwf _ _ Eep) ltac:(done)) as Hwf1.
    by apply (unregister_wf (ep_node_id ep)) in Hwf1.
Qed.

Lemma net_reachable_wf st : net_reachable st -> net_wf st.
Proof.
  induction 1 as [rng|st st' Hr IH Hs]; [|by eapply net_step_wf].
  split; cbn; [apply NoDup_nil_2|done|intros obj [ep Hep]; by rewrite lookup_empty in Hep|by constructor|].
  intros obj ep Hep. by rewrite lookup_empty in Hep.
Qed.

(** The network does not invent or misroute: in every execution (endpoints opening and closing,
    partitions, loss, arrival in any order) an inbox never exceeds its capacity, and every message
    in it was sent to this node by the sender it is attributed to; the inbox holds the copy that
    the wire format makes of it. *)
Theorem network_delivers_only_sent (st : NetState) (obj : nat) (ep : InMemoryTransport) (s : pystr)
    (m' : Message) :
  net_reachable st -> endpoints (net st) !! obj = Some ep -> (s, m') ∈ ep_inbox ep ->
  (0 < max_inbox_size (ep_security ep) -> len (ep_inbox ep) <= max_inbox_size (ep_security ep)) /\
  exists m, (s, ep_node_id ep, m) ∈ history st /\ isolate ep m = Ok m'.
Proof.
  intros Hr%net_reachable_wf Hep Hin. destruct (nw_inbox _ Hr _ _ Hep) as [Hb Hf]. split; [done|].
  exact (proj1 (Forall_forall _ _) Hf (s, m') Hin).
Qed.

(** A message within the receiver's limits. *)
Definition fits (sec : SecurityConfig) (m : Message) : Prop :=
  message_ok m = true /\ is_ok (message_to_bytes (max_frame_size sec) m) = true /\ 0 <= max_json_items sec /\
  validate_json_tree (max_json_depth sec) (max_json_items sec) (max_string_length sec)
    (JObj (wire_document m)) = Ok ().

Lemma isolate_fits ep m : fits (ep_security ep) m -> isolate ep m = Ok (sorted_message m).
Proof.
  intros (Hok & Hb & Hi & Hv). unfold isolate.
  destruct (message_to_bytes (max_frame_size (ep_security ep)) m) as [data|] eqn:E; [|done]. cbn [rbind].
  by apply (message_frame_decodes m (max_frame_size (ep_security ep)) data (ep_security ep)).
Qed.

(** A message over an open link, to an endpoint with room. *)
Lemma route_delivers (s t : pystr) (draw : float) (obj : nat) (ep : InMemoryTransport) (m : Message)
    (n : SimNetwork) :
  is_blocked s t n = false -> has_rng n = false -> dict_get t (transports n) = Some obj ->
  endpoints n !! obj = Some ep -> ep_closed ep = false ->
  inbox_full (max_inbox_size (ep_security ep)) (ep_inbox ep) = false -> fits (ep_security ep) m ->
  route_begin s t draw n = Some obj /\
  route_arrive s t obj m n =
    (Ok (), put_inbox obj ep (ep_inbox ep ++ [(s, sorted_message m)]) false n).
Proof.
  intros Hb Hrng Hdir Hep Hc Hroom Hfit. unfold route_begin, route_arrive, deliver_packet.
  rewrite Hb, Hrng, Hep, Hc. split; [done|]. fold (isolate ep m). by rewrite (isolate_fits ep m Hfit), Hroom.
Qed.

(** What is sent arrives: over an unblocked link, without loss, to a registered open endpoint
    with room in its inbox, a message within the receiver's limits is appended to the inbox under
    its sender, equal to what was sent up to the order of the payload's keys. *)
Theorem network_delivers (s t : pystr) (draw : float) (obj : nat) (ep : InMemoryTransport) (m : Message)
    (n : SimNetwork) :
  is_blocked s t n = false -> has_rng n = false -> dict_get t (transports n) = Some obj ->
  endpoints n !! obj = Some ep -> ep_closed ep = false ->
  inbox_full (max_inbox_size (ep_security ep)) (ep_inbox ep) = false -> fits (ep_security ep) m ->
  route_begin s t draw n = Some obj /\
  route_arrive s t obj m n =
    (Ok (), put_inbox obj ep (ep_inbox ep ++ [(s, sorted_message m)]) false n).
Proof. apply route_delivers. Qed.

(** ** A sample network: p1 and p2, a message from p1 to p2 *)

Definition two_endpoints : SimNetwork :=
  (in_memory_init (str "p2") default_security
     (in_memory_init (str "p1") default_security (sim_network_init false)).2).2.

Definition p2_endpoint : InMemoryTransport := {|
  ep_node_id := str "p2"; ep_security := default_security; ep_inbox := []; ep_closed := false |}.

Definition flight_p1 : Flight :=
  {| fl_source := str "p1"; fl_target := str "p2"; fl_object := 1; fl_message := sample_signed |}.

Definition sample_flight : NetState := {|
  net := two_endpoints;
  transit := [flight_p1];
  history := [(str "p1", str "p2", sample_signed)] |}.

Definition sample_arrived : NetState := {|
  net := (route_arrive (str "p1") (str "p2") 1 sample_signed two_endpoints).2;
  transit := []; history := history sample_flight |}.

Lemma sample_arrived_reachable : net_reachable sample_arrived.
Proof.
  refine (net_more sample_flight sample_arrived _ (net_arrive flight_p1 [] [] sample_flight eq_refl)).
  eapply net_more; [eapply net_more; [eapply net_more; [apply (net_start false)|]|]|].
  - apply (net_open (str "p1") default_security).
  - apply (net_open (str "p2") default_security).
  - apply (net_send 0 {| ep_node_id := str "p1"; ep_security := default_security; ep_inbox := [];
      ep_closed := false |} (str "p2") fzero sample_signed 1); vm_compute; reflexivity.
Qed.

Lemma network_delivers_witness :
  route_arrive (str "p1") (str "p2") 1 sample_signed two_endpoints =
    (Ok (), put_inbox 1 p2_endpoint [(str "p1", sorted_message sample_signed)] false two_endpoints).
Proof.
  assert (is_blocked (str "p1") (str "p2") two_endpoints = false) as H1 by (vm_compute; reflexivity).
  assert (dict_get (str "p2") (transports two_endpoints) = Some 1%nat) as H2 by (vm_compute; reflexivity).
  assert (endpoints two_endpoints !! 1%nat = Some p2_endpoint) as H3 by (vm_compute; reflexivity).
  assert (fits (ep_security p2_endpoint) sample_signed) as H4.
  { split_and!; [vm_compute; reflexivity|vm_compute; reflexivity|vm_compute; discriminate|vm_compute; reflexivity]. }
  exact (proj2 (network_delivers (str "p1") (str "p2") fzero 1 p2_endpoint sample_signed two_endpoints
    H1 eq_refl H2 H3 eq_refl eq_refl H4)).
Defined.

Lemma network_delivers_only_sent_witness :
  exists m, (str "p1", str "p2", m) ∈ history sample_arrived.
Proof.
  set (ep := {| ep_node_id := str "p2"; ep_security := default_security;
                ep_inbox := [(str "p1", sorted_message sample_signed)]; ep_closed := false |}).
  assert (net sample_arrived = put_inbox 1 p2_endpoint [(str "p1", sorted_message sample_signed)] false
    two_endpoints) as E.
  { assert (isolate p2_endpoint sample_signed = Ok (sorted_message sample_signed)) as Hi
      by (vm_compute; reflexivity).
    assert (endpoints two_endpoints !! 1%nat = Some p2_endpoint) as H3 by (vm_compute; reflexivity).
    assert (is_blocked (str "p1") (str "p2") two_endpoints = false) as H1 by (vm_compute; reflexivity).
    unfold sample_arrived, route_arrive, deliver_packet. cbn [net]. rewrite H1, H3.
    cbn [ep_closed p2_endpoint]. fold (isolate p2_endpoint sample_signed). rewrite Hi. reflexivity. }
  assert (endpoints (net sample_arrived) !! 1%nat = Some ep) as Hep.
  { rewrite E. unfold put_inbox. cbn [endpoints with_endpoints]. by rewrite lookup_insert, decide_True. }
  destruct (network_delivers_only_sent sample_arrived 1 ep (str "p1") (sorted_message sample_signed)
    sample_arrived_reachable Hep) as [_ (m & Hm & _)]; [by left|].
  exists m. exact Hm.
Defined.
