(* ===== verification/Tcp.v ===== *)
(** * The authenticated TCP transport ([TcpTransport] of [peerq/transport.py])

    Sockets are outside the model: a stream is the bytes that arrive in time and how it ends, a
    writer is a number, and the outcome of [drain] and of [open_connection] are arguments.  The
    coroutine [_handle_client] is cut at its suspension points, so that the handlers of several
    connections, the senders and [close] interleave on the shared state of the transport. *)

From Stdlib Require Import ZArith NArith Lia.
From S2P Require Import Prelude PyFloat Text Json JsonFacts Security Consensus Crypto Wal Message SimNetwork.
Open Scope Z_scope.

(** ** Streams *)

(** How a stream goes on after its bytes: end of file, silence beyond the timeout, or an error of
    the socket. *)
Inductive StreamEnd := Eof | Stalled | Broken (e : exc).

Record Stream := { incoming : list byte; ending : StreamEnd }.

(** [await asyncio.wait_for(reader.readexactly(n), timeout)] *)
Definition readexactly (n : Z) (s : Stream) : result (list byte) * Stream :=
  if n <=? len (incoming s)
  then (Ok (take (Z.to_nat n) (incoming s)),
        {| incoming := drop (Z.to_nat n) (incoming s); ending := ending s |})
  else
    match ending s with
    | Eof => (Raise IncompleteReadError, {| incoming := []; ending := Eof |})
    | Stalled => (Raise TimeoutError, s)
    | Broken e => (Raise e, s)
    end.

(** The [except] clauses of [_read_frame] and [_write_frame]. *)
Definition frame_error (e : exc) : exc :=
  match e with TimeoutError | IncompleteReadError => MessageDecodeError | _ => e end.
Definition drain_error (e : exc) : exc := match e with TimeoutError => MessageDecodeError | _ => e end.

(** [_read_frame] *)
Definition read_frame (sec : SecurityConfig) (s : Stream) : result Message * Stream :=
  match readexactly 4 s with
  | (Raise e, s1) => (Raise (frame_error e), s1)
  | (Ok length_bytes, s1) =>
      let msg_len := of_be length_bytes in
      if (msg_len <=? 0) || (max_frame_size sec <? msg_len) then (Raise MessageDecodeError, s1)
      else
        match readexactly msg_len s1 with
        | (Raise e, s2) => (Raise (frame_error e), s2)
        | (Ok payload_bytes, s2) => (message_from_bytes payload_bytes sec, s2)
        end
  end.

(** [_write_frame]: the outcome and the bytes handed to the writer; [drain] is the exception the
    flow control of the stream raises, if any. *)
Definition write_frame (sec : SecurityConfig) (drain : option exc) (m : Message) : result () * list byte :=
  match message_to_bytes (max_frame_size sec) m with
  | Raise e => (Raise (drain_error e), [])
  | Ok data => (match drain with None => Ok () | Some e => Raise (drain_error e) end, data)
  end.

(** [v == z] for a decoded JSON value and an integer. *)
Definition json_eq_int (v : json) (z : Z) : bool :=
  match v with
  | JInt n => n =? z
  | JBool b => (if b then 1 else 0) =? z
  | JFloat (S754_zero _) => z =? 0
  | JFloat (S754_finite s m e) =>
      let n := if s then Z.neg m else Z.pos m in
      if 0 <=? e then n * 2 ^ e =? z else n =? z * 2 ^ (- e)
  | _ => false
  end.

(** ** The transport *)

Record TcpTransport `{Ed25519} := {
  tcp_node_id : pystr;
  peer_addresses : list (pystr * (pystr * Z));
  tcp_identity : PrivateKey;
  tcp_keyring : PeerKeyRing;
  tcp_security : SecurityConfig;
  tcp_replay : ReplayCache;
  tcp_inbox : list (pystr * Message);
  connections : list (pystr * nat);
  incoming_writers : gset nat;
  closing : gset nat;
  tcp_closed : bool;
}.

Section tcp.
Context `{Ed25519}.

Definition tcp_upd (t : TcpTransport) (rc : ReplayCache) (inbox : list (pystr * Message))
    (cs : list (pystr * nat)) (ws cl : gset nat) (closed : bool) : TcpTransport := {|
  tcp_node_id := tcp_node_id t; peer_addresses := peer_addresses t; tcp_identity := tcp_identity t;
  tcp_keyring := tcp_keyring t; tcp_security := tcp_security t; tcp_replay := rc; tcp_inbox := inbox;
  connections := cs; incoming_writers := ws; closing := cl; tcp_closed := closed |}.

Definition set_tcp_replay rc t :=
  tcp_upd t rc (tcp_inbox t) (connections t) (incoming_writers t) (closing t) (tcp_closed t).
Definition set_tcp_inbox inbox t :=
  tcp_upd t (tcp_replay t) inbox (connections t) (incoming_writers t) (closing t) (tcp_closed t).
Definition set_connections cs t :=
  tcp_upd t (tcp_replay t) (tcp_inbox t) cs (incoming_writers t) (closing t) (tcp_closed t).
Definition set_writers ws t :=
  tcp_upd t (tcp_replay t) (tcp_inbox t) (connections t) ws (closing t) (tcp_closed t).
(** [writer.close()] *)
Definition close_writer (w : nat) t :=
  tcp_upd t (tcp_replay t) (tcp_inbox t) (connections t) (incoming_writers t) ({[w]} ∪ closing t) (tcp_closed t).

(** [TcpTransport.__init__]; [key] is the identity given or generated. *)
Definition tcp_init (nid : pystr) (addresses : list (pystr * (pystr * Z))) (key : PrivateKey)
    (ring : PeerKeyRing) (sec : SecurityConfig) : result TcpTransport :=
  let! ring :=
    match get_peer_key nid ring with
    | None => add_peer nid (KeyWrapper (public_key key)) ring
    | Some k =>
        raise_if (negb (bool_decide (public_bytes k = public_bytes (public_key key)))) ValueError ;;!
        Ok ring
    end in
  let! rc := replay_cache_init (replay_cache_size sec) in
  Ok {| tcp_node_id := nid; peer_addresses := addresses; tcp_identity := key; tcp_keyring := ring;
        tcp_security := sec; tcp_replay := rc; tcp_inbox := []; connections := []; incoming_writers := ∅;
        closing := ∅; tcp_closed := false |}.

(** What a coroutine reads of its environment at a suspension: the wall clock (to verify and to
    sign), a random nonce, and the outcome of [drain]. *)
Record Reading := { r_now : float; r_sign : float; r_nonce : pystr; r_drain : option exc }.

(** [_signed_message] *)
Definition tcp_signed_message (rd : Reading) (mt : pystr) (p : list (pystr * json)) (t : TcpTransport)
    : result Message :=
  signed (tcp_identity t) (r_sign rd) (r_nonce rd)
    {| msg_type := mt; sender_id := tcp_node_id t; msg_payload := p; timestamp := None; nonce := None;
       msg_signature := None; msg_version := protocol_version (tcp_security t) |}.

(** [{"protocol_version": self.security.protocol_version}] *)
Definition version_payload (t : TcpTransport) : list (pystr * json) :=
  [(str "protocol_version", JInt (protocol_version (tcp_security t)))].

(** [_verify_message] *)
Definition verify_message (now : float) (m : Message) (expected_sender : option pystr) (t : TcpTransport)
    : result bool * TcpTransport :=
  if negb (enabled (tcp_security t)) then (Ok true, t)
  else if negb (msg_version m =? protocol_version (tcp_security t)) then (Ok false, t)
  else if negb (match expected_sender with None => true | Some p => bool_decide (sender_id m = p) end)
  then (Ok false, t)
  else if negb (has_peer (sender_id m) (tcp_keyring t)) then (Ok false, t)
  else
    match verify_signature m (tcp_keyring t) with
    | Raise e => (Raise e, t)
    | Ok false => (Ok false, t)
    | Ok true =>
        match timestamp m, nonce m with
        | Some ts, Some n =>
            if py_gt (fabs (fsub now ts)) (replay_window_seconds (tcp_security t)) then (Ok false, t)
            else
              let '(fresh, rc) :=
                check_and_remember (sender_id m) n now (replay_window_seconds (tcp_security t)) (tcp_replay t) in
              (Ok fresh, set_tcp_replay rc t)
        | _, _ => (Ok false, t)
        end
    end.

(** [_verify_local_message] *)
Definition verify_local_message (now : float) (m : Message) (t : TcpTransport) : result bool :=
  match timestamp m, nonce m with
  | Some ts, Some _ =>
      if bool_decide (sender_id m = tcp_node_id t) && (msg_version m =? protocol_version (tcp_security t))
         && py_le (fabs (fsub now ts)) (replay_window_seconds (tcp_security t))
      then verify_signature m (tcp_keyring t)
      else Ok false
  | _, _ => Ok false
  end.

(** The check of a handshake message, in [_handle_client] and in [_get_or_connect]. *)
Definition handshake_ok (now : float) (mt : pystr) (expected_sender : option pystr) (m : Message)
    (t : TcpTransport) : result bool * TcpTransport :=
  if negb (bool_decide (msg_type m = mt)) then (Ok false, t)
  else if negb (json_eq_int (jget (str "protocol_version") (msg_payload m)) (protocol_version (tcp_security t)))
  then (Ok false, t)
  else verify_message now m expected_sender t.

(** ** [_handle_client] *)

(** Where the handler of a connection is suspended: reading the hello, draining the ack it sent to
    [sender], reading the next message, or finished (with the exception it raised). *)
Inductive Phase :=
| Greeting
| Acking (sender : pystr)
| Open (authorized_sender : option pystr)
| Done (e : option exc).

Record Conn := { c_stream : Stream; c_phase : Phase; c_sent : list byte }.

(** [except (MessageDecodeError, ConnectionResetError, OSError): pass] *)
Definition client_catches (e : exc) : bool :=
  match e with
  | MessageDecodeError | ConnectionResetError | OSError | PermissionError | ConnectionError | TimeoutError => true
  | _ => false
  end.

(** The [finally] clause. *)
Definition client_exit (w : nat) (o : option exc) (s : Stream) (sent : list byte) (t : TcpTransport)
    : Conn * TcpTransport :=
  ({| c_stream := s; c_phase := Done o; c_sent := sent |},
   close_writer w (set_writers (incoming_writers t ∖ {[w]}) t)).

Definition client_raise (w : nat) (e : exc) : Stream -> list byte -> TcpTransport -> Conn * TcpTransport :=
  client_exit w (if client_catches e then None else Some e).

(** [while not self._closed] *)
Definition loop_head (w : nat) (auth : option pystr) (s : Stream) (sent : list byte) (t : TcpTransport)
    : Conn * TcpTransport :=
  if tcp_closed t then client_exit w None s sent t
  else ({| c_stream := s; c_phase := Open auth; c_sent := sent |}, t).

(** The handler up to its first suspension; [None] is a refused connection. *)
Definition client_accept (w : nat) (s : Stream) (t : TcpTransport) : option Conn * TcpTransport :=
  if max_connections (tcp_security t) <=? Z.of_nat (size (incoming_writers t)) then (None, close_writer w t)
  else
    let t1 := set_writers ({[w]} ∪ incoming_writers t) t in
    if enabled (tcp_security t) then (Some {| c_stream := s; c_phase := Greeting; c_sent := [] |}, t1)
    else let '(c, t2) := loop_head w None s [] t1 in (Some c, t2).

(** The hello was read: the ack goes out. *)
Definition client_greet (rd : Reading) (w : nat) (hello : Message) (s : Stream) (sent : list byte)
    (t : TcpTransport) : Conn * TcpTransport :=
  match handshake_ok (r_now rd) (str "hello") None hello t with
  | (Raise e, t1) => client_raise w e s sent t1
  | (Ok false, t1) => client_exit w None s sent t1
  | (Ok true, t1) =>
      match tcp_signed_message rd (str "hello_ack") (version_payload t1) t1 with
      | Raise e => client_raise w e s sent t1
      | Ok ack =>
          match write_frame (tcp_security t1) None ack with
          | (Raise e, data) => client_raise w e s (sent ++ data) t1
          | (Ok _, data) =>
              ({| c_stream := s; c_phase := Acking (sender_id hello); c_sent := sent ++ data |}, t1)
          end
      end
  end.

(** A message was read: it enters the inbox when it is authentic and there is room. *)
Definition client_message (rd : Reading) (w : nat) (auth : option pystr) (m : Message) (s : Stream)
    (sent : list byte) (t : TcpTransport) : Conn * TcpTransport :=
  let verdict :=
    if enabled (tcp_security t)
    then if bool_decide (msg_type m ∈ [str "hello"; str "hello_ack"]) then (Ok false, t)
         else verify_message (r_now rd) m auth t
    else (Ok true, t) in
  match verdict with
  | (Raise e, t1) => client_raise w e s sent t1
  | (Ok false, t1) => client_exit w None s sent t1
  | (Ok true, t1) =>
      let t2 := if inbox_full (max_inbox_size (tcp_security t1)) (tcp_inbox t1) then t1
                else set_tcp_inbox (tcp_inbox t1 ++ [(sender_id m, m)]) t1 in
      loop_head w auth s sent t2
  end.

(** The handler from one suspension to the next. *)
Definition client_turn (rd : Reading) (w : nat) (c : Conn) (t : TcpTransport) : Conn * TcpTransport :=
  match c_phase c with
  | Done _ => (c, t)
  | Greeting =>
      match read_frame (tcp_security t) (c_stream c) with
      | (Raise e, s) => client_raise w e s (c_sent c) t
      | (Ok hello, s) => client_greet rd w hello s (c_sent c) t
      end
  | Acking sender =>
      match r_drain rd with
      | Some e => client_raise w (drain_error e) (c_stream c) (c_sent c) t
      | None => loop_head w (Some sender) (c_stream c) (c_sent c) t
      end
  | Open auth =>
      match read_frame (tcp_security t) (c_stream c) with
      | (Raise e, s) => client_raise w e s (c_sent c) t
      | (Ok m, s) => client_message rd w auth m s (c_sent c) t
      end
  end.

(** [_handle_client] alone on its transport, given the readings of its turns. *)
Fixpoint run_client (rds : list Reading) (w : nat) (c : Conn) (t : TcpTransport) : Conn * TcpTransport :=
  match rds with
  | [] => (c, t)
  | rd :: rds' => let '(c', t') := client_turn rd w c t in run_client rds' w c' t'
  end.

(** ** [_get_or_connect], [send], [recv] and [close] *)

(** A usable connection, or the address to dial. *)
Inductive Dial := Reuse (w : nat) | Connect (host : pystr) (port : Z).

Definition connect_begin (peer_id : pystr) (t : TcpTransport) : result Dial :=
  let fresh :=
    match dict_get peer_id (peer_addresses t) with
    | None => Raise ValueError
    | Some (host, port) =>
        if max_connections (tcp_security t) <=? len (connections t) then Raise ConnectionError
        else Ok (Connect host port)
    end in
  match dict_get peer_id (connections t) with
  | Some w => if bool_decide (w ∈ closing t) then fresh else Ok (Reuse w)
  | None => fresh
  end.

(** The connection is made: the hello frame that is written, in secure mode. *)
Definition connect_hello (rd : Reading) (t : TcpTransport) : result () * list byte :=
  if enabled (tcp_security t) then
    match tcp_signed_message rd (str "hello") (version_payload t) t with
    | Raise e => (Raise e, [])
    | Ok hello => write_frame (tcp_security t) (r_drain rd) hello
    end
  else (Ok (), []).

(** The ack is read from the stream [s] and checked, and the connection is stored. *)
Definition connect_finish (rd : Reading) (peer_id : pystr) (w : nat) (s : Stream) (t : TcpTransport)
    : result nat * TcpTransport :=
  let store t := (Ok w, set_connections (dict_set peer_id w (connections t)) t) in
  if enabled (tcp_security t) then
    match read_frame (tcp_security t) s with
    | (Raise e, _) => (Raise e, t)
    | (Ok ack, _) =>
        match handshake_ok (r_now rd) (str "hello_ack") (Some peer_id) ack t with
        | (Raise e, t1) => (Raise e, t1)
        | (Ok false, t1) => (Raise PermissionError, close_writer w t1)
        | (Ok true, t1) => store t1
        end
    end
  else store t.

(** [_get_or_connect] without interference: [dial] is the outcome of [open_connection], the new
    writer and the stream that answers; [rd1] and [rd2] are read at the hello and at the ack.
    The bytes written to the new connection are part of the result. *)
Definition get_or_connect (dial : result (nat * Stream)) (rd1 rd2 : Reading) (peer_id : pystr)
    (t : TcpTransport) : result nat * list byte * TcpTransport :=
  match connect_begin peer_id t with
  | Raise e => (Raise e, [], t)
  | Ok (Reuse w) => (Ok w, [], t)
  | Ok (Connect _ _) =>
      match dial with
      | Raise TimeoutError => (Raise ConnectionError, [], t)
      | Raise e => (Raise e, [], t)
      | Ok (w, s) =>
          match connect_hello rd1 t with
          | (Raise e, data) => (Raise e, data, t)
          | (Ok _, data) => let '(r, t1) := connect_finish rd2 peer_id w s t in (r, data, t1)
          end
      end
  end.

(** [send] up to the connection. *)
Definition send_check (now : float) (m : Message) (t : TcpTransport) : result () :=
  raise_if (tcp_closed t) RuntimeError ;;!
  if enabled (tcp_security t) then
    let! ok := verify_local_message now m t in raise_if (negb ok) PermissionError
  else Ok ().

(** [send] on the connection [w]: on failure the connection is forgotten. *)
Definition send_frame (drain : option exc) (peer_id : pystr) (w : nat) (m : Message) (t : TcpTransport)
    : result () * list byte * TcpTransport :=
  match write_frame (tcp_security t) drain m with
  | (Ok _, data) => (Ok (), data, t)
  | (Raise e, data) => (Raise e, data, close_writer w (set_connections (dict_del peer_id (connections t)) t))
  end.

(** [recv]: the next message; [Ok None] while it waits for one. *)
Definition tcp_recv (t : TcpTransport) : result (option ((pystr * Message) * TcpTransport)) :=
  match tcp_inbox t with
  | [] => if tcp_closed t then Raise RuntimeError else Ok None
  | x :: rest => Ok (Some (x, set_tcp_inbox rest t))
  end.

(** [close] *)
Definition tcp_close (t : TcpTransport) : TcpTransport :=
  tcp_upd t (tcp_replay t) (tcp_inbox t) [] ∅
    (list_to_set (connections t).*2 ∪ incoming_writers t ∪ closing t) true.
End tcp.

(** ** Executions: the handlers, the senders, the receiver and [close], interleaved *)

Record TcpSystem `{Ed25519} := {
  sys : TcpTransport;
  conns : gmap nat Conn;
  dialing : list (pystr * nat);
}.

Section system.
Context `{Ed25519}.

Definition with_sys (t : TcpTransport) (s : TcpSystem) : TcpSystem :=
  {| sys := t; conns := conns s; dialing := dialing s |}.

Inductive tcp_step : TcpSystem -> TcpSystem -> Prop :=
| tcp_accepted w st s c t :
    conns s !! w = None -> client_accept w st (sys s) = (Some c, t) ->
    tcp_step s {| sys := t; conns := <[w := c]> (conns s); dialing := dialing s |}
| tcp_refused w st s t :
    client_accept w st (sys s) = (None, t) -> tcp_step s (with_sys t s)
| tcp_turn rd w s c c' t :
    conns s !! w = Some c -> client_turn rd w c (sys s) = (c', t) ->
    tcp_step s {| sys := t; conns := <[w := c']> (conns s); dialing := dialing s |}
| tcp_dials peer_id w host port s :
    connect_begin peer_id (sys s) = Ok (Connect host port) ->
    tcp_step s {| sys := sys s; conns := conns s; dialing := (peer_id, w) :: dialing s |}
| tcp_dialed rd peer_id w st r t s d1 d2 :
    dialing s = d1 ++ (peer_id, w) :: d2 -> connect_finish rd peer_id w st (sys s) = (r, t) ->
    tcp_step s {| sys := t; conns := conns s; dialing := d1 ++ d2 |}
| tcp_sends drain peer_id w m r data t s :
    send_frame drain peer_id w m (sys s) = (r, data, t) -> tcp_step s (with_sys t s)
| tcp_receives x t s :
    tcp_recv (sys s) = Ok (Some (x, t)) -> tcp_step s (with_sys t s)
| tcp_closes s : tcp_step s (with_sys (tcp_close (sys s)) s).

Inductive tcp_reachable (t0 : TcpTransport) : TcpSystem -> Prop :=
| tcp_boot : tcp_reachable t0 {| sys := t0; conns := ∅; dialing := [] |}
| tcp_more s s' : tcp_reachable t0 s -> tcp_step s s' -> tcp_reachable t0 s'.

(** ** The invariant *)

(** A message that proves its sender to the transport. *)
Definition authentic (t : TcpTransport) (m : Message) : Prop :=
  msg_version m = protocol_version (tcp_security t) /\ has_peer (sender_id m) (tcp_keyring t) = true /\
  verify_signature m (tcp_keyring t) = Ok true.

Definition inbox_entry_ok (t : TcpTransport) (x : pystr * Message) : Prop :=
  x.1 = sender_id x.2 /\
  (enabled (tcp_security t) = true -> authentic t x.2 /\ msg_type x.2 ∉ [str "hello"; str "hello_ack"]).

Record tcp_wf (t : TcpTransport) : Prop := {
  tw_replay : rc_wf (tcp_replay t);
  tw_room : 0 < max_inbox_size (tcp_security t) -> len (tcp_inbox t) <= max_inbox_size (tcp_security t);
  tw_inbox : Forall (inbox_entry_ok t) (tcp_inbox t);
  tw_incoming : 0 <= max_connections (tcp_security t) ->
    Z.of_nat (size (incoming_writers t)) <= max_connections (tcp_security t);
  tw_peers : (connections t).*1 ⊆ (peer_addresses t).*1;
}.

(** The part of the transport its methods do not change. *)
Definition static (t : TcpTransport) :=
  (tcp_node_id t, peer_addresses t, tcp_identity t, tcp_keyring t, tcp_security t).

Lemma static_inv t t' :
  static t' = static t ->
  tcp_node_id t' = tcp_node_id t /\ peer_addresses t' = peer_addresses t /\ tcp_identity t' = tcp_identity t /\
  tcp_keyring t' = tcp_keyring t /\ tcp_security t' = tcp_security t.
Proof. unfold static. by intros [= -> -> -> -> ->]. Qed.

Lemma verify_message_spec now m e t :
  exists rc, (verify_message now m e t).2 = set_tcp_replay rc t /\ (rc_wf (tcp_replay t) -> rc_wf rc) /\
  ((verify_message now m e t).1 = Ok true -> enabled (tcp_security t) = true ->
   authentic t m /\ (forall p, e = Some p -> sender_id m = p) /\
   exists n ts, nonce m = Some n /\ timestamp m = Some ts /\
     py_gt (fabs (fsub now ts)) (replay_window_seconds (tcp_security t)) = false /\
     check_and_remember (sender_id m) n now (replay_window_seconds (tcp_security t)) (tcp_replay t) = (true, rc)).
Proof.
  assert (set_tcp_replay (tcp_replay t) t = t) as Hsame by (by destruct t).
  unfold verify_message. destruct (enabled (tcp_security t)); cbn [negb];
    [|exists (tcp_replay t); by rewrite Hsame].
  destruct (Z.eqb_spec (msg_version m) (protocol_version (tcp_security t))); cbn [negb];
    [|exists (tcp_replay t); by rewrite Hsame].
  destruct (match e with Some p => bool_decide (sender_id m = p) | None => true end) eqn:Ee; cbn [negb];
    [|exists (tcp_replay t); by rewrite Hsame].
  destruct (has_peer _ _) eqn:Eh; cbn [negb]; [|exists (tcp_replay t); by rewrite Hsame].
  destruct (verify_signature m (tcp_keyring t)) as [[|]|] eqn:Ev;
    [|exists (tcp_replay t); by rewrite Hsame..].
  destruct (timestamp m) as [ts|]; [|exists (tcp_replay t); by rewrite Hsame].
  destruct (nonce m) as [n|]; [|exists (tcp_replay t); by rewrite Hsame].
  destruct (py_gt _ _) eqn:Ew; [exists (tcp_replay t); by rewrite Hsame|].
  destruct (check_and_remember _ _ _ _ _) as [fresh rc] eqn:Ec. exists rc. split; [done|]. split.
  - intros Hwf. apply (check_and_remember_wf (sender_id m) n now (replay_window_seconds (tcp_security t))) in Hwf.
    by rewrite Ec in Hwf.
  - cbn [fst]. intros [= ->] _. split_and!; [done..| |by exists n, ts]. intros p ->. by apply bool_decide_eq_true in Ee.
Qed.

Lemma handshake_ok_spec now mt e m t :
  exists rc, (handshake_ok now mt e m t).2 = set_tcp_replay rc t /\ (rc_wf (tcp_replay t) -> rc_wf rc) /\
  ((handshake_ok now mt e m t).1 = Ok true -> enabled (tcp_security t) = true ->
   msg_type m = mt /\ authentic t m /\ forall p, e = Some p -> sender_id m = p).
Proof.
  assert (set_tcp_replay (tcp_replay t) t = t) as Hsame by (by destruct t).
  unfold handshake_ok. destruct (decide (msg_type m = mt)) as [Hmt|];
    [rewrite bool_decide_eq_true_2 by done|rewrite bool_decide_eq_false_2 by done]; cbn [negb];
    [|exists (tcp_replay t); by rewrite Hsame].
  destruct (json_eq_int _ _); cbn [negb]; [|exists (tcp_replay t); by rewrite Hsame].
  destruct (verify_message_spec now m e t) as (rc & E & Hwf & Hok). exists rc. split_and!; [done|done|].
  intros Hr He. destruct (Hok Hr He) as (? & ? & _). done.
Qed.

(** The invariant under the elementary updates. *)
Lemma wf_close_writer w t : tcp_wf t -> tcp_wf (close_writer w t).
Proof. by intros []. Qed.
Lemma wf_replay rc t : tcp_wf t -> rc_wf rc -> tcp_wf (set_tcp_replay rc t).
Proof. by intros [] ?. Qed.
Lemma wf_fewer_writers ws t : tcp_wf t -> ws ⊆ incoming_writers t -> tcp_wf (set_writers ws t).
Proof.
  intros [Hr Hroom Hin Hinc Hp] Hsub. split; try done. cbn. intros H0. specialize (Hinc H0).
  apply subseteq_size in Hsub. lia.
Qed.

Lemma wf_exit w o s sent t : tcp_wf t -> tcp_wf (client_exit w o s sent t).2.
Proof. intros Hwf. by apply wf_close_writer, wf_fewer_writers; [|set_solver]. Qed.
Lemma wf_loop_head w auth s sent t : tcp_wf t -> tcp_wf (loop_head w auth s sent t).2.
Proof. intros Hwf. unfold loop_head. destruct (tcp_closed t); [by apply wf_exit|done]. Qed.

Lemma wf_accept w s t : tcp_wf t -> tcp_wf (client_accept w s t).2.
Proof.
  intros Hwf. unfold client_accept. destruct (Z.leb_spec (max_connections (tcp_security t))
    (Z.of_nat (size (incoming_writers t)))) as [|Hlt]; [by apply wf_close_writer|].
  assert (tcp_wf (set_writers ({[w]} ∪ incoming_writers t) t)) as Hwf1.
  { destruct Hwf as [Hr Hroom Hin Hinc Hp]. split; try done. cbn. intros _.
    pose proof (size_union_alt ({[w]} : gset nat) (incoming_writers t)) as E. rewrite size_singleton in E.
    pose proof (subseteq_size (incoming_writers t ∖ {[w]}) (incoming_writers t) ltac:(set_solver)). lia. }
  destruct (enabled (tcp_security t)); [done|].
  pose proof (wf_loop_head w None s [] _ Hwf1) as Hl. by destruct (loop_head _ _ _ _ _).
Qed.

Lemma wf_greet rd w hello s sent t : tcp_wf t -> tcp_wf (client_greet rd w hello s sent t).2.
Proof.
  intros Hwf. unfold client_greet.
  destruct (handshake_ok_spec (r_now rd) (str "hello") None hello t) as (rc & E & Hrc & _).
  destruct (handshake_ok _ _ _ _ t) as [[[|]|e] t1]; cbn [snd] in E; subst t1;
    pose proof (wf_replay rc t Hwf (Hrc (tw_replay _ Hwf))) as Hwf1; try by apply wf_exit.
  destruct (tcp_signed_message _ _ _ _) as [ack|e]; [|by apply wf_exit].
  destruct (write_frame _ _ ack) as [[|] data]; [done|by apply wf_exit].
Qed.

(** A message that passes the checks enters the inbox. *)
Lemma wf_deliver m t :
  tcp_wf t -> inbox_entry_ok t (sender_id m, m) ->
  tcp_wf (if inbox_full (max_inbox_size (tcp_security t)) (tcp_inbox t) then t
          else set_tcp_inbox (tcp_inbox t ++ [(sender_id m, m)]) t).
Proof.
  intros Hwf Hok. destruct (inbox_full _ _) eqn:Ef; [done|]. destruct Hwf as [Hr Hroom Hin Hinc Hp].
  split; try done; cbn.
  - intros H0. specialize (Hroom H0). unfold inbox_full in Ef. unfold len in *. rewrite length_app. cbn.
    destruct (Z.leb_spec (max_inbox_size (tcp_security t)) 0); [lia|]. apply Z.leb_gt in Ef. lia.
  - apply Forall_app_2; [done|]. constructor; [exact Hok|constructor].
Qed.

Lemma wf_message rd w auth m s sent t : tcp_wf t -> tcp_wf (client_message rd w auth m s sent t).2.
Proof.
  intros Hwf. unfold client_message. destruct (enabled (tcp_security t)) eqn:He.
  2: { apply wf_loop_head, wf_deliver; [done|]. split; [done|]. by rewrite He. }
  destruct (bool_decide _) eqn:Eh; [by apply wf_exit|]. apply bool_decide_eq_false in Eh.
  destruct (verify_message_spec (r_now rd) m auth t) as (rc & E & Hrc & Hok).
  destruct (verify_message _ _ _ t) as [[[|]|e] t1]; cbn [fst snd] in *; subst t1;
    pose proof (wf_replay rc t Hwf (Hrc (tw_replay _ Hwf))) as Hwf1; try by apply wf_exit.
  apply wf_loop_head, wf_deliver; [done|]. split; [done|]. intros _. destruct (Hok eq_refl He) as [? _]. done.
Qed.

Lemma wf_turn rd w c t : tcp_wf t -> tcp_wf (client_turn rd w c t).2.
Proof.
  intros Hwf. unfold client_turn. destruct (c_phase c).
  - destruct (read_frame _ _) as [[m|e] s]; [by apply wf_greet|by apply wf_exit].
  - destruct (r_drain rd); [by apply wf_exit|by apply wf_loop_head].
  - destruct (read_frame _ _) as [[m|e] s]; [by apply wf_message|by apply wf_exit].
  - done.
Qed.

(** What every phase of a handler has established. *)
Definition phase_ok (t : TcpTransport) (c : Conn) : Prop :=
  match c_phase c with
  | Greeting => enabled (tcp_security t) = true
  | Acking p => enabled (tcp_security t) = true /\ has_peer p (tcp_keyring t) = true
  | Open (Some p) => enabled (tcp_security t) = true /\ has_peer p (tcp_keyring t) = true
  | Open None => enabled (tcp_security t) = false
  | Done _ => True
  end.

Record sys_wf (t0 : TcpTransport) (s : TcpSystem) : Prop := {
  sw_static : static (sys s) = static t0;
  sw_tcp : tcp_wf (sys s);
  sw_conns : map_Forall (fun _ c => phase_ok (sys s) c) (conns s);
  sw_dialing : (dialing s).*1 ⊆ (peer_addresses (sys s)).*1;
}.

Lemma phase_ok_static t t' c : static t' = static t -> phase_ok t c -> phase_ok t' c.
Proof.
  intros (_ & _ & _ & Hk & Hs)%static_inv. unfold phase_ok. rewrite Hk, Hs. done.
Qed.

Lemma loop_head_ok w auth s sent t :
  phase_ok t {| c_stream := s; c_phase := Open auth; c_sent := sent |} ->
  static (loop_head w auth s sent t).2 = static t /\ phase_ok t (loop_head w auth s sent t).1.
Proof. unfold loop_head. by destruct (tcp_closed t). Qed.

Lemma accept_ok w s t :
  static (client_accept w s t).2 = static t /\
  forall c, (client_accept w s t).1 = Some c -> phase_ok t c.
Proof.
  unfold client_accept. destruct (_ <=? _); [done|]. destruct (enabled (tcp_security t)) eqn:He.
  - split; [done|]. by intros c [= <-].
  - destruct (loop_head_ok w None s [] (set_writers ({[w]} ∪ incoming_writers t) t)) as [H1 H2]; [done|].
    destruct (loop_head _ _ _ _ _) as [c0 t2]. split; [done|]. by intros c [= <-].
Qed.

Lemma turn_ok rd w c t :
  phase_ok t c -> static (client_turn rd w c t).2 = static t /\ phase_ok t (client_turn rd w c t).1.
Proof.
  intros Hc. unfold client_turn. unfold phase_ok in Hc. destruct (c_phase c) as [|p|auth|o] eqn:Ep.
  - destruct (read_frame _ _) as [[m|e] s]; [|done]. unfold client_greet.
    destruct (handshake_ok_spec (r_now rd) (str "hello") None m t) as (rc & E & _ & Hok).
    destruct (handshake_ok _ _ _ _ t) as [[[|]|e] t1]; cbn [fst snd] in *; subst t1; try done.
    destruct (Hok eq_refl Hc) as (_ & (_ & Hp & _) & _).
    destruct (tcp_signed_message _ _ _ _) as [ack|e]; [|done].
    by destruct (write_frame _ _ ack) as [[|] data].
  - destruct (r_drain rd); [done|]. by apply loop_head_ok.
  - destruct (read_frame _ _) as [[m|e] s]; [|done]. unfold client_message.
    destruct (if enabled (tcp_security t) then _ else _) as [[[|]|e] t1] eqn:Ev.
    2,3: (split; [|done]);
      (destruct (enabled (tcp_security t)); [|by simplify_eq]); (destruct (bool_decide _); [by simplify_eq|]);
      destruct (verify_message_spec (r_now rd) m auth t) as (rc & E & _); rewrite Ev in E; cbn in E; by rewrite E.
    assert (exists rc, t1 = set_tcp_replay rc t) as [rc ->].
    { destruct (enabled (tcp_security t)); [|exists (tcp_replay t); destruct t; by simplify_eq].
      destruct (bool_decide _); [done|].
      destruct (verify_message_spec (r_now rd) m auth t) as (rc & E & _). rewrite Ev in E. by exists rc. }
    destruct (inbox_full _ _);
      [destruct (loop_head_ok w auth s (c_sent c) (set_tcp_replay rc t)) as [-> ?]
      |destruct (loop_head_ok w auth s (c_sent c) (set_tcp_inbox (tcp_inbox (set_tcp_replay rc t) ++
         [(sender_id m, m)]) (set_tcp_replay rc t))) as [-> ?]]; done.
  - split; [done|]. unfold phase_ok. cbn [fst]. by rewrite Ep.
Qed.

Lemma connect_finish_ok rd peer_id w s t r t' :
  tcp_wf t -> peer_id ∈ (peer_addresses t).*1 -> connect_finish rd peer_id w s t = (r, t') ->
  tcp_wf t' /\ static t' = static t.
Proof.
  assert (forall t, tcp_wf t -> peer_id ∈ (peer_addresses t).*1 ->
    tcp_wf (set_connections (dict_set peer_id w (connections t)) t)) as Hstore.
  { intros u [Hr Hroom Hin Hinc Hp] Hpeer. split; try done. cbn. intros k. rewrite dict_set_keys_elem. set_solver. }
  intros Hwf Hpeer. unfold connect_finish. destruct (enabled (tcp_security t)).
  2: { intros [= <- <-]. split; [by apply Hstore|done]. }
  destruct (read_frame _ _) as [[ack|e] s1]; [|by intros [= <- <-]].
  destruct (handshake_ok_spec (r_now rd) (str "hello_ack") (Some peer_id) ack t) as (rc & E & Hrc & _).
  destruct (handshake_ok _ _ _ _ t) as [[[|]|e] t1]; cbn [snd] in E; subst t1;
    pose proof (wf_replay rc t Hwf (Hrc (tw_replay _ Hwf))) as Hwf1; intros [= <- <-]; split; try done.
  - by apply (Hstore (set_tcp_replay rc t)).
  - by apply wf_close_writer.
Qed.

Lemma connect_begin_address peer_id t host port :
  connect_begin peer_id t = Ok (Connect host port) -> peer_id ∈ (peer_addresses t).*1.
Proof.
  assert (forall v, dict_get peer_id (peer_addresses t) = Some v -> peer_id ∈ (peer_addresses t).*1) as Hin.
  { intros v Hv%dict_get_Some_elem. apply list_elem_of_fmap. by exists (peer_id, v). }
  unfold connect_begin.
  destruct (dict_get peer_id (peer_addresses t)) as [[h p]|]; destruct (dict_get peer_id (connections t));
    repeat case_match; try done; intros; by eapply Hin.
Qed.

Lemma tcp_step_wf t0 s s' : tcp_step s s' -> sys_wf t0 s -> sys_wf t0 s'.
Proof.
  intros Hstep [Hst Hwf Hc Hd].
  assert (forall t, static t = static (sys s) -> map_Forall (fun _ c => phase_ok t c) (conns s)) as Hkeep.
  { intros t Ht k c Hk. eapply phase_ok_static; [exact Ht|]. by eapply Hc. }
  assert (forall t (l : list pystr), static t = static (sys s) -> l ⊆ (peer_addresses (sys s)).*1 ->
    l ⊆ (peer_addresses t).*1) as Haddr.
  { intros t l (_ & -> & _)%static_inv. done. }
  destruct Hstep as [w st s c t Hw Ha|w st s t Ha|rd w s c c' t Hw Ht|peer w host port s Hb
    |rd peer w st r t s d1 d2 Hdial Hf|drain peer w m r data t s Hs|x t s Hr|s].
  - pose proof (wf_accept w st (sys s) Hwf) as Hwf1. destruct (accept_ok w st (sys s)) as [H1 H2].
    rewrite Ha in *. cbn [fst snd] in *. split; cbn; [by rewrite H1|done| |by apply Haddr].
    apply map_Forall_insert_2; [|by apply Hkeep]. eapply phase_ok_static; [exact H1|by apply H2].
  - pose proof (wf_accept w st (sys s) Hwf) as Hwf1. destruct (accept_ok w st (sys s)) as [H1 _].
    rewrite Ha in *. cbn [fst snd] in *. split; cbn; [by rewrite H1|done|by apply Hkeep|by apply Haddr].
  - pose proof (wf_turn rd w c (sys s) Hwf) as Hwf1. destruct (turn_ok rd w c (sys s)) as [H1 H2]; [by eapply Hc|].
    rewrite Ht in *. cbn [fst snd] in *. split; cbn; [by rewrite H1|done| |by apply Haddr].
    apply map_Forall_insert_2; [|by apply Hkeep]. by eapply phase_ok_static.
  - split; try done. cbn. apply connect_begin_address in Hb. set_solver.
  - assert (peer ∈ (peer_addresses (sys s)).*1) as Hpeer.
    { apply Hd. rewrite Hdial, fmap_app. cbn. set_solver. }
    destruct (connect_finish_ok _ _ _ _ _ _ _ Hwf Hpeer Hf) as [Hwf1 H1].
    split; cbn; [by rewrite H1|done|by apply Hkeep|]. apply Haddr; [done|].
    rewrite Hdial in Hd. rewrite fmap_app in *. cbn in Hd. set_solver.
  - assert (static t = static (sys s) /\ tcp_wf t) as [H1 Hwf1].
    { unfold send_frame in Hs. destruct (write_frame _ _ _) as [[|] d]; simplify_eq; [done|]. split; [done|].
      apply wf_close_writer. destruct Hwf as [Hr Hroom Hin Hinc Hp]. split; try done. cbn.
      intros k Hk. apply Hp. eapply elem_of_submseteq; [exact Hk|].
      by apply sublist_submseteq, fmap_sublist, dict_del_sublist. }
    split; cbn; [by rewrite H1|done|by apply Hkeep|by apply Haddr].
  - assert (static t = static (sys s) /\ tcp_wf t) as [H1 Hwf1].
    { unfold tcp_recv in Hr. destruct (tcp_inbox (sys s)) as [|y rest] eqn:Ei; [by destruct (tcp_closed _)|].
      simplify_eq. split; [done|]. destruct Hwf as [Hrc Hroom Hin Hinc Hp]. rewrite Ei in *. split; try done; cbn.
      - intros Hpos. specialize (Hroom Hpos). unfold len in *. cbn [length] in Hroom. lia.
      - by apply Forall_cons in Hin as [_ ?]. }
    split; cbn; [by rewrite H1|done|by apply Hkeep|by apply Haddr].
  - split; cbn; [done| |by apply Hkeep|done]. destruct Hwf as [Hr Hroom Hin Hinc Hp].
    split; try done; cbn; set_solver.
Qed.
End system.

(** ** Theorems *)

Section tcp_theorems.
Context `{Ed25519}.

Lemma tcp_init_wf nid addrs key ring sec t : tcp_init nid addrs key ring sec = Ok t -> tcp_wf t.
Proof.
  unfold tcp_init, replay_cache_init. intros Ht. inv_result. breflect. split; cbn; try done.
  - unfold rc_wf, len. cbn. split_and!; [lia|apply NoDup_nil_2|lia].
  - unfold len. cbn. lia.
  - set_solver.
Qed.

Lemma tcp_reachable_wf t0 s : tcp_wf t0 -> tcp_reachable t0 s -> sys_wf t0 s.
Proof.
  intros Hwf. induction 1 as [|s s' Hr IH Hs]; [|by eapply tcp_step_wf].
  split; cbn; [done|done|apply map_Forall_empty|set_solver].
Qed.

(** C14: The transport admits only authenticated traffic: in every interleaving of connections,
    handshakes, senders, the receiver and [close], what is in the inbox is attributed to the sender
    it names and, in secure mode, carries that peer's valid signature and the right protocol version
    and is no handshake message; every open handler serves a known peer; the inbox and the number of
    accepted connections stay within their limits, and connections go to configured peers only. *)
Theorem tcp_admits_only_authentic (nid : pystr) (addrs : list (pystr * (pystr * Z))) (key : PrivateKey)
    (ring : PeerKeyRing) (sec : SecurityConfig) (t0 : TcpTransport) (s : TcpSystem) :
  tcp_init nid addrs key ring sec = Ok t0 -> tcp_reachable t0 s ->
  (forall p m, (p, m) ∈ tcp_inbox (sys s) ->
     p = sender_id m /\ (enabled sec = true -> authentic (sys s) m /\ msg_type m ∉ [str "hello"; str "hello_ack"])) /\
  (forall w c p, conns s !! w = Some c -> c_phase c = Open (Some p) -> has_peer p (tcp_keyring (sys s)) = true) /\
  (0 < max_inbox_size sec -> len (tcp_inbox (sys s)) <= max_inbox_size sec) /\
  (0 <= max_connections sec -> Z.of_nat (size (incoming_writers (sys s))) <= max_connections sec) /\
  (connections (sys s)).*1 ⊆ addrs.*1.
Proof.
  intros Hinit Hr. destruct (tcp_reachable_wf t0 s (tcp_init_wf _ _ _ _ _ _ Hinit) Hr) as [Hst Hwf Hc _].
  assert (tcp_security (sys s) = sec /\ peer_addresses (sys s) = addrs) as [Hsec Ha].
  { apply static_inv in Hst as (_ & -> & _ & _ & ->). unfold tcp_init in Hinit. inv_result. done. }
  destruct Hwf as [_ Hroom Hin Hinc Hp]. rewrite Hsec, Ha in *. split_and!; try done.
  - intros p m Hpm. rewrite Forall_forall in Hin. destruct (Hin _ Hpm) as [H1 H2]. rewrite Hsec in H2. done.
  - intros w c p Hw Hph. specialize (Hc w c Hw). unfold phase_ok in Hc. rewrite Hph in Hc. apply Hc.
Qed.

(** ** A connection's handler *)

Lemma readexactly_shrinks n s b s' :
  0 <= n -> readexactly n s = (Ok b, s') ->
  n + len (incoming s') = len (incoming s) /\ ending s' = ending s /\ incoming s = b ++ incoming s' /\ len b = n.
Proof.
  intros Hn. unfold readexactly. destruct (Z.leb_spec n (len (incoming s))) as [Hle|].
  - intros [= <- <-]. cbn. rewrite take_drop. unfold len in *. rewrite length_drop, length_take. split_and!; try done; lia.
  - by destruct (ending s).
Qed.

Lemma read_frame_shrinks sec s m s' :
  read_frame sec s = (Ok m, s') -> len (incoming s') + 5 <= len (incoming s).
Proof.
  unfold read_frame. destruct (readexactly 4 s) as [[lb|e] s1] eqn:E1; [|done].
  destruct (Z.leb_spec (of_be lb) 0); [done|]. cbn [orb]. destruct (max_frame_size sec <? of_be lb); [done|].
  destruct (readexactly (of_be lb) s1) as [[pb|e] s2] eqn:E2; [|done]. intros [= _ <-].
  apply readexactly_shrinks in E1 as (E1 & _); [|done]. apply readexactly_shrinks in E2 as (E2 & _); lia.
Qed.

(** The turns a handler may still take. *)
Definition turns_left (c : Conn) : nat :=
  match c_phase c with
  | Done _ => 0
  | Greeting => length (incoming (c_stream c)) + 2
  | Acking _ => length (incoming (c_stream c)) + 2
  | Open _ => length (incoming (c_stream c)) + 1
  end.

Lemma loop_head_turns w auth s sent t :
  (turns_left (loop_head w auth s sent t).1 <= length (incoming s) + 1)%nat.
Proof. unfold loop_head, turns_left. destruct (tcp_closed t); cbn; lia. Qed.

Lemma turn_progress rd w c t :
  (turns_left (client_turn rd w c t).1 < turns_left c)%nat \/ turns_left c = 0%nat.
Proof.
  unfold client_turn. destruct (c_phase c) as [|p|auth|o] eqn:Ep; unfold turns_left at 2; rewrite Ep.
  - left. destruct (read_frame _ _) as [[m|e] s] eqn:Er; [|cbn; lia]. apply read_frame_shrinks in Er.
    unfold len in Er. unfold client_greet. repeat case_match; cbn; lia.
  - left. destruct (r_drain rd); [cbn; lia|].
    pose proof (loop_head_turns w (Some p) (c_stream c) (c_sent c) t). lia.
  - left. destruct (read_frame _ _) as [[m|e] s] eqn:Er; [|cbn; lia]. apply read_frame_shrinks in Er.
    unfold len in Er. unfold client_message.
    destruct (if enabled (tcp_security t) then _ else _) as [[[|]|e] t1]; [|cbn; lia..].
    match goal with |- context [loop_head w auth s ?z ?u] => pose proof (loop_head_turns w auth s z u) end. lia.
  - right. unfold turns_left. by rewrite Ep.
Qed.

(** C30: The handler of a connection terminates whatever the peer sends: each of its turns finishes it
    or consumes a frame, so it is done after at most as many turns as the stream has bytes, plus two. *)
Theorem handle_client_terminates (rds : list Reading) (w : nat) (c : Conn) (t : TcpTransport) :
  (length (incoming (c_stream c)) + 2 <= length rds)%nat ->
  exists o, c_phase (run_client rds w c t).1 = Done o.
Proof.
  intros Hlen. assert (turns_left c <= length rds)%nat as Hle.
  { unfold turns_left. destruct (c_phase c); lia. }
  clear Hlen. revert c t Hle. induction rds as [|rd rds IH]; intros c t Hle; cbn [run_client].
  - unfold turns_left in Hle. cbn in *. destruct (c_phase c); [cbn in Hle; lia..|by eexists].
  - pose proof (turn_progress rd w c t) as Hp. destruct (client_turn rd w c t) as [c' t'] eqn:Et.
    apply IH. cbn [length fst] in *. destruct Hp as [|H0]; [lia|].
    unfold turns_left in H0. unfold client_turn in Et. destruct (c_phase c) eqn:Ep; try (cbn in H0; lia).
    injection Et as <- <-. unfold turns_left. rewrite Ep. lia.
Qed.
End tcp_theorems.

(** ** The handshake and delivery *)

Section delivery.
Context `{Ed25519Laws}.

(** A frame at the head of a stream is read as its message. *)
Lemma read_frame_message sec m frame rest e :
  fits sec m -> message_to_bytes (max_frame_size sec) m = Ok frame ->
  read_frame sec {| incoming := frame ++ rest; ending := e |} =
    (Ok (sorted_message m), {| incoming := rest; ending := e |}).
Proof.
  intros (Hok & _ & Hi & Hv) Hf.
  destruct (message_to_bytes_inv _ _ _ Hf) as (data & -> & Hc & Hmax & Hl32 & _).
  destruct (message_frame_decodes m _ _ sec Hok Hf ltac:(lia) Hi Hv) as [Hlen Hdec].
  change (take 4 (be32 (len data) ++ data)) with (be32 (len data)) in Hlen.
  change (drop 4 (be32 (len data) ++ data)) with data in Hlen, Hdec.
  destruct (canonical_json_ok _ (wire_json_ok m Hok)) as (b & Hb & Hload). rewrite Hc in Hb. injection Hb as <-.
  assert (0 < len data) as Hpos.
  { destruct data; [by vm_compute in Hload|unfold len; cbn; lia]. }
  rewrite <- app_assoc. unfold read_frame, readexactly. cbn [incoming ending].
  assert ((4 <=? len (be32 (len data) ++ data ++ rest)) = true) as ->.
  { apply Z.leb_le. unfold len. rewrite length_app. cbn. lia. }
  change (take (Z.to_nat 4) (be32 (len data) ++ data ++ rest)) with (be32 (len data)).
  change (drop (Z.to_nat 4) (be32 (len data) ++ data ++ rest)) with (data ++ rest). rewrite Hlen.
  destruct (Z.leb_spec (len data) 0); [lia|]. destruct (Z.ltb_spec (max_frame_size sec) (len data)); [lia|].
  cbn [orb incoming ending]. assert ((len data <=? len (data ++ rest)) = true) as ->.
  { apply Z.leb_le. unfold len. rewrite length_app. lia. }
  unfold len at 1 2. rewrite Nat2Z.id, take_app_length, drop_app_length. by rewrite Hdec.
Qed.

(** The time window and the replay cache admit a message. *)
Definition fresh_for (t : TcpTransport) (now : float) (m : Message) : bool :=
  match timestamp m, nonce m with
  | Some ts, Some n =>
      let window := replay_window_seconds (tcp_security t) in
      negb (py_gt (fabs (fsub now ts)) window) &&
      negb (dict_mem (sender_id m, n) (rc_expire (fsub now window) (rc_entries (tcp_replay t))))
  | _, _ => false
  end.

(** The state after a message was verified. *)
Definition remember (t : TcpTransport) (now : float) (m : Message) : TcpTransport :=
  set_tcp_replay (check_and_remember (sender_id m) (default [] (nonce m)) now
    (replay_window_seconds (tcp_security t)) (tcp_replay t)).2 t.

Lemma verify_message_accepts now key ts n m0 m e t :
  enabled (tcp_security t) = true -> signed key ts n m0 = Ok m -> message_ok m = true ->
  get_peer_key (sender_id m) (tcp_keyring t) = Some (public_key key) ->
  msg_version m = protocol_version (tcp_security t) -> (forall p, e = Some p -> sender_id m = p) ->
  fresh_for t now m = true ->
  verify_message now (sorted_message m) e t = (Ok true, remember t now m).
Proof.
  intros He Hs Hok Hkey Hv Hexp Hfresh. unfold verify_message.
  destruct (signed_inv _ _ _ _ _ Hs) as (Ht & Hn & _ & Hsd & _).
  destruct (signed_verifies key ts n m0 m (tcp_keyring t) Hs Hok) as [Hver _]. rewrite <- Hsd in Hver.
  destruct (Hver Hkey) as [_ ->]. cbn [sorted_message msg_version sender_id timestamp nonce].
  rewrite He, Hv, Z.eqb_refl, Ht, Hn. cbn [negb].
  assert (match e with None => true | Some p => bool_decide (sender_id m = p) end = true) as ->.
  { destruct e as [p|]; [|done]. apply bool_decide_eq_true. by apply Hexp. }
  unfold has_peer. assert (dict_mem (sender_id m) (tcp_keyring t) = true) as ->
    by (apply dict_mem_true; by exists (public_key key)).
  unfold fresh_for in Hfresh. rewrite Ht, Hn in Hfresh. cbn [negb].
  apply andb_true_iff in Hfresh as [->%negb_true_iff Hm%negb_true_iff].
  unfold remember, check_and_remember. rewrite Hn. cbn. by rewrite Hm.
Qed.

(** What a peer [p] holding [key] needs of a transport to be accepted by it with [m]. *)
Definition accepts (t : TcpTransport) (key : PrivateKey) (now : float) (m : Message) : Prop :=
  enabled (tcp_security t) = true /\ get_peer_key (sender_id m) (tcp_keyring t) = Some (public_key key) /\
  msg_version m = protocol_version (tcp_security t) /\ fits (tcp_security t) m /\ fresh_for t now m = true.

Lemma version_payload_sorted m v :
  msg_payload m = [(str "protocol_version", JInt v)] -> msg_payload (sorted_message m) = msg_payload m.
Proof. intros E. unfold sorted_message. cbn [msg_payload]. by rewrite E. Qed.

(** A handshake message of one side passes the check of the other. *)
Lemma handshake_accepts now key rd mt e u m t :
  key = tcp_identity u -> tcp_signed_message rd mt (version_payload u) u = Ok m -> accepts t key now m ->
  (forall p, e = Some p -> sender_id m = p) ->
  handshake_ok now mt e (sorted_message m) t = (Ok true, remember t now m).
Proof.
  intros -> Hs (He & Hkey & Hv & (Hok & _) & Hfresh) Hexp. unfold tcp_signed_message in Hs.
  pose proof (signed_inv _ _ _ _ _ Hs) as (_ & _ & _ & _ & Hp & Hmt & Hver & _). cbn in Hp, Hmt, Hver.
  unfold handshake_ok. rewrite (version_payload_sorted m (protocol_version (tcp_security u))) by (by rewrite Hp).
  cbn [sorted_message msg_type]. rewrite Hmt, Hp, bool_decide_eq_true_2 by done. cbn [negb version_payload jget].
  assert (json_eq_int (jget (str "protocol_version") (version_payload u)) (protocol_version (tcp_security t)) = true)
    as Hj.
  { unfold version_payload. change (jget _ _) with (JInt (protocol_version (tcp_security u))). cbn [json_eq_int].
    apply Z.eqb_eq. by rewrite <- Hver, <- Hv. }
  change [(str "protocol_version", JInt (protocol_version (tcp_security u)))] with (version_payload u). rewrite Hj.
  cbn [negb]. by eapply verify_message_accepts.
Qed.

(** C21: The mutual handshake completes: the hello frame that [a] writes makes the handler of [b]
    answer with a signed ack and go on to serve [a]; the ack makes [a] store the connection to [b].
    Each side needs the other's key, the protocol version, the clocks within the replay window and a
    fresh nonce. *)
Theorem tcp_handshake_completes (a b : TcpTransport) (rda rdb rda' : Reading) (hello ack : Message)
    (hello_frame ack_frame rest rest' : list byte) (e e' : StreamEnd) (w wb : nat) (sent : list byte) :
  tcp_signed_message rda (str "hello") (version_payload a) a = Ok hello ->
  accepts b (tcp_identity a) (r_now rdb) hello ->
  message_to_bytes (max_frame_size (tcp_security b)) hello = Ok hello_frame ->
  tcp_signed_message rdb (str "hello_ack") (version_payload b) b = Ok ack ->
  accepts a (tcp_identity b) (r_now rda') ack -> sender_id ack = tcp_node_id b ->
  message_to_bytes (max_frame_size (tcp_security b)) ack = Ok ack_frame ->
  message_to_bytes (max_frame_size (tcp_security a)) ack = Ok ack_frame ->
  client_turn rdb wb {| c_stream := {| incoming := hello_frame ++ rest; ending := e |}; c_phase := Greeting;
                        c_sent := sent |} b =
    ({| c_stream := {| incoming := rest; ending := e |}; c_phase := Acking (tcp_node_id a);
        c_sent := sent ++ ack_frame |}, remember b (r_now rdb) hello) /\
  connect_finish rda' (tcp_node_id b) w {| incoming := ack_frame ++ rest'; ending := e' |} a =
    (Ok w, set_connections (dict_set (tcp_node_id b) w (connections a)) (remember a (r_now rda') ack)).
Proof.
  intros Hh Hab Hfh Hk Hba Hsid Hfb Hfa. split.
  - unfold client_turn. cbn [c_phase c_stream]. pose proof Hab as (_ & _ & _ & Hfit & _).
    rewrite (read_frame_message _ hello hello_frame rest e Hfit Hfh). unfold client_greet.
    rewrite (handshake_accepts (r_now rdb) _ rda (str "hello") None a hello b eq_refl Hh Hab) by done.
    change (tcp_signed_message rdb (str "hello_ack") (version_payload (remember b (r_now rdb) hello))
      (remember b (r_now rdb) hello)) with (tcp_signed_message rdb (str "hello_ack") (version_payload b) b).
    rewrite Hk. unfold write_frame. change (tcp_security (remember b (r_now rdb) hello)) with (tcp_security b).
    rewrite Hfb. cbn [sorted_message sender_id c_sent].
    by destruct (signed_inv _ _ _ _ _ Hh) as (_ & _ & _ & -> & _).
  - unfold connect_finish. pose proof Hba as (He & _ & _ & Hfit & _). rewrite He.
    rewrite (read_frame_message _ ack ack_frame rest' e' Hfit Hfa).
    rewrite (handshake_accepts (r_now rda') _ rdb (str "hello_ack") (Some (tcp_node_id b)) b ack a eq_refl Hk Hba);
      [done|]. by intros p [= <-].
Qed.

(** A message on a connection open for its sender. *)
Lemma turn_delivers (t : TcpTransport) (rd : Reading) (key : PrivateKey) (ts : float) (n : pystr)
    (m0 m : Message) (frame rest : list byte) (e : StreamEnd) (w : nat) (sent : list byte) :
  signed key ts n m0 = Ok m -> accepts t key (r_now rd) m ->
  msg_type m ∉ [str "hello"; str "hello_ack"] ->
  message_to_bytes (max_frame_size (tcp_security t)) m = Ok frame ->
  inbox_full (max_inbox_size (tcp_security t)) (tcp_inbox t) = false -> tcp_closed t = false ->
  client_turn rd w {| c_stream := {| incoming := frame ++ rest; ending := e |};
                      c_phase := Open (Some (sender_id m)); c_sent := sent |} t =
    ({| c_stream := {| incoming := rest; ending := e |}; c_phase := Open (Some (sender_id m)); c_sent := sent |},
     set_tcp_inbox (tcp_inbox t ++ [(sender_id m, sorted_message m)]) (remember t (r_now rd) m)).
Proof.
  intros Hs (He & Hkey & Hv & Hfit & Hfresh) Hty Hf Hroom Hcl. unfold client_turn. cbn [c_phase c_stream].
  rewrite (read_frame_message _ m frame rest e Hfit Hf). unfold client_message. rewrite He.
  change (msg_type (sorted_message m)) with (msg_type m). rewrite bool_decide_eq_false_2 by done.
  rewrite (verify_message_accepts (r_now rd) key ts n m0 m (Some (sender_id m)) t He Hs (proj1 Hfit) Hkey Hv)
    by (done || by intros p [= <-]).
  change (tcp_inbox (remember t (r_now rd) m)) with (tcp_inbox t).
  change (tcp_security (remember t (r_now rd) m)) with (tcp_security t). rewrite Hroom.
  unfold loop_head. cbn [tcp_closed set_tcp_inbox remember set_tcp_replay tcp_upd]. by rewrite Hcl.
Qed.

(** An authenticated message is delivered: on a connection open for its sender, the frame of a
    message the sender signed is consumed and the message is appended to the inbox under its sender,
    equal to what was sent up to the order of the payload's keys. *)
Theorem tcp_message_delivered (t : TcpTransport) (rd : Reading) (key : PrivateKey) (ts : float) (n : pystr)
    (m0 m : Message) (frame rest : list byte) (e : StreamEnd) (w : nat) (sent : list byte) :
  signed key ts n m0 = Ok m -> accepts t key (r_now rd) m ->
  msg_type m ∉ [str "hello"; str "hello_ack"] ->
  message_to_bytes (max_frame_size (tcp_security t)) m = Ok frame ->
  inbox_full (max_inbox_size (tcp_security t)) (tcp_inbox t) = false -> tcp_closed t = false ->
  client_turn rd w {| c_stream := {| incoming := frame ++ rest; ending := e |};
                      c_phase := Open (Some (sender_id m)); c_sent := sent |} t =
    ({| c_stream := {| incoming := rest; ending := e |}; c_phase := Open (Some (sender_id m)); c_sent := sent |},
     set_tcp_inbox (tcp_inbox t ++ [(sender_id m, sorted_message m)]) (remember t (r_now rd) m)).
Proof. apply turn_delivers. Qed.
End delivery.

(** ** Connecting *)

Section connecting.
Context `{Ed25519}.

(** In secure mode a connection is stored only after the peer proved itself: [connect_finish]
    succeeds exactly on an authentic ack of that peer, and then stores the connection under it; on
    every failure the table of connections is unchanged, and an ack that fails the checks is a
    [PermissionError] that closes the socket. *)
Theorem connection_needs_authentic_ack (rd : Reading) (p : pystr) (w : nat) (s : Stream)
    (t t' : TcpTransport) (r : result nat) :
  enabled (tcp_security t) = true -> connect_finish rd p w s t = (r, t') ->
  match r with
  | Ok w' =>
      w' = w /\ connections t' = dict_set p w (connections t) /\
      exists ack s', read_frame (tcp_security t) s = (Ok ack, s') /\ msg_type ack = str "hello_ack" /\
        sender_id ack = p /\ authentic t ack
  | Raise e =>
      connections t' = connections t /\
      forall ack s' t1, read_frame (tcp_security t) s = (Ok ack, s') ->
        handshake_ok (r_now rd) (str "hello_ack") (Some p) ack t = (Ok false, t1) ->
        e = PermissionError /\ w ∈ closing t'
  end.
Proof.
  intros He. unfold connect_finish. rewrite He.
  destruct (read_frame _ s) as [[ack|e] s1] eqn:Er; [|by intros [= <- <-]].
  destruct (handshake_ok_spec (r_now rd) (str "hello_ack") (Some p) ack t) as (rc & E & _ & Hok).
  destruct (handshake_ok _ _ _ _ t) as [[[|]|e] t1] eqn:Eh; cbn [fst snd] in *; subst t1; intros [= <- <-].
  - destruct (Hok eq_refl He) as (Hmt & Hau & Hp). split_and!; [done|done|]. exists ack, s1.
    split_and!; [done|done|by apply Hp|done].
  - split; [done|]. intros ack' s' t1 _ _. split; [done|]. cbn. set_solver.
  - split; [done|]. intros ack' s' t1 [= <- <-] Hbad. by rewrite Hbad in Eh.
Qed.

(** When the ack cannot be read (the peer is silent, closes, or sends garbage), the exception leaves
    the new socket open: nothing closes its writer. *)
Theorem unread_ack_leaks_socket (rd : Reading) (p : pystr) (w : nat) (s s' : Stream) (t : TcpTransport) (e : exc) :
  enabled (tcp_security t) = true -> read_frame (tcp_security t) s = (Raise e, s') ->
  connect_finish rd p w s t = (Raise e, t).
Proof. intros He Hr. unfold connect_finish. by rewrite He, Hr. Qed.

(** A secure transport sends only what its own node signed, recently: [send] passes its checks
    exactly when the transport is open and the message names this node as its sender, has the protocol
    version, a nonce and a timestamp within the window, and its signature verifies; else it raises. *)
Theorem send_needs_local_signature (now : float) (m : Message) (t : TcpTransport) :
  enabled (tcp_security t) = true ->
  (send_check now m t = Ok () <->
   tcp_closed t = false /\ sender_id m = tcp_node_id t /\ msg_version m = protocol_version (tcp_security t) /\
   verify_signature m (tcp_keyring t) = Ok true /\
   exists ts, timestamp m = Some ts /\ py_le (fabs (fsub now ts)) (replay_window_seconds (tcp_security t)) = true) /\
  (tcp_closed t = false -> sender_id m <> tcp_node_id t -> send_check now m t = Raise PermissionError).
Proof.
  intros He. unfold send_check. rewrite He. split.
  - split.
    + destruct (tcp_closed t); [done|]. cbn [raise_if rbind]. unfold verify_local_message.
      destruct (timestamp m) as [ts|]; [|done]. destruct (nonce m) as [n|]; [|done].
      destruct (bool_decide _) eqn:E1; [|done]. destruct (Z.eqb_spec (msg_version m) (protocol_version (tcp_security t)));
        [|done]. destruct (py_le _ _) eqn:E2; [|done]. cbn [andb].
      destruct (verify_signature m (tcp_keyring t)) as [[|]|]; try done. intros _.
      apply bool_decide_eq_true in E1. split_and!; try done. by exists ts.
    + intros (-> & Hs & Hv & Hsig & ts & Hts & Hw). cbn [raise_if rbind]. unfold verify_local_message.
      rewrite Hts, Hs, Hv, Z.eqb_refl, Hw, Hsig, bool_decide_eq_true_2 by done.
      unfold verify_signature in Hsig. by destruct (msg_signature m), (nonce m).
  - intros -> Hs. cbn [raise_if rbind]. unfold verify_local_message. rewrite bool_decide_eq_false_2 by done.
    by destruct (timestamp m), (nonce m).
Qed.
End connecting.

(** ** Samples: peers p1 and p2 *)

Definition rd_at (k : Z) (n : string) : Reading := {|
  r_now := decimal_float false k 0; r_sign := decimal_float false k 0; r_nonce := str n; r_drain := None |}.

Definition blank_tcp : TcpTransport := {|
  tcp_node_id := []; peer_addresses := []; tcp_identity := toy_seed 1; tcp_keyring := [];
  tcp_security := default_security; tcp_replay := {| rc_max_entries := 1; rc_entries := [] |}; tcp_inbox := [];
  connections := []; incoming_writers := ∅; closing := ∅; tcp_closed := false |}.

Definition tcp_sample (n : Z) (nid peer : string) : TcpTransport :=
  match tcp_init (str nid) [(str peer, (str "localhost", 9000))] (toy_seed n) toy_ring default_security with
  | Ok t => t
  | Raise _ => blank_tcp
  end.
Definition tcp_p1 : TcpTransport := tcp_sample 1 "p1" "p2".
Definition tcp_p2 : TcpTransport := tcp_sample 2 "p2" "p1".

Definition or_sample {A} (r : result A) (d : A) : A := match r with Ok a => a | Raise _ => d end.

Definition hello_p1 : Message :=
  or_sample (tcp_signed_message (rd_at 10 "h1") (str "hello") (version_payload tcp_p1) tcp_p1) sample_message.
Definition ack_p2 : Message :=
  or_sample (tcp_signed_message (rd_at 11 "h2") (str "hello_ack") (version_payload tcp_p2) tcp_p2) sample_message.
Definition frame_of (m : Message) : list byte := or_sample (message_to_bytes MAX_FRAME_SIZE m) [].

Lemma hello_p1_signed :
  tcp_signed_message (rd_at 10 "h1") (str "hello") (version_payload tcp_p1) tcp_p1 = Ok hello_p1.
Proof. vm_compute. reflexivity. Qed.
Lemma ack_p2_signed :
  tcp_signed_message (rd_at 11 "h2") (str "hello_ack") (version_payload tcp_p2) tcp_p2 = Ok ack_p2.
Proof. vm_compute. reflexivity. Qed.

Ltac sample_accepts :=
  split_and!; try (vm_compute; reflexivity);
  split_and!; first [vm_compute; reflexivity | vm_compute; discriminate].

Lemma p2_accepts_hello : accepts tcp_p2 (toy_seed 1) (r_now (rd_at 11 "h2")) hello_p1.
Proof. sample_accepts. Qed.
Lemma p1_accepts_ack : accepts tcp_p1 (toy_seed 2) (r_now (rd_at 12 "h3")) ack_p2.
Proof. sample_accepts. Qed.
Lemma p2_accepts_heartbeat : accepts tcp_p2 (toy_seed 1) (r_now (rd_at 13 "h4")) sample_signed.
Proof. sample_accepts. Qed.

Lemma tcp_handshake_completes_witness :
  c_phase (client_turn (rd_at 11 "h2") 7
    {| c_stream := {| incoming := frame_of hello_p1 ++ []; ending := Stalled |}; c_phase := Greeting; c_sent := [] |}
    tcp_p2).1 = Acking (tcp_node_id tcp_p1) /\
  (connect_finish (rd_at 12 "h3") (tcp_node_id tcp_p2) 3
    {| incoming := frame_of ack_p2 ++ []; ending := Stalled |} tcp_p1).1 = Ok 3%nat.
Proof.
  assert (message_to_bytes (max_frame_size (tcp_security tcp_p2)) hello_p1 = Ok (frame_of hello_p1)) as H1
    by (vm_compute; reflexivity).
  assert (sender_id ack_p2 = tcp_node_id tcp_p2) as H2 by (vm_compute; reflexivity).
  assert (message_to_bytes (max_frame_size (tcp_security tcp_p2)) ack_p2 = Ok (frame_of ack_p2)) as H3
    by (vm_compute; reflexivity).
  assert (message_to_bytes (max_frame_size (tcp_security tcp_p1)) ack_p2 = Ok (frame_of ack_p2)) as H4
    by (vm_compute; reflexivity).
  destruct (tcp_handshake_completes tcp_p1 tcp_p2 (rd_at 10 "h1") (rd_at 11 "h2") (rd_at 12 "h3") hello_p1 ack_p2
    (frame_of hello_p1) (frame_of ack_p2) [] [] Stalled Stalled 3 7 [] hello_p1_signed p2_accepts_hello H1
    ack_p2_signed p1_accepts_ack H2 H3 H4) as [E1 E2].
  rewrite E1, E2. exact (conj eq_refl eq_refl).
Defined.

Lemma tcp_message_delivered_witness :
  tcp_inbox (client_turn (rd_at 13 "h4") 7
    {| c_stream := {| incoming := frame_of sample_signed ++ []; ending := Eof |};
       c_phase := Open (Some (sender_id sample_signed)); c_sent := [] |} tcp_p2).2 =
  [(sender_id sample_signed, sorted_message sample_signed)].
Proof.
  assert (signed (toy_seed 1) (decimal_float false 125 (-1)) (str "n1") sample_message = Ok sample_signed)
    as H1 by (vm_compute; reflexivity).
  assert (msg_type sample_signed ∉ [str "hello"; str "hello_ack"]) as H2
    by (apply (bool_decide_unpack _); vm_compute; reflexivity).
  assert (message_to_bytes (max_frame_size (tcp_security tcp_p2)) sample_signed = Ok (frame_of sample_signed)) as H3
    by (vm_compute; reflexivity).
  assert (inbox_full (max_inbox_size (tcp_security tcp_p2)) (tcp_inbox tcp_p2) = false) as H4
    by (vm_compute; reflexivity).
  assert (tcp_inbox tcp_p2 = []) as H6 by (vm_compute; reflexivity).
  rewrite (tcp_message_delivered tcp_p2 (rd_at 13 "h4") (toy_seed 1) (decimal_float false 125 (-1)) (str "n1")
    sample_message sample_signed (frame_of sample_signed) [] Eof 7 [] H1 p2_accepts_heartbeat H2 H3 H4 eq_refl).
  cbn [snd set_tcp_inbox tcp_upd tcp_inbox]. rewrite H6. reflexivity.
Defined.

Lemma tcp_p2_init :
  tcp_init (str "p2") [(str "p1", (str "localhost", 9000))] (toy_seed 2) toy_ring default_security = Ok tcp_p2.
Proof.
  assert (is_ok (tcp_init (str "p2") [(str "p1", (str "localhost", 9000))] (toy_seed 2) toy_ring default_security)
    = true) as Hok by (vm_compute; reflexivity).
  unfold tcp_p2, tcp_sample. destruct (tcp_init _ _ _ _ _); [reflexivity|discriminate Hok].
Qed.

(** p1 connects to p2 and sends a heartbeat. *)
Definition p1_stream : Stream := {| incoming := frame_of hello_p1 ++ frame_of sample_signed; ending := Eof |}.
Definition p1_connected : TcpTransport := (client_accept 7 p1_stream tcp_p2).2.
Definition p1_conn : Conn := {| c_stream := p1_stream; c_phase := Greeting; c_sent := [] |}.
Definition after_turns (rds : list Reading) : TcpSystem :=
  {| sys := (run_client rds 7 p1_conn p1_connected).2;
     conns := {[7%nat := (run_client rds 7 p1_conn p1_connected).1]}; dialing := [] |}.

Lemma run_client_snoc rds rd w c t :
  run_client (rds ++ [rd]) w c t = client_turn rd w (run_client rds w c t).1 (run_client rds w c t).2.
Proof.
  revert c t. induction rds as [|rd0 rds IH]; intros c t; cbn [app run_client fst snd];
    [by destruct (client_turn rd w c t)|]. destruct (client_turn rd0 w c t). apply IH.
Qed.

Lemma after_turns_reachable rds : tcp_reachable tcp_p2 (after_turns rds).
Proof.
  induction rds as [|rd rds IH] using rev_ind.
  - eapply tcp_more; [apply tcp_boot|].
    assert ((max_connections (tcp_security tcp_p2) <=? Z.of_nat (size (incoming_writers tcp_p2))) = false) as H1
      by (vm_compute; reflexivity).
    assert (enabled (tcp_security tcp_p2) = true) as H2 by (vm_compute; reflexivity).
    apply (tcp_accepted 7 p1_stream {| sys := tcp_p2; conns := ∅; dialing := [] |} p1_conn p1_connected (lookup_empty _)).
    unfold p1_connected, client_accept. cbn [sys]. rewrite H1, H2. reflexivity.
  - eapply tcp_more; [exact IH|].
    pose proof (tcp_turn rd 7 (after_turns rds) (run_client rds 7 p1_conn p1_connected).1
      (run_client (rds ++ [rd]) 7 p1_conn p1_connected).1 (run_client (rds ++ [rd]) 7 p1_conn p1_connected).2) as Hs.
    unfold after_turns in Hs |- * at 2. cbn [conns sys dialing] in Hs.
    rewrite insert_singleton in Hs. apply Hs; [apply lookup_singleton_eq|].
    rewrite <- run_client_snoc. apply surjective_pairing.
Qed.

Definition p1_turns : list Reading := [rd_at 11 "h2"; rd_at 12 "h3"; rd_at 13 "h4"].

Lemma tcp_admits_only_authentic_witness :
  authentic (sys (after_turns p1_turns)) (sorted_message sample_signed).
Proof.
  assert (tcp_inbox (sys (after_turns p1_turns)) = [(str "p1", sorted_message sample_signed)]) as Hin
    by (vm_compute; reflexivity).
  pose proof (proj1 (tcp_admits_only_authentic (str "p2") [(str "p1", (str "localhost", 9000))] (toy_seed 2)
    toy_ring default_security tcp_p2 (after_turns p1_turns) tcp_p2_init (after_turns_reachable p1_turns))
    (str "p1") (sorted_message sample_signed)) as Hau.
  rewrite Hin in Hau. exact (proj1 (proj2 (Hau ltac:(by left)) eq_refl)).
Defined.

Lemma handle_client_terminates_witness :
  exists o, c_phase (run_client (replicate 600 (rd_at 11 "h2")) 7 p1_conn p1_connected).1 = Done o.
Proof. apply handle_client_terminates. apply Nat.leb_le. vm_compute. reflexivity. Defined.

Lemma connection_needs_authentic_ack_witness :
  exists ack s', read_frame (tcp_security tcp_p1) {| incoming := frame_of ack_p2; ending := Stalled |} = (Ok ack, s') /\
    msg_type ack = str "hello_ack" /\ sender_id ack = str "p2" /\ authentic tcp_p1 ack.
Proof.
  assert (enabled (tcp_security tcp_p1) = true) as H1 by (vm_compute; reflexivity).
  assert ((connect_finish (rd_at 12 "h3") (str "p2") 3 {| incoming := frame_of ack_p2; ending := Stalled |} tcp_p1).1
    = Ok 3%nat) as H2 by (vm_compute; reflexivity).
  destruct (connect_finish (rd_at 12 "h3") (str "p2") 3 {| incoming := frame_of ack_p2; ending := Stalled |} tcp_p1)
    as [r t'] eqn:E. cbn [fst] in H2. subst r.
  exact (proj2 (proj2 (connection_needs_authentic_ack (rd_at 12 "h3") (str "p2") 3
    {| incoming := frame_of ack_p2; ending := Stalled |} tcp_p1 t' (Ok 3%nat) H1 E))).
Defined.

Lemma send_needs_local_signature_witness :
  send_check (decimal_float false 13 0) sample_signed tcp_p1 = Ok () /\
  send_check (decimal_float false 13 0) sample_signed tcp_p2 = Raise PermissionError.
Proof.
  assert (enabled (tcp_security tcp_p1) = true) as H1 by (vm_compute; reflexivity).
  assert (enabled (tcp_security tcp_p2) = true) as H2 by (vm_compute; reflexivity).
  assert (tcp_closed tcp_p1 = false) as H3 by (vm_compute; reflexivity).
  assert (tcp_closed tcp_p2 = false) as H3' by (vm_compute; reflexivity).
  assert (sender_id sample_signed = tcp_node_id tcp_p1) as H4 by (vm_compute; reflexivity).
  assert (sender_id sample_signed <> tcp_node_id tcp_p2) as H4' by (vm_compute; discriminate).
  assert (msg_version sample_signed = protocol_version (tcp_security tcp_p1)) as H5 by (vm_compute; reflexivity).
  assert (verify_signature sample_signed (tcp_keyring tcp_p1) = Ok true) as H6 by (vm_compute; reflexivity).
  assert (timestamp sample_signed = Some (decimal_float false 125 (-1))) as H7 by (vm_compute; reflexivity).
  assert (py_le (fabs (fsub (decimal_float false 13 0) (decimal_float false 125 (-1))))
    (replay_window_seconds (tcp_security tcp_p1)) = true) as H8 by (vm_compute; reflexivity).
  split.
  - exact (proj2 (proj1 (send_needs_local_signature (decimal_float false 13 0) sample_signed tcp_p1 H1))
      (conj H3 (conj H4 (conj H5 (conj H6 (ex_intro _ _ (conj H7 H8))))))).
  - exact (proj2 (send_needs_local_signature (decimal_float false 13 0) sample_signed tcp_p2 H2) H3' H4').
Defined.

(** ** The limit on outgoing connections *)

(** A transport in insecure mode with a limit of one connection and two configured peers. *)
Definition one_connection : SecurityConfig := {|
  enabled := false; protocol_version := protocol_version default_security;
  max_frame_size := max_frame_size default_security; max_udp_payload := max_udp_payload default_security;
  max_http_headers := max_http_headers default_security; max_http_body := max_http_body default_security;
  sc_max_tasks := sc_max_tasks default_security; max_peers := max_peers default_security;
  max_gossip_tasks := max_gossip_tasks default_security; max_credit_amount := max_credit_amount default_security;
  max_lease_duration_seconds := max_lease_duration_seconds default_security;
  replay_cache_size := replay_cache_size default_security;
  replay_window_seconds := replay_window_seconds default_security; max_connections := 1;
  max_inbox_size := max_inbox_size default_security;
  read_timeout_seconds := read_timeout_seconds default_security;
  write_timeout_seconds := write_timeout_seconds default_security;
  connect_timeout_seconds := connect_timeout_seconds default_security;
  udp_rate_limit := udp_rate_limit default_security;
  udp_rate_window_seconds := udp_rate_window_seconds default_security;
  max_json_depth := max_json_depth default_security; max_json_items := max_json_items default_security;
  max_string_length := max_string_length default_security |}.

Definition tcp_limited : TcpTransport := {|
  tcp_node_id := str "p1"; peer_addresses := [(str "p2", (str "h", 1)); (str "p3", (str "h", 2))];
  tcp_identity := toy_seed 1; tcp_keyring := toy_ring; tcp_security := one_connection;
  tcp_replay := {| rc_max_entries := 4096; rc_entries := [] |}; tcp_inbox := []; connections := [];
  incoming_writers := ∅; closing := ∅; tcp_closed := false |}.

(** The limit is checked before the connection is made and the table is written after, so two sends
    to different peers, both waiting for their connections, exceed it. *)
Theorem connection_limit_race :
  exists s, tcp_reachable tcp_limited s /\
    max_connections (tcp_security (sys s)) < len (connections (sys s)).
Proof.
  set (t1 := set_connections [(str "p2", 1%nat)] tcp_limited).
  set (t2 := set_connections [(str "p2", 1%nat); (str "p3", 2%nat)] tcp_limited).
  set (sl := {| incoming := []; ending := Stalled |}).
  set (st := fun t d => {| sys := t; conns := ∅; dialing := d |}).
  exists (st t2 []). split; [|by vm_compute].
  apply (tcp_more _ (st t1 [(str "p3", 2%nat)])).
  2: { exact (tcp_dialed (rd_at 1 "a") (str "p3") 2 sl (Ok 2%nat) t2 (st t1 [(str "p3", 2%nat)]) [] [] eq_refl eq_refl). }
  apply (tcp_more _ (st tcp_limited [(str "p3", 2%nat); (str "p2", 1%nat)])).
  2: { exact (tcp_dialed (rd_at 1 "a") (str "p2") 1 sl (Ok 1%nat) t1 (st tcp_limited [(str "p3", 2%nat); (str "p2", 1%nat)])
         [(str "p3", 2%nat)] [] eq_refl eq_refl). }
  apply (tcp_more _ (st tcp_limited [(str "p2", 1%nat)])).
  2: { exact (tcp_dials (str "p3") 2 (str "h") 2 (st tcp_limited [(str "p2", 1%nat)]) eq_refl). }
  apply (tcp_more _ (st tcp_limited [])); [apply tcp_boot|].
  exact (tcp_dials (str "p2") 1 (str "h") 1 (st tcp_limited []) eq_refl).
Qed.
