(* ===== verification/Sha256.v ===== *)
(** * SHA-256 ([hashlib.sha256])

    The hash function behind the rendezvous election of [peerq/node.py], on lists of bytes; words
    are integers modulo [2 ^ 32]. *)

From Stdlib Require Import ZArith Lia.
From S2P Require Import Prelude Text Security Wal.
Open Scope Z_scope.

Definition w32 (x : Z) : Z := Z.land x 0xFFFFFFFF.
Definition rotr (x n : Z) : Z := Z.lor (Z.shiftr x n) (w32 (Z.shiftl x (32 - n))).

(** The constants of the standard: the first 32 bits of the fractional parts of the cube roots of
    the first 64 primes and of the square roots of the first eight. *)
Definition is_prime (n : nat) : bool :=
  (2 <=? n)%nat && forallb (fun d => negb (n mod d =? 0)%nat) (List.seq 2 (n - 2)).

Fixpoint cube_root_bits (k : nat) (n acc : Z) : Z :=
  match k with
  | O => acc
  | S k' =>
      let b := acc + 2 ^ Z.of_nat k' in
      cube_root_bits k' n (if b * b * b <=? n then b else acc)
  end.

Definition small_primes : list Z :=
  Eval vm_compute in Z.of_nat <$> List.filter is_prime (List.seq 0 312).

Definition sha_k : list Z :=
  Eval vm_compute in (fun p => w32 (cube_root_bits 36 (p * 2 ^ 96) 0)) <$> small_primes.

Definition sha_init : list Z :=
  Eval vm_compute in (fun p => w32 (Z.sqrt (p * 2 ^ 64))) <$> take 8 small_primes.

Definition small_sigma0 (x : Z) : Z := Z.lxor (Z.lxor (rotr x 7) (rotr x 18)) (Z.shiftr x 3).
Definition small_sigma1 (x : Z) : Z := Z.lxor (Z.lxor (rotr x 17) (rotr x 19)) (Z.shiftr x 10).
Definition big_sigma0 (x : Z) : Z := Z.lxor (Z.lxor (rotr x 2) (rotr x 13)) (rotr x 22).
Definition big_sigma1 (x : Z) : Z := Z.lxor (Z.lxor (rotr x 6) (rotr x 11)) (rotr x 25).
Definition sha_ch (x y z : Z) : Z := Z.lxor (Z.land x y) (Z.land (Z.lxor x 0xFFFFFFFF) z).
Definition sha_maj (x y z : Z) : Z := Z.lxor (Z.lxor (Z.land x y) (Z.land x z)) (Z.land y z).

(** The 64 rounds over the constants; [win] is the window of the next sixteen schedule words. *)
Fixpoint sha_rounds (ks win st : list Z) : list Z :=
  match ks, win, st with
  | k :: ks', w :: win', [a; b; c; d; e; f; g; h] =>
      let t1 := w32 (h + big_sigma1 e + sha_ch e f g + k + w) in
      let t2 := w32 (big_sigma0 a + sha_maj a b c) in
      let w16 := w32 (w + small_sigma0 (nth 0 win' 0) + nth 8 win' 0 + small_sigma1 (nth 13 win' 0)) in
      sha_rounds ks' (win' ++ [w16]) [w32 (t1 + t2); a; b; c; w32 (d + t1); e; f; g]
  | _, _, _ => st
  end.

(** The big-endian words of a block. *)
Fixpoint be_words (b : list byte) : list Z :=
  match b with
  | b0 :: b1 :: b2 :: b3 :: rest => of_be [b0; b1; b2; b3] :: be_words rest
  | _ => []
  end.

Definition sha_compress (st : list Z) (block : list byte) : list Z :=
  zip_with (fun x y => w32 (x + y)) st (sha_rounds sha_k (be_words block) st).

(** Padding: the bit 1, zeros, and the length in bits as a 64-bit word. *)
Definition sha_pad (m : list byte) : list byte :=
  m ++ [Z_byte 0x80] ++ replicate (Z.to_nat ((55 - len m) mod 64)) (Z_byte 0)
    ++ be32 (Z.shiftr (8 * len m) 32) ++ be32 (w32 (8 * len m)).

Fixpoint sha_blocks (n : nat) (m : list byte) (st : list Z) : list Z :=
  match n with
  | O => st
  | S n' => sha_blocks n' (drop 64 m) (sha_compress st (take 64 m))
  end.

(** [hashlib.sha256(m).digest()] *)
Definition sha256 (m : list byte) : list byte :=
  let padded := sha_pad m in
  concat (be32 <$> sha_blocks (length padded / 64) padded sha_init).

(** ** Test vectors *)

Example sha256_abc :
  hex (sha256 (str_bytes "abc")) = str "ba7816bf8f01cfea414140de5dae2223b00361a396177a9cb410ff61f20015ad".
Proof. vm_compute. reflexivity. Qed.

Example sha256_two_blocks :
  hex (sha256 (str_bytes "abcdbcdecdefdefgefghfghighijhijkijkljklmklmnlmnomnopnopq")) =
  str "248d6a61d20638b8e5c026930c3e6039a33ce45964ff2167f6ecedd419db06c1".
Proof. vm_compute. reflexivity. Qed.

(** ** The digest has 32 bytes *)

Lemma sha_rounds_length ks win st : length st = 8%nat -> length (sha_rounds ks win st) = 8%nat.
Proof.
  revert win st. induction ks as [|k ks IH]; intros win st Hst; [done|]. destruct win as [|w win]; [done|].
  do 8 (destruct st as [|? st]; [done|]). destruct st; [|done]. by apply IH.
Qed.

Lemma sha_compress_length st b : length st = 8%nat -> length (sha_compress st b) = 8%nat.
Proof. intros H. unfold sha_compress. rewrite length_zip_with, sha_rounds_length by done. lia. Qed.

Lemma sha_blocks_length n m st : length st = 8%nat -> length (sha_blocks n m st) = 8%nat.
Proof. revert m st. induction n; intros m st H; cbn [sha_blocks]; auto using sha_compress_length. Qed.

Lemma sha256_length m : length (sha256 m) = 32%nat.
Proof.
  unfold sha256. pose proof (sha_blocks_length (length (sha_pad m) / 64) (sha_pad m) sha_init eq_refl) as H.
  revert H. generalize (sha_blocks (length (sha_pad m) / 64) (sha_pad m) sha_init). intros l H.
  do 8 (destruct l as [|? l]; [done|]). by destruct l.
Qed.
