(* ===== verification/FloatText.v ===== *)
(** * [float] of a string

    The conversion [float(s)] of the language: surrounding white space, underscores between
    digits, an optional sign, and a decimal number or one of the words for the special values.
    The two properties of characters beyond ASCII it consults are parameters. *)

From Stdlib Require Import ZArith NArith Lia.
From S2P Require Import Prelude PyFloat Text Json.
Open Scope N_scope.

(** The Unicode character database: [str.isspace] and the decimal digit value of a character. *)
Class UnicodeDB := {
  uni_space : N -> bool;
  uni_decimal : N -> option N;
}.

(** Digits and spaces beyond ASCII are replaced by their ASCII counterparts. *)
Fixpoint to_ascii `{UnicodeDB} (s : pystr) : option pystr :=
  match s with
  | [] => Some []
  | c :: s' =>
      match (if c <? 127 then Some c else if uni_space c then Some 32
             else match uni_decimal c with Some d => Some (48 + d) | None => None end) with
      | Some a => match to_ascii s' with Some r => Some (a :: r) | None => None end
      | None => None
      end
  end.

Definition strip_spaces (s : pystr) : pystr :=
  reverse (drop_while ascii_space (reverse (drop_while ascii_space s))).

(** Underscores are dropped; each must stand between two digits. *)
Fixpoint drop_underscores (prev : N) (s : pystr) : option pystr :=
  match s with
  | [] => if prev =? 95 then None else Some []
  | c :: s' =>
      if c =? 95 then if is_digit prev then drop_underscores c s' else None
      else if (prev =? 95) && negb (is_digit c) then None
      else match drop_underscores c s' with Some r => Some (c :: r) | None => None end
  end.

Definition lower (c : N) : N := if (65 <=? c) && (c <=? 90) then c + 32 else c.

(** The number after its sign. *)
Definition unsigned_float (neg : bool) (t : pystr) : option float :=
  let low := lower <$> t in
  if bool_decide (low = str "inf") || bool_decide (low = str "infinity") then Some (S754_infinity neg)
  else if bool_decide (low = str "nan") then Some S754_nan
  else
    let ip := take_while is_digit t in
    let t1 := drop_while is_digit t in
    let has_f := is_some (strip_char 46 t1) in
    let fp := if has_f then take_while is_digit (tl t1) else [] in
    let t2 := if has_f then drop_while is_digit (tl t1) else t1 in
    let has_e := is_some (strip_char 69 t2) || is_some (strip_char 101 t2) in
    let t3 := if has_e then tl t2 else [] in
    let eneg := is_some (strip_char 45 t3) in
    let t4 := if eneg || is_some (strip_char 43 t3) then tl t3 else t3 in
    let ep := take_while is_digit t4 in
    let t5 := if has_e then drop_while is_digit t4 else t2 in
    if bool_decide (ip ++ fp = []) || (has_e && bool_decide (ep = [])) || negb (bool_decide (t5 = []))
    then None
    else Some (decimal_float neg (Z.of_N (digits_value (ip ++ fp)))
                 (cond_Zopp eneg (Z.of_N (digits_value ep)) - Z.of_nat (length fp))).

(** [float(s)]; [None] when it raises [ValueError]. *)
Definition float_of_str `{UnicodeDB} (s : pystr) : option float :=
  match to_ascii s with
  | None => None
  | Some a =>
      match drop_underscores 0 (strip_spaces a) with
      | None => None
      | Some t =>
          match strip_char 45 t, strip_char 43 t with
          | Some r, _ => unsigned_float true r
          | None, Some r => unsigned_float false r
          | None, None => unsigned_float false t
          end
      end
  end.

(** A database that knows no character beyond ASCII. *)
Definition ascii_db : UnicodeDB := {| uni_space := fun _ => false; uni_decimal := fun _ => None |}.

Example float_of_str_samples :
  map (@float_of_str ascii_db) [str " +1_0.5e-1 "; str ".5"; str "5."; str "-InFinity"; str "nan"] =
  [Some (decimal_float false 105 (-2)); Some (decimal_float false 5 (-1)); Some (decimal_float false 5 0);
   Some (S754_infinity true); Some S754_nan] /\
  map (@float_of_str ascii_db) [str "1__0"; str "_1"; str "1_"; str "1_.5"; str "1e"; str "."; str "+ 1"; str "0x10"; str ""] =
  replicate 9 None.
Proof. vm_compute. split; reflexivity. Qed.
