(* ===== verification/PyText.v ===== *)
(** * Strings of the language: stripping, splitting, [int(s)] and network addresses

    The operations of [str], the conversion [int(s)] and the part of [ipaddress] that the program
    uses on text it is given. *)

From Stdlib Require Import ZArith NArith Lia.
From S2P Require Import Prelude PyFloat Text Json JsonFacts Security FloatText.
Open Scope N_scope.

(** [str.isspace] of one character. *)
Definition py_isspace `{UnicodeDB} (c : N) : bool :=
  if c <? 127 then ascii_space c || ((28 <=? c) && (c <=? 31)) else uni_space c.

(** [s.strip()] *)
Definition py_strip `{UnicodeDB} (s : pystr) : pystr :=
  reverse (drop_while py_isspace (reverse (drop_while py_isspace s))).

(** [s.split(c)] for a character *)
Fixpoint split_on (c : N) (s : pystr) : list pystr :=
  match s with
  | [] => [[]]
  | x :: s' =>
      if x =? c then [] :: split_on c s'
      else match split_on c s' with w :: ws => (x :: w) :: ws | [] => [[x]] end
  end.

(** [s.split(c, 1)] when the character occurs. *)
Fixpoint split_first (c : N) (s : pystr) : option (pystr * pystr) :=
  match s with
  | [] => None
  | x :: s' =>
      if x =? c then Some ([], s')
      else match split_first c s' with Some (a, b) => Some (x :: a, b) | None => None end
  end.

(** [c in s] *)
Definition has_char (c : N) (s : pystr) : bool := existsb (fun x => x =? c) s.

(** Digits after the sign. *)
Definition unsigned_int (t : pystr) : option N :=
  if bool_decide (t = []) || negb (forallb is_digit t) || (int_max_str_digits <? len t)%Z then None
  else Some (digits_value t).

(** [int(s)]; [None] when it raises [ValueError]. *)
Definition int_of_str `{UnicodeDB} (s : pystr) : option Z :=
  match to_ascii s with
  | None => None
  | Some a =>
      match drop_underscores 0 (strip_spaces a) with
      | None => None
      | Some t =>
          match strip_char 45 t, strip_char 43 t with
          | Some r, _ => (fun n => (- Z.of_N n)%Z) <$> unsigned_int r
          | None, Some r => Z.of_N <$> unsigned_int r
          | None, None => Z.of_N <$> unsigned_int t
          end
      end
  end.

(** ** [ipaddress.ip_address(host).is_loopback] *)

(** An octet of a dotted address: one to three digits without a leading zero. *)
Definition parse_octet (s : pystr) : option N :=
  if bool_decide (s = []) || negb (forallb is_digit s) || (3 <? len s)%Z then None
  else if negb (bool_decide (s = str "0")) && bool_decide (head s = Some 48) then None
  else let n := digits_value s in if 255 <? n then None else Some n.

Definition ipv4_of_str (s : pystr) : option (N * N * N * N) :=
  match split_on 46 s with
  | [a; b; c; d] =>
      match parse_octet a, parse_octet b, parse_octet c, parse_octet d with
      | Some a, Some b, Some c, Some d => Some (a, b, c, d)
      | _, _, _, _ => None
      end
  | _ => None
  end.

(** A group of an IPv6 address: one to four hexadecimal digits. *)
Definition parse_hextet (s : pystr) : option N :=
  if bool_decide (s = []) || (4 <? len s)%Z then None
  else foldl (fun acc c => match acc, hex_value c with Some a, Some v => Some (16 * a + v) | _, _ => None end) (Some 0) s.

Definition hextets (l : list pystr) : option (list N) := mapM parse_hextet l.

(** The groups when a dotted address ends the text. *)
Definition expand_v4 (parts : list pystr) : option (list pystr) :=
  match reverse parts with
  | lst :: _ =>
      if has_char 46 lst then
        match ipv4_of_str lst with
        | Some (a, b, c, d) =>
            let group hi lo := hex [Z_byte (Z.of_N hi); Z_byte (Z.of_N lo)] in
            Some (take (length parts - 1) parts ++ [group a b; group c d])
        | None => None
        end
      else Some parts
  | [] => None
  end.

(** The positions of the empty groups strictly inside the list. *)
Definition inner_gaps (parts : list pystr) : list nat :=
  filter (fun i => (0 < i < length parts - 1)%nat /\ nth i parts [] = []) (seq 0 (length parts)).

(** The groups of an address as numbers, most significant first. *)
Definition ipv6_groups (parts : list pystr) : option (list N) :=
  if (9 <? len parts)%Z then None
  else
    match inner_gaps parts with
    | [] => if (len parts =? 8)%Z then hextets parts else None
    | [k] =>
        let hi := take k parts in
        let lo := drop (S k) parts in
        let hi := match hi with [[]] => Some [] | [] :: _ => None | _ => Some hi end in
        let lo := match reverse lo with [[]] => Some [] | [] :: _ => None | _ => Some lo end in
        match hi, lo with
        | Some hi, Some lo =>
            if (8 <=? len hi + len lo)%Z then None
            else
              match hextets hi, hextets lo with
              | Some h, Some l => Some (h ++ replicate (8 - length h - length l) 0 ++ l)
              | _, _ => None
              end
        | _, _ => None
        end
    | _ => None
    end.

(** [IPv6Address(s)], whose scope identifier follows a percent sign. *)
Definition ipv6_of_str (s : pystr) : option (list N) :=
  let bare :=
    match split_first 37 s with
    | None => Some s
    | Some (a, scope) => if bool_decide (scope = []) || has_char 37 scope then None else Some a
    end in
  match bare with
  | None => None
  | Some a =>
      let parts := split_on 58 a in
      if has_char 47 s || (len parts <? 3)%Z then None
      else match expand_v4 parts with Some ps => ipv6_groups ps | None => None end
  end.

(** 127.0.0.0/8 and ::1; [false] also for what is not an address. *)
Definition ip_is_loopback (s : pystr) : bool :=
  match ipv4_of_str s with
  | Some (a, _, _, _) => a =? 127
  | None =>
      match ipv6_of_str s with
      | Some g => bool_decide (g = [0; 0; 0; 0; 0; 0; 0; 1])
      | None => false
      end
  end.

Example loopback_samples :
  map ip_is_loopback [str "127.0.0.1"; str "127.9.8.7"; str "::1"; str "0:0:0:0:0:0:0:1"; str "::0:1"; str "::1%lo";
    str "0::1"; str "::0.0.0.1"] = replicate 8 true /\
  map ip_is_loopback [str "0.0.0.0"; str "::"; str "127.0.0"; str "127.0.0.01"; str "10.0.0.1"; str "localhost";
    str ""; str ":::1"; str "1::1"; str "::1::"; str ":1"; str "127.0.0.1/8"; str "::12345"] = replicate 13 false.
Proof. vm_compute. split; reflexivity. Qed.

(** ** Facts *)

Section facts.
Context `{UnicodeDB}.

Lemma drop_while_none {A} (p : A -> bool) (l : list A) :
  Forall (fun x => p x = false) l -> drop_while p l = l.
Proof. destruct 1 as [|x l Hx _]; [done|]. cbn. by rewrite Hx. Qed.

Lemma py_strip_plain s : Forall (fun c => py_isspace c = false) s -> py_strip s = s.
Proof.
  intros Hs. unfold py_strip. rewrite (drop_while_none py_isspace s) by done.
  assert (Forall (fun c => py_isspace c = false) (reverse s)) as Hr.
  { rewrite Forall_forall in *. intros x Hx. apply Hs. by rewrite elem_of_reverse in Hx. }
  rewrite drop_while_none by done.
  apply reverse_involutive.
Qed.

Lemma split_on_nonempty c s : split_on c s <> [].
Proof. induction s as [|x s IH]; cbn; [done|]. destruct (x =? c); [done|]. by destruct (split_on c s). Qed.

(** A word without the separator, and a word followed by the separator. *)
Lemma split_on_word c w : Forall (fun x => x <> c) w -> split_on c w = [w].
Proof.
  induction 1 as [|x w Hx _ IH]; cbn; [done|]. apply N.eqb_neq in Hx. by rewrite Hx, IH.
Qed.
Lemma split_on_app c w s : Forall (fun x => x <> c) w -> split_on c (w ++ c :: s) = w :: split_on c s.
Proof.
  induction 1 as [|x w Hx _ IH]; cbn; [by rewrite N.eqb_refl|]. apply N.eqb_neq in Hx. by rewrite Hx, IH.
Qed.

Lemma join_app c (ws : list pystr) (w v : pystr) :
  foldl (fun acc v => acc ++ c :: v) (w ++ c :: v) ws = w ++ c :: foldl (fun acc v => acc ++ c :: v) v ws.
Proof.
  revert w v. induction ws as [|u ws IH]; intros w v; cbn [foldl]; [done|].
  rewrite <- app_assoc. cbn [app]. rewrite (IH w). done.
Qed.

(** Splitting a text joined with the separator gives its words. *)
Lemma split_on_join c w ws :
  Forall (fun v => Forall (fun x => x <> c) v) (w :: ws) ->
  split_on c (foldl (fun acc v => acc ++ c :: v) w ws) = w :: ws.
Proof.
  intros Hws. apply Forall_cons in Hws as [Hw Hws]. revert w Hw.
  induction Hws as [|v ws Hv Hws IH]; intros w Hw; cbn [foldl]; [by apply split_on_word|].
  rewrite join_app, split_on_app by done. f_equal. by apply IH.
Qed.

Lemma split_first_app c a b : Forall (fun x => x <> c) a -> split_first c (a ++ c :: b) = Some (a, b).
Proof.
  induction 1 as [|x a Hx _ IH]; cbn; [by rewrite N.eqb_refl|]. apply N.eqb_neq in Hx. by rewrite Hx, IH.
Qed.

Lemma has_char_app c a b : has_char c (a ++ c :: b) = true.
Proof. unfold has_char. rewrite existsb_app. cbn. by rewrite N.eqb_refl, orb_true_r. Qed.

Lemma has_char_split c s : has_char c s = true <-> is_Some (split_first c s).
Proof.
  unfold has_char. induction s as [|x s IH]; cbn; [split; [done|by intros []]|].
  destruct (x =? c); cbn; [split; [by eexists|done]|]. rewrite IH.
  destruct (split_first c s) as [[a b]|]; split; intros [y Hy]; try done; by eexists.
Qed.

(** ** [int] of printed integers *)

Lemma digit_range c : is_digit c = true -> 48 <= c <= 57.
Proof. unfold is_digit. rewrite andb_true_iff, !N.leb_le. done. Qed.

Lemma digit_not_space c : is_digit c = true -> ascii_space c = false /\ py_isspace c = false.
Proof.
  intros Hc%digit_range. assert (ascii_space c = false) as E.
  { unfold ascii_space. apply orb_false_iff. split; [apply N.eqb_neq; lia|].
    apply andb_false_iff. right. apply N.leb_gt. lia. }
  split; [done|]. unfold py_isspace. destruct (N.ltb_spec c 127); [|lia]. rewrite E.
  apply andb_false_iff. right. apply N.leb_gt. lia.
Qed.

Lemma to_ascii_digits s : Forall (fun c => is_digit c = true) s -> to_ascii s = Some s.
Proof.
  induction 1 as [|c s Hc _ IH]; cbn; [done|]. apply digit_range in Hc.
  destruct (N.ltb_spec c 127); [|lia]. by rewrite IH.
Qed.

Lemma strip_spaces_digits s : Forall (fun c => is_digit c = true) s -> strip_spaces s = s.
Proof.
  intros Hs. assert (Forall (fun c => ascii_space c = false) s) as Hf.
  { eapply Forall_impl; [exact Hs|]. intros c Hc. by apply digit_not_space. }
  assert (Forall (fun c => ascii_space c = false) (reverse s)) as Hr.
  { rewrite Forall_forall in *. intros x Hx. apply Hf. by rewrite elem_of_reverse in Hx. }
  unfold strip_spaces. rewrite (drop_while_none ascii_space s) by done. rewrite drop_while_none by done.
  apply reverse_involutive.
Qed.

Lemma drop_underscores_digits p s :
  p <> 95 -> Forall (fun c => is_digit c = true) s -> drop_underscores p s = Some s.
Proof.
  intros Hp Hs. revert p Hp. induction Hs as [|c s Hc _ IH]; intros p Hp; cbn; apply N.eqb_neq in Hp; rewrite Hp; [done|].
  apply digit_range in Hc. destruct (N.eqb_spec c 95); [lia|]. cbn [andb]. by rewrite IH.
Qed.

Lemma dec_digits_length fuel n acc : (length (dec_digits fuel n acc) <= fuel + length acc)%nat.
Proof.
  revert n acc. induction fuel as [|f IH]; intros n acc; cbn [dec_digits]; [done|].
  destruct (n <? 10); [cbn; lia|]. etransitivity; [apply IH|]. cbn. lia.
Qed.

(** The text of a number of machine size is short. *)
Lemma N_str_short n : n < 2 ^ 63 -> (len (N_str n) <= 64)%Z.
Proof.
  intros Hn. unfold len, N_str. pose proof (dec_digits_length (S (N.to_nat (N.size n))) n []) as Hl. cbn [length] in Hl.
  assert (N.size n <= 63); [|lia]. destruct (N.eq_dec n 0) as [->|Hz]; [done|]. rewrite N.size_log2 by done.
  assert (N.log2 n < 63); [|lia]. apply N.log2_lt_pow2; lia.
Qed.

Lemma int_of_N_str n : (len (N_str n) <= int_max_str_digits)%Z -> int_of_str (N_str n) = Some (Z.of_N n).
Proof.
  intros Hl. pose proof (N_str_digit n) as Hd. unfold int_of_str.
  rewrite to_ascii_digits, strip_spaces_digits, drop_underscores_digits by done.
  destruct (N_str n) as [|c t] eqn:E.
  { exfalso. pose proof (digits_value_N_str n) as Hv. rewrite E in Hv. cbn in Hv. subst n. by vm_compute in E. }
  assert (48 <= c <= 57) as Hc by (apply digit_range; by inversion Hd).
  assert (strip_char 45 (c :: t) = None) as -> by (unfold strip_char; destruct (N.eqb_spec c 45); [lia|done]).
  assert (strip_char 43 (c :: t) = None) as -> by (unfold strip_char; destruct (N.eqb_spec c 43); [lia|done]).
  rewrite <- E. unfold unsigned_int. rewrite bool_decide_eq_false_2 by (by rewrite E).
  assert (forallb is_digit (N_str n) = true) as -> by (apply forallb_Forall, N_str_digit).
  destruct (Z.ltb_spec int_max_str_digits (len (N_str n))); [rewrite E in *; lia|]. by rewrite digits_value_N_str.
Qed.
End facts.
