(* ===== verification/Udp.v ===== *)
(** * UDP broadcast ([_UdpProtocol] and [UdpBroadcastTransport] of [peerq/transport.py])

    What the protocol keeps of the datagrams that arrive and what it agrees to send.  Creating and
    configuring the socket is outside the model: [udp_open] says whether there is an endpoint. *)

From Stdlib Require Import ZArith NArith Lia.
From S2P Require Import Prelude PyFloat Text Json JsonFacts Security Consensus Crypto Wal Message SimNetwork.
From S2P Require Import FloatText PyText.
Open Scope Z_scope.

Record UdpBroadcastTransport := {
  udp_port : Z;
  broadcast_addr : pystr;
  udp_security : SecurityConfig;
  udp_limiter : RateLimiter;
  udp_inbox : list (pystr * list byte);
  udp_open : bool;
}.

Definition with_limiter (rl : RateLimiter) (u : UdpBroadcastTransport) : UdpBroadcastTransport := {|
  udp_port := udp_port u; broadcast_addr := broadcast_addr u; udp_security := udp_security u; udp_limiter := rl;
  udp_inbox := udp_inbox u; udp_open := udp_open u |}.

Definition with_inbox (l : list (pystr * list byte)) (u : UdpBroadcastTransport) : UdpBroadcastTransport := {|
  udp_port := udp_port u; broadcast_addr := broadcast_addr u; udp_security := udp_security u;
  udp_limiter := udp_limiter u; udp_inbox := l; udp_open := udp_open u |}.

Definition with_open (b : bool) (u : UdpBroadcastTransport) : UdpBroadcastTransport := {|
  udp_port := udp_port u; broadcast_addr := broadcast_addr u; udp_security := udp_security u;
  udp_limiter := udp_limiter u; udp_inbox := udp_inbox u; udp_open := b |}.

(** [UdpBroadcastTransport.__init__] *)
Definition udp_init (port : Z) (addr : pystr) (sec : SecurityConfig) : result UdpBroadcastTransport :=
  let! rl := rate_limiter_init (udp_rate_limit sec) (udp_rate_window_seconds sec) 1024 in
  Ok {| udp_port := port; broadcast_addr := addr; udp_security := sec; udp_limiter := rl; udp_inbox := [];
        udp_open := false |}.

(** [_is_multicast] *)
Definition is_multicast `{UnicodeDB} (ip : pystr) : bool :=
  match split_on 46 ip with
  | first :: _ =>
      match int_of_str first with
      | Some first_octet => (224 <=? first_octet) && (first_octet <=? 239)
      | None => false
      end
  | [] => false
  end.

(** [_UdpProtocol.datagram_received]; the protocol shares the inbox and the limiter. *)
Definition datagram_received (now : float) (source : pystr) (data : list byte) (u : UdpBroadcastTransport)
    : UdpBroadcastTransport :=
  if max_udp_payload (udp_security u) <? len data then u
  else
    let '(ok, rl) := allow source now (udp_limiter u) in
    let u := with_limiter rl u in
    if negb ok then u
    else if inbox_full (max_inbox_size (udp_security u)) (udp_inbox u) then u
    else with_inbox (udp_inbox u ++ [(source, data)]) u.

(** [send_broadcast]: the datagram and its destination, when one is sent. *)
Definition udp_send_broadcast (data : list byte) (u : UdpBroadcastTransport)
    : result (option (list byte * (pystr * Z))) :=
  raise_if (max_udp_payload (udp_security u) <? len data) MessageDecodeError ;;!
  Ok (if udp_open u then Some (data, (broadcast_addr u, udp_port u)) else None).

(** [recv_broadcast]: [None] while it waits. *)
Definition udp_recv_broadcast (u : UdpBroadcastTransport)
    : option ((pystr * list byte) * UdpBroadcastTransport) :=
  match udp_inbox u with
  | [] => None
  | d :: rest => Some (d, with_inbox rest u)
  end.

(** [close] *)
Definition udp_close (u : UdpBroadcastTransport) : UdpBroadcastTransport := with_open false u.

(** ** The inbox *)

(** The steps of a transport, with the datagrams that arrived so far. *)
Inductive udp_step : list (pystr * list byte) * UdpBroadcastTransport -> list (pystr * list byte) * UdpBroadcastTransport -> Prop :=
| step_datagram h u now source data :
    udp_step (h, u) (h ++ [(source, data)], datagram_received now source data u)
| step_recv_broadcast h u d u' : udp_recv_broadcast u = Some (d, u') -> udp_step (h, u) (h, u')
| step_open h u b : udp_step (h, u) (h, with_open b u).

Inductive udp_reachable (u0 : UdpBroadcastTransport) : list (pystr * list byte) * UdpBroadcastTransport -> Prop :=
| udp_start : udp_reachable u0 ([], u0)
| udp_next x y : udp_reachable u0 x -> udp_step x y -> udp_reachable u0 y.

Definition udp_inv (sec : SecurityConfig) (x : list (pystr * list byte) * UdpBroadcastTransport) : Prop :=
  udp_security x.2 = sec /\ rl_wf (udp_limiter x.2) /\
  (udp_inbox x.2 `sublist_of` x.1) /\
  Forall (fun d => len d.2 <= max_udp_payload sec) (udp_inbox x.2) /\
  (0 < max_inbox_size sec -> len (udp_inbox x.2) <= max_inbox_size sec).

Lemma udp_init_inv port addr sec u : udp_init port addr sec = Ok u -> udp_inv sec ([], u).
Proof.
  unfold udp_init, rate_limiter_init.
  destruct (Z.leb_spec (udp_rate_limit sec) 0); cbn [orb raise_if rbind]; [done|].
  destruct (py_le _ fzero); cbn [orb raise_if rbind]; [done|]. change (1024 <=? 0) with false. cbn.
  intros <-%Ok_inj. unfold udp_inv, rl_wf. cbn [fst snd udp_security udp_limiter udp_inbox rl_max_events rl_max_sources rl_events].
  split_and!; try done; try apply NoDup_nil_2; unfold len; cbn [length]; lia.
Qed.

Lemma datagram_inv sec h u now source data :
  udp_inv sec (h, u) -> udp_inv sec (h ++ [(source, data)], datagram_received now source data u).
Proof.
  unfold udp_inv. cbn [fst snd]. intros (Hsec & Hrl & Hsub & Hsize & Hcap).
  assert (udp_inbox u `sublist_of` h ++ [(source, data)]) as Hsub' by (by apply sublist_inserts_r).
  unfold datagram_received. rewrite Hsec. destruct (Z.ltb_spec (max_udp_payload sec) (len data)); [done|].
  destruct (rate_limiter_allow (udp_limiter u) source now Hrl) as [_ Hrl'].
  destruct (allow source now (udp_limiter u)) as [ok rl]. cbn [snd] in Hrl'.
  destruct ok; cbn [negb with_limiter udp_security udp_inbox udp_limiter]; [|done]. rewrite Hsec.
  unfold inbox_full. destruct (Z.leb_spec (max_inbox_size sec) 0).
  - cbn [with_inbox udp_security udp_inbox udp_limiter]. split_and!; [done|done|by apply sublist_app| |lia].
    apply Forall_app_2; [done|by constructor].
  - destruct (Z.leb_spec (max_inbox_size sec) (len (udp_inbox u)));
      cbn [with_inbox with_limiter udp_security udp_inbox udp_limiter]; [done|].
    split_and!; [done|done|by apply sublist_app| |].
    + apply Forall_app_2; [done|by constructor].
    + intros _. unfold len in *. rewrite length_app. cbn. lia.
Qed.

Lemma udp_step_inv sec x y : udp_step x y -> udp_inv sec x -> udp_inv sec y.
Proof.
  destruct 1 as [h u now source data|h u d u' E|h u b]; [apply datagram_inv| |done].
  unfold udp_recv_broadcast in E. destruct (udp_inbox u) as [|d' rest] eqn:Ei; [done|]. injection E as <- <-.
  unfold udp_inv. cbn [fst snd with_inbox udp_security udp_limiter udp_inbox]. rewrite Ei.
  intros (Hsec & Hrl & Hsub & Hsize & Hcap). split_and!; [done|done| | |].
  - etrans; [|exact Hsub]. by apply sublist_cons.
  - by inversion Hsize.
  - intros Hpos. specialize (Hcap Hpos). unfold len in *. cbn [length] in Hcap. lia.
Qed.

(** The UDP inbox is bounded and honest: in every sequence of datagrams, receptions, openings and
    closings, the inbox holds at most [max_inbox_size] datagrams, each within the limit on its size,
    and they are a subsequence of the datagrams that arrived, in their order; the memory of the rate
    limiter stays bounded. *)
Theorem udp_inbox_bounded (port : Z) (addr : pystr) (sec : SecurityConfig) (u0 : UdpBroadcastTransport)
    (h : list (pystr * list byte)) (u : UdpBroadcastTransport) :
  udp_init port addr sec = Ok u0 -> udp_reachable u0 (h, u) ->
  rl_wf (udp_limiter u) /\ (udp_inbox u `sublist_of` h) /\
  Forall (fun d => len d.2 <= max_udp_payload sec) (udp_inbox u) /\
  (0 < max_inbox_size sec -> len (udp_inbox u) <= max_inbox_size sec).
Proof.
  intros Hinit Hreach.
  assert (udp_inv sec (h, u)) as (_ & Hinv); [|exact Hinv].
  induction Hreach as [|x y _ IH Hstep]; [by eapply udp_init_inv|by eapply udp_step_inv].
Qed.

(** ** A sample *)

Example is_multicast_sample :
  map (@is_multicast ascii_db) [str "239.255.42.99"; str "192.168.1.255"; str "host"; str ""] =
  [true; false; false; false].
Proof. vm_compute. reflexivity. Qed.

Lemma udp_inbox_bounded_witness :
  exists u0, udp_init 19876 (str "239.255.42.99") default_security = Ok u0 /\
    udp_inbox (datagram_received fzero (str "10.0.0.1") (str_bytes "hello") u0) = [(str "10.0.0.1", str_bytes "hello")] /\
    len (udp_inbox (datagram_received fzero (str "10.0.0.1") (str_bytes "hello") u0)) <= max_inbox_size default_security.
Proof.
  eexists. split; [reflexivity|]. split; [vm_compute; reflexivity|].
  eapply (udp_inbox_bounded 19876 (str "239.255.42.99") default_security).
  - reflexivity.
  - eapply udp_next; [apply udp_start|apply step_datagram].
  - vm_compute. reflexivity.
Defined.
