(* ===== verification/Http.v ===== *)
(** * The HTTP status server ([HttpServer] of [peerq/transport.py])

    The handler of a connection: the request line and the headers under their limits, the bearer
    token, the answer, and what each exception turns into.  Streams are those of the TCP transport;
    the page handler is a parameter. *)

From Stdlib Require Import ZArith NArith Lia.
From S2P Require Import Prelude PyFloat Text Json JsonFacts Security Consensus Crypto Wal Message SimNetwork Tcp.
From S2P Require Import FloatText PyText.
Open Scope Z_scope.

(** [str.lower]: known on ASCII text, where the program's own keys are. *)
Class StrLower := {
  str_lower : pystr -> pystr;
  str_lower_ascii : forall s, Forall (fun c => (c < 128)%N) s -> str_lower s = lower <$> s;
}.

(** ** Text of a request *)

Definition is_cont (b : N) : bool := ((128 <=? b) && (b <=? 191))%N.

(** The second byte that may follow the first of a three- or four-byte sequence. *)
Definition second_ok (b0 b1 : N) : bool :=
  (if b0 =? 0xE0 then (0xA0 <=? b1) && (b1 <=? 0xBF)
   else if b0 =? 0xED then (0x80 <=? b1) && (b1 <=? 0x9F)
   else if b0 =? 0xF0 then (0x90 <=? b1) && (b1 <=? 0xBF)
   else if b0 =? 0xF4 then (0x80 <=? b1) && (b1 <=? 0x8F)
   else is_cont b1)%N.

(** [b.decode("utf-8", errors="replace")]: each longest ill-formed prefix becomes U+FFFD. *)
Fixpoint decode_replace (l : list N) : pystr :=
  (match l with
   | [] => []
   | b0 :: t =>
       if b0 <? 0x80 then b0 :: decode_replace t
       else if (0xC2 <=? b0) && (b0 <=? 0xDF) then
         match t with
         | b1 :: t1 =>
             if is_cont b1 then (64 * (b0 - 0xC0) + (b1 - 0x80)) :: decode_replace t1
             else 0xFFFD :: decode_replace t
         | [] => [0xFFFD]
         end
       else if (0xE0 <=? b0) && (b0 <=? 0xEF) then
         match t with
         | b1 :: t1 =>
             if second_ok b0 b1 then
               match t1 with
               | b2 :: t2 =>
                   if is_cont b2
                   then (4096 * (b0 - 0xE0) + 64 * (b1 - 0x80) + (b2 - 0x80)) :: decode_replace t2
                   else 0xFFFD :: decode_replace t1
               | [] => [0xFFFD]
               end
             else 0xFFFD :: decode_replace t
         | [] => [0xFFFD]
         end
       else if (0xF0 <=? b0) && (b0 <=? 0xF4) then
         match t with
         | b1 :: t1 =>
             if second_ok b0 b1 then
               match t1 with
               | b2 :: t2 =>
                   if is_cont b2 then
                     match t2 with
                     | b3 :: t3 =>
                         if is_cont b3
                         then (262144 * (b0 - 0xF0) + 4096 * (b1 - 0x80) + 64 * (b2 - 0x80) + (b3 - 0x80))
                                :: decode_replace t3
                         else 0xFFFD :: decode_replace t2
                     | [] => [0xFFFD]
                     end
                   else 0xFFFD :: decode_replace t1
               | [] => [0xFFFD]
               end
             else 0xFFFD :: decode_replace t
         | [] => [0xFFFD]
         end
       else 0xFFFD :: decode_replace t
   end)%N.

Definition text_of (b : list byte) : pystr := decode_replace (Byte.to_N <$> b).

(** [s.split()]: the words between runs of white space. *)
Fixpoint split_words `{UnicodeDB} (s word : pystr) : list pystr :=
  let flush := match word with [] => [] | _ => [reverse word] end in
  match s with
  | [] => flush
  | c :: s' => if py_isspace c then flush ++ split_words s' [] else split_words s' (c :: word)
  end.

(** The position of the first newline. *)
Fixpoint newline_at (l : list byte) : option Z :=
  match l with
  | [] => None
  | b :: l' => if Byte.eqb b Byte.x0a then Some 0 else (fun i => i + 1) <$> newline_at l'
  end.

(** [await asyncio.wait_for(reader.readline(), timeout)] on a stream with the given limit. *)
Definition readline (limit : Z) (s : Stream) : result (list byte) * Stream :=
  match newline_at (incoming s) with
  | Some i =>
      if limit <? i then (Raise ValueError, s)
      else (Ok (take (Z.to_nat (i + 1)) (incoming s)),
            {| incoming := drop (Z.to_nat (i + 1)) (incoming s); ending := ending s |})
  | None =>
      if limit <? len (incoming s) then (Raise ValueError, s)
      else
        match ending s with
        | Eof => (Ok (incoming s), {| incoming := []; ending := Eof |})
        | Stalled => (Raise TimeoutError, s)
        | Broken e => (Raise e, s)
        end
  end.

(** ** The server *)

Record HttpServer := {
  hs_security : SecurityConfig;
  auth_token : option pystr;
}.

(** [HttpServer._is_loopback_host] *)
Definition http_is_loopback_host (host : pystr) : bool :=
  if bool_decide (lower <$> host = str "localhost") then true else ip_is_loopback host.

(** [HttpServer.__init__] *)
Definition http_init (host : pystr) (sec : SecurityConfig) (token : option pystr) : result HttpServer :=
  raise_if (negb (http_is_loopback_host host) && match token with Some (_ :: _) => false | _ => true end)
    ValueError ;;!
  raise_if (match token with Some t => len t <? 32 | None => false end) ValueError ;;!
  Ok {| hs_security := sec; auth_token := token |}.

(** How the body of the [try] ends: without an answer, with the arguments of [_write_response], or
    with an exception and the values of [ctype] and [body] at that point. *)
Inductive HttpOutcome :=
| NoReply
| Reply (status : Z) (ctype : pystr) (body : list byte)
| Fails (e : exc) (ctype : pystr) (body : list byte).

Definition text_plain : pystr := str "text/plain; charset=utf-8".
Definition bad_request : list byte := str_bytes "Bad Request" ++ [Byte.x0a].
Definition line (s : string) : list byte := str_bytes s ++ [Byte.x0a].

(** Reading the headers: all of them with the rest of the stream, an early answer, or an exception;
    [HFuel] is never reached. *)
Inductive Headers :=
| HDone (headers : list (pystr * pystr)) (rest : Stream)
| HReply (status : Z) (body : list byte)
| HFail (e : exc)
| HFuel.

Section http.
Context `{UnicodeDB} `{StrLower}.

Definition blank_line (hdr : list byte) : bool :=
  bool_decide (hdr = []) || bool_decide (hdr = [Byte.x0d; Byte.x0a]) || bool_decide (hdr = [Byte.x0a]).

Fixpoint read_headers (fuel : nat) (limit header_bytes : Z) (headers : list (pystr * pystr)) (s : Stream)
    : Headers :=
  match fuel with
  | O => HFuel
  | S fuel =>
      match readline limit s with
      | (Raise e, _) => HFail e
      | (Ok hdr, s1) =>
          let header_bytes := header_bytes + len hdr in
          if limit <? header_bytes then HReply 431 (line "Request Header Fields Too Large")
          else if blank_line hdr then HDone headers s1
          else if negb (has_char 58 (Byte.to_N <$> hdr)) then HReply 400 bad_request
          else
            match split_first 58 (text_of hdr) with
            | Some (key, value) =>
                read_headers fuel limit header_bytes
                  (dict_set (str_lower (py_strip key)) (py_strip value) headers) s1
            | None => HFail ValueError
            end
      end
  end.

(** [hmac.compare_digest] of two strings, which must be ASCII. *)
Definition compare_digest (a b : pystr) : result bool :=
  if forallb (fun c => (c <? 128)%N) a && forallb (fun c => (c <? 128)%N) b
  then Ok (bool_decide (a = b)) else Raise TypeError.

(** The answer to a request whose headers were read. *)
Definition http_answer (handler : pystr -> pystr -> result (Z * pystr * list byte)) (srv : HttpServer)
    (method path : pystr) (headers : list (pystr * pystr)) (s : Stream) : HttpOutcome :=
  let sec := hs_security srv in
  let body_length := default (-1) (int_of_str (default (str "0") (dict_get (str "content-length") headers))) in
  let authorized :=
    match auth_token srv with
    | None => Ok true
    | Some token =>
        compare_digest (default [] (dict_get (str "authorization") headers)) (str "Bearer " ++ token)
    end in
  let finish (r : Z * pystr * list byte) :=
    let '(status, ctype, body) := r in
    if (status =? 200) && (max_http_body sec <? len body)
    then Reply 500 text_plain (line "Response too large") else Reply status ctype body in
  match authorized with
  | Raise e => Fails e text_plain bad_request
  | Ok false => finish (401, text_plain, line "Unauthorized")
  | Ok true =>
      if body_length <? 0 then finish (400, text_plain, line "Invalid Content-Length")
      else if max_http_body sec <? body_length then finish (413, text_plain, line "Request body too large")
      else if negb (body_length =? 0) then
        match (readexactly body_length s).1 with
        | Ok _ => finish (400, text_plain, line "Request body is not accepted")
        | Raise e => Fails e text_plain bad_request
        end
      else
        match handler method path with
        | Ok r => finish r
        | Raise e => Fails e text_plain bad_request
        end
  end.

(** The body of the [try] of [_handle_client]. *)
Definition http_request (handler : pystr -> pystr -> result (Z * pystr * list byte)) (srv : HttpServer)
    (s : Stream) : HttpOutcome :=
  let sec := hs_security srv in
  let limit := max_http_headers sec in
  match readline limit s with
  | (Raise e, _) => Fails e text_plain bad_request
  | (Ok line_bytes, s1) =>
      if bool_decide (line_bytes = []) then NoReply
      else if limit <? len line_bytes then Reply 431 text_plain (line "Request Header Fields Too Large")
      else
        match split_words (py_strip (text_of line_bytes)) [] with
        | [method; path; _] =>
            if 2048 <? len path then Reply 400 text_plain bad_request
            else
              match read_headers (S (length (incoming s1))) limit (len line_bytes) [] s1 with
              | HDone headers s2 => http_answer handler srv method path headers s2
              | HReply status body => Reply status text_plain body
              | HFail e => Fails e text_plain bad_request
              | HFuel => NoReply
              end
        | _ => Reply 400 text_plain bad_request
        end
  end.
End http.

(** [_write_response]: the bytes of an answer. *)
Definition reason (status : Z) : string :=
  match status with
  | 200 => "OK" | 400 => "Bad Request" | 401 => "Unauthorized" | 404 => "Not Found"
  | 405 => "Method Not Allowed" | 408 => "Request Timeout" | 413 => "Payload Too Large"
  | 431 => "Request Header Fields Too Large" | 500 => "Internal Server Error" | _ => "Unknown"
  end.

Definition crlf : pystr := [13%N; 10%N].

Definition response_header (status : Z) (ctype : pystr) (body : list byte) : pystr :=
  str "HTTP/1.1 " ++ Z_str status ++ str " " ++ str (reason status) ++ crlf ++
  str "Content-Type: " ++ ctype ++ crlf ++
  str "Content-Length: " ++ Z_str (len body) ++ crlf ++
  str "Cache-Control: no-store" ++ crlf ++
  str "X-Content-Type-Options: nosniff" ++ crlf ++
  str "Content-Security-Policy: default-src 'self'; frame-ancestors 'none'" ++ crlf ++
  (if status =? 401 then str "WWW-Authenticate: Bearer realm=peerq" ++ crlf else []) ++
  str "Connection: close" ++ crlf ++ crlf.

Definition response_bytes (status : Z) (ctype : pystr) (body : list byte) : result (list byte) :=
  match utf8_encode (response_header status ctype body) with
  | Some h => Ok (h ++ body)
  | None => Raise ValueError
  end.

(** The answer to an exception: its status and body, and whether a failure to send it is suppressed. *)
Definition error_answer (e : exc) (body : list byte) : Z * list byte * bool :=
  match e with
  | TimeoutError => (408, line "Request Timeout", false)
  | IncompleteReadError | ValueError | OSError | ConnectionResetError | ConnectionError | PermissionError =>
      (400, body, true)
  | _ => (500, line "Internal Server Error", true)
  end.

(** Writing an answer; [drain] is the exception of the stream's flow control, if any. *)
Definition write_response (drain : option exc) (status : Z) (ctype : pystr) (body : list byte)
    : result () * list byte :=
  match response_bytes status ctype body with
  | Raise e => (Raise e, [])
  | Ok data => (match drain with None => Ok () | Some e => Raise e end, data)
  end.

Definition write_error (drain : option exc) (e : exc) (ctype : pystr) (body : list byte)
    : result () * list byte :=
  let '(status, b, suppressed) := error_answer e body in
  let '(r, data) := write_response drain status ctype b in
  (if suppressed then Ok () else r, data).

(** [_handle_client]: how it ends and all it writes; [d1] and [d2] are the outcomes of its first and
    second [drain]. *)
Definition http_handle (d1 d2 : option exc) (o : HttpOutcome) : result () * list byte :=
  match o with
  | NoReply => (Ok (), [])
  | Fails e ctype body => write_error d1 e ctype body
  | Reply status ctype body =>
      match write_response d1 status ctype body with
      | (Ok _, data) => (Ok (), data)
      | (Raise e, data) => let '(r, data2) := write_error d2 e ctype body in (r, data ++ data2)
      end
  end.

(** ** Theorems *)

Section http_theorems.
Context `{UnicodeDB} `{StrLower}.

Lemma newline_at_range l i : newline_at l = Some i -> 0 <= i < len l.
Proof.
  revert i. induction l as [|b l IH]; intros i; cbn; [done|]. unfold len in *. cbn [length].
  destruct (Byte.eqb b Byte.x0a); [intros [= <-]; lia|].
  destruct (newline_at l) as [j|]; [|done]. intros [= <-]. specialize (IH j eq_refl). lia.
Qed.

(** A line is empty only at the end of the stream, and otherwise shortens it. *)
Lemma readline_shrinks limit s l s1 :
  readline limit s = (Ok l, s1) ->
  (l = [] /\ incoming s = []) \/ (length (incoming s1) < length (incoming s))%nat.
Proof.
  unfold readline. destruct (newline_at (incoming s)) as [i|] eqn:Ei.
  - apply newline_at_range in Ei. destruct (limit <? i); [done|]. intros [= <- <-]. right.
    unfold len in Ei. cbn. rewrite length_drop. lia.
  - destruct (limit <? len (incoming s)); [done|]. destruct (ending s); try done. intros [= <- <-]. cbn.
    destruct (incoming s); [by left|right; cbn; lia].
Qed.

(** The headers are read with the fuel that is given. *)
Lemma read_headers_total fuel limit n hs s :
  (length (incoming s) < fuel)%nat -> read_headers fuel limit n hs s <> HFuel.
Proof.
  revert n hs s. induction fuel as [|fuel IH]; intros n hs s Hlen; [lia|]. cbn [read_headers].
  destruct (readline limit s) as [[hdr|e] s1] eqn:Er; [|done].
  destruct (limit <? n + len hdr); [done|]. destruct (blank_line hdr) eqn:Eb; [done|].
  destruct (negb _); [done|]. destruct (split_first 58 (text_of hdr)) as [[key value]|]; [|done].
  apply IH. apply readline_shrinks in Er as [[-> _]|Hlt]; [done|lia].
Qed.

Lemma read_headers_reply fuel limit n hs s status body :
  read_headers fuel limit n hs s = HReply status body -> status = 431 \/ status = 400.
Proof.
  revert n hs s. induction fuel as [|fuel IH]; intros n hs s; cbn [read_headers]; [done|].
  destruct (readline limit s) as [[hdr|e] s1]; [|done]. destruct (limit <? _); [intros [= <- _]; by left|].
  destruct (blank_line hdr); [done|]. destruct (negb _); [intros [= <- _]; by right|].
  destruct (split_first _ _) as [[]|]; [apply IH|done].
Qed.

(** The part of a request that comes before its answer does not consult the handler. *)
Lemma http_request_cases srv s :
  (exists o, forall h, http_request h srv s = o) \/
  (exists method path headers s2, forall h, http_request h srv s = http_answer h srv method path headers s2).
Proof.
  unfold http_request. destruct (readline _ s) as [[l|e] s1]; [|left; by eexists].
  destruct (bool_decide (l = [])); [left; by eexists|]. destruct (_ <? len l); [left; by eexists|].
  destruct (split_words _ _) as [|method [|path [|v [|]]]]; try (left; by eexists).
  destruct (2048 <? len path); [left; by eexists|].
  destruct (read_headers _ _ _ _ _); try (left; by eexists). right. by eexists _, _, _, _.
Qed.


(** What may end a request: nothing, an answer of the server or of the handler, or an exception. *)
Definition outcome_ok (P : Z -> pystr -> Prop) (o : HttpOutcome) : Prop :=
  match o with
  | NoReply => False
  | Reply status ctype body => P status ctype
  | Fails e ctype body => ctype = text_plain
  end.

Lemma http_answer_outcome (P : Z -> pystr -> Prop) h srv method path headers s2 :
  (forall status, status ∈ [400; 401; 413; 431; 500] -> P status text_plain) ->
  (forall status ctype body, h method path = Ok (status, ctype, body) -> P status ctype) ->
  outcome_ok P (http_answer h srv method path headers s2).
Proof.
  intros Hown Hh. unfold http_answer.
  destruct (match auth_token srv with None => _ | Some t => _ end) as [[|]|e]; [|apply Hown; set_solver|done].
  destruct (_ <? 0); [apply Hown; set_solver|]. destruct (_ <? default _ _); [apply Hown; set_solver|].
  destruct (negb _); [destruct (readexactly _ s2) as [[]]; [apply Hown; set_solver|done]|].
  destruct (h method path) as [[[status ct] b]|e] eqn:Eh; [|done].
  destruct (_ && _); [apply Hown; set_solver|by eapply Hh].
Qed.

Lemma http_request_outcome (P : Z -> pystr -> Prop) h srv s :
  (forall status, status ∈ [400; 401; 413; 431; 500] -> P status text_plain) ->
  (forall method path status ctype body, h method path = Ok (status, ctype, body) -> P status ctype) ->
  (http_request h srv s = NoReply /\ incoming s = [] /\ ending s = Eof) \/ outcome_ok P (http_request h srv s).
Proof.
  intros Hown Hh. unfold http_request. destruct (readline _ s) as [[l|e] s1] eqn:Er; [|by right].
  destruct (bool_decide (l = [])) eqn:El.
  { left. split; [done|]. apply bool_decide_eq_true in El as ->. unfold readline in Er.
    destruct (newline_at (incoming s)) as [i|] eqn:Ei.
    - apply newline_at_range in Ei. destruct (_ <? i); [done|]. injection Er as Er _.
      apply (f_equal length) in Er. rewrite length_take in Er. unfold len in Ei. cbn in Er. lia.
    - destruct (_ <? len _); [done|]. destruct (ending s); try done. by injection Er as -> _. }
  right. destruct (_ <? len l); [apply Hown; set_solver|].
  destruct (split_words _ _) as [|method [|path [|v [|]]]]; try (apply Hown; set_solver).
  destruct (2048 <? len path); [apply Hown; set_solver|].
  destruct (read_headers _ _ _ _ _) as [hs s2|status body|e|] eqn:Eh; [|..|done|].
  - apply http_answer_outcome; eauto.
  - apply read_headers_reply in Eh as [-> | ->]; apply Hown; set_solver.
  - exfalso. by apply read_headers_total in Eh; [|lia].
Qed.

(** A page is sent in full exactly when it fits the limit on bodies. *)
Lemma http_request_bounded h srv s ctype body :
  http_request h srv s = Reply 200 ctype body -> len body <= max_http_body (hs_security srv).
Proof.
  unfold http_request. destruct (readline _ s) as [[l|e] s1]; [|done].
  destruct (bool_decide (l = [])); [done|].
  destruct (_ <? len l); [done|]. destruct (split_words _ _) as [|method [|path [|v [|]]]]; try done.
  destruct (2048 <? len path); [done|].
  destruct (read_headers _ _ _ _ _) as [hs s2|status b|e|] eqn:Eh; [|..|done|done].
  - unfold http_answer. destruct (match auth_token srv with None => _ | Some t => _ end) as [[|]|e]; [|done..].
    destruct (_ <? 0); [done|]. destruct (_ <? default _ _); [done|].
    destruct (negb _); [by destruct (readexactly _ s2) as [[]]|].
    destruct (h method path) as [[[status ct] b]|e]; [|done].
    destruct (Z.eqb_spec status 200) as [->|Hne]; cbn [andb]; [|by intros [= -> _ _]].
    destruct (Z.ltb_spec (max_http_body (hs_security srv)) (len b)); [done|]. by intros [= _ <-].
  - intros [= -> _ _]. by apply read_headers_reply in Eh as [?|?].
Qed.
End http_theorems.

(** ** A sample *)

Definition ascii_lower : StrLower := {| str_lower := fun s => lower <$> s; str_lower_ascii := fun _ _ => eq_refl |}.
#[export] Existing Instance ascii_lower.
#[local] Existing Instance ascii_db.

Definition sample_token : pystr := str "0123456789abcdef0123456789abcdef".
Definition sample_server : HttpServer := {| hs_security := default_security; auth_token := Some sample_token |}.
Definition crlf_bytes : list byte := [Byte.x0d; Byte.x0a].
Definition sample_request (auth : list byte) : Stream := {|
  incoming := str_bytes "GET /healthz HTTP/1.1" ++ crlf_bytes ++ str_bytes "AUTHORIZATION:  " ++ auth ++ crlf_bytes
                ++ crlf_bytes;
  ending := Stalled |}.

Example sample_request_answered :
  http_request (fun _ _ => Ok (200, str "t", line "OK")) sample_server
    (sample_request (str_bytes "Bearer 0123456789abcdef0123456789abcdef")) = Reply 200 (str "t") (line "OK").
Proof. vm_compute. reflexivity. Qed.

