(* ===== verification/Node.v ===== *)
(** * The peer node ([peerq/node.py])

    The coordinator that ties the components together.  A node is its configuration ([NodeConfig])
    and its mutable state ([NodeState]); its methods are computations of a state and exception
    monad in which, as in the source, an exception leaves the effects made before it in place.

    Clock readings, nonces and random choices come from an arbitrary [World], indexed by the number
    of readings made so far.  A coroutine is cut at its suspension points: [transport.send],
    [clock.sleep], [handler] and [queue.get]; a call of [transport.send], whose exceptions the code
    suppresses, puts the message in the node's [outbox]. *)

From Stdlib Require Import ZArith NArith Lia.
From S2P Require Import Prelude PyFloat Text Json JsonFacts Security Consensus Crypto Lattice Heapq Queue.
From S2P Require Import Wal Metrics Failure Message Sha256 FloatText.
Open Scope Z_scope.

(** ** The rendezvous election *)

(** [hashlib.sha256(f"{task_id}:{p}".encode()).digest()[:8]] as a big-endian integer. *)
Definition score (task_id p : pystr) : result Z :=
  match utf8_encode (task_id ++ str ":" ++ p) with
  | Some b => Ok (of_be (take 8 (sha256 b)))
  | None => Raise ValueError
  end.

(** [max(candidates, key=score)]: the first of the candidates with the greatest score. *)
Fixpoint max_by_score (task_id best : pystr) (best_score : Z) (l : list pystr) : result pystr :=
  match l with
  | [] => Ok best
  | p :: l' =>
      let! s := score task_id p in
      if best_score <? s then max_by_score task_id p s l' else max_by_score task_id best best_score l'
  end.

Definition rendezvous_reclaimer (task_id : pystr) (candidate_peers : list pystr) : result (option pystr) :=
  match candidate_peers with
  | [] => Ok None
  | p :: l => let! s := score task_id p in rmap Some (max_by_score task_id p s l)
  end.

(** ** Configuration and state *)

Class World := {
  now_at : nat -> float;
  wall_at : nat -> float;
  nonce_at : nat -> pystr;
  choice_at : nat -> nat;
}.

Inductive Loop := RecvLoop | HeartbeatLoop | GossipLoop | ReclaimLoop | WorkerLoop.
Global Instance Loop_eq_dec : EqDecision Loop.
Proof. solve_decision. Defined.

Inductive LoopStatus := Live | Crashed (e : exc) | Cancelled.

(** The local variables of an iteration of the worker. *)
Record WorkItem := {
  w_task_id : pystr;
  w_record : TaskRecord;
  w_token : FenceToken;
  w_lease_exp : float;
}.

(** Where the worker is suspended. *)
Inductive WorkerPhase :=
| WIdle
| WClaimed (w : WorkItem)
| WRunning (w : WorkItem)
| WCommitted (w : WorkItem) (new_state : TaskState).

(** Where the reclaim loop is suspended: asleep, or in the middle of its audit. *)
Inductive ReclaimPhase :=
| RIdle
| RAudit (now : float) (live_peers : list pystr) (items : list (pystr * TaskRecord)).

Inductive HandlerOutcome := HReturn (result : list byte) | HRaise (error : pystr).

Record NodeState := {
  message_replay : ReplayCache;
  tasks : list (pystr * TaskRecord);
  queue : PriorityQueue pystr;
  queued_task_ids : gset pystr;
  node_clock : VectorClock;
  failure_detector : PhiAccrualDetector;
  metrics : MetricsCollector;
  flow_controller : CreditFlow;
  wal : option WriteAheadLog;
  running : bool;
  bg_tasks : list (Loop * LoopStatus);
  worker : WorkerPhase;
  reclaimer : ReclaimPhase;
  outbox : list (pystr * Message);
  ticks : nat;
}.

Record NodeConfig `{Ed25519} := {
  node_id : pystr;
  peers : list pystr;
  has_handler : bool;
  lease_duration : float;
  identity : PrivateKey;
  keyring : PeerKeyRing;
  security : SecurityConfig;
  max_tasks : Z;
}.

(** Updates of one field. *)
Definition upd (st : NodeState) (rp : ReplayCache) (ts : list (pystr * TaskRecord)) (q : PriorityQueue pystr)
    (qi : gset pystr) (vc : VectorClock) (w : option WriteAheadLog) : NodeState := {|
  message_replay := rp; tasks := ts; queue := q; queued_task_ids := qi; node_clock := vc;
  failure_detector := failure_detector st; metrics := metrics st; flow_controller := flow_controller st;
  wal := w; running := running st; bg_tasks := bg_tasks st; worker := worker st;
  reclaimer := reclaimer st; outbox := outbox st; ticks := ticks st |}.

Definition set_replay rp st := upd st rp (tasks st) (queue st) (queued_task_ids st) (node_clock st) (wal st).
Definition set_tasks ts st := upd st (message_replay st) ts (queue st) (queued_task_ids st) (node_clock st) (wal st).
Definition set_queue q st := upd st (message_replay st) (tasks st) q (queued_task_ids st) (node_clock st) (wal st).
Definition set_queued qi st := upd st (message_replay st) (tasks st) (queue st) qi (node_clock st) (wal st).
Definition set_clock vc st := upd st (message_replay st) (tasks st) (queue st) (queued_task_ids st) vc (wal st).
Definition set_wal w st := upd st (message_replay st) (tasks st) (queue st) (queued_task_ids st) (node_clock st) w.

Definition upd2 (st : NodeState) (d : PhiAccrualDetector) (m : MetricsCollector) (f : CreditFlow) (r : bool)
    (bg : list (Loop * LoopStatus)) (w : WorkerPhase) (rc : ReclaimPhase) (o : list (pystr * Message))
    (n : nat) : NodeState := {|
  message_replay := message_replay st; tasks := tasks st; queue := queue st;
  queued_task_ids := queued_task_ids st; node_clock := node_clock st;
  failure_detector := d; metrics := m; flow_controller := f; wal := wal st; running := r; bg_tasks := bg;
  worker := w; reclaimer := rc; outbox := o; ticks := n |}.

Definition set_detector d st := upd2 st d (metrics st) (flow_controller st) (running st) (bg_tasks st)
  (worker st) (reclaimer st) (outbox st) (ticks st).
Definition set_metrics m st := upd2 st (failure_detector st) m (flow_controller st) (running st) (bg_tasks st)
  (worker st) (reclaimer st) (outbox st) (ticks st).
Definition set_flow f st := upd2 st (failure_detector st) (metrics st) f (running st) (bg_tasks st)
  (worker st) (reclaimer st) (outbox st) (ticks st).
Definition set_running r st := upd2 st (failure_detector st) (metrics st) (flow_controller st) r (bg_tasks st)
  (worker st) (reclaimer st) (outbox st) (ticks st).
Definition set_bg bg st := upd2 st (failure_detector st) (metrics st) (flow_controller st) (running st) bg
  (worker st) (reclaimer st) (outbox st) (ticks st).
Definition set_worker w st := upd2 st (failure_detector st) (metrics st) (flow_controller st) (running st)
  (bg_tasks st) w (reclaimer st) (outbox st) (ticks st).
Definition set_reclaimer rc st := upd2 st (failure_detector st) (metrics st) (flow_controller st) (running st)
  (bg_tasks st) (worker st) rc (outbox st) (ticks st).
Definition set_outbox o st := upd2 st (failure_detector st) (metrics st) (flow_controller st) (running st)
  (bg_tasks st) (worker st) (reclaimer st) o (ticks st).
Definition tick st := upd2 st (failure_detector st) (metrics st) (flow_controller st) (running st)
  (bg_tasks st) (worker st) (reclaimer st) (outbox st) (S (ticks st)).

(** ** The monad of the node's methods *)

Definition M (A : Type) : Type := NodeState -> result A * NodeState.

Definition nret {A} (a : A) : M A := fun st => (Ok a, st).
Definition nbind {A B} (m : M A) (k : A -> M B) : M B := fun st =>
  match m st with (Ok a, st') => k a st' | (Raise e, st') => (Raise e, st') end.
Definition lift {A} (r : result A) : M A := fun st => (r, st).
Definition gets {A} (f : NodeState -> A) : M A := fun st => (Ok (f st), st).
Definition modify (f : NodeState -> NodeState) : M () := fun st => (Ok (), f st).
(** [try: m except ...: h], and [with contextlib.suppress(...): m]. *)
Definition ncatch {A} (p : exc -> bool) (m : M A) (h : M A) : M A := fun st =>
  match m st with
  | (Raise e, st') => if p e then h st' else (Raise e, st')
  | r => r
  end.
Definition suppress (p : exc -> bool) (m : M ()) : M () := ncatch p m (nret ()).
Definition when (c : bool) (m : M ()) : M () := if c then m else nret ().
Fixpoint for_each {A} (f : A -> M ()) (l : list A) : M () :=
  match l with
  | [] => nret ()
  | x :: l' => nbind (f x) (fun _ => for_each f l')
  end.

Declare Scope node_scope.
Open Scope node_scope.
Notation "'let*' x ':=' c 'in' k" := (nbind c (fun x => k))
  (at level 10, x pattern, c at level 100, k at level 200) : node_scope.
Notation "c ';;*' k" := (nbind c (fun _ => k)) (at level 199, right associativity) : node_scope.

Definition is_queue_full (e : exc) : bool := bool_decide (e = QueueFull).
Definition is_value_error (e : exc) : bool := bool_decide (e = ValueError).

(** The keys in the order of their first occurrence: [list(dict.fromkeys(l))]. *)
Definition from_keys (l : list pystr) : list pystr :=
  foldl (fun acc p => if bool_decide (p ∈ acc) then acc else acc ++ [p]) [] l.

(** [float(v)] of a decoded JSON value under [suppress(Exception)]. *)
Definition float_of_json `{UnicodeDB} (v : json) : option float :=
  match v with
  | JInt z => match float_of_int z with Ok f => Some f | Raise _ => None end
  | JFloat f => Some f
  | JBool b => Some (if b then decimal_float false 1 0 else fzero)
  | JStr s => float_of_str s
  | _ => None
  end.

(** The [lease_duration] a payload carries, if it is a JSON object with that key. *)
Definition payload_lease `{UnicodeDB} (p : list byte) : option float :=
  match utf8_decode p with
  | Some t =>
      match @loads_text true t with
      | Some (JObj d) =>
          match dict_get (str "lease_duration") d with Some v => float_of_json v | None => None end
      | _ => None
      end
  | None => None
  end.

Section node.
Context `{Ed25519} `{MathLib} `{UnicodeDB} `{World}.

(** ** Construction *)

(** The lease of a node: the argument, unless it is absent or the default of five seconds and the
    environment variable [PEERQ_LEASE_DURATION] holds a number. *)
Definition choose_lease (lease : option float) (env_lease : option pystr) : float :=
  let five := decimal_float false 5 0 in
  let is_default := match lease with None => true | Some l => py_eq l five end in
  let lease :=
    if is_default then
      match env_lease with
      | Some ((_ :: _) as s) => match float_of_str s with Some f => Some f | None => lease end
      | _ => lease
      end
    else lease in
  default five lease.

(** [PeerNode.__init__]; [key] is the identity given or the one generated. *)
Definition node_init (math_log2 : float -> float) (nid : pystr) (peer_args : list pystr) (handler : bool)
    (lease : option float) (env_lease : option pystr) (max_queue_size initial_credits : Z)
    (log : option WriteAheadLog) (key : PrivateKey) (ring : PeerKeyRing) (sec : SecurityConfig)
    (tasks_limit : Z) : result (NodeConfig * NodeState) :=
  raise_if (bool_decide (nid = []) || (MAX_PEER_ID_LENGTH <? len nid)) ValueError ;;!
  let ps := from_keys (filter (fun p => p <> nid) peer_args) in
  raise_if (existsb (fun p => bool_decide (p = []) || (MAX_PEER_ID_LENGTH <? len p)) ps) ValueError ;;!
  let! ring :=
    match get_peer_key nid ring with
    | None => add_peer nid (KeyWrapper (public_key key)) ring
    | Some k =>
        raise_if (negb (bool_decide (public_bytes k = public_bytes (public_key key)))) ValueError ;;!
        Ok ring
    end in
  raise_if (tasks_limit <=? 0) ValueError ;;!
  let! rc := replay_cache_init (replay_cache_size sec) in
  let! ms := metrics_init math_log2 7 in
  Ok ({| node_id := nid; peers := ps; has_handler := handler; lease_duration := choose_lease lease env_lease;
         identity := key; keyring := ring; security := sec; max_tasks := tasks_limit |},
      {| message_replay := rc; tasks := []; queue := queue_init max_queue_size REJECT_ON_FULL;
         queued_task_ids := ∅; node_clock := VectorClock_init {[nid := 0]};
         failure_detector := detector_init 1000 5 (decimal_float false 1 (-4)); metrics := ms;
         flow_controller := foldl (fun f p => init_peer p (Some initial_credits) f)
                              (credit_flow_init initial_credits) ps;
         wal := log; running := false; bg_tasks := []; worker := WIdle; reclaimer := RIdle; outbox := [];
         ticks := 0 |}).

Context (cfg : NodeConfig).

(** ** Readings of the environment *)

Definition clock_now : M float := fun st => (Ok (now_at (ticks st)), tick st).
Definition clock_wall : M float := fun st => (Ok (wall_at (ticks st)), tick st).
Definition token_hex : M pystr := fun st => (Ok (nonce_at (ticks st)), tick st).
Definition rng_index : M nat := fun st => (Ok (choice_at (ticks st)), tick st).

(** ** Helpers *)

Definition incr (name : string) : M () :=
  modify (fun st => set_metrics (increment_counter (str name) 1 (metrics st)) st).

(** [self._tasks[task_id] = record] *)
Definition store_task (tid : pystr) (r : TaskRecord) : M () :=
  modify (fun st => set_tasks (dict_set tid r (tasks st)) st).

(** [self._vector_clock = self._vector_clock.increment(self.node_id)] *)
Definition bump_clock : M () :=
  modify (fun st => set_clock (increment (node_clock st) (node_id cfg)) st).

(** [with suppress(QueueFull): self._queue.put_nowait(tid, priority); self._queued_task_ids.add(tid)] *)
Definition enqueue (tid : pystr) (priority : Z) : M () :=
  suppress is_queue_full
    (let* q := gets queue in
     let* q' := lift (put_nowait tid priority q) in
     modify (set_queue q') ;;*
     modify (fun st => set_queued ({[tid]} ∪ queued_task_ids st) st)).

(** [self._queue.put_nowait] of a task that is pending and not yet queued. *)
Definition requeue_pending (tid : pystr) (r : TaskRecord) : M () :=
  let* qi := gets queued_task_ids in
  when (bool_decide (state r = PENDING) && negb (bool_decide (tid ∈ qi))) (enqueue tid 0).

(** [if self.wal is not None: append_task(record); append_clock(self._vector_clock)] *)
Definition wal_append (r : TaskRecord) : M () :=
  let* w := gets wal in
  match w with
  | None => nret ()
  | Some log =>
      let* ow := lift (append_task r log) in
      modify (set_wal (Some ow.2)) ;;*
      let* vc := gets node_clock in
      let* ow' := lift (append_clock vc ow.2) in
      modify (set_wal (Some ow'.2))
  end.

Definition send (peer : pystr) (m : Message) : M () :=
  modify (fun st => set_outbox (outbox st ++ [(peer, m)]) st).

(** [_seal_record] *)
Definition seal_record (r : TaskRecord) : M TaskRecord :=
  if negb (enabled (security cfg)) then nret r
  else lift (sign_task (identity cfg) r (node_id cfg)).

(** [_signed_message] *)
Definition signed_message (mt : pystr) (p : list (pystr * json)) : M Message :=
  let message := {| msg_type := mt; sender_id := node_id cfg; msg_payload := p; timestamp := None;
                    nonce := None; msg_signature := None;
                    msg_version := protocol_version (security cfg) |} in
  let* ts := clock_wall in
  let* n := token_hex in
  lift (signed (identity cfg) ts n message).

(** [_authenticate_message] *)
Definition authenticate_message (sender : pystr) (m : Message) : M bool :=
  if negb (enabled (security cfg)) then nret true
  else if negb (bool_decide (sender = sender_id m)) then nret false
  else if negb (msg_version m =? protocol_version (security cfg)) then nret false
  else if negb (bool_decide (msg_type m ∈ [str "heartbeat"; str "gossip"; str "credit"])) then nret false
  else if negb (has_peer sender (keyring cfg)) then nret false
  else
    let* ok := lift (verify_signature m (keyring cfg)) in
    if negb ok then nret false
    else
      match timestamp m, nonce m with
      | Some ts, Some n =>
          let* now := clock_wall in
          if py_gt (fabs (fsub now ts)) (replay_window_seconds (security cfg)) then nret false
          else
            fun st =>
              let '(fresh, rc) :=
                check_and_remember sender n now (replay_window_seconds (security cfg)) (message_replay st) in
              (Ok fresh, set_replay rc st)
      | _, _ => nret false
      end.

Definition get_task (tid : pystr) (st : NodeState) : option TaskRecord := dict_get tid (tasks st).

(** [keyring=self.keyring if self.security.enabled else None] *)
Definition merge_keyring : option PeerKeyRing :=
  if enabled (security cfg) then Some (keyring cfg) else None.

(** ** Submission *)

(** [submit_task]; the queue has the policy [REJECT_ON_FULL], under which [put] does not wait. *)
Definition submit_task (tid : pystr) (p : list byte) (priority : Z) : M () :=
  lift (raise_if (bool_decide (tid = []) || (MAX_TASK_ID_LENGTH <? len tid)) ValueError) ;;*
  lift (raise_if (MAX_TASK_PAYLOAD <? len p) ValueError) ;;*
  let* ts := gets tasks in
  (if negb (dict_mem tid ts) && (max_tasks cfg <=? len ts)
   then incr "rejected" ;;* lift (Raise QueueFull) else nret ()) ;;*
  bump_clock ;;*
  let* vc := gets node_clock in
  let* r := seal_record {| task_id := tid; state := PENDING; payload := p; task_result := None;
                           task_error := None; claimed_by := None; fence_token := ftoken 0 [];
                           lease_expiry := fzero; vector_clock := vc; updated_by := node_id cfg;
                           signature := None; signer_id := None |} in
  store_task tid r ;;*
  incr "enqueued" ;;*
  wal_append r ;;*
  let* q := gets queue in
  match put_section tid priority q with
  | Ok (Some q') =>
      modify (set_queue q') ;;* modify (fun st => set_queued ({[tid]} ∪ queued_task_ids st) st)
  | Ok None => nret ()
  | Raise e => when (is_queue_full e) (incr "rejected") ;;* lift (Raise e)
  end.

(** ** Reception *)

Definition rejected : M () := incr "rejected".

(** The check of a gossiped record's origin. *)
Definition gossip_authorized (sender : pystr) (r : TaskRecord) : result bool :=
  if enabled (security cfg) then
    if bool_decide (signer_id r = Some sender) then verify_task_authorization r (keyring cfg) else Ok false
  else Ok true.

(** The tail of the iteration: the record [stored] is in the task table. *)
Definition gossip_commit (tid : pystr) (stored remote_rec : TaskRecord) : M () :=
  store_task tid stored ;;*
  requeue_pending tid stored ;;*
  modify (fun st => set_clock (vc_merge (node_clock st) (vector_clock remote_rec)) st) ;;*
  wal_append stored.

(** One iteration of the loop over a gossip's records. *)
Definition gossip_entry (sender : pystr) (entry : pystr * json) : M () :=
  let '(tid, raw_rec) := entry in
  match from_dict raw_rec with
  | Raise e => if catches_type_value e then rejected else lift (Raise e)
  | Ok remote_rec =>
      if negb (bool_decide (task_id remote_rec = tid)) then rejected
      else
        let* authorized := lift (gossip_authorized sender remote_rec) in
        if negb authorized then rejected
        else
          let* ts := gets tasks in
          match dict_get tid ts with
          | None =>
              if max_tasks cfg <=? len ts then rejected else gossip_commit tid remote_rec remote_rec
          | Some local_rec =>
              match merge_records local_rec remote_rec merge_keyring with
              | Raise ValueError => rejected
              | Raise e => lift (Raise e)
              | Ok merged => gossip_commit tid merged remote_rec
              end
          end
  end.

(** The body of [_recv_loop] for the message [m] received from [sender]. *)
Definition receive (sender : pystr) (m : Message) : M () :=
  let* ok := authenticate_message sender m in
  if negb ok then rejected
  else if bool_decide (msg_type m = str "heartbeat") then
    let* now := clock_now in
    modify (fun st => set_detector (heartbeat sender now (failure_detector st)) st)
  else if bool_decide (msg_type m = str "gossip") then
    match default (JObj []) (dict_get (str "tasks") (msg_payload m)) with
    | JObj raw_tasks =>
        if max_gossip_tasks (security cfg) <? len raw_tasks then rejected
        else for_each (gossip_entry sender) raw_tasks
    | _ => rejected
    end
  else if bool_decide (msg_type m = str "credit") then
    match default (JInt 1) (dict_get (str "amount") (msg_payload m)) with
    | JInt amount =>
        if (amount <? 0) || (max_credit_amount (security cfg) <? amount) then rejected
        else modify (fun st => set_flow (replenish sender amount (flow_controller st)) st)
    | _ => rejected
    end
  else nret ().

(** ** Dissemination *)

(** An iteration of [_heartbeat_loop]. *)
Definition heartbeat_round : M () :=
  let* now := clock_now in
  let* m := signed_message (str "heartbeat") [(str "ts", JFloat now)] in
  for_each (fun p => send p m) (peers cfg).

(** The records a gossip round sends: the first ones in the order of their identifiers. *)
Definition gossip_payload (ts : list (pystr * TaskRecord)) : list (pystr * json) :=
  [(str "tasks", JObj ((fun kv => (kv.1, JObj (to_dict kv.2))) <$>
     take (Z.to_nat (max_gossip_tasks (security cfg))) (sort_items ts)))].

(** An iteration of [_gossip_loop] after its sleep. *)
Definition gossip_round : M () :=
  let* ts := gets tasks in
  match peers cfg, ts with
  | [], _ | _, [] => nret ()
  | ps, _ =>
      let* i := rng_index in
      let partner := nth (i mod length ps)%nat ps [] in
      let* m := signed_message (str "gossip") (gossip_payload ts) in
      send partner m
  end.

(** [_broadcast_task_update] *)
Definition broadcast_task_update (tid : pystr) (r : TaskRecord) : M () :=
  let* r := seal_record r in
  store_task tid r ;;*
  wal_append r ;;*
  let* m := signed_message (str "gossip") [(str "tasks", JObj [(tid, JObj (to_dict r))])] in
  for_each (fun p => send p m) (peers cfg).

(** ** The worker *)

(** The default threshold of [is_suspected]. *)
Definition phi_threshold : float := decimal_float false 8 0.

Definition suspected (peer : pystr) : M bool :=
  let* now := clock_now in
  let* d := gets failure_detector in
  lift (is_suspected peer phi_threshold now d).

(** [state in (CLAIMED, RUNNING) and claimed_by != self.node_id] *)
Definition held_elsewhere (r : TaskRecord) : bool :=
  (bool_decide (state r = CLAIMED) || bool_decide (state r = RUNNING)) &&
  negb (bool_decide (claimed_by r = Some (node_id cfg))).

Definition is_active_claim (now : float) (r : TaskRecord) : M bool :=
  if held_elsewhere r && py_gt (lease_expiry r) now
  then let* s := suspected (default [] (claimed_by r)) in nret (negb s)
  else nret false.

(** The lease of a claim: the payload's if it is acceptable, else the node's. *)
Definition task_lease_duration (p : list byte) : float :=
  let d := default (lease_duration cfg) (payload_lease p) in
  if negb (isfinite d) || py_le d fzero || py_gt d (max_lease_duration_seconds (security cfg))
  then lease_duration cfg else d.

(** A record of the worker for its item. *)
Definition work_record (w : WorkItem) (s : TaskState) (res : option (list byte)) (err : option pystr)
    (lease : float) (vc : VectorClock) : TaskRecord := {|
  task_id := w_task_id w; state := s; payload := payload (w_record w); task_result := res;
  task_error := err; claimed_by := Some (node_id cfg); fence_token := w_token w; lease_expiry := lease;
  vector_clock := vc; updated_by := node_id cfg; signature := None; signer_id := None |}.

(** [_worker_loop] from its head to the broadcast of the claim. *)
Definition worker_take : M () :=
  let* q := gets queue in
  match get_section q with
  | None => nret ()
  | Some ((_, tid), q') =>
      modify (set_queue q') ;;*
      modify (fun st => set_queued (queued_task_ids st ∖ {[tid]}) st) ;;*
      let* ts := gets tasks in
      match dict_get tid ts with
      | None => nret ()
      | Some r =>
          if is_terminal (state r) then nret ()
          else
            let* now := clock_now in
            let* active := is_active_claim now r in
            if active then nret ()
            else
              let new_token := next_for (fence_token r) (node_id cfg) in
              bump_clock ;;*
              let* now' := clock_now in
              let lease_exp := fadd now' (task_lease_duration (payload r)) in
              let w := {| w_task_id := tid; w_record := r; w_token := new_token; w_lease_exp := lease_exp |} in
              let* vc := gets node_clock in
              let* claimed := seal_record (work_record w CLAIMED None None lease_exp vc) in
              store_task tid claimed ;;*
              incr "claimed" ;;*
              broadcast_task_update tid claimed ;;*
              modify (set_worker (WClaimed w))
      end
  end.

(** From the end of the broadcast to the call of the handler. *)
Definition worker_run (w : WorkItem) : M () :=
  let* vc := gets node_clock in
  let* r := seal_record (work_record w RUNNING None None (w_lease_exp w) vc) in
  store_task (w_task_id w) r ;;*
  modify (set_worker (WRunning w)).

(** From the return of the handler to the broadcast of its result: nothing is committed when the
    lease has expired or a higher fencing token has superseded this worker's. *)
Definition worker_finish (w : WorkItem) (outcome : HandlerOutcome) : M () :=
  let '(res, err, new_state) :=
    match outcome with HReturn b => (Some b, None, DONE) | HRaise s => (None, Some s, FAILED) end in
  let* current_time := clock_now in
  let* ts := gets tasks in
  let superseded := match dict_get (w_task_id w) ts with
                    | Some current => py_gt (fence_token current) (w_token w)
                    | None => false
                    end in
  if py_gt current_time (w_lease_exp w) then rejected ;;* modify (set_worker WIdle)
  else if superseded then rejected ;;* modify (set_worker WIdle)
  else
    bump_clock ;;*
    let* vc := gets node_clock in
    let* r := seal_record (work_record w new_state res err fzero vc) in
    store_task (w_task_id w) r ;;*
    broadcast_task_update (w_task_id w) r ;;*
    modify (set_worker (WCommitted w new_state)).

(** From the end of that broadcast to the head of the loop. *)
Definition worker_settle (w : WorkItem) (new_state : TaskState) : M () :=
  incr (if bool_decide (new_state = DONE) then "completed" else "failed") ;;*
  (let submitter := updated_by (w_record w) in
   when (negb (bool_decide (submitter = [])) && bool_decide (submitter ∈ peers cfg))
     (let* m := signed_message (str "credit") [(str "amount", JInt 1)] in send submitter m)) ;;*
  modify (set_worker WIdle).

(** ** The reclaim audit *)

(** [[self.node_id] + [p for p in self.peers if not is_suspected(p)]] *)
Fixpoint live_among (ps : list pystr) : M (list pystr) :=
  match ps with
  | [] => nret []
  | p :: ps' =>
      let* s := suspected p in
      let* rest := live_among ps' in
      nret (if s then rest else p :: rest)
  end.

(** The record that releases a task, in a node without a worker. *)
Definition reset_record (tid : pystr) (r : TaskRecord) (vc : VectorClock) : TaskRecord := {|
  task_id := tid; state := PENDING; payload := payload r; task_result := None; task_error := None;
  claimed_by := None; fence_token := next_for (fence_token r) (node_id cfg); lease_expiry := fzero;
  vector_clock := vc; updated_by := node_id cfg; signature := None; signer_id := None |}.

(** One item of the audit; [true] when the iteration ended in a broadcast. *)
Definition reclaim_item (now : float) (live_peers : list pystr) (kv : pystr * TaskRecord) : M bool :=
  let '(tid, r) := kv in
  if negb (held_elsewhere r) then nret false
  else
    let lease_expired := py_le (lease_expiry r) now in
    let* holder_suspected := suspected (default [] (claimed_by r)) in
    if negb (lease_expired && holder_suspected) then nret false
    else
      let* elected := lift (rendezvous_reclaimer tid live_peers) in
      if negb (bool_decide (elected = Some (node_id cfg))) then nret false
      else
        incr "reclaimed" ;;*
        if has_handler cfg then
          let* qi := gets queued_task_ids in
          when (negb (bool_decide (tid ∈ qi))) (enqueue tid 10) ;;* nret false
        else
          bump_clock ;;*
          let* vc := gets node_clock in
          let* reset := seal_record (reset_record tid r vc) in
          store_task tid reset ;;*
          broadcast_task_update tid reset ;;*
          nret true.

(** The audit up to its next suspension: the end of a broadcast or of the items. *)
Fixpoint reclaim_audit (now : float) (live_peers : list pystr) (items : list (pystr * TaskRecord)) : M () :=
  match items with
  | [] => modify (set_reclaimer RIdle)
  | kv :: items' =>
      let* suspended := reclaim_item now live_peers kv in
      if suspended then modify (set_reclaimer (RAudit now live_peers items'))
      else reclaim_audit now live_peers items'
  end.

(** An iteration of [_reclaim_loop] after its sleep: the items are those of a copy of the table. *)
Definition reclaim_round : M () :=
  let* now := clock_now in
  let* live := live_among (peers cfg) in
  let* ts := gets tasks in
  reclaim_audit now (node_id cfg :: live) ts.

(** ** Recovery *)

(** [VectorClock(v)] of a JSON value: a falsy value is the empty clock.  The counters of a clock
    are integers; a float, which no writer of the log produces, has no counterpart in the model
    and is treated like the other values that [v > 0] refuses. *)
Fixpoint clock_entries (d : list (pystr * json)) : result (list (pystr * Z)) :=
  match d with
  | [] => Ok []
  | (k, v) :: d' =>
      let! n := match v with JInt z => Ok z | JBool b => Ok (if b then 1 else 0) | _ => Raise TypeError end in
      let! rest := clock_entries d' in
      Ok ((k, n) :: rest)
  end.

Definition clock_of_json (v : json) : result VectorClock :=
  match v with
  | JObj d => let! l := clock_entries d in Ok (VectorClock_init (list_to_map l))
  | JNull | JBool false | JInt 0 | JStr [] | JArr [] => Ok (VectorClock_init ∅)
  | JFloat f => if py_eq f fzero then Ok (VectorClock_init ∅) else Raise AttributeError
  | _ => Raise AttributeError
  end.

(** [try: self._vector_clock = self._vector_clock.merge(VectorClock(v)) except (TypeError, ValueError)] *)
Definition recover_clock (v : json) : M () :=
  match clock_of_json v with
  | Ok c => modify (fun st => set_clock (vc_merge (node_clock st) c) st)
  | Raise e => if catches_type_value e then nret () else lift (Raise e)
  end.

Definition recover_authorized (r : TaskRecord) : result bool :=
  if enabled (security cfg) then verify_task_authorization r (keyring cfg) else Ok true.

(** A recovered record goes to [key] of the table, merged with the record found there. *)
Definition recover_store (key : pystr) (r : TaskRecord) : M () :=
  let* ts := gets tasks in
  match dict_get key ts with
  | None => store_task key r
  | Some old =>
      match merge_records old r merge_keyring with
      | Ok m => store_task key m
      | Raise e => if is_value_error e then nret () else lift (Raise e)
      end
  end.

Definition recover_task (payload : list (pystr * json)) : M () :=
  match from_dict (JObj payload) with
  | Raise e => if catches_type_value e then nret () else lift (Raise e)
  | Ok r =>
      let* ok := lift (recover_authorized r) in
      if negb ok then nret ()
      else
        let* ts := gets tasks in
        if negb (dict_mem (task_id r) ts) && (max_tasks cfg <=? len ts) then nret ()
        else recover_store (task_id r) r
  end.

(** One entry of a checkpoint. *)
Definition recover_entry (kv : pystr * json) : M () :=
  let '(tid, tdict) := kv in
  let* ts := gets tasks in
  if (max_tasks cfg <=? len ts) && negb (dict_mem tid ts) then nret ()
  else
    match from_dict tdict with
    | Raise e => if catches_type_value e then nret () else lift (Raise e)
    | Ok snap =>
        let* ok := lift (recover_authorized snap) in
        if negb ok then nret () else recover_store tid snap
    end.

Definition recover_record (rec : WalRecord) : M () :=
  if record_type rec =? RECORD_TASK then recover_task (wr_payload rec)
  else if record_type rec =? RECORD_CLOCK then recover_clock (JObj (wr_payload rec))
  else if record_type rec =? RECORD_CHECKPOINT then
    match default (JObj []) (dict_get (str "tasks") (wr_payload rec)) with
    | JObj raw_tasks =>
        for_each recover_entry raw_tasks ;;*
        recover_clock (default (JObj []) (dict_get (str "vector_clock") (wr_payload rec)))
    | _ => nret ()
    end
  else nret ().

(** [_recover_from_wal] *)
Definition recover_from_wal : M () :=
  let* w := gets wal in
  match w with
  | None => nret ()
  | Some log =>
      let '(recs, failure) := replay false log in
      for_each recover_record recs ;;*
      lift (match failure with Some e => Raise e | None => Ok () end) ;;*
      let* ts := gets tasks in
      for_each (fun kv => requeue_pending kv.1 kv.2) ts
  end.

(** ** Life cycle *)

(** [start] *)
Definition start : M () :=
  let* r := gets running in
  if r then nret ()
  else
    modify (set_running true) ;;*
    recover_from_wal ;;*
    modify (set_bg ([(RecvLoop, Live); (HeartbeatLoop, Live); (GossipLoop, Live); (ReclaimLoop, Live)]
                    ++ (if has_handler cfg then [(WorkerLoop, Live)] else []))) ;;*
    modify (set_worker WIdle) ;;* modify (set_reclaimer RIdle).

(** Cancelling and awaiting one background task; awaiting a task that has crashed raises. *)
Definition stop_loop (l : Loop) : M () :=
  let* bg := gets bg_tasks in
  match dict_get l bg with
  | Some (Crashed e) => lift (Raise e)
  | _ => modify (fun st => set_bg (dict_set l Cancelled (bg_tasks st)) st)
  end.

(** [stop]; closing the transport is outside the node. *)
Definition stop : M () :=
  modify (set_running false) ;;*
  let* bg := gets bg_tasks in
  for_each stop_loop bg.*1 ;;*
  modify (set_bg []) ;;*
  let* w := gets wal in
  match w with
  | Some log => modify (set_wal (Some (wal_close log)))
  | None => nret ()
  end.

(** ** Steps

    Between two suspensions a coroutine runs alone; an exception that escapes from a background
    loop ends it. *)
Definition run_loop (l : Loop) (m : M ()) (st : NodeState) : NodeState :=
  match m st with
  | (Ok _, st') => st'
  | (Raise e, st') => set_bg (dict_set l (Crashed e) (bg_tasks st')) st'
  end.

Definition live (l : Loop) (st : NodeState) : Prop := dict_get l (bg_tasks st) = Some Live.

Inductive node_step : NodeState -> NodeState -> Prop :=
| step_submit tid p priority st : node_step st (submit_task tid p priority st).2
| step_start st : bg_tasks st = [] -> node_step st (start st).2
| step_stop st : node_step st (stop st).2
| step_receive sender m st :
    live RecvLoop st -> node_step st (run_loop RecvLoop (receive sender m) st)
| step_heartbeat st :
    live HeartbeatLoop st -> running st = true -> node_step st (run_loop HeartbeatLoop heartbeat_round st)
| step_gossip st : live GossipLoop st -> node_step st (run_loop GossipLoop gossip_round st)
| step_reclaim st :
    live ReclaimLoop st -> reclaimer st = RIdle -> node_step st (run_loop ReclaimLoop reclaim_round st)
| step_audit now ps items st :
    live ReclaimLoop st -> reclaimer st = RAudit now ps items ->
    node_step st (run_loop ReclaimLoop (reclaim_audit now ps items) st)
| step_take st :
    live WorkerLoop st -> worker st = WIdle ->
    node_step st (run_loop WorkerLoop worker_take st)
| step_run w st :
    live WorkerLoop st -> worker st = WClaimed w -> node_step st (run_loop WorkerLoop (worker_run w) st)
| step_finish w outcome st :
    live WorkerLoop st -> worker st = WRunning w ->
    node_step st (run_loop WorkerLoop (worker_finish w outcome) st)
| step_settle w s st :
    live WorkerLoop st -> worker st = WCommitted w s ->
    node_step st (run_loop WorkerLoop (worker_settle w s) st)
| step_transport sent rest st : outbox st = sent :: rest -> node_step st (set_outbox rest st).

(** The states a node reaches. *)
Inductive node_reachable (st0 : NodeState) : NodeState -> Prop :=
| reach_refl : node_reachable st0 st0
| reach_step st st' : node_reachable st0 st -> node_step st st' -> node_reachable st0 st'.
End node.
