(* ===== verification/NodeLogic.v ===== *)
(** * A logic for the methods of a node

    Triples about the computations of [Node]: from a state where [I] holds, a computation that returns
    ends where [J] holds with a result that satisfies [post], and one that raises [e] ends where [E e]
    holds.  [Provenance] and [Robust] are built on it. *)

From Stdlib Require Import ZArith Lia.
From S2P Require Import Prelude PyFloat Text Json JsonFacts Security Consensus Crypto Lattice Heapq Queue.
From S2P Require Import Wal Metrics Failure Message SimNetwork Sha256 FloatText Node.
Open Scope node_scope.

Definition keeps {A} (I J : NodeState -> Prop) (E : exc -> NodeState -> Prop) (m : M A) (post : A -> Prop) : Prop :=
  forall st, I st ->
    match m st with
    | (Ok a, st') => J st' /\ post a
    | (Raise e, st') => E e st'
    end.

Definition any {A} (a : A) : Prop := True.

Section logic.
Context {E : exc -> NodeState -> Prop}.
Implicit Types I J K : NodeState -> Prop.

Lemma keeps_ret {A} I (a : A) (post : A -> Prop) : post a -> keeps I I E (nret a) post.
Proof. by intros Ha st Hs. Qed.

Lemma keeps_ok {A} I (r : result A) a (post : A -> Prop) : r = Ok a -> post a -> keeps I I E (lift r) post.
Proof. by intros -> Ha st Hs. Qed.

Lemma keeps_lift {A} I (r : result A) (post : A -> Prop) :
  (forall e st, I st -> E e st) -> (forall a, r = Ok a -> post a) -> keeps I I E (lift r) post.
Proof. intros He Hr st Hs. unfold lift. destruct r as [a|e]; [by split; [|apply Hr]|by apply He]. Qed.

Lemma keeps_gets {A} I (f : NodeState -> A) (post : A -> Prop) : (forall st, I st -> post (f st)) -> keeps I I E (gets f) post.
Proof. intros Hf st Hs. split; [done|by apply Hf]. Qed.

Lemma keeps_modify I J f : (forall st, I st -> J (f st)) -> keeps I J E (modify f) any.
Proof. intros Hf st Hs. split; [by apply Hf|done]. Qed.

Lemma keeps_weaken {A} I J I' J' (m : M A) (post post' : A -> Prop) :
  keeps I J E m post -> (forall st, I' st -> I st) -> (forall st, J st -> J' st) -> (forall a, post a -> post' a) ->
  keeps I' J' E m post'.
Proof.
  intros Hm HI HJ Hp st Hs. specialize (Hm st (HI st Hs)). destruct (m st) as [[a|e] st']; [|done].
  destruct Hm as [Hj Ha]. auto.
Qed.

Lemma keeps_bind {A B} I J K (m : M A) (k : A -> M B) (mid : A -> Prop) (post : B -> Prop) :
  keeps I J E m mid -> (forall a, mid a -> keeps J K E (k a) post) -> keeps I K E (nbind m k) post.
Proof.
  intros Hm Hk st Hs. unfold nbind. specialize (Hm st Hs). destruct (m st) as [[a|e] st1]; [|done].
  destruct Hm as [Hj Ha]. by apply Hk.
Qed.

Lemma keeps_then {A B} I J K (m : M A) (k : M B) (post : B -> Prop) :
  keeps I J E m any -> keeps J K E k post -> keeps I K E (nbind m (fun _ => k)) post.
Proof. intros Hm Hk. by apply (keeps_bind I J K m _ any). Qed.

Lemma keeps_when I c m : (c = true -> keeps I I E m any) -> keeps I I E (when c m) any.
Proof. destruct c; cbn; [auto|intros _; by apply keeps_ret]. Qed.

Lemma keeps_for_each {A} I (f : A -> M ()) (l : list A) :
  Forall (fun x => keeps I I E (f x) any) l -> keeps I I E (for_each f l) any.
Proof. induction 1; cbn; [by apply keeps_ret|by eapply keeps_then]. Qed.

(** [try: m except ...: h], where [E'] holds of the exceptions of [m]. *)
Lemma keeps_catch {A} I J (E' : exc -> NodeState -> Prop) p (m h : M A) (post : A -> Prop) :
  keeps I J E' m post ->
  (forall e, p e = true -> keeps (E' e) J E h post) -> (forall e st, p e = false -> E' e st -> E e st) ->
  keeps I J E (ncatch p m h) post.
Proof.
  intros Hm Hh He st Hs. unfold ncatch. specialize (Hm st Hs). destruct (m st) as [[a|e] st1]; [done|].
  destruct (p e) eqn:Ep; [by apply (Hh e)|by apply He].
Qed.

(** The same triple for a computation written with another association of its binds. *)
Lemma keeps_assoc {A B C} I J (m : M A) (f : A -> M B) (k : B -> M C) (post : C -> Prop) :
  keeps I J E (nbind m (fun a => nbind (f a) k)) post -> keeps I J E (nbind (nbind m f) k) post.
Proof. intros Hm st Hs. specialize (Hm st Hs). revert Hm. unfold nbind. by destruct (m st) as [[a|e] st1]. Qed.

Lemma keeps_head {A B} I J (a : A) (k : A -> M B) (post : B -> Prop) : keeps I J E (k a) post -> keeps I J E (nbind (nret a) k) post.
Proof. done. Qed.
End logic.

(** When both ends are in [J], so is the state afterwards. *)
Lemma keeps_state {A} (I J : NodeState -> Prop) (m : M A) (post : A -> Prop) st :
  keeps I J (fun _ => J) m post -> I st -> J (m st).2.
Proof. intros Hm Hs. specialize (Hm st Hs). destruct (m st) as [[a|e] st']; [apply Hm|done]. Qed.
