(* ===== verification/NodeFacts.v ===== *)
(** * Invariants of the peer node

    Every step of a node keeps its state well formed: the task table is bounded and has one entry
    per identifier, identifiers marked as queued are in the queue, the queue holds known tasks, and
    the node's vector clock only grows. *)

From Stdlib Require Import ZArith NArith Lia.
From S2P Require Import Prelude PyFloat Text Json JsonFacts Security Consensus Crypto Lattice Heapq Queue.
From S2P Require Import Wal Metrics Failure Message Sha256 FloatText Node.
Open Scope Z_scope.

Definition task_keys (st : NodeState) : list pystr := (tasks st).*1.

(** The task an iteration of the worker is about. *)
Definition worker_task (w : WorkerPhase) : list pystr :=
  match w with
  | WIdle => []
  | WClaimed i | WRunning i | WCommitted i _ => [w_task_id i]
  end.

Definition audit_tasks (r : ReclaimPhase) : list pystr :=
  match r with RIdle => [] | RAudit _ _ items => items.*1 end.

Record node_wf `{Ed25519} (cfg : NodeConfig) (st : NodeState) : Prop := {
  wf_keys : NoDup (task_keys st);
  wf_bound : len (tasks st) <= max_tasks cfg;
  wf_records : Forall (fun kv => vc_wf (vector_clock kv.2)) (tasks st);
  wf_clock : vc_wf (node_clock st);
  wf_queue : q_wf (queue st);
  wf_queued : forall tid, tid ∈ queued_task_ids st -> tid ∈ item <$> q_heap (queue st);
  wf_heap : item <$> q_heap (queue st) ⊆ task_keys st;
  wf_worker : worker_task (worker st) ⊆ task_keys st;
  wf_audit : audit_tasks (reclaimer st) ⊆ task_keys st;
  wf_replay : rc_wf (message_replay st);
  wf_policy : policy (queue st) = REJECT_ON_FULL;
}.

(** What a computation guarantees from a well-formed state, whether it returns or raises. *)
Definition evolved `{Ed25519} (cfg : NodeConfig) (st st' : NodeState) : Prop :=
  node_wf cfg st' /\ task_keys st ⊆ task_keys st' /\ vc_le (node_clock st) (node_clock st').

Definition ev `{Ed25519} (cfg : NodeConfig) {A} (m : M A) (st : NodeState) : Prop :=
  node_wf cfg st -> evolved cfg st (m st).2.

(** The fields the invariant is about. *)
Definition core (st : NodeState) :=
  (message_replay st, tasks st, queue st, queued_task_ids st, node_clock st, worker st, reclaimer st).

Section monad_rules.
Context `{Ed25519} (cfg : NodeConfig).

Lemma evolved_refl st : node_wf cfg st -> evolved cfg st st.
Proof. intros Hwf. split_and!; [done|done|apply vc_le_refl]. Qed.

Lemma evolved_trans st1 st2 st3 : evolved cfg st1 st2 -> evolved cfg st2 st3 -> evolved cfg st1 st3.
Proof.
  intros (_ & H1 & H2) (H3 & H4 & H5). split_and!; [done|set_solver|by eapply vc_le_trans].
Qed.

Lemma ev_ret {A} (a : A) st : ev cfg (nret a) st.
Proof. intros Hwf. by apply evolved_refl. Qed.

Lemma ev_lift {A} (r : result A) st : ev cfg (lift r) st.
Proof. intros Hwf. by apply evolved_refl. Qed.

Lemma ev_bind {A B} (m : M A) (k : A -> M B) st :
  ev cfg m st ->
  (forall a st', m st = (Ok a, st') -> node_wf cfg st' -> task_keys st ⊆ task_keys st' -> ev cfg (k a) st') ->
  ev cfg (nbind m k) st.
Proof.
  intros Hm Hk Hwf. specialize (Hm Hwf). unfold nbind.
  destruct (m st) as [[a|e] st'] eqn:E; cbn [snd] in *; [|done].
  eapply evolved_trans; [done|]. destruct Hm as (Hwf' & Hkeys & _). by apply (Hk a st').
Qed.

Lemma ev_gets {A B} (f : NodeState -> A) (k : A -> M B) st :
  ev cfg (k (f st)) st -> ev cfg (nbind (gets f) k) st.
Proof. intros Hk. exact Hk. Qed.

Lemma ev_lift_bind {A B} (r : result A) (k : A -> M B) st :
  (forall a, r = Ok a -> ev cfg (k a) st) -> ev cfg (nbind (lift r) k) st.
Proof.
  intros Hk. destruct r as [a|e]; [exact (Hk a eq_refl)|]. intros Hwf. by apply evolved_refl.
Qed.

Lemma ev_catch {A} p (m h : M A) st :
  ev cfg m st -> (forall st', node_wf cfg st' -> task_keys st ⊆ task_keys st' -> ev cfg h st') ->
  ev cfg (ncatch p m h) st.
Proof.
  intros Hm Hh Hwf. specialize (Hm Hwf). unfold ncatch. destruct (m st) as [[a|e] st'] eqn:E; [done|].
  cbn [snd] in Hm. destruct (p e); [|done]. eapply evolved_trans; [done|].
  destruct Hm as (Hwf' & Hkeys & _). by apply Hh.
Qed.

Lemma ev_suppress p m st : ev cfg m st -> ev cfg (suppress p m) st.
Proof. intros Hm. apply ev_catch; [done|]. intros st' _ _. apply ev_ret. Qed.

Lemma ev_when c m st : (c = true -> ev cfg m st) -> ev cfg (when c m) st.
Proof. intros Hm. destruct c; [by apply Hm|apply ev_ret]. Qed.

Lemma ev_for_each {A} (f : A -> M ()) (l : list A) st :
  (forall x st', x ∈ l -> node_wf cfg st' -> task_keys st ⊆ task_keys st' -> ev cfg (f x) st') ->
  ev cfg (for_each f l) st.
Proof.
  revert st. induction l as [|x l IH]; intros st Hf; [apply ev_ret|].
  intros Hwf. revert Hwf. apply ev_bind.
  - intros Hwf. apply (Hf x st); [by left|done|done|done].
  - intros [] st' _ Hwf' Hkeys. apply IH. intros y st2 Hy Hwf2 Hkeys2.
    apply Hf; [by right|done|set_solver].
Qed.

Lemma core_wf st st' : core st' = core st -> node_wf cfg st -> node_wf cfg st'.
Proof.
  unfold core. intros E [? ? ? ? ? ? ? ? ? ? ?]. injection E as E1 E2 E3 E4 E5 E6 E7.
  split; unfold task_keys in *; rewrite ?E1, ?E2, ?E3, ?E4, ?E5, ?E6, ?E7; done.
Qed.

Lemma core_evolved st st' : core st' = core st -> node_wf cfg st -> evolved cfg st st'.
Proof.
  intros E Hwf. split_and!; [by eapply core_wf|..]; unfold core in E; injection E as E1 E2 E3 E4 E5 E6 E7.
  - unfold task_keys. by rewrite E2.
  - rewrite E5. apply vc_le_refl.
Qed.

(** Two updates that restore the invariant together. *)
Lemma ev_modify2 {A} f g (k : M A) st :
  ev cfg (modify (fun st => g (f st))) st ->
  (forall st', node_wf cfg st' -> task_keys st ⊆ task_keys st' -> ev cfg k st') ->
  ev cfg (modify f ;;* modify g ;;* k) st.
Proof.
  intros Hm Hk. apply (ev_bind (modify (fun st => g (f st))) (fun _ => k)); [done|].
  intros [] st' _. apply Hk.
Qed.

(** Computations that leave the core alone. *)
Lemma ev_frame {A} (m : M A) st : core (m st).2 = core st -> ev cfg m st.
Proof. intros E Hwf. by apply core_evolved. Qed.
End monad_rules.

(** ** The items of the queue *)

Lemma qview_items (q : PriorityQueue pystr) : (qview q).*2 ≡ₚ item <$> q_heap q.
Proof.
  unfold qview. rewrite <- list_fmap_compose.
  change (item <$> sort_by pi_le (q_heap q) ≡ₚ item <$> q_heap q). by rewrite sort_by_perm.
Qed.

Lemma push_items (q : PriorityQueue pystr) x p : item <$> q_heap (push_entry x p q) ≡ₚ x :: (item <$> q_heap q).
Proof. cbn [push_entry q_heap]. by rewrite heappush_perm. Qed.

Lemma get_section_spec (q q' : PriorityQueue pystr) r :
  q_wf q -> get_section q = Some (r, q') ->
  q_wf q' /\ r.2 :: (item <$> q_heap q') ≡ₚ item <$> q_heap q /\ policy q' = policy q.
Proof.
  intros Hwf. unfold get_section. destruct (empty q); [done|]. intros E.
  pose proof (pop_entry_spec q Hwf) as Hp. rewrite E in Hp. destruct Hp as (Hwf' & Hv & _ & Hpol).
  split_and!; [done| |done]. by rewrite <- !qview_items, Hv.
Qed.

Section atoms.
Context `{Ed25519} `{World} (cfg : NodeConfig).

Lemma wf_store tid r st :
  node_wf cfg st -> vc_wf (vector_clock r) -> (tid ∈ task_keys st \/ len (tasks st) < max_tasks cfg) ->
  evolved cfg st (set_tasks (dict_set tid r (tasks st)) st).
Proof.
  intros [? ? ? ? ? ? ? ? ? ? ?] Hr Hd.
  assert (task_keys st ⊆ (dict_set tid r (tasks st)).*1) as Hsub.
  { intros k Hk. apply dict_set_keys_elem. by right. }
  split_and!; [|exact Hsub|apply vc_le_refl].
  split; unfold task_keys in *; cbn [set_tasks upd tasks queue queued_task_ids node_clock worker reclaimer message_replay];
    try done.
  - by apply dict_set_NoDup.
  - unfold len in *. rewrite dict_set_length. destruct (dict_mem tid (tasks st)) eqn:E; [done|].
    apply dict_mem_false, dict_get_None in E. destruct Hd; [done|lia].
  - apply Forall_forall. intros [k r'] [[= -> ->]|Hin]%dict_set_elem; [done|].
    by eapply (proj1 (Forall_forall _ _) wf_records0 (k, r')).
  - set_solver.
  - set_solver.
  - set_solver.
Qed.

Lemma ev_store tid r st :
  vc_wf (vector_clock r) -> (tid ∈ task_keys st \/ len (tasks st) < max_tasks cfg) ->
  ev cfg (store_task tid r) st.
Proof. intros Hr Hd Hwf. by apply wf_store. Qed.

Lemma store_task_key tid r st st' a : store_task tid r st = (a, st') -> tid ∈ task_keys st'.
Proof. intros [= _ <-]. apply dict_set_keys_elem. by left. Qed.

Lemma ev_set_clock c st :
  vc_wf c -> vc_le (node_clock st) c -> ev cfg (modify (set_clock c)) st.
Proof. intros Hc Hle [? ? ? ? ? ? ? ? ? ? ?]. split_and!; [by split|done|done]. Qed.

Lemma ev_bump st : ev cfg (bump_clock cfg) st.
Proof.
  intros Hwf. pose proof (wf_clock _ _ Hwf) as Hc. apply ev_set_clock; [by eauto with peerq| |done].
  intros k. rewrite vc_get_increment by done. destruct (decide (node_id cfg = k)); lia.
Qed.

Lemma ev_merge_clock c st :
  vc_wf c -> ev cfg (modify (fun st => set_clock (vc_merge (node_clock st) c) st)) st.
Proof.
  intros Hc Hwf. pose proof (wf_clock _ _ Hwf). apply ev_set_clock; [by eauto with peerq| |done].
  by apply vc_merge_le_l.
Qed.

(** An identifier enters the queue and the set of the queued together. *)
Lemma wf_push tid p st :
  node_wf cfg st -> tid ∈ task_keys st -> full (queue st) = false ->
  evolved cfg st (set_queued ({[tid]} ∪ queued_task_ids st) (set_queue (push_entry tid p (queue st)) st)).
Proof.
  intros [? ? ? ? ? ? ? ? ? ? ?] Hk Hf. pose proof (push_items (queue st) tid p) as Hp.
  split_and!; [|done|apply vc_le_refl].
  split; cbn [set_queued set_queue upd queue queued_task_ids tasks]; try done.
  - by apply push_entry_spec.
  - intros k [->%elem_of_singleton|Hin]%elem_of_union; rewrite Hp; [by left|]. right. auto.
  - unfold task_keys. cbn [set_queued set_queue upd tasks]. intros k. rewrite Hp.
    intros [->|Hin]%elem_of_cons; [done|auto].
Qed.

Lemma ev_enqueue tid p st : tid ∈ task_keys st -> ev cfg (enqueue tid p) st.
Proof.
  intros Hk. apply ev_suppress, ev_gets, ev_lift_bind. intros q Hq Hwf.
  unfold put_nowait in Hq. inv_result. exact (wf_push tid p st Hwf Hk Eif).
Qed.

Lemma ev_requeue tid r st : tid ∈ task_keys st -> ev cfg (requeue_pending tid r) st.
Proof. intros Hk. apply ev_gets, ev_when. intros _. by apply ev_enqueue. Qed.

Lemma ev_wal_append r st : ev cfg (wal_append r) st.
Proof.
  apply ev_gets. destruct (wal st); [|apply ev_ret]. apply ev_lift_bind. intros ow0 _.
  apply ev_bind; [by apply ev_frame|]. intros [] st' _ _ _. apply ev_gets, ev_lift_bind. intros ow _.
  by apply ev_frame.
Qed.

Lemma ev_incr name st : ev cfg (incr name) st.
Proof. by apply ev_frame. Qed.

Lemma ev_send p m st : ev cfg (send p m) st.
Proof. by apply ev_frame. Qed.

Lemma ev_clock_now st : ev cfg clock_now st.
Proof. by apply ev_frame. Qed.

Lemma seal_record_spec r r' st st' :
  seal_record cfg r st = (Ok r', st') ->
  st' = st /\ vector_clock r' = vector_clock r /\ task_id r' = task_id r /\ state r' = state r /\
  fence_token r' = fence_token r /\ lease_expiry r' = lease_expiry r /\ claimed_by r' = claimed_by r /\
  payload r' = payload r /\ task_result r' = task_result r /\ task_error r' = task_error r /\
  updated_by r' = updated_by r.
Proof.
  unfold seal_record. destruct (enabled (security cfg)); cbn [negb].
  - unfold lift, sign_task. intros [= E <-]. inv_result. split_and!; reflexivity.
  - intros [= <- <-]. done.
Qed.

Lemma ev_seal r st : ev cfg (seal_record cfg r) st.
Proof. unfold seal_record. destruct (negb _); [apply ev_ret|apply ev_lift]. Qed.

Lemma ev_signed_message mt p st : ev cfg (signed_message cfg mt p) st.
Proof.
  apply ev_bind; [by apply ev_frame|]. intros ts st' _ _ _.
  apply ev_bind; [by apply ev_frame|]. intros n st'' _ _ _. apply ev_lift.
Qed.

Lemma ev_broadcast tid r st :
  vc_wf (vector_clock r) -> tid ∈ task_keys st -> ev cfg (broadcast_task_update cfg tid r) st.
Proof.
  intros Hr Hk. apply ev_bind; [apply ev_seal|]. intros r' st' (-> & Hv & _)%seal_record_spec _ _.
  apply ev_bind; [apply ev_store; [by rewrite Hv|by left]|]. intros [] st2 _ _ _.
  apply ev_bind; [apply ev_wal_append|]. intros [] st3 _ _ _.
  apply ev_bind; [apply ev_signed_message|]. intros m st4 _ _ _.
  apply ev_for_each. intros p st5 _ _ _. apply ev_send.
Qed.

Lemma ev_authenticate sender m st : ev cfg (authenticate_message cfg sender m) st.
Proof.
  unfold authenticate_message. repeat (case_match; [apply ev_ret|]).
  apply ev_lift_bind. intros ok _. case_match; [apply ev_ret|].
  destruct (timestamp m); [|apply ev_ret]. destruct (nonce m); [|apply ev_ret].
  apply ev_bind; [by apply ev_frame|]. intros now st' _ _ _. case_match; [apply ev_ret|].
  intros [? ? ? ? ? ? ? ? ? ? ?].
  match goal with |- context [check_and_remember ?a ?b ?c ?d ?e] =>
    pose proof (check_and_remember_wf a b c d e wf_replay0) as Hrc; destruct (check_and_remember a b c d e)
  end.
  split_and!; [by split|done|apply vc_le_refl].
Qed.
End atoms.

(** ** The methods *)

Lemma from_dict_vc_wf v r : from_dict v = Ok r -> vc_wf (vector_clock r).
Proof.
  unfold from_dict. destruct v; try discriminate. intros Hr. inv_result. apply VectorClock_init_wf.
Qed.

Lemma merge_records_cases `{Ed25519} a b kr m :
  merge_records a b kr = Ok m ->
  task_id a = task_id b /\ (m = merge_core a b \/ (exists ring, kr = Some ring) /\ (m = a \/ m = b)).
Proof.
  unfold merge_records. intros Hm. inv_result. breflect. split; [done|].
  destruct kr as [ring|]; [|inv_result; by left].
  destruct (verify_task_authorization a ring) as [va|]; [|done].
  destruct (verify_task_authorization b ring) as [vb|]; [|done]. cbn [rbind] in Hm.
  destruct va, vb; cbn [andb negb] in Hm; inv_result; eauto 6.
Qed.

Lemma merge_records_vc_wf `{Ed25519} a b kr m :
  merge_records a b kr = Ok m -> vc_wf (vector_clock a) -> vc_wf (vector_clock b) -> vc_wf (vector_clock m).
Proof.
  intros (_ & [->|[_ [->| ->]]])%merge_records_cases Ha Hb; [|done|done].
  rewrite merge_core_clock. apply vc_merge_wf.
Qed.

Section methods.
Context `{Ed25519} `{MathLib} `{UnicodeDB} `{World} (cfg : NodeConfig).

Lemma stored_vc_wf st k r : node_wf cfg st -> dict_get k (tasks st) = Some r -> vc_wf (vector_clock r).
Proof.
  intros Hwf Hr%dict_get_Some_elem. exact (proj1 (Forall_forall _ _) (wf_records _ _ Hwf) (k, r) Hr).
Qed.

Lemma dict_get_key st k r : dict_get k (tasks st) = Some r -> k ∈ task_keys st.
Proof. intros Hr%dict_get_Some_elem. apply list_elem_of_fmap. by exists (k, r). Qed.

Lemma ev_gossip_commit tid r remote st :
  vc_wf (vector_clock r) -> vc_wf (vector_clock remote) ->
  (tid ∈ task_keys st \/ len (tasks st) < max_tasks cfg) -> ev cfg (gossip_commit tid r remote) st.
Proof.
  intros Hr Hv Hd. apply ev_bind; [by apply ev_store|]. intros [] st' Hk%store_task_key _ _.
  apply ev_bind; [by apply ev_requeue|]. intros [] st2 _ _ _.
  apply ev_bind; [by apply ev_merge_clock|]. intros [] st3 _ _ _. apply ev_wal_append.
Qed.

Lemma ev_gossip_entry sender entry st : ev cfg (gossip_entry cfg sender entry) st.
Proof.
  destruct entry as [tid raw]. unfold gossip_entry. destruct (from_dict raw) as [r|e] eqn:Er.
  2: { case_match; [apply ev_incr|apply ev_lift]. }
  apply from_dict_vc_wf in Er. case_match; [apply ev_incr|].
  apply ev_lift_bind. intros ok _. case_match; [apply ev_incr|]. apply ev_gets.
  destruct (dict_get tid (tasks st)) as [local|] eqn:El.
  - destruct (merge_records local r (merge_keyring cfg)) as [m|[]] eqn:Em;
      try apply ev_incr; try apply ev_lift.
    intros Hwf. apply ev_gossip_commit; [|done|left; by eapply dict_get_key|done].
    eapply merge_records_vc_wf; [done|by eapply stored_vc_wf|done].
  - destruct (Z.leb_spec (max_tasks cfg) (len (tasks st))); [apply ev_incr|].
    apply ev_gossip_commit; [done|done|by right].
Qed.

Lemma ev_receive sender m st : ev cfg (receive cfg sender m) st.
Proof.
  apply ev_bind; [apply ev_authenticate|]. intros ok st' _ _ _. case_match; [apply ev_incr|].
  case_match; [apply ev_bind; [apply ev_clock_now|]; intros now st2 _ _ _; by apply ev_frame|].
  case_match.
  { case_match; try apply ev_incr. case_match; [apply ev_incr|].
    apply ev_for_each. intros x st2 _ _ _. apply ev_gossip_entry. }
  case_match; [|apply ev_ret]. case_match; try apply ev_incr.
  case_match; [apply ev_incr|by apply ev_frame].
Qed.

Lemma ev_submit tid p priority st : ev cfg (submit_task cfg tid p priority) st.
Proof.
  apply ev_lift_bind. intros _ _. apply ev_lift_bind. intros _ _. apply ev_gets.
  destruct (negb (dict_mem tid (tasks st)) && (max_tasks cfg <=? len (tasks st))) eqn:Efull.
  { apply ev_bind; [|intros [] st' E; discriminate E].
    apply ev_bind; [apply ev_incr|]. intros [] st' _ _ _. apply ev_lift. }
  apply ev_bind; [apply ev_ret|]. intros [] st' [= <-] _ _.
  apply ev_bind; [apply ev_bump|]. intros [] st' [= <-] Hwf1 _. apply ev_gets.
  apply ev_bind; [apply ev_seal|]. intros r st' (-> & Hv & _)%seal_record_spec _ _.
  apply ev_bind.
  { apply ev_store; [rewrite Hv; by apply (wf_clock cfg)|]. cbn.
    destruct (dict_mem tid (tasks st)) eqn:Ek.
    - left. apply dict_mem_true in Ek as [r' Hr']. by eapply dict_get_key.
    - right. cbn in Efull. by apply Z.leb_gt in Efull. }
  intros [] st' Hk%store_task_key _ _.
  apply ev_bind; [apply ev_incr|]. intros [] st2 [= <-] _ _.
  apply ev_bind; [apply ev_wal_append|]. intros [] st3 _ _ Hsub. apply ev_gets.
  destruct (put_section tid priority (queue st3)) as [[q|]|e] eqn:Eq; [|apply ev_ret|].
  - intros Hwf. unfold put_section in Eq.
    destruct (full (queue st3)) eqn:Ef; destruct (policy (queue st3)); inv_result; try discriminate;
      (injection Eq as <-) || idtac; apply (wf_push cfg tid priority st3 Hwf); auto.
  - apply ev_bind; [apply ev_when; intros _; apply ev_incr|]. intros [] st4 _ _ _. apply ev_lift.
Qed.

Lemma ev_suspected p st : ev cfg (suspected p) st.
Proof.
  apply ev_bind; [apply ev_clock_now|]. intros now st' _ _ _. apply ev_gets, ev_lift.
Qed.

Lemma ev_set_worker w st : worker_task w ⊆ task_keys st -> ev cfg (modify (set_worker w)) st.
Proof. intros Hw [? ? ? ? ? ? ? ? ? ? ?]. split_and!; [by split|done|apply vc_le_refl]. Qed.

Lemma ev_set_reclaimer r st : audit_tasks r ⊆ task_keys st -> ev cfg (modify (set_reclaimer r)) st.
Proof. intros Hr [? ? ? ? ? ? ? ? ? ? ?]. split_and!; [by split|done|apply vc_le_refl]. Qed.

(** An entry leaves the queue, and its identifier the set of the queued. *)
Lemma ev_dequeue tid q st :
  q_wf q -> tid :: (item <$> q_heap q) ≡ₚ item <$> q_heap (queue st) -> policy q = policy (queue st) ->
  ev cfg (modify (fun st => set_queued (queued_task_ids st ∖ {[tid]}) (set_queue q st))) st.
Proof.
  intros Hq Hp Hpol [? ? ? ? ? ? Hheap ? ? ? ?]. split_and!; [|done|apply vc_le_refl].
  split; cbn; try done.
  - intros k [Hk Hne]%elem_of_difference. specialize (wf_queued0 k Hk). rewrite <- Hp in wf_queued0.
    apply elem_of_cons in wf_queued0 as [->|]; [set_solver|done].
  - intros k Hk. apply Hheap. rewrite <- Hp. by right.
  - by rewrite Hpol.
Qed.

Lemma ev_worker_take st : ev cfg (worker_take cfg) st.
Proof.
  apply ev_gets. destruct (get_section (queue st)) as [[[pr tid] q]|] eqn:Eg; [|apply ev_ret].
  intros Hwf. destruct (get_section_spec _ _ _ (wf_queue _ _ Hwf) Eg) as (Hq & Hp & Hpol). cbn [snd] in Hp.
  revert Hwf. apply (ev_modify2 cfg (set_queue q)); [by apply ev_dequeue|].
  intros st1 _ _. apply ev_gets.
  destruct (dict_get tid (tasks st1)) as [r|] eqn:Er; [|apply ev_ret]. apply dict_get_key in Er.
  case_match; [apply ev_ret|].
  apply ev_bind; [apply ev_clock_now|]. intros now st2 _ _ Hs2.
  apply ev_bind.
  { unfold is_active_claim. case_match; [|apply ev_ret].
    apply ev_bind; [apply ev_suspected|]. intros s st3 _ _ _. apply ev_ret. }
  intros active st3 _ _ Hs3. case_match; [apply ev_ret|].
  apply ev_bind; [apply ev_bump|]. intros [] st4 _ _ Hs4.
  apply ev_bind; [apply ev_clock_now|]. intros now' st5 _ Hwf5 Hs5. apply ev_gets.
  apply ev_bind; [apply ev_seal|]. intros c st6 (-> & Hv & _)%seal_record_spec _ _.
  assert (vc_wf (vector_clock c)) as Hvc by (rewrite Hv; by apply (wf_clock cfg)).
  assert (tid ∈ task_keys st5) as Hk5 by set_solver.
  apply ev_bind; [apply ev_store; [done|by left]|]. intros [] st7 _ _ Hs7.
  apply ev_bind; [apply ev_incr|]. intros [] st8 _ _ Hs8.
  apply ev_bind; [apply ev_broadcast; [done|set_solver]|]. intros [] st9 _ _ Hs9.
  apply ev_set_worker. cbn. set_solver.
Qed.

Lemma ev_worker_run w st : w_task_id w ∈ task_keys st -> ev cfg (worker_run cfg w) st.
Proof.
  intros Hk. apply ev_gets. intros Hwf. pose proof (wf_clock _ _ Hwf) as Hc. revert Hwf.
  apply ev_bind; [apply ev_seal|]. intros r st' (-> & Hv & _)%seal_record_spec _ _.
  apply ev_bind; [apply ev_store; [by rewrite Hv|by left]|]. intros [] st2 Hk2%store_task_key _ _.
  apply ev_set_worker. cbn. set_solver.
Qed.

Lemma ev_worker_finish w o st : w_task_id w ∈ task_keys st -> ev cfg (worker_finish cfg w o) st.
Proof.
  intros Hk. unfold worker_finish.
  destruct (match o with HReturn b => _ | HRaise s => _ end) as [[res err] ns].
  apply ev_bind; [apply ev_clock_now|]. intros now st1 _ _ Hs1. apply ev_gets.
  case_match; [|case_match].
  1,2: apply ev_bind; [apply ev_incr|]; intros [] st2 _ _ _; apply ev_set_worker; set_solver.
  apply ev_bind; [apply ev_bump|]. intros [] st2 _ Hwf2 Hs2. apply ev_gets.
  apply ev_bind; [apply ev_seal|]. intros r st3 (-> & Hv & _)%seal_record_spec _ _.
  assert (vc_wf (vector_clock r)) as Hvc by (rewrite Hv; by apply (wf_clock cfg)).
  apply ev_bind; [apply ev_store; [done|left; set_solver]|]. intros [] st4 _ _ Hs4.
  apply ev_bind; [apply ev_broadcast; [done|set_solver]|]. intros [] st5 _ _ Hs5.
  apply ev_set_worker. cbn. set_solver.
Qed.

Lemma ev_worker_settle w s st : ev cfg (worker_settle cfg w s) st.
Proof.
  apply ev_bind; [apply ev_incr|]. intros [] st1 _ _ _. apply ev_bind.
  - apply ev_when. intros _. apply ev_bind; [apply ev_signed_message|]. intros m st2 _ _ _. apply ev_send.
  - intros [] st2 _ _ _. apply ev_set_worker. set_solver.
Qed.

Lemma ev_live_among ps st : ev cfg (live_among ps) st.
Proof.
  revert st. induction ps as [|p ps IH]; intros st; [apply ev_ret|].
  apply ev_bind; [apply ev_suspected|]. intros s st' _ _ _.
  apply ev_bind; [apply IH|]. intros rest st2 _ _ _. apply ev_ret.
Qed.

Lemma ev_reclaim_item now ps tid r st : tid ∈ task_keys st -> ev cfg (reclaim_item cfg now ps (tid, r)) st.
Proof.
  intros Hk. unfold reclaim_item. case_match; [apply ev_ret|].
  apply ev_bind; [apply ev_suspected|]. intros s st1 _ _ Hs1. case_match; [apply ev_ret|].
  apply ev_lift_bind. intros elected _. case_match; [apply ev_ret|].
  apply ev_bind; [apply ev_incr|]. intros [] st2 _ _ Hs2. case_match.
  - apply ev_gets. apply ev_bind; [apply ev_when; intros _; apply ev_enqueue; set_solver|].
    intros [] st3 _ _ _. apply ev_ret.
  - apply ev_bind; [apply ev_bump|]. intros [] st3 _ Hwf3 Hs3. apply ev_gets.
    apply ev_bind; [apply ev_seal|]. intros rr st4 (-> & Hv & _)%seal_record_spec _ _.
    assert (vc_wf (vector_clock rr)) as Hvc by (rewrite Hv; by apply (wf_clock cfg)).
    apply ev_bind; [apply ev_store; [done|left; set_solver]|]. intros [] st5 _ _ Hs5.
    apply ev_bind; [apply ev_broadcast; [done|set_solver]|]. intros [] st6 _ _ _. apply ev_ret.
Qed.

Lemma ev_reclaim_audit now ps items st :
  items.*1 ⊆ task_keys st -> ev cfg (reclaim_audit cfg now ps items) st.
Proof.
  revert st. induction items as [|[tid r] items IH]; intros st Hk; cbn [reclaim_audit].
  { apply ev_set_reclaimer. set_solver. }
  rewrite fmap_cons in Hk. cbn [fst] in Hk.
  apply ev_bind; [apply ev_reclaim_item; set_solver|]. intros b st' _ _ Hs. destruct b.
  - apply ev_set_reclaimer. cbn. set_solver.
  - apply IH. set_solver.
Qed.

Lemma ev_reclaim_round st : ev cfg (reclaim_round cfg) st.
Proof.
  apply ev_bind; [apply ev_clock_now|]. intros now st1 _ _ _.
  apply ev_bind; [apply ev_live_among|]. intros l st2 _ _ _. apply ev_gets, ev_reclaim_audit. done.
Qed.

Lemma clock_of_json_wf v c : clock_of_json v = Ok c -> vc_wf c.
Proof.
  destruct v as [|[]|[]|f|[]|[]|d]; cbn [clock_of_json]; intros Hc; try discriminate;
    try (destruct (py_eq f fzero)); inv_result; try discriminate; apply VectorClock_init_wf.
Qed.

Lemma ev_recover_clock v st : ev cfg (recover_clock v) st.
Proof.
  unfold recover_clock. destruct (clock_of_json v) as [c|e] eqn:E.
  - apply ev_merge_clock. by eapply clock_of_json_wf.
  - case_match; [apply ev_ret|apply ev_lift].
Qed.

Lemma ev_recover_store key r st :
  vc_wf (vector_clock r) -> (key ∈ task_keys st \/ len (tasks st) < max_tasks cfg) ->
  ev cfg (recover_store cfg key r) st.
Proof.
  intros Hr Hd. apply ev_gets. destruct (dict_get key (tasks st)) as [old|] eqn:Eo.
  - destruct (merge_records old r (merge_keyring cfg)) as [m|e] eqn:Em.
    + intros Hwf. apply ev_store; [|left; by eapply dict_get_key|done].
      eapply merge_records_vc_wf; [done|by eapply stored_vc_wf|done].
    + case_match; [apply ev_ret|apply ev_lift].
  - by apply ev_store.
Qed.

(** The test of the table's capacity in recovery and submission. *)
Lemma room tid st :
  negb (dict_mem tid (tasks st)) && (max_tasks cfg <=? len (tasks st)) = false ->
  tid ∈ task_keys st \/ len (tasks st) < max_tasks cfg.
Proof.
  destruct (dict_mem tid (tasks st)) eqn:Ek; cbn [negb andb].
  - intros _. left. apply dict_mem_true in Ek as [r Hr]. by eapply dict_get_key.
  - intros Hl%Z.leb_gt. by right.
Qed.

Lemma ev_recover_task p st : ev cfg (recover_task cfg p) st.
Proof.
  unfold recover_task. destruct (from_dict (JObj p)) as [r|e] eqn:Er.
  2: { case_match; [apply ev_ret|apply ev_lift]. }
  apply from_dict_vc_wf in Er. apply ev_lift_bind. intros ok _. case_match; [apply ev_ret|].
  apply ev_gets. case_match eqn:Ec; [apply ev_ret|]. apply ev_recover_store; [done|by apply room].
Qed.

Lemma ev_recover_entry kv st : ev cfg (recover_entry cfg kv) st.
Proof.
  destruct kv as [tid tdict]. apply ev_gets. rewrite andb_comm. case_match eqn:Ec; [apply ev_ret|].
  destruct (from_dict tdict) as [r|e] eqn:Er.
  2: { case_match; [apply ev_ret|apply ev_lift]. }
  apply from_dict_vc_wf in Er. apply ev_lift_bind. intros ok _. case_match; [apply ev_ret|].
  apply ev_recover_store; [done|by apply room].
Qed.

Lemma ev_recover_record rec st : ev cfg (recover_record cfg rec) st.
Proof.
  unfold recover_record. case_match; [apply ev_recover_task|]. case_match; [apply ev_recover_clock|].
  case_match; [|apply ev_ret]. case_match; try apply ev_ret.
  apply ev_bind; [apply ev_for_each; intros kv st' _ _ _; apply ev_recover_entry|].
  intros [] st' _ _ _. apply ev_recover_clock.
Qed.

Lemma ev_recover_from_wal st : ev cfg (recover_from_wal cfg) st.
Proof.
  apply ev_gets. destruct (wal st) as [log|]; [|apply ev_ret]. destruct (replay false log) as [recs failure].
  apply ev_bind; [apply ev_for_each; intros rec st' _ _ _; apply ev_recover_record|].
  intros [] st1 _ _ _. apply ev_lift_bind. intros _ _. apply ev_gets, ev_for_each.
  intros [k r] st2 Hin _ Hs. apply ev_requeue. apply Hs, list_elem_of_fmap. by exists (k, r).
Qed.

Lemma ev_start st : ev cfg (start cfg) st.
Proof.
  apply ev_gets. case_match; [apply ev_ret|].
  apply ev_bind; [by apply ev_frame|]. intros [] st1 _ _ _.
  apply ev_bind; [apply ev_recover_from_wal|]. intros [] st2 _ _ _.
  apply ev_bind; [by apply ev_frame|]. intros [] st3 _ _ _.
  apply ev_bind; [apply ev_set_worker; set_solver|]. intros [] st4 _ _ _.
  apply ev_set_reclaimer. set_solver.
Qed.

Lemma ev_stop st : ev cfg stop st.
Proof.
  apply ev_bind; [by apply ev_frame|]. intros [] st1 _ _ _. apply ev_gets.
  apply ev_bind.
  { apply ev_for_each. intros l st2 _ _ _. apply ev_gets. case_match; [case_match|];
      [by apply ev_frame|apply ev_lift|by apply ev_frame..]. }
  intros [] st2 _ _ _. apply ev_bind; [by apply ev_frame|]. intros [] st3 _ _ _. apply ev_gets.
  case_match; [by apply ev_frame|apply ev_ret].
Qed.

Lemma ev_gossip_round st : ev cfg (gossip_round cfg) st.
Proof.
  apply ev_gets. destruct (peers cfg) as [|p ps]; [apply ev_ret|]. destruct (tasks st); [apply ev_ret|].
  apply ev_bind; [by apply ev_frame|]. intros i st1 _ _ _.
  apply ev_bind; [apply ev_signed_message|]. intros m st2 _ _ _. apply ev_send.
Qed.

Lemma ev_heartbeat_round st : ev cfg (heartbeat_round cfg) st.
Proof.
  apply ev_bind; [apply ev_clock_now|]. intros now st1 _ _ _.
  apply ev_bind; [apply ev_signed_message|]. intros m st2 _ _ _.
  apply ev_for_each. intros p st3 _ _ _. apply ev_send.
Qed.

Lemma run_loop_evolved l m st : ev cfg m st -> node_wf cfg st -> evolved cfg st (run_loop l m st).
Proof.
  intros Hm Hwf. specialize (Hm Hwf). unfold run_loop. destruct (m st) as [[a|e] st']; [done|].
  eapply evolved_trans; [done|]. apply core_evolved; [done|apply Hm].
Qed.

Lemma node_step_evolved st st' : node_step cfg st st' -> node_wf cfg st -> evolved cfg st st'.
Proof.
  intros Hs Hwf. pose proof (wf_worker _ _ Hwf) as Hw. pose proof (wf_audit _ _ Hwf) as Ha.
  destruct Hs as [tid p pr st|st _|st|sender m st _|st _ _|st _|st _ _|now ps items st _ Er|st _ _
                 |w st _ Ew|w o st _ Ew|w s st _ Ew|sent rest st _].
  - by apply ev_submit.
  - by apply ev_start.
  - by apply ev_stop.
  - apply run_loop_evolved; [apply ev_receive|done].
  - apply run_loop_evolved; [apply ev_heartbeat_round|done].
  - apply run_loop_evolved; [apply ev_gossip_round|done].
  - apply run_loop_evolved; [apply ev_reclaim_round|done].
  - apply run_loop_evolved; [|done]. apply ev_reclaim_audit. by rewrite Er in Ha.
  - apply run_loop_evolved; [apply ev_worker_take|done].
  - rewrite Ew in Hw. apply run_loop_evolved; [|done]. apply ev_worker_run. set_solver.
  - rewrite Ew in Hw. apply run_loop_evolved; [|done]. apply ev_worker_finish. set_solver.
  - apply run_loop_evolved; [apply ev_worker_settle|done].
  - by apply core_evolved.
Qed.

Lemma node_init_wf log2 nid ps handler lease env mq ic log key ring sec mt cfg' st :
  node_init log2 nid ps handler lease env mq ic log key ring sec mt = Ok (cfg', st) -> node_wf cfg' st.
Proof.
  unfold node_init. intros Hi. inv_result. injection Hi as <- <-. breflect.
  split; unfold task_keys;
    cbn [tasks node_clock queue queued_task_ids worker reclaimer message_replay max_tasks queue_init q_heap].
  - apply NoDup_nil_2.
  - match goal with E : (mt <=? 0) = false |- _ => apply Z.leb_gt in E end. unfold len; cbn; lia.
  - apply Forall_nil_2.
  - apply VectorClock_init_wf.
  - apply queue_init_wf.
  - intros tid Htid. by apply elem_of_empty in Htid.
  - done.
  - done.
  - done.
  - match goal with E : replay_cache_init _ = Ok ?c |- rc_wf ?c =>
      unfold replay_cache_init in E; inv_result
    end.
    match goal with E : (replay_cache_size _ <=? 0) = false |- _ => apply Z.leb_gt in E end.
    split_and!; cbn; [lia|apply NoDup_nil_2|unfold len; cbn; lia].
  - done.
Qed.

Lemma node_reachable_evolved st st' : node_reachable cfg st st' -> node_wf cfg st -> evolved cfg st st'.
Proof.
  intros Hr Hwf. induction Hr as [|st1 st2 Hr IH Hs]; [by apply evolved_refl|].
  eapply evolved_trans; [done|]. eapply node_step_evolved; [done|]. apply IH.
Qed.
End methods.

(** C1: safety of every execution: from its construction on, and whatever is submitted, received,
    claimed, reclaimed or recovered in whatever order, a node's task table has one entry per
    identifier and never more than [max_tasks], its queue is a heap within its capacity that holds
    only known tasks, every identifier marked as queued is in the queue, the worker and the audit
    refer to known tasks, clocks are normalised and the replay cache is bounded. *)
Theorem node_always_well_formed `{Ed25519} `{MathLib} `{UnicodeDB} `{World}
    (log2 : float -> float) (nid : pystr) (ps : list pystr) (handler : bool) (lease : option float)
    (env : option pystr) (mq ic : Z) (log : option WriteAheadLog) (key : PrivateKey) (ring : PeerKeyRing)
    (sec : SecurityConfig) (mt : Z) (cfg : NodeConfig) (st0 st : NodeState) :
  node_init log2 nid ps handler lease env mq ic log key ring sec mt = Ok (cfg, st0) ->
  node_reachable cfg st0 st -> node_wf cfg st.
Proof. intros Hi Hr. eapply node_reachable_evolved; [done|by eapply node_init_wf]. Qed.

(** A node never forgets: along every execution tasks stay in the table once they are in it and
    the vector clock only advances, in every component. *)
Theorem node_never_regresses `{Ed25519} `{MathLib} `{UnicodeDB} `{World} (cfg : NodeConfig)
    (st st' : NodeState) :
  node_wf cfg st -> node_reachable cfg st st' ->
  (forall tid, is_Some (get_task tid st) -> is_Some (get_task tid st')) /\
  vc_le (node_clock st) (node_clock st').
Proof.
  intros Hwf Hr. destruct (node_reachable_evolved cfg st st' Hr Hwf) as (_ & Hk & Hc). split; [|done].
  intros tid [r Hr1%dict_get_key]. unfold get_task. destruct (dict_get tid (tasks st')) eqn:E; [by eauto|].
  apply dict_get_None in E. by destruct E; apply Hk.
Qed.

(** ** A sample node

    Peer p1 of a mesh of two, in a world whose clocks count the readings. *)
Definition toy_world : World := {|
  now_at := fun n => Z_to_float (Z.of_nat n);
  wall_at := fun n => Z_to_float (Z.of_nat n);
  nonce_at := fun n => str "nonce-" ++ N_str (N.of_nat n);
  choice_at := fun n => n;
|}.
#[export] Existing Instance toy_world.
#[export] Existing Instance flat_math.
#[export] Existing Instance ascii_db.

Definition toy_security (on : bool) : SecurityConfig := {|
  enabled := on; protocol_version := 2; max_frame_size := 1000; max_udp_payload := 1000;
  max_http_headers := 1000; max_http_body := 1000; sc_max_tasks := 2; max_peers := 4; max_gossip_tasks := 4;
  max_credit_amount := 10; max_lease_duration_seconds := decimal_float false 100 0; replay_cache_size := 4;
  replay_window_seconds := decimal_float false 30 0; max_connections := 4; max_inbox_size := 4;
  read_timeout_seconds := decimal_float false 1 0; write_timeout_seconds := decimal_float false 1 0;
  connect_timeout_seconds := decimal_float false 1 0; udp_rate_limit := 10;
  udp_rate_window_seconds := decimal_float false 1 0; max_json_depth := 16; max_json_items := 1000;
  max_string_length := 1000 |}.

Definition toy_init (on handler : bool) : result (NodeConfig * NodeState) :=
  node_init (fun _ => fzero) (str "p1") [str "p2"; str "p1"; str "p2"] handler None None 3 5 None
    (toy_seed 1) toy_ring (toy_security on) 2.

Definition blank_state : NodeState := {|
  message_replay := {| rc_max_entries := 4; rc_entries := [] |}; tasks := [];
  queue := queue_init 3 REJECT_ON_FULL; queued_task_ids := ∅; node_clock := VectorClock_init ∅;
  failure_detector := detector_init 1000 5 fzero; metrics := {| counters := []; histograms := [] |};
  flow_controller := credit_flow_init 5; wal := None; running := false; bg_tasks := []; worker := WIdle;
  reclaimer := RIdle; outbox := []; ticks := 0 |}.

Definition blank_cfg (on handler : bool) : NodeConfig := {|
  node_id := str "p1"; peers := [str "p2"]; has_handler := handler; lease_duration := decimal_float false 5 0;
  identity := toy_seed 1; keyring := toy_ring; security := toy_security on; max_tasks := 2 |}.

Definition toy_node (on handler : bool) : NodeConfig * NodeState :=
  match toy_init on handler with Ok n => n | Raise _ => (blank_cfg on handler, blank_state) end.
Definition toy_cfg (on handler : bool) : NodeConfig := (toy_node on handler).1.
Definition toy_state (on handler : bool) : NodeState := (toy_node on handler).2.

Lemma toy_init_ok on handler : toy_init on handler = Ok (toy_cfg on handler, toy_state on handler).
Proof.
  assert (is_ok (toy_init on handler) = true) as E by (destruct on, handler; vm_compute; reflexivity).
  unfold toy_cfg, toy_state, toy_node. destruct (toy_init on handler) as [[c st]|]; [done|discriminate E].
Qed.

Lemma toy_wf on handler : node_wf (toy_cfg on handler) (toy_state on handler).
Proof. pose proof (toy_init_ok on handler) as E. unfold toy_init in E. by eapply node_init_wf. Qed.

(** The state after a task "t" is submitted. *)
Definition toy_submitted (on handler : bool) : NodeState :=
  (submit_task (toy_cfg on handler) (str "t") (str_bytes "{}") 0 (toy_state on handler)).2.

Lemma toy_submitted_reachable on handler :
  node_reachable (toy_cfg on handler) (toy_state on handler) (toy_submitted on handler).
Proof. eapply reach_step; [apply reach_refl|apply step_submit]. Qed.

Lemma node_always_well_formed_witness : node_wf (toy_cfg true true) (toy_submitted true true).
Proof.
  pose proof (toy_init_ok true true) as E. unfold toy_init in E.
  exact (node_always_well_formed _ _ _ _ _ _ _ _ _ _ _ _ _ _ _ _ E (toy_submitted_reachable true true)).
Defined.

Lemma node_never_regresses_witness :
  vc_le (node_clock (toy_state true true)) (node_clock (toy_submitted true true)).
Proof.
  exact (proj2 (node_never_regresses (toy_cfg true true) (toy_state true true) (toy_submitted true true)
    (toy_wf true true) (toy_submitted_reachable true true))).
Defined.
