(* ===== verification/NodeTheorems.v ===== *)
(** * What the peer node guarantees

    Reception (monotone in the lattice of records, authenticated, immune to replay), the worker's
    claims and commits, submission, and the behaviours that the source's interleavings allow. *)

From Stdlib Require Import ZArith NArith Lia.
From S2P Require Import Prelude PyFloat Text Json JsonFacts Security Consensus Crypto Lattice Heapq Queue.
From S2P Require Import Wal Metrics Failure Message Sha256 FloatText Node NodeFacts.
Open Scope Z_scope.

(** ** Relations kept by computations *)

Section relation_rules.
Context (R : relation NodeState) `{!PreOrder R}.

Definition moves {A} (m : M A) (st : NodeState) : Prop := R st (m st).2.

Lemma moves_ret {A} (a : A) st : moves (nret a) st.
Proof. unfold moves. reflexivity. Qed.

Lemma moves_lift {A} (r : result A) st : moves (lift r) st.
Proof. unfold moves. reflexivity. Qed.

Lemma moves_bind {A B} (m : M A) (k : A -> M B) st :
  moves m st -> (forall a st', m st = (Ok a, st') -> moves (k a) st') -> moves (nbind m k) st.
Proof.
  unfold moves, nbind. intros Hm Hk. destruct (m st) as [[a|e] st'] eqn:E; [|done].
  etrans; [done|]. by apply (Hk a).
Qed.

Lemma moves_gets {A B} (f : NodeState -> A) (k : A -> M B) st :
  moves (k (f st)) st -> moves (nbind (gets f) k) st.
Proof. done. Qed.

Lemma moves_lift_bind {A B} (r : result A) (k : A -> M B) st :
  (forall a, r = Ok a -> moves (k a) st) -> moves (nbind (lift r) k) st.
Proof. intros Hk. destruct r as [a|e]; [exact (Hk a eq_refl)|apply moves_lift]. Qed.

Lemma moves_suppress p (m : M ()) st : moves m st -> moves (suppress p m) st.
Proof.
  unfold moves, suppress, ncatch. destruct (m st) as [[a|e] st']; [done|]. by destruct (p e).
Qed.

Lemma moves_when c (m : M ()) st : moves m st -> moves (when c m) st.
Proof. destruct c; [done|intros _; apply moves_ret]. Qed.

Lemma moves_for_each {A} (f : A -> M ()) (l : list A) st :
  (forall x st', x ∈ l -> moves (f x) st') -> moves (for_each f l) st.
Proof.
  revert st. induction l as [|x l IH]; intros st Hf; [apply moves_ret|].
  apply moves_bind; [apply Hf; by left|]. intros [] st' _. apply IH. intros y st2 Hy. apply Hf. by right.
Qed.
End relation_rules.

(** ** Computations that leave the task table alone *)

Definition same_tasks (st st' : NodeState) : Prop := tasks st' = tasks st.
#[export] Instance same_tasks_preorder : PreOrder same_tasks.
Proof. split; [done|]. intros a b c H1 H2. unfold same_tasks in *. congruence. Qed.

Create HintDb frame.
#[export] Hint Resolve moves_ret moves_lift : frame.

Section frames.
Context `{Ed25519} `{MathLib} `{UnicodeDB} `{World} (cfg : NodeConfig).

Lemma enqueue_tasks tid p st : moves same_tasks (enqueue tid p) st.
Proof.
  apply moves_suppress. apply moves_gets, moves_lift_bind; [apply _|]. intros q _.
  apply moves_bind; [apply _|done|]. intros [] st' _. done.
Qed.

Lemma requeue_tasks tid r st : moves same_tasks (requeue_pending tid r) st.
Proof. apply moves_gets, moves_when; [apply _|apply enqueue_tasks]. Qed.

Lemma wal_append_tasks r st : moves same_tasks (wal_append r) st.
Proof.
  apply moves_gets. destruct (wal st); [|apply moves_ret; apply _].
  apply moves_lift_bind; [apply _|]. intros ow _. apply moves_bind; [apply _|done|]. intros [] st' _.
  apply moves_gets, moves_lift_bind; [apply _|]. intros ow' _. done.
Qed.

Lemma authenticate_tasks sender m st : moves same_tasks (authenticate_message cfg sender m) st.
Proof.
  unfold authenticate_message. repeat (case_match; [done|]).
  apply moves_lift_bind; [apply _|]. intros ok _. case_match; [done|].
  destruct (timestamp m); [|done]. destruct (nonce m); [|done].
  apply moves_bind; [apply _|done|]. intros now st' _. case_match; [done|].
  unfold moves. by destruct (check_and_remember _ _ _ _ _).
Qed.

Lemma signed_message_tasks mt p st : moves same_tasks (signed_message cfg mt p) st.
Proof.
  apply moves_bind; [apply _|done|]. intros ts st' _. apply moves_bind; [apply _|done|]. done.
Qed.

Lemma sends_tasks (m : Message) ps st : moves same_tasks (for_each (fun p => send p m) ps) st.
Proof. apply moves_for_each; [apply _|]. done. Qed.

(** The record of a task after a gossip commits it. *)
Lemma gossip_commit_tasks tid r remote st :
  tasks (gossip_commit tid r remote st).2 = dict_set tid r (tasks st).
Proof.
  unfold gossip_commit. set (st1 := set_tasks (dict_set tid r (tasks st)) st).
  change (tasks ((requeue_pending tid r ;;*
    modify (fun st => set_clock (vc_merge (node_clock st) (vector_clock remote)) st) ;;*
    wal_append r) st1).2 = tasks st1).
  apply (moves_bind same_tasks); [apply requeue_tasks|]. intros [] st2 _.
  apply moves_bind; [apply _|done|]. intros [] st3 _. apply wal_append_tasks.
Qed.
End frames.

(** ** Reception without signatures is monotone *)

(** The table holds mergeable records under their own identifiers. *)
Definition table_ok (st : NodeState) : Prop :=
  forall tid r, get_task tid st = Some r -> mergeable tid r.

(** Every task's record has moved up in the lattice. *)
Definition ascends (st st' : NodeState) : Prop :=
  table_ok st ->
  table_ok st' /\
  forall tid r, get_task tid st = Some r -> exists r', get_task tid st' = Some r' /\ rec_le r r'.

Lemma rec_le_refl tid r : mergeable tid r -> rec_le r r.
Proof. intros Hr. split; [|apply vc_le_refl]. apply py_ge_refl, py_ok_key. eauto with peerq. Qed.

Lemma rec_le_trans a b c : rec_le a b -> rec_le b c -> rec_le a c.
Proof. intros [H1 H2] [H3 H4]. split; [by eapply py_ge_trans|by eapply vc_le_trans]. Qed.

#[export] Instance ascends_preorder : PreOrder ascends.
Proof.
  split.
  - intros st Hst. split; [done|]. intros tid r Hr. exists r. split; [done|].
    eapply rec_le_refl. by apply Hst.
  - intros a b c H1 H2 Ha. destruct (H1 Ha) as [Hb Hab]. destruct (H2 Hb) as [Hc Hbc]. split; [done|].
    intros tid r Hr. destruct (Hab tid r Hr) as (r1 & Hr1 & Hle1).
    destruct (Hbc tid r1 Hr1) as (r2 & Hr2 & Hle2). exists r2. split; [done|by eapply rec_le_trans].
Qed.

Lemma same_tasks_ascends st st' : same_tasks st st' -> ascends st st'.
Proof.
  unfold same_tasks, ascends, table_ok, get_task. intros -> Hst. split; [done|].
  intros tid r Hr. exists r. split; [done|]. eapply rec_le_refl. by apply Hst.
Qed.

Lemma from_dict_mergeable v r : from_dict v = Ok r -> mergeable (task_id r) r.
Proof.
  intros Hr. split_and!; [done| |by eapply from_dict_vc_wf].
  unfold from_dict in Hr. destruct v; try discriminate. inv_result. cbn.
  match goal with E : finite_number _ = Ok ?f |- isnan ?f = false =>
    apply finite_number_sound in E; by destruct f
  end.
Qed.

Lemma merge_core_le tid a b : mergeable tid a -> mergeable tid b -> rec_le a (merge_core a b).
Proof.
  intros Ha Hb. split; [by eapply merge_ge_l|]. rewrite merge_core_clock. apply vc_merge_le_l; eauto with peerq.
Qed.

Section reception.
Context `{Ed25519} `{MathLib} `{UnicodeDB} `{World} (cfg : NodeConfig).

(** A commit that replaces a record by a higher one. *)
Lemma gossip_commit_ascends tid r remote st :
  mergeable tid r -> (forall old, get_task tid st = Some old -> rec_le old r) ->
  moves ascends (gossip_commit tid r remote) st.
Proof.
  intros Hr Hold Hst. unfold table_ok, get_task in *. rewrite gossip_commit_tasks. split.
  - intros k x. rewrite dict_get_set. destruct (decide (tid = k)) as [->|]; [by intros [= ->]|apply Hst].
  - intros k x Hx. rewrite dict_get_set. destruct (decide (tid = k)) as [->|].
    + exists r. split; [done|by apply Hold].
    + exists x. split; [done|]. eapply rec_le_refl. by apply Hst.
Qed.

Lemma gossip_entry_ascends sender entry st :
  enabled (security cfg) = false -> moves ascends (gossip_entry cfg sender entry) st.
Proof.
  intros Hoff. destruct entry as [tid raw]. unfold gossip_entry.
  destruct (from_dict raw) as [r|e] eqn:Er; [|by case_match; apply same_tasks_ascends].
  apply from_dict_mergeable in Er. destruct (decide (task_id r = tid)) as [Heq|Hne].
  2: { rewrite bool_decide_eq_false_2 by done. by apply same_tasks_ascends. }
  rewrite bool_decide_eq_true_2 by done. rewrite Heq in Er. cbn [negb].
  apply moves_lift_bind; [apply _|]. intros ok _. case_match; [by apply same_tasks_ascends|].
  apply moves_gets. destruct (dict_get tid (tasks st)) as [local|] eqn:El.
  - unfold merge_keyring. rewrite Hoff.
    destruct (merge_records local r None) as [m|[]] eqn:Em; try by apply same_tasks_ascends.
    intros Hst. revert Hst. assert (merge_records local r None = Ok m) as Em' by done.
    apply merge_records_cases in Em' as (_ & [->|[[ring Hring] _]]); [|discriminate Hring].
    intros Hst. pose proof (Hst tid local El) as Hl.
    apply gossip_commit_ascends; [by apply merge_core_mergeable| |done].
    intros old Hold. unfold get_task in Hold. rewrite El in Hold. injection Hold as <-.
    by eapply merge_core_le.
  - case_match; [by apply same_tasks_ascends|]. apply gossip_commit_ascends; [done|].
    intros old Hold. unfold get_task in Hold. congruence.
Qed.

(** C12: gossip only ascends: in a mesh without signatures, whatever message is received, every task
    keeps a record, each record moves up in the lattice (its fencing and state never go back, its
    clock grows) and the table stays mergeable, even when the handling raises half-way. *)
Theorem gossip_only_ascends (sender : pystr) (m : Message) (st : NodeState) :
  enabled (security cfg) = false -> table_ok st ->
  table_ok (receive cfg sender m st).2 /\
  forall tid r, get_task tid st = Some r ->
    exists r', get_task tid (receive cfg sender m st).2 = Some r' /\ rec_le r r'.
Proof.
  intros Hoff Hst. enough (moves ascends (receive cfg sender m) st) as Hm by (by apply Hm).
  apply moves_bind; [apply _|apply same_tasks_ascends, authenticate_tasks|]. intros ok st1 _.
  case_match; [by apply same_tasks_ascends|].
  case_match; [apply moves_bind; [apply _|by apply same_tasks_ascends|]; intros ? ? _; by apply same_tasks_ascends|].
  case_match.
  - case_match; try by apply same_tasks_ascends. case_match; [by apply same_tasks_ascends|].
    apply moves_for_each; [apply _|]. intros x st' _. by apply gossip_entry_ascends.
  - case_match; [|by apply same_tasks_ascends]. case_match; try by apply same_tasks_ascends.
    case_match; by apply same_tasks_ascends.
Qed.
End reception.

(** ** Reception with signatures is authenticated *)

(** The table differs only at tasks that satisfy [P]. *)
Definition changes_at (P : pystr -> Prop) (st st' : NodeState) : Prop :=
  forall tid, P tid \/ get_task tid st' = get_task tid st.

#[export] Instance changes_at_preorder P : PreOrder (changes_at P).
Proof.
  split; [intros st tid; by right|]. intros a b c H1 H2 tid.
  destruct (H1 tid) as [|E1], (H2 tid) as [|E2]; auto. right. congruence.
Qed.

Lemma same_tasks_changes P st st' : same_tasks st st' -> changes_at P st st'.
Proof. unfold same_tasks, changes_at, get_task. intros -> tid. by right. Qed.

Section authentication.
Context `{Ed25519} `{MathLib} `{UnicodeDB} `{World} (cfg : NodeConfig).

(** A message that passes: who sent it, and that its nonce is new. *)
Lemma authenticate_true sender m st st' :
  enabled (security cfg) = true -> authenticate_message cfg sender m st = (Ok true, st') ->
  sender = sender_id m /\ msg_version m = protocol_version (security cfg) /\
  msg_type m ∈ [str "heartbeat"; str "gossip"; str "credit"] /\ has_peer sender (keyring cfg) = true /\
  verify_signature m (keyring cfg) = Ok true /\
  exists ts n rc, timestamp m = Some ts /\ nonce m = Some n /\
    py_gt (fabs (fsub (wall_at (ticks st)) ts)) (replay_window_seconds (security cfg)) = false /\
    check_and_remember sender n (wall_at (ticks st)) (replay_window_seconds (security cfg))
      (message_replay st) = (true, rc) /\
    st' = set_replay rc (tick st).
Proof.
  intros Hon. unfold authenticate_message. rewrite Hon. cbn [negb].
  destruct (bool_decide (sender = sender_id m)) eqn:E1; [|done].
  destruct (msg_version m =? protocol_version (security cfg)) eqn:E2; [|done].
  destruct (bool_decide (msg_type m ∈ _)) eqn:E3; [|done].
  destruct (has_peer sender (keyring cfg)) eqn:E4; [|done]. cbn [negb].
  unfold nbind at 1, lift. destruct (verify_signature m (keyring cfg)) as [[]|] eqn:E5; [|done|done].
  cbn [negb]. destruct (timestamp m) as [ts|]; [|done]. destruct (nonce m) as [n|]; [|done].
  unfold nbind, clock_wall. destruct (py_gt _ _) eqn:E6; [done|].
  destruct (check_and_remember _ _ _ _ _) as [fresh rc] eqn:E7. intros [= -> <-]. breflect.
  apply Z.eqb_eq in E2. split_and!; [done..|]. by exists ts, n, rc.
Qed.

(** What a peer may change: the tasks of its message whose records it signed and is entitled to. *)
Definition entitled (sender : pystr) (m : Message) (tid : pystr) : Prop :=
  exists raw_tasks raw r,
    dict_get (str "tasks") (msg_payload m) = Some (JObj raw_tasks) /\ (tid, raw) ∈ raw_tasks /\
    from_dict raw = Ok r /\ task_id r = tid /\ signer_id r = Some sender /\
    verify_task_authorization r (keyring cfg) = Ok true.

Lemma gossip_commit_changes (P : pystr -> Prop) tid r remote st :
  P tid -> moves (changes_at P) (gossip_commit tid r remote) st.
Proof.
  intros HP k. unfold get_task. rewrite gossip_commit_tasks, dict_get_set.
  destruct (decide (tid = k)) as [->|]; auto.
Qed.

Lemma gossip_entry_changes sender tid raw st (P : pystr -> Prop) :
  enabled (security cfg) = true ->
  (forall r, from_dict raw = Ok r -> task_id r = tid -> signer_id r = Some sender ->
     verify_task_authorization r (keyring cfg) = Ok true -> P tid) ->
  moves (changes_at P) (gossip_entry cfg sender (tid, raw)) st.
Proof.
  intros Hon HP. unfold gossip_entry.
  destruct (from_dict raw) as [r|e] eqn:Er; [|by case_match; apply same_tasks_changes].
  case_match eqn:Eid; [by apply same_tasks_changes|]. breflect.
  apply moves_lift_bind; [apply _|]. intros ok Hok. destruct ok; [|by apply same_tasks_changes].
  unfold gossip_authorized in Hok. rewrite Hon in Hok.
  destruct (bool_decide (signer_id r = Some sender)) eqn:Es; [|done]. breflect.
  assert (P tid) as Hp by eauto. cbn [negb]. apply moves_gets. case_match.
  - case_match; [by apply gossip_commit_changes|]. by case_match; apply same_tasks_changes.
  - case_match; [by apply same_tasks_changes|by apply gossip_commit_changes].
Qed.

Lemma receive_changes sender m st :
  enabled (security cfg) = true ->
  moves (changes_at (fun tid => exists st1, authenticate_message cfg sender m st = (Ok true, st1) /\
    msg_type m = str "gossip" /\ entitled sender m tid)) (receive cfg sender m) st.
Proof.
  intros Hon. apply moves_bind; [apply _|apply same_tasks_changes, authenticate_tasks|].
  intros ok st1 Hauth. destruct ok; [|by apply same_tasks_changes]. cbn [negb].
  case_match; [apply moves_bind; [apply _|by apply same_tasks_changes|]; intros ? ? _; by apply same_tasks_changes|].
  case_match eqn:Eg; breflect.
  - destruct (dict_get (str "tasks") (msg_payload m)) as [v|] eqn:Ev; cbn [default from_option id].
    + destruct v; try by apply same_tasks_changes. case_match; [by apply same_tasks_changes|].
      apply moves_for_each; [apply _|]. intros [tid raw] st' Hin. apply gossip_entry_changes; [done|].
      intros r Hr Hid Hs Hv. exists st1. split_and!; [done|done|]. by exists d, raw, r.
    + case_match; by apply same_tasks_changes.
  - case_match; [|by apply same_tasks_changes]. case_match; try by apply same_tasks_changes.
    case_match; by apply same_tasks_changes.
Qed.

(** C2: received state is authenticated: in a signed mesh a received message changes the record of
    a task only if it is a gossip message of the current protocol version, signed by its sender
    under a key of the ring, inside the replay window with a new nonce, and it carries a record of
    that task which the same sender signed and is entitled to (a claim only for itself). *)
Theorem gossip_is_authenticated (sender : pystr) (m : Message) (st : NodeState) (tid : pystr) :
  enabled (security cfg) = true ->
  get_task tid (receive cfg sender m st).2 = get_task tid st \/
  (sender = sender_id m /\ msg_type m = str "gossip" /\
   msg_version m = protocol_version (security cfg) /\ has_peer sender (keyring cfg) = true /\
   verify_signature m (keyring cfg) = Ok true /\
   (exists ts n, timestamp m = Some ts /\ nonce m = Some n /\
      py_gt (fabs (fsub (wall_at (ticks st)) ts)) (replay_window_seconds (security cfg)) = false /\
      (check_and_remember sender n (wall_at (ticks st)) (replay_window_seconds (security cfg))
        (message_replay st)).1 = true) /\
   entitled sender m tid).
Proof.
  intros Hon. destruct (receive_changes sender m st Hon tid) as [(st1 & Ha & Hg & He)|E]; [right|by left].
  destruct (authenticate_true _ _ _ _ Hon Ha) as (H1' & H2' & _ & H4' & H5' & ts & n & rc & Ht & Hn & Hw & Hc & _).
  split_and!; try done. exists ts, n. split_and!; [done|done|done|]. by rewrite Hc.
Qed.

End authentication.

(** ** The worker *)

(** [a] and [b] are one record up to its signature. *)
Definition same_content (a b : TaskRecord) : Prop :=
  with_signature a None None = with_signature b None None.

Section working.
Context `{Ed25519} `{MathLib} `{UnicodeDB} `{World} (cfg : NodeConfig).

Lemma seal_same_content r r' st st' : seal_record cfg r st = (Ok r', st') -> st' = st /\ same_content r' r.
Proof.
  unfold seal_record. destruct (enabled (security cfg)); cbn [negb].
  - unfold lift, sign_task. intros [= E <-]. inv_result. done.
  - intros [= <- <-]. done.
Qed.

Lemma same_content_trans a b c : same_content a b -> same_content b c -> same_content a c.
Proof. unfold same_content. congruence. Qed.

Lemma nbind_Ok {A B} (m : M A) (k : A -> M B) st b st' :
  nbind m k st = (Ok b, st') -> exists a st1, m st = (Ok a, st1) /\ k a st1 = (Ok b, st').
Proof. unfold nbind. destruct (m st) as [[a|e] st1]; [by eauto|done]. Qed.

Lemma broadcast_spec tid r st st' :
  broadcast_task_update cfg tid r st = (Ok (), st') ->
  exists r', same_content r' r /\ tasks st' = dict_set tid r' (tasks st).
Proof.
  intros (r' & st1 & (-> & Hc)%seal_same_content & Hrun)%nbind_Ok. exists r'. split; [done|].
  set (st2 := set_tasks (dict_set tid r' (tasks st)) st).
  apply nbind_Ok in Hrun as (? & ? & [= _ <-] & Hrun). fold st2 in Hrun.
  change (dict_set tid r' (tasks st)) with (tasks st2).
  match type of Hrun with ?m st2 = _ => enough (moves same_tasks m st2) as Hm end.
  { unfold moves in Hm. rewrite Hrun in Hm. exact Hm. }
  apply moves_bind; [apply _|apply wal_append_tasks|]. intros [] st3 _.
  apply moves_bind; [apply _|apply signed_message_tasks|]. intros m st4 _. apply sends_tasks.
Qed.

(** Storing a record and broadcasting it. *)
Lemma store_broadcast_spec tid r st st' :
  (store_task tid r ;;* broadcast_task_update cfg tid r) st = (Ok (), st') ->
  exists r', same_content r' r /\ get_task tid st' = Some r' /\
    forall k, k <> tid -> get_task k st' = get_task k st.
Proof.
  intros ([] & st1 & [= <-] & (r' & Hc & Ht)%broadcast_spec)%nbind_Ok. exists r'. split; [done|].
  unfold get_task. rewrite Ht. split; [apply dict_get_set_eq|]. intros k Hk.
  rewrite dict_get_set_ne by done. cbn. by apply dict_get_set_ne.
Qed.

(** Whether the worker may still commit: its lease is running and no higher token is known. *)
Definition may_commit (w : WorkItem) (st : NodeState) : bool :=
  negb (py_gt (now_at (ticks st)) (w_lease_exp w)) &&
  match get_task (w_task_id w) st with
  | Some current => negb (py_gt (fence_token current) (w_token w))
  | None => true
  end.

Lemma worker_finish_refused w o st :
  may_commit w st = false ->
  worker_finish cfg w o st =
    (Ok (), set_worker WIdle (set_metrics (increment_counter (str "rejected") 1 (metrics st)) (tick st))).
Proof.
  unfold may_commit, get_task, worker_finish. intros Hm.
  destruct (match o with HReturn b => _ | HRaise s => _ end) as [[res err] ns].
  unfold nbind at 1, clock_now. unfold nbind at 1, gets at 1. cbn [tick upd2 tasks].
  destruct (py_gt (now_at (ticks st)) (w_lease_exp w)); [done|]. cbn [negb andb] in Hm.
  destruct (dict_get (w_task_id w) (tasks st)) as [c|]; [|done]. apply negb_false_iff in Hm.
  by rewrite Hm.
Qed.

(** The record that commits an outcome. *)
Definition committed (w : WorkItem) (o : HandlerOutcome) (vc : VectorClock) : TaskRecord :=
  match o with
  | HReturn b => work_record cfg w DONE (Some b) None fzero vc
  | HRaise s => work_record cfg w FAILED None (Some s) fzero vc
  end.

Lemma worker_finish_commits w o st st' :
  may_commit w st = true -> worker_finish cfg w o st = (Ok (), st') ->
  (exists r, get_task (w_task_id w) st' = Some r /\
     same_content r (committed w o (increment (node_clock st) (node_id cfg)))) /\
  (forall k, k <> w_task_id w -> get_task k st' = get_task k st) /\
  worker st' = WCommitted w (match o with HReturn _ => DONE | HRaise _ => FAILED end).
Proof.
  unfold may_commit, get_task, worker_finish. intros Hm.
  destruct (match o with HReturn b => _ | HRaise s => _ end) as [[res err] ns] eqn:Eo.
  unfold nbind at 1, clock_now. unfold nbind at 1, gets at 1. cbn [tick upd2 tasks].
  destruct (py_gt (now_at (ticks st)) (w_lease_exp w)); [done|]. cbn [negb andb] in Hm.
  destruct (match dict_get (w_task_id w) (tasks st) with Some c => _ | None => false end) eqn:Ec.
  { destruct (dict_get (w_task_id w) (tasks st)); [|done]. by rewrite Ec in Hm. }
  intros ([] & st1 & [= <-] & Hrun)%nbind_Ok. unfold nbind at 1, gets in Hrun.
  apply nbind_Ok in Hrun as (r & st2 & (-> & Hc)%seal_same_content & Hrun).
  apply nbind_Ok in Hrun as ([] & st2 & Hst2 & Hrun).
  apply nbind_Ok in Hrun as ([] & st3 & Hb & [= <-]).
  destruct (store_broadcast_spec (w_task_id w) r _ st3
    ltac:(unfold nbind; rewrite Hst2; exact Hb)) as (r' & Hc' & Hr' & Hk).
  split_and!.
  - exists r'. split; [exact Hr'|]. eapply same_content_trans; [done|].
    by destruct o; injection Eo as <- <- <-.
  - intros k Hne. exact (Hk k Hne).
  - by destruct o; injection Eo as <- <- <-.
Qed.

(** C4: no stale commit: when the handler returns, the worker commits exactly if its lease has not
    expired and no higher fencing token is known for the task.  A commit writes the task's record,
    and no other, as the handler's outcome under the worker's own token, the lease released and
    the clock advanced; otherwise the result is dropped, counted as rejected, and no record, log
    entry or message is written. *)
Theorem worker_commit_guard (w : WorkItem) (o : HandlerOutcome) (st st' : NodeState) :
  worker_finish cfg w o st = (Ok (), st') ->
  if may_commit w st then
    (exists r, get_task (w_task_id w) st' = Some r /\
       same_content r (committed w o (increment (node_clock st) (node_id cfg)))) /\
    (forall k, k <> w_task_id w -> get_task k st' = get_task k st) /\
    worker st' = WCommitted w (match o with HReturn _ => DONE | HRaise _ => FAILED end)
  else
    tasks st' = tasks st /\ wal st' = wal st /\ outbox st' = outbox st /\ worker st' = WIdle /\
    node_clock st' = node_clock st /\ metrics st' = increment_counter (str "rejected") 1 (metrics st).
Proof.
  intros Hrun. destruct (may_commit w st) eqn:Em; [by apply worker_finish_commits|].
  rewrite worker_finish_refused in Hrun by done. by injection Hrun as <-.
Qed.
End working.

Section claiming.
Context `{Ed25519} `{MathLib} `{UnicodeDB} `{World} (cfg : NodeConfig).

Lemma next_for_gt t p : py_gt (next_for t p) t = true.
Proof.
  unfold py_gt. change (pycmp (next_for t p) t) with (pycmp (epoch t + 1, p) (epoch t, ft_peer_id t)).
  unfold pycmp, pyord_prod. cbn. rewrite (proj2 (Z.compare_gt_iff _ _)) by lia. done.
Qed.

(** The test for an active claim, on the readings it makes. *)
Lemma is_active_claim_false now r st st' :
  is_active_claim cfg now r st = (Ok false, st') ->
  (held_elsewhere cfg r = true -> py_gt (lease_expiry r) now = true ->
   is_suspected (default [] (claimed_by r)) phi_threshold (now_at (ticks st)) (failure_detector st) = Ok true) /\
  tasks st' = tasks st /\ node_clock st' = node_clock st /\ worker st' = worker st.
Proof.
  unfold is_active_claim. destruct (held_elsewhere cfg r); cbn [andb]; [|by intros [= <-]].
  destruct (py_gt (lease_expiry r) now); [|by intros [= <-]].
  intros (s & st1 & Hs & [= Hneg <-])%nbind_Ok. destruct s; [|done].
  unfold suspected, nbind, clock_now, gets, lift in Hs. injection Hs as Hs <-. done.
Qed.

Lemma is_active_claim_true now r st st' :
  is_active_claim cfg now r st = (Ok true, st') -> tasks st' = tasks st /\ worker st' = worker st.
Proof.
  unfold is_active_claim. destruct (held_elsewhere cfg r && py_gt (lease_expiry r) now); [|done].
  intros (s & st1 & Hs & [= Hneg <-])%nbind_Ok.
  unfold suspected, nbind, clock_now, gets, lift in Hs. by injection Hs as Hs <-.
Qed.

(** The claim of the worker for its item. *)
Definition is_claim (w : WorkItem) (vc : VectorClock) (r : TaskRecord) : Prop :=
  same_content r (work_record cfg w CLAIMED None None (w_lease_exp w) vc).

Lemma worker_claim_step tid r st st' :
  (bump_clock cfg ;;*
   let* now' := clock_now in
   let* vc := gets node_clock in
   let w := {| w_task_id := tid; w_record := r; w_token := next_for (fence_token r) (node_id cfg);
               w_lease_exp := fadd now' (task_lease_duration cfg (payload r)) |} in
   let* claimed := seal_record cfg (work_record cfg w CLAIMED None None (w_lease_exp w) vc) in
   store_task tid claimed ;;* incr "claimed" ;;* broadcast_task_update cfg tid claimed ;;*
   modify (set_worker (WClaimed w))) st = (Ok (), st') ->
  exists w c, worker st' = WClaimed w /\ w_task_id w = tid /\ w_record w = r /\
    w_token w = next_for (fence_token r) (node_id cfg) /\
    w_lease_exp w = fadd (now_at (ticks st)) (task_lease_duration cfg (payload r)) /\
    get_task tid st' = Some c /\ is_claim w (increment (node_clock st) (node_id cfg)) c /\
    (forall k, k <> tid -> get_task k st' = get_task k st).
Proof.
  intros ([] & st1 & [= <-] & (now' & st2 & [= <- <-] & Hrun)%nbind_Ok)%nbind_Ok.
  unfold nbind at 1, gets in Hrun.
  apply nbind_Ok in Hrun as (c & st2 & (-> & Hc)%seal_same_content & Hrun).
  apply nbind_Ok in Hrun as ([] & st2 & [= <-] & Hrun).
  apply nbind_Ok in Hrun as ([] & st2 & [= <-] & Hrun).
  apply nbind_Ok in Hrun as ([] & st2 & (c' & Hc' & Ht)%broadcast_spec & [= <-]).
  eexists _, c'. unfold get_task.
  cbn [set_worker upd2 tasks worker]. rewrite Ht. split_and!; try reflexivity.
  - apply dict_get_set_eq.
  - exact (same_content_trans _ _ _ Hc' Hc).
  - intros k Hk. rewrite dict_get_set_ne by done. cbn. by apply dict_get_set_ne.
Qed.

(** C15: claims are fenced: the worker takes the head of the queue and claims its task only when the
    task is known and not terminal, and is not under another node's running lease unless that node
    is suspected.  The claim carries a fencing token above the one it supersedes, a lease from the
    reading of the clock, and an advanced clock; no other record changes.  Otherwise no record
    changes at all. *)
Theorem worker_claims_fenced (st st' : NodeState) :
  node_wf cfg st -> worker st = WIdle -> worker_take cfg st = (Ok (), st') ->
  (worker st' = WIdle /\ tasks st' = tasks st) \/
  (exists w r c p, worker st' = WClaimed w /\ head (qview (queue st)) = Some (p, w_task_id w) /\
     get_task (w_task_id w) st = Some r /\ is_terminal (state r) = false /\
     (held_elsewhere cfg r = true -> py_gt (lease_expiry r) (now_at (ticks st)) = true ->
      is_suspected (default [] (claimed_by r)) phi_threshold (now_at (S (ticks st))) (failure_detector st)
        = Ok true) /\
     py_gt (w_token w) (fence_token r) = true /\ ft_peer_id (w_token w) = node_id cfg /\
     get_task (w_task_id w) st' = Some c /\
     is_claim w (increment (node_clock st) (node_id cfg)) c /\
     (forall k, k <> w_task_id w -> get_task k st' = get_task k st)).
Proof.
  intros Hwf Hidle. unfold worker_take, nbind at 1, gets at 1.
  destruct (get_section (queue st)) as [[[p tid] q]|] eqn:Eg; [|intros [= <-]; by left].
  assert (head (qview (queue st)) = Some (p, tid)) as Hhead.
  { unfold get_section in Eg. destruct (empty (queue st)); [done|].
    pose proof (pop_entry_spec _ (wf_queue _ _ Hwf)) as Hp. rewrite Eg in Hp. by destruct Hp as (_ & -> & _). }
  intros ([] & st1 & [= <-] & ([] & st2 & [= <-] & Hrun)%nbind_Ok)%nbind_Ok.
  unfold nbind at 1, gets at 1 in Hrun. cbn [set_queued set_queue upd tasks] in Hrun.
  destruct (dict_get tid (tasks st)) as [r|] eqn:Er; [|injection Hrun as <-; by left].
  destruct (is_terminal (state r)) eqn:Et; [injection Hrun as <-; by left|].
  apply nbind_Ok in Hrun as (now & st2 & [= <- <-] & Hrun).
  apply nbind_Ok in Hrun as (active & st2 & Ha & Hrun). destruct active.
  { injection Hrun as <-. apply is_active_claim_true in Ha as [Ht Hw]. left. by rewrite Hw, Ht. }
  apply is_active_claim_false in Ha as (Hsus & Ht & Hvc & Hw).
  apply worker_claim_step in Hrun as (w & c & Hw' & <- & Hr & Htok & _ & Hc & Hcl & Hk).
  right. exists w, r, c, p. rewrite Htok. split_and!; try done.
  - apply next_for_gt.
  - by rewrite Hvc in Hcl.
  - intros k Hne. rewrite (Hk k Hne). unfold get_task. by rewrite Ht.
Qed.

(** The lease of a claim is the node's own or a finite positive duration within the configured
    maximum, whatever the task's payload says. *)
Theorem claim_lease_bounded (p : list byte) :
  task_lease_duration cfg p = lease_duration cfg \/
  (isfinite (task_lease_duration cfg p) = true /\ py_gt (task_lease_duration cfg p) fzero = true /\
   py_gt (task_lease_duration cfg p) (max_lease_duration_seconds (security cfg)) = false).
Proof.
  unfold task_lease_duration. case_match eqn:E; [by left|right]. breflect. split_and!; try done.
  destruct (default (lease_duration cfg) (payload_lease p)) as [[]|[]| |[] m e]; cbn in *; done.
Qed.
End claiming.

(** ** Sample executions *)

(** A gossip of peer p2: the task "t", done by p2 under its second token. *)
Definition p2_record : TaskRecord := {|
  task_id := str "t"; state := DONE; payload := str_bytes "{}"; task_result := Some (str_bytes "r");
  task_error := None; claimed_by := Some (str "p2"); fence_token := ftoken 2 (str "p2");
  lease_expiry := fzero; vector_clock := VectorClock_init {[str "p2" := 3]}; updated_by := str "p2";
  signature := None; signer_id := None |}.

Definition gossip_of (r : TaskRecord) : Message := {|
  msg_type := str "gossip"; sender_id := str "p2";
  msg_payload := [(str "tasks", JObj [(task_id r, JObj (to_dict r))])]; timestamp := None; nonce := None;
  msg_signature := None; msg_version := 2 |}.

(** The same, signed by p2 at time 1. *)
Definition p2_signed_record : TaskRecord := get_ok p2_record (sign_task (toy_seed 2) p2_record (str "p2")).
Definition p2_message : Message :=
  get_ok (gossip_of p2_record)
    (signed (toy_seed 2) (decimal_float false 1 0) (str "n") (gossip_of p2_signed_record)).

Lemma toy_submitted_wf on handler : node_wf (toy_cfg on handler) (toy_submitted on handler).
Proof.
  exact (proj1 (node_reachable_evolved _ _ _ (toy_submitted_reachable on handler) (toy_wf on handler))).
Qed.

Definition toy_task : TaskRecord := default p2_record (get_task (str "t") (toy_submitted false true)).

Lemma toy_submitted_tasks : tasks (toy_submitted false true) = [(str "t", toy_task)].
Proof. vm_compute. reflexivity. Qed.

Lemma toy_submitted_table : table_ok (toy_submitted false true).
Proof.
  intros tid r Hr. assert (tid = str "t" /\ r = toy_task) as [-> ->].
  { unfold get_task in Hr. rewrite toy_submitted_tasks in Hr. cbn [dict_get] in Hr.
    destruct (decide (tid = str "t")) as [->|]; [|discriminate Hr]. injection Hr as <-. split; reflexivity. }
  split_and!; [vm_compute; reflexivity|vm_compute; reflexivity|].
  by apply (stored_vc_wf _ _ _ _ (toy_submitted_wf false true)) in Hr.
Qed.

Lemma gossip_only_ascends_witness :
  exists r', get_task (str "t") (receive (toy_cfg false true) (str "p2") (gossip_of p2_record)
    (toy_submitted false true)).2 = Some r' /\ rec_le toy_task r'.
Proof.
  assert (enabled (security (toy_cfg false true)) = false) as Hoff by (vm_compute; reflexivity).
  assert (get_task (str "t") (toy_submitted false true) = Some toy_task) as Ht by (vm_compute; reflexivity).
  exact (proj2 (gossip_only_ascends (toy_cfg false true) (str "p2") (gossip_of p2_record)
    (toy_submitted false true) Hoff toy_submitted_table) (str "t") toy_task Ht).
Defined.

(** The gossip really changes the record. *)
Example gossip_changes_record :
  state <$> get_task (str "t") (receive (toy_cfg true true) (str "p2") p2_message
    (toy_submitted true true)).2 = Some DONE.
Proof. vm_compute. reflexivity. Qed.

Lemma gossip_is_authenticated_witness : entitled (toy_cfg true true) (str "p2") p2_message (str "t").
Proof.
  assert (enabled (security (toy_cfg true true)) = true) as Hon by (vm_compute; reflexivity).
  destruct (gossip_is_authenticated (toy_cfg true true) (str "p2") p2_message (toy_submitted true true)
    (str "t") Hon) as [E|Hauth].
  - exfalso. assert (state <$> get_task (str "t") (toy_submitted true true) = Some PENDING) as E'
      by (vm_compute; reflexivity).
    pose proof gossip_changes_record as E2. rewrite E, E' in E2. discriminate E2.
  - apply Hauth.
Defined.


(** ** Submission *)

(** Computations that keep the queue, the set of queued identifiers and the clock. *)
Definition same_queue (st st' : NodeState) : Prop :=
  queue st' = queue st /\ queued_task_ids st' = queued_task_ids st /\ node_clock st' = node_clock st.
#[export] Instance same_queue_preorder : PreOrder same_queue.
Proof. split; [done|]. intros a b c (H1 & H2 & H3) (H4 & H5 & H6). unfold same_queue. split_and!; congruence. Qed.

Section submission.
Context `{Ed25519} `{MathLib} `{UnicodeDB} `{World} (cfg : NodeConfig).

Lemma wal_append_queue r st : moves same_queue (wal_append r) st.
Proof.
  apply moves_gets. destruct (wal st); [|apply moves_ret; apply _].
  apply moves_lift_bind; [apply _|]. intros ow _. apply moves_bind; [apply _|done|]. intros [] st' _.
  apply moves_gets, moves_lift_bind; [apply _|]. intros ow' _. done.
Qed.

(** The pending record of a submission. *)
Definition submitted (tid : pystr) (p : list byte) (vc : VectorClock) : TaskRecord := {|
  task_id := tid; state := PENDING; payload := p; task_result := None; task_error := None;
  claimed_by := None; fence_token := ftoken 0 []; lease_expiry := fzero; vector_clock := vc;
  updated_by := node_id cfg; signature := None; signer_id := None |}.

(** The part of [submit_task] after its checks. *)
Lemma submit_accepted tid p priority st :
  bool_decide (tid = []) || (MAX_TASK_ID_LENGTH <? len tid) = false ->
  (MAX_TASK_PAYLOAD <? len p) = false ->
  negb (dict_mem tid (tasks st)) && (max_tasks cfg <=? len (tasks st)) = false ->
  submit_task cfg tid p priority st =
  (let* r := seal_record cfg (submitted tid p (increment (node_clock st) (node_id cfg))) in
   store_task tid r ;;* incr "enqueued" ;;* wal_append r ;;*
   let* q := gets queue in
   match put_section tid priority q with
   | Ok (Some q') =>
       modify (set_queue q') ;;* modify (fun st => set_queued ({[tid]} ∪ queued_task_ids st) st)
   | Ok None => nret ()
   | Raise e => when (is_queue_full e) (incr "rejected") ;;* lift (Raise e)
   end) (set_clock (increment (node_clock st) (node_id cfg)) st).
Proof.
  intros H1' H2' H3'. unfold submit_task.
  unfold nbind at 1, lift at 1. rewrite H1'. cbn [raise_if].
  unfold nbind at 1, lift at 1. rewrite H2'. cbn [raise_if].
  unfold nbind at 1, gets at 1. rewrite H3'. done.
Qed.

(** What an accepted submission has stored, whether or not it is then enqueued. *)
Lemma submit_stored tid p r st1 st2 :
  seal_record cfg (submitted tid p (node_clock st1)) st1 = (Ok r, st1) ->
  (store_task tid r ;;* incr "enqueued" ;;* wal_append r) st1 = (Ok (), st2) ->
  (get_task tid st2 = Some r /\ same_content r (submitted tid p (node_clock st1))) /\
  (forall k, k <> tid -> get_task k st2 = get_task k st1) /\ same_queue st1 st2.
Proof.
  intros [_ Hc]%seal_same_content ([] & s1 & [= <-] & ([] & s2 & [= <-] & Hw)%nbind_Ok)%nbind_Ok.
  match type of Hw with wal_append r ?s = _ => pose proof (wal_append_tasks r s) as Ht;
    pose proof (wal_append_queue r s) as Hq end.
  unfold moves in Ht, Hq. rewrite Hw in Ht, Hq. unfold same_tasks in Ht. cbn in Ht.
  unfold get_task. rewrite Ht. split_and!; [apply dict_get_set_eq|done| |exact Hq..].
  intros k Hk. by apply dict_get_set_ne.
Qed.

(** A submission that returns has stored the task as pending under a fresh clock (whatever
    record was there before), marked it as queued, and placed it in the queue behind every task of
    at least its priority; no other record changes. *)
Theorem submit_task_effect (tid : pystr) (p : list byte) (priority : Z) (st st' : NodeState) :
  node_wf cfg st -> submit_task cfg tid p priority st = (Ok (), st') ->
  (tid <> [] /\ len tid <= MAX_TASK_ID_LENGTH /\ len p <= MAX_TASK_PAYLOAD) /\
  (exists r, get_task tid st' = Some r /\
     same_content r (submitted tid p (increment (node_clock st) (node_id cfg)))) /\
  (forall k, k <> tid -> get_task k st' = get_task k st) /\
  node_clock st' = increment (node_clock st) (node_id cfg) /\
  queued_task_ids st' = {[tid]} ∪ queued_task_ids st /\
  full (queue st) = false /\ qview (queue st') = spec_put tid priority (qview (queue st)).
Proof.
  intros Hwf. destruct (bool_decide (tid = []) || (MAX_TASK_ID_LENGTH <? len tid)) eqn:E1.
  { unfold submit_task, nbind at 1, lift at 1. rewrite E1. done. }
  destruct (MAX_TASK_PAYLOAD <? len p) eqn:E2.
  { unfold submit_task, nbind at 1, lift at 1. rewrite E1. cbn [raise_if].
    unfold nbind at 1, lift at 1. rewrite E2. done. }
  destruct (negb (dict_mem tid (tasks st)) && (max_tasks cfg <=? len (tasks st))) eqn:E3.
  { unfold submit_task, nbind at 1, lift at 1. rewrite E1. cbn [raise_if].
    unfold nbind at 1, lift at 1. rewrite E2. cbn [raise_if].
    unfold nbind at 1, gets at 1. rewrite E3. done. }
  rewrite submit_accepted by done.
  set (st1 := set_clock _ st). intros (r & st2 & Hs & Hrun)%nbind_Ok.
  pose proof (seal_same_content _ _ _ _ _ Hs) as [-> _].
  apply nbind_Ok in Hrun as ([] & s1 & Hs1 & Hrun). apply nbind_Ok in Hrun as ([] & s2 & Hs2 & Hrun).
  apply nbind_Ok in Hrun as ([] & s3 & Hs3 & Hrun).
  destruct (submit_stored tid p r st1 s3 Hs) as ((Hr & Hc) & Hk & Hq & Hqi & Hvc).
  { unfold nbind. by rewrite Hs1, Hs2. }
  unfold nbind at 1, gets, put_section in Hrun. rewrite Hq in Hrun.
  change (queue st1) with (queue st) in *. rewrite (wf_policy _ _ Hwf) in Hrun.
  breflect. apply Z.ltb_ge in E2. match goal with E : (MAX_TASK_ID_LENGTH <? _) = false |- _ => apply Z.ltb_ge in E end.
  destruct (full (queue st)) eqn:Ef; [done|]. cbn [rbind raise_if] in Hrun.
  unfold nbind, modify in Hrun. injection Hrun as <-. split_and!; try done.
  - by exists r.
  - change ({[tid]} ∪ queued_task_ids s3 = {[tid]} ∪ queued_task_ids st1). by rewrite Hqi.
  - by apply push_entry_spec; [apply (wf_queue _ _ Hwf)|].
Qed.

(** A submission to a node at capacity is refused with [QueueFull]; a new task does not enter a
    full table, whereas a task that finds the queue full stays in the table as pending and is not
    marked as queued. *)
Theorem submit_task_at_capacity (tid : pystr) (p : list byte) (priority : Z) (st : NodeState) :
  tid <> [] -> len tid <= MAX_TASK_ID_LENGTH -> len p <= MAX_TASK_PAYLOAD ->
  (dict_mem tid (tasks st) = false -> max_tasks cfg <= len (tasks st) ->
   submit_task cfg tid p priority st =
     (Raise QueueFull, set_metrics (increment_counter (str "rejected") 1 (metrics st)) st)) /\
  (node_wf cfg st -> full (queue st) = true -> wal st = None -> enabled (security cfg) = false ->
   (dict_mem tid (tasks st) = true \/ len (tasks st) < max_tasks cfg) ->
   exists st', submit_task cfg tid p priority st = (Raise QueueFull, st') /\
     get_task tid st' = Some (submitted tid p (increment (node_clock st) (node_id cfg))) /\
     queue st' = queue st /\ queued_task_ids st' = queued_task_ids st).
Proof.
  intros Hne Hid Hp.
  assert (bool_decide (tid = []) || (MAX_TASK_ID_LENGTH <? len tid) = false) as E1.
  { rewrite bool_decide_eq_false_2 by done. by apply Z.ltb_ge. }
  assert ((MAX_TASK_PAYLOAD <? len p) = false) as E2 by (by apply Z.ltb_ge).
  split.
  - intros Hm Hfull. unfold submit_task, nbind at 1, lift at 1. rewrite E1. cbn [raise_if].
    unfold nbind at 1, lift at 1. rewrite E2. cbn [raise_if]. unfold nbind at 1, gets at 1.
    rewrite Hm, (proj2 (Z.leb_le _ _) Hfull). done.
  - intros Hwf Hfull Hw Hoff Hroom.
    assert (negb (dict_mem tid (tasks st)) && (max_tasks cfg <=? len (tasks st)) = false) as E3.
    { destruct Hroom as [-> | Hlt]; [done|]. rewrite (proj2 (Z.leb_gt _ _) Hlt). by rewrite andb_false_r. }
    rewrite submit_accepted by done.
    unfold seal_record, nbind, wal_append, gets, modify, store_task, incr. rewrite Hoff. cbn [negb nret modify].
    cbn. unfold nbind, gets. cbn. rewrite Hw. cbn. unfold put_section. cbn.
    rewrite (wf_policy _ _ Hwf), Hfull. cbn. eexists. split_and!; [done| |done|done].
    apply dict_get_set_eq.
Qed.
End submission.
