(* ===== verification/Election.v ===== *)
(** * The rendezvous election of a task's reclaimer ([_rendezvous_reclaimer] of [peerq/node.py])

    Nodes that see the same live peers elect the same reclaimer without exchanging a message. *)

From Stdlib Require Import ZArith NArith Lia.
From S2P Require Import Prelude PyFloat Text Json JsonFacts Security Consensus Crypto Lattice Heapq Queue.
From S2P Require Import Wal Metrics Failure Message Sha256 FloatText Node.
Open Scope Z_scope.

(** [p] has the score [s] for the task. *)
Abbreviation scores tid p s := (score tid p = Ok s).

Lemma max_by_score_spec tid l best best_score :
  scores tid best best_score -> Forall (fun p => is_ok (score tid p) = true) l ->
  exists w s, max_by_score tid best best_score l = Ok w /\ scores tid w s /\ w ∈ best :: l /\
    forall q sq, q ∈ best :: l -> scores tid q sq -> sq <= s.
Proof.
  intros Hb Hl. revert best best_score Hb.
  induction Hl as [|p l Hp Hl IH]; intros best best_score Hb; cbn [max_by_score].
  { exists best, best_score. split_and!; [done|done|by left|].
    intros q sq ->%list_elem_of_singleton Hq. rewrite Hb in Hq. injection Hq as <-. lia. }
  destruct (score tid p) as [sp|] eqn:Ep; [|done]. cbn [rbind].
  destruct (Z.ltb_spec best_score sp) as [Hlt|Hge].
  - destruct (IH p sp Ep) as (w & s & Hw & Hs & Hin & Hmax). exists w, s.
    split_and!; [done|done|set_solver|]. intros q sq [->|Hq]%elem_of_cons Hsq; [|by eapply Hmax].
    rewrite Hb in Hsq. injection Hsq as <-. specialize (Hmax p sp ltac:(by left) Ep). lia.
  - destruct (IH best best_score Hb) as (w & s & Hw & Hs & Hin & Hmax). exists w, s.
    split_and!; [done|done|set_solver|]. intros q sq Hq Hsq.
    apply elem_of_cons in Hq as [->|[->|Hq]%elem_of_cons]; [apply (Hmax best sq); [by left|done]| |].
    + rewrite Ep in Hsq. injection Hsq as <-. specialize (Hmax best best_score ltac:(by left) Hb). lia.
    + apply (Hmax q sq); [by right|done].
Qed.

Lemma election_spec tid l :
  l <> [] -> Forall (fun p => is_ok (score tid p) = true) l ->
  exists w s, rendezvous_reclaimer tid l = Ok (Some w) /\ scores tid w s /\ w ∈ l /\
    forall q sq, q ∈ l -> scores tid q sq -> sq <= s.
Proof.
  intros Hne Hl. destruct l as [|p l]; [done|]. apply Forall_cons in Hl as [Hp Hl].
  unfold rendezvous_reclaimer. destruct (score tid p) as [sp|] eqn:Ep; [|done]. cbn [rbind].
  destruct (max_by_score_spec tid l p sp Ep Hl) as (w & s & Hw & Hs & Hin & Hmax).
  exists w, s. rewrite Hw. done.
Qed.

(** C38: the election agrees: among candidates without a score collision the elected reclaimer is
    the one with the greatest score, so two nodes whose live views hold the same peers, in whatever
    order, elect the same one, and at most one of them reclaims the task. *)
Theorem election_agrees (tid : pystr) (l l' : list pystr) :
  l <> [] -> (forall p, p ∈ l <-> p ∈ l') -> Forall (fun p => is_ok (score tid p) = true) l ->
  (forall p q, p ∈ l -> q ∈ l -> score tid p = score tid q -> p = q) ->
  exists w s, rendezvous_reclaimer tid l = Ok (Some w) /\ rendezvous_reclaimer tid l' = Ok (Some w) /\
    w ∈ l /\ score tid w = Ok s /\ forall q sq, q ∈ l -> q <> w -> score tid q = Ok sq -> sq < s.
Proof.
  intros Hne Hsame Hl Hinj.
  assert (l' <> []) as Hne'.
  { destruct l as [|p l]; [done|]. intros ->. by apply (not_elem_of_nil p), Hsame; left. }
  assert (Forall (fun p => is_ok (score tid p) = true) l') as Hl'.
  { apply Forall_forall. intros p Hp%Hsame. by apply (proj1 (Forall_forall _ _) Hl). }
  destruct (election_spec tid l Hne Hl) as (w & s & Hw & Hs & Hin & Hmax).
  destruct (election_spec tid l' Hne' Hl') as (w' & s' & Hw' & Hs' & Hin' & Hmax').
  apply Hsame in Hin'. assert (s = s') as <-.
  { apply Z.le_antisymm; [apply (Hmax' w s); [by apply Hsame|done]|by apply (Hmax w' s')]. }
  assert (w' = w) as -> by (apply Hinj; congruence).
  exists w, s. split_and!; try done. intros q sq Hq Hqw Hsq.
  specialize (Hmax q sq Hq Hsq). assert (sq <> s); [|lia].
  intros ->. apply Hqw, Hinj; congruence.
Qed.

Lemma election_agrees_witness :
  exists w, rendezvous_reclaimer (str "t") [str "p1"; str "p2"; str "p3"] = Ok (Some w) /\
    rendezvous_reclaimer (str "t") [str "p3"; str "p1"; str "p2"] = Ok (Some w).
Proof.
  destruct (election_agrees (str "t") [str "p1"; str "p2"; str "p3"] [str "p3"; str "p1"; str "p2"])
    as (w & s & H1 & H2 & _).
  - discriminate.
  - intros p. rewrite !elem_of_cons, elem_of_nil. tauto.
  - apply Forall_forall. intros p Hp. rewrite !elem_of_cons, elem_of_nil in Hp.
    destruct Hp as [->|[->|[->|[]]]]; vm_compute; reflexivity.
  - assert (NoDup ((score (str "t")) <$> [str "p1"; str "p2"; str "p3"])) as Hnd.
    { assert (forall x y : Z, x <> y -> Ok x <> Ok y) as Hok by congruence.
      repeat (apply NoDup_cons; split); try apply NoDup_nil_2; vm_compute;
        intros Hin; repeat (apply elem_of_cons in Hin as [Hin|Hin]; [discriminate Hin|]);
        by apply elem_of_nil in Hin. }
    intros p q [i Hi]%list_elem_of_lookup [j Hj]%list_elem_of_lookup Heq.
    assert (i = j) as <-; [|congruence]. apply (NoDup_lookup _ _ _ (score (str "t") p) Hnd).
    + by rewrite list_lookup_fmap, Hi.
    + by rewrite list_lookup_fmap, Hj, Heq.
  - exists w. split; [exact H1|exact H2].
Defined.
