(* ===== verification/NodeScenarios.v ===== *)
(** * Executions of the peer node

    Concrete executions: the theorems of [NodeTheorems] at work, and behaviours that the source's
    interleavings and error paths allow. *)

From Stdlib Require Import ZArith NArith Lia.
From S2P Require Import Prelude PyFloat Text Json JsonFacts Security Consensus Crypto Lattice Heapq Queue.
From S2P Require Import Wal Metrics Failure Message Sha256 FloatText Node NodeFacts NodeTheorems.
Open Scope Z_scope.

(** Submission, start, claim, start of the handler. *)
Definition toy_started (on handler : bool) : NodeState :=
  (start (toy_cfg on handler) (toy_submitted on handler)).2.
Definition toy_claimed (on : bool) : NodeState :=
  run_loop WorkerLoop (worker_take (toy_cfg on true)) (toy_started on true).
Definition toy_item (on : bool) : WorkItem :=
  match worker (toy_claimed on) with
  | WClaimed w => w
  | _ => {| w_task_id := []; w_record := p2_record; w_token := ftoken 0 []; w_lease_exp := fzero |}
  end.
Definition toy_running (on : bool) : NodeState :=
  run_loop WorkerLoop (worker_run (toy_cfg on true) (toy_item on)) (toy_claimed on).

Definition is_bg (l : Loop) (st : NodeState) : bool :=
  match dict_get l (bg_tasks st) with Some Live => true | _ => false end.

Lemma is_bg_live l st : is_bg l st = true -> live l st.
Proof. unfold is_bg, live. by destruct (dict_get l (bg_tasks st)) as [[]|]. Qed.

Definition is_idle (st : NodeState) : bool := match worker st with WIdle => true | _ => false end.
Definition claims_item (on : bool) (st : NodeState) : bool :=
  match worker st with WClaimed _ => true | _ => false end.

Lemma toy_started_reachable on handler :
  node_reachable (toy_cfg on handler) (toy_state on handler) (toy_started on handler).
Proof.
  eapply reach_step; [apply toy_submitted_reachable|]. apply step_start.
  destruct on, handler; vm_compute; reflexivity.
Qed.

Lemma toy_started_idle on : worker (toy_started on true) = WIdle.
Proof. destruct on; vm_compute; reflexivity. Qed.

Lemma toy_claimed_reachable on : node_reachable (toy_cfg on true) (toy_state on true) (toy_claimed on).
Proof.
  eapply reach_step; [apply toy_started_reachable|]. apply step_take; [|apply toy_started_idle].
  apply is_bg_live. destruct on; vm_compute; reflexivity.
Qed.

Lemma toy_claimed_item on : worker (toy_claimed on) = WClaimed (toy_item on).
Proof.
  assert (claims_item on (toy_claimed on) = true) as E by (destruct on; vm_compute; reflexivity).
  unfold toy_item, claims_item in *. by destruct (worker (toy_claimed on)).
Qed.

Lemma toy_started_wf on : node_wf (toy_cfg on true) (toy_started on true).
Proof. exact (proj1 (node_reachable_evolved _ _ _ (toy_started_reachable on true) (toy_wf on true))). Qed.

Lemma worker_claims_fenced_witness :
  exists w r, worker (worker_take (toy_cfg true true) (toy_started true true)).2 = WClaimed w /\
    get_task (w_task_id w) (toy_started true true) = Some r /\ py_gt (w_token w) (fence_token r) = true.
Proof.
  assert ((worker_take (toy_cfg true true) (toy_started true true)).1 = Ok ()) as E
    by (vm_compute; reflexivity).
  assert (is_idle (worker_take (toy_cfg true true) (toy_started true true)).2 = false) as Hbusy
    by (vm_compute; reflexivity).
  destruct (worker_claims_fenced (toy_cfg true true) (toy_started true true)
    (worker_take (toy_cfg true true) (toy_started true true)).2 (toy_started_wf true) (toy_started_idle true))
    as [[Hidle _]|(w & r & c & p & Hw & _ & Hr & _ & _ & Htok & _)].
  - rewrite <- E. by destruct (worker_take _ _).
  - exfalso. unfold is_idle in Hbusy. rewrite Hidle in Hbusy. discriminate Hbusy.
  - exists w, r. split; [exact Hw|]. split; [exact Hr|exact Htok].
Defined.

Lemma worker_commit_guard_witness :
  let st := toy_running true in
  exists r, get_task (w_task_id (toy_item true))
    (worker_finish (toy_cfg true true) (toy_item true) (HReturn (str_bytes "ok")) st).2 = Some r /\
    state r = DONE.
Proof.
  intros st. set (run := worker_finish (toy_cfg true true) (toy_item true) (HReturn (str_bytes "ok")) st).
  assert (run.1 = Ok ()) as E by (vm_compute; reflexivity).
  assert (may_commit (toy_item true) st = true) as Hm by (vm_compute; reflexivity).
  pose proof (worker_commit_guard (toy_cfg true true) (toy_item true) (HReturn (str_bytes "ok")) st run.2) as H.
  rewrite Hm in H. destruct H as [(r & Hr & Hc) _].
  - fold run. rewrite <- E. by destruct run.
  - exists r. split; [exact Hr|]. exact (f_equal state Hc).
Defined.

Lemma submit_task_effect_witness :
  queued_task_ids (toy_submitted true true) = {[str "t"]} ∪ queued_task_ids (toy_state true true).
Proof.
  assert ((submit_task (toy_cfg true true) (str "t") (str_bytes "{}") 0 (toy_state true true)).1 = Ok ()) as E
    by (vm_compute; reflexivity).
  assert (submit_task (toy_cfg true true) (str "t") (str_bytes "{}") 0 (toy_state true true) =
    (Ok (), toy_submitted true true)) as E2.
  { unfold toy_submitted. rewrite <- E. by destruct (submit_task _ _ _ _ _). }
  destruct (submit_task_effect (toy_cfg true true) (str "t") (str_bytes "{}") 0 (toy_state true true)
    (toy_submitted true true) (toy_wf true true) E2) as (_ & _ & _ & _ & Hq & _).
  exact Hq.
Defined.

(** A node whose table is full. *)
Definition toy_full : NodeState :=
  (submit_task (toy_cfg true true) (str "u") (str_bytes "") 0 (toy_submitted true true)).2.

Lemma submit_task_at_capacity_witness :
  (submit_task (toy_cfg true true) (str "v") (str_bytes "") 0 toy_full).1 = Raise QueueFull.
Proof.
  assert (str "v" <> []) as H1 by discriminate.
  assert (len (str "v") <= MAX_TASK_ID_LENGTH) as H2 by (vm_compute; discriminate).
  assert (len (str_bytes "") <= MAX_TASK_PAYLOAD) as H3 by (vm_compute; discriminate).
  assert (dict_mem (str "v") (tasks toy_full) = false) as H4 by (vm_compute; reflexivity).
  assert (max_tasks (toy_cfg true true) <= len (tasks toy_full)) as H5 by (vm_compute; discriminate).
  pose proof (proj1 (submit_task_at_capacity (toy_cfg true true) (str "v") (str_bytes "") 0 toy_full H1 H2 H3)
    H4 H5) as E.
  rewrite E. reflexivity.
Defined.

(** ** The worker can overwrite a newer result *)

(** The gossip of p2 is received while the worker is broadcasting its claim. *)
Definition toy_overtaken : NodeState :=
  run_loop RecvLoop (receive (toy_cfg false true) (str "p2") (gossip_of p2_record)) (toy_claimed false).

Lemma toy_overtaken_reachable : node_reachable (toy_cfg false true) (toy_state false true) toy_overtaken.
Proof.
  eapply reach_step; [apply toy_claimed_reachable|]. apply step_receive. apply is_bg_live.
  vm_compute. reflexivity.
Qed.

Lemma toy_overtaken_item : worker toy_overtaken = WClaimed (toy_item false).
Proof. vm_compute. reflexivity. Qed.

(** The guard on commits does not cover the step to RUNNING: there is an execution in which a
    node has learned that another peer finished the task under a higher fencing token, and its own
    worker, resuming after the broadcast of its claim, replaces that final record by RUNNING under
    its own lower token. *)
Theorem worker_overwrites_newer_result :
  exists st w st',
    node_reachable (toy_cfg false true) (toy_state false true) st /\ worker st = WClaimed w /\
    state <$> get_task (w_task_id w) st = Some DONE /\
    (match get_task (w_task_id w) st with Some r => py_gt (fence_token r) (w_token w) | None => false end) = true /\
    node_step (toy_cfg false true) st st' /\
    state <$> get_task (w_task_id w) st' = Some RUNNING.
Proof.
  exists toy_overtaken, (toy_item false),
    (run_loop WorkerLoop (worker_run (toy_cfg false true) (toy_item false)) toy_overtaken).
  split_and!; [apply toy_overtaken_reachable|apply toy_overtaken_item|vm_compute; reflexivity
              |vm_compute; reflexivity| |vm_compute; reflexivity].
  apply step_run; [|apply toy_overtaken_item]. apply is_bg_live. vm_compute. reflexivity.
Qed.

(** ** A malformed number stops the receiver *)

(** A gossip whose record has an integer lease beyond the range of doubles. *)
Definition huge_gossip : Message := {|
  msg_type := str "gossip"; sender_id := str "p2";
  msg_payload := [(str "tasks", JObj [(task_id sample_record, huge_lease_object)])];
  timestamp := None; nonce := None; msg_signature := None; msg_version := 2 |}.

Definition toy_deaf : NodeState :=
  run_loop RecvLoop (receive (toy_cfg false true) (str "p2") huge_gossip) (toy_started false true).

(** A loop that has crashed takes no further step until the node is restarted. *)
Lemma crashed_not_live l e st : dict_get l (bg_tasks st) = Some (Crashed e) -> ~ live l st.
Proof. unfold live. congruence. Qed.

(** One message can end reception for good: a gossip with an integer lease beyond the range of
    doubles raises [OverflowError] out of the receive loop, which then is dead, and [stop] raises
    the same exception before it reaches the log and the transport. *)
Theorem huge_lease_kills_receiver :
  exists m st st', node_reachable (toy_cfg false true) (toy_state false true) st /\
    node_step (toy_cfg false true) st st' /\
    (receive (toy_cfg false true) (str "p2") m st).1 = Raise OverflowError /\
    ~ live RecvLoop st' /\ (stop st').1 = Raise OverflowError.
Proof.
  exists huge_gossip, (toy_started false true), toy_deaf. split_and!.
  - apply toy_started_reachable.
  - apply step_receive. apply is_bg_live. vm_compute. reflexivity.
  - vm_compute. reflexivity.
  - apply (crashed_not_live _ OverflowError). vm_compute. reflexivity.
  - vm_compute. reflexivity.
Qed.

(** ** The lease of a node *)

(** An argument wins over the environment unless it is the default, an empty variable and one that is
    not a number are ignored, and the default is used when neither is given. *)
Example choose_lease_sample :
  choose_lease (Some (decimal_float false 3 0)) (Some (str "7.5")) = decimal_float false 3 0 /\
  choose_lease (Some (decimal_float false 5 0)) (Some (str "7.5")) = decimal_float false 75 (-1) /\
  choose_lease None (Some (str "7.5")) = decimal_float false 75 (-1) /\
  choose_lease None (Some (str "soon")) = decimal_float false 5 0 /\
  choose_lease None (Some (str "")) = decimal_float false 5 0.
Proof. split_and!; vm_compute; reflexivity. Qed.
