(* ===== verification/Recovery.v ===== *)
(** * Durability of a node's records

    What a node has logged survives its restart: recovery rebuilds a table in which every logged
    record is covered. *)

From Stdlib Require Import ZArith NArith Lia.
From S2P Require Import Prelude PyFloat Text Json JsonFacts Security Consensus Crypto Lattice Heapq Queue.
From S2P Require Import Wal Metrics Failure Message Sha256 FloatText Node NodeFacts NodeTheorems.
Open Scope Z_scope.

(** [from_dict] accepts the object or raises an exception that recovery handles. *)
Definition readable_task (v : json) : Prop := from_dict v <> Raise OverflowError.

(** A checkpoint entry under the identifier of its record. *)
Definition keyed_entry (kv : pystr * json) : Prop :=
  readable_task kv.2 /\ forall r, from_dict kv.2 = Ok r -> task_id r = kv.1.

(** The records a node writes: tasks, clocks, and checkpoints whose entries are keyed by their
    task and whose clock is an object. *)
Definition readable_record (rec : WalRecord) : Prop :=
  if record_type rec =? RECORD_TASK then readable_task (JObj (wr_payload rec))
  else if record_type rec =? RECORD_CHECKPOINT then
    (forall entries, dict_get (str "tasks") (wr_payload rec) = Some (JObj entries) ->
       Forall keyed_entry entries) /\
    (forall v, dict_get (str "vector_clock") (wr_payload rec) = Some v -> exists d, v = JObj d)
  else True.

Lemma from_dict_raise v e : from_dict v = Raise e -> e = ValueError \/ e = OverflowError.
Proof. intros [->|[-> _]]%from_dict_raises; auto. Qed.

(** ** Totality *)

Definition returns (m : M ()) : Prop := forall st, (m st).1 = Ok ().

Lemma returns_ret : returns (nret ()).
Proof. done. Qed.

Lemma returns_bind (m k : M ()) : returns m -> returns k -> returns (m ;;* k).
Proof.
  intros Hm Hk st. unfold nbind. specialize (Hm st). destruct (m st) as [[[]|e] st']; [apply Hk|done].
Qed.

Lemma returns_for_each {A} (f : A -> M ()) l : Forall (fun x => returns (f x)) l -> returns (for_each f l).
Proof. induction 1 as [|x l Hx Hl IH]; [apply returns_ret|]. by apply returns_bind. Qed.

Section recovery.
Context `{Ed25519} `{MathLib} `{UnicodeDB} `{World} (cfg : NodeConfig).
Context (Hoff : enabled (security cfg) = false).

Lemma merge_None_raise a b e : merge_records a b None = Raise e -> e = ValueError.
Proof. unfold merge_records. intros Hm. inv_result. done. Qed.

Lemma recover_store_returns key r : returns (recover_store cfg key r).
Proof.
  intros st. unfold recover_store, nbind, gets, merge_keyring. rewrite Hoff.
  destruct (dict_get key (tasks st)) as [old|]; [|done].
  destruct (merge_records old r None) as [m|e] eqn:E; [done|]. by apply merge_None_raise in E as ->.
Qed.

Lemma recover_task_returns d : readable_task (JObj d) -> returns (recover_task cfg d).
Proof.
  intros Hd st. unfold recover_task. destruct (from_dict (JObj d)) as [r|e] eqn:Er.
  - unfold nbind at 1, lift, recover_authorized. rewrite Hoff. cbn [negb]. unfold nbind, gets.
    case_match; [done|]. apply recover_store_returns.
  - destruct (from_dict_raise _ _ Er) as [->| ->]; [done|]. by destruct Hd.
Qed.

Lemma recover_entry_returns kv : keyed_entry kv -> returns (recover_entry cfg kv).
Proof.
  destruct kv as [tid v]. intros [Hd _] st. unfold recover_entry, nbind at 1, gets. case_match; [done|].
  destruct (from_dict v) as [r|e] eqn:Er.
  - unfold nbind, lift, recover_authorized. rewrite Hoff. apply recover_store_returns.
  - destruct (from_dict_raise _ _ Er) as [->| ->]; [done|]. by destruct Hd.
Qed.

Lemma clock_entries_raise d e : clock_entries d = Raise e -> e = TypeError.
Proof.
  induction d as [|[k v] d IH]; cbn [clock_entries]; [done|].
  intros Hr. destruct v; cbn [rbind] in Hr; inv_result; auto.
Qed.

Lemma recover_clock_returns d : returns (recover_clock (JObj d)).
Proof.
  intros st. unfold recover_clock. cbn [clock_of_json].
  destruct (clock_entries d) as [l|e] eqn:E; [done|]. by apply clock_entries_raise in E as ->.
Qed.

Lemma recover_record_returns rec : readable_record rec -> returns (recover_record cfg rec).
Proof.
  unfold readable_record, recover_record. destruct (record_type rec =? RECORD_TASK) eqn:E1.
  { apply recover_task_returns. }
  destruct (Z.eqb_spec (record_type rec) RECORD_CLOCK) as [E2|]; [intros _; apply recover_clock_returns|].
  destruct (record_type rec =? RECORD_CHECKPOINT) eqn:E3; [|intros _; apply returns_ret].
  intros [Hes Hvc]. assert (returns (recover_clock
    (default (JObj []) (dict_get (str "vector_clock") (wr_payload rec))))) as Hclock.
  { destruct (dict_get (str "vector_clock") (wr_payload rec)) as [v|] eqn:Ev; cbn [default from_option id];
      [destruct (Hvc v eq_refl) as [d ->]|]; apply recover_clock_returns. }
  destruct (dict_get (str "tasks") (wr_payload rec)) as [v|] eqn:Et; cbn [default from_option id].
  - destruct v; try apply returns_ret. apply returns_bind; [|done]. apply returns_for_each.
    eapply Forall_impl; [by apply Hes|]. apply recover_entry_returns.
  - by apply returns_bind; [apply returns_for_each, Forall_nil_2|].
Qed.

Lemma requeue_returns tid r : returns (requeue_pending tid r).
Proof.
  intros st. unfold requeue_pending, nbind at 1, gets, when. case_match; [|done].
  unfold enqueue, suppress, ncatch, nbind, gets, lift, put_nowait, modify.
  by destruct (full (queue st)).
Qed.

(** ** Recovery only ascends *)

(** Storing a record under a key, above what is there. *)
Lemma store_ascends key x st st' :
  tasks st' = dict_set key x (tasks st) -> mergeable key x ->
  (forall old, get_task key st = Some old -> rec_le old x) -> ascends st st'.
Proof.
  intros Ht Hx Hold Hst. unfold table_ok, get_task in *. rewrite Ht. split.
  - intros k y. rewrite dict_get_set. destruct (decide (key = k)) as [->|]; [by intros [= ->]|apply Hst].
  - intros k y Hy. rewrite dict_get_set. destruct (decide (key = k)) as [->|].
    + exists x. split; [done|by apply Hold].
    + exists y. split; [done|]. eapply rec_le_refl. by apply Hst.
Qed.

Lemma merge_core_le_r tid a b : mergeable tid a -> mergeable tid b -> rec_le b (merge_core a b).
Proof.
  intros Ha Hb. split; [by eapply merge_ge_r|]. rewrite merge_core_clock. apply vc_merge_le_r; eauto with peerq.
Qed.

Lemma recover_store_covers key r st :
  table_ok st -> mergeable key r ->
  ascends st (recover_store cfg key r st).2 /\
  exists x, get_task key (recover_store cfg key r st).2 = Some x /\ rec_le r x.
Proof.
  intros Hst Hr. unfold recover_store, nbind, gets, merge_keyring. rewrite Hoff.
  destruct (dict_get key (tasks st)) as [old|] eqn:Eo.
  - pose proof (Hst key old Eo) as Hold. rewrite (merge_records_None key) by done. split.
    + eapply (store_ascends key (merge_core old r)); [done|by apply merge_core_mergeable|].
      intros o Ho. unfold get_task in Ho. rewrite Eo in Ho. injection Ho as <-. by eapply merge_core_le.
    + exists (merge_core old r). split; [apply dict_get_set_eq|by eapply merge_core_le_r].
  - split.
    + eapply (store_ascends key r); [done|done|]. unfold get_task. congruence.
    + exists r. split; [apply dict_get_set_eq|by eapply rec_le_refl].
Qed.

Lemma recover_store_ascends key r st : mergeable key r -> moves ascends (recover_store cfg key r) st.
Proof. intros Hr Hst. by apply recover_store_covers. Qed.

Lemma recover_task_ascends d st : moves ascends (recover_task cfg d) st.
Proof.
  unfold recover_task. destruct (from_dict (JObj d)) as [r|e] eqn:Er.
  2: { by case_match; apply same_tasks_ascends. }
  apply moves_lift_bind; [apply _|]. intros ok _. case_match; [by apply same_tasks_ascends|].
  apply moves_gets. case_match; [by apply same_tasks_ascends|].
  by eapply recover_store_ascends, from_dict_mergeable.
Qed.

Lemma recover_entry_ascends kv st : keyed_entry kv -> moves ascends (recover_entry cfg kv) st.
Proof.
  destruct kv as [tid v]. intros [_ Hk]. apply moves_gets. case_match; [by apply same_tasks_ascends|].
  destruct (from_dict v) as [r|e] eqn:Er; [|by case_match; apply same_tasks_ascends].
  apply moves_lift_bind; [apply _|]. intros ok _. case_match; [by apply same_tasks_ascends|].
  apply recover_store_ascends. pose proof (from_dict_mergeable _ _ Er) as Hm. pose proof (Hk r Er) as Hid. cbn [fst] in Hid. by rewrite Hid in Hm.
Qed.

Lemma recover_clock_ascends v st : moves ascends (recover_clock v) st.
Proof. unfold recover_clock. repeat case_match; by apply same_tasks_ascends. Qed.

Lemma recover_record_ascends rec st : readable_record rec -> moves ascends (recover_record cfg rec) st.
Proof.
  unfold readable_record, recover_record.
  destruct (record_type rec =? RECORD_TASK); [intros _; apply recover_task_ascends|].
  destruct (record_type rec =? RECORD_CLOCK); [intros _; apply recover_clock_ascends|].
  destruct (record_type rec =? RECORD_CHECKPOINT); [|intros _; by apply same_tasks_ascends].
  intros [Hes _]. destruct (dict_get (str "tasks") (wr_payload rec)) as [v|] eqn:Et; cbn [default from_option id].
  - destruct v; try by apply same_tasks_ascends. specialize (Hes d eq_refl).
    apply moves_bind; [apply _| |intros [] ? _; apply recover_clock_ascends].
    apply moves_for_each; [apply _|]. intros kv st' Hin. apply recover_entry_ascends.
    by apply (proj1 (Forall_forall _ _) Hes).
  - apply moves_bind; [apply _|by apply same_tasks_ascends|]. intros [] ? _. apply recover_clock_ascends.
Qed.

(** ** Every logged record is covered *)

Lemma for_each_app {A} (f : A -> M ()) l1 l2 : (forall x, x ∈ l1 -> returns (f x)) ->
  forall st, for_each f (l1 ++ l2) st = for_each f l2 (for_each f l1 st).2.
Proof.
  induction l1 as [|x l1 IH]; intros Hr st; [done|]. cbn [app for_each]. unfold nbind.
  specialize (Hr x ltac:(by left) st) as Hx. destruct (f x st) as [[[]|e] st']; [|done].
  apply IH. intros y Hy. apply Hr. by right.
Qed.

Lemma evolved_len st st' : evolved cfg st st' -> node_wf cfg st -> len (tasks st) <= len (tasks st').
Proof.
  intros (_ & Hsub & _) Hwf. unfold len, task_keys in *.
  rewrite <- (length_fmap fst (tasks st)), <- (length_fmap fst (tasks st')).
  enough (length (tasks st).*1 <= length (tasks st').*1)%nat by lia.
  apply submseteq_length, NoDup_submseteq; [apply (wf_keys _ _ Hwf)|exact Hsub].
Qed.

(** A task record that recovery finds room for. *)
Lemma recover_task_covers d r st :
  table_ok st -> from_dict (JObj d) = Ok r -> len (tasks st) < max_tasks cfg ->
  exists x, get_task (task_id r) (recover_task cfg d st).2 = Some x /\ rec_le r x.
Proof.
  intros Hst Hr Hroom. unfold recover_task. rewrite Hr. unfold nbind at 1, lift, recover_authorized.
  rewrite Hoff. cbn [negb]. unfold nbind, gets.
  assert (negb (dict_mem (task_id r) (tasks st)) && (max_tasks cfg <=? len (tasks st)) = false) as ->.
  { rewrite (proj2 (Z.leb_gt _ _) Hroom). apply andb_false_r. }
  apply recover_store_covers; [done|]. by eapply from_dict_mergeable.
Qed.

Lemma recover_records_cover rs1 rec rs2 r st st' :
  node_wf cfg st -> table_ok st -> Forall readable_record (rs1 ++ rec :: rs2) ->
  record_type rec = RECORD_TASK -> from_dict (JObj (wr_payload rec)) = Ok r ->
  for_each (recover_record cfg) (rs1 ++ rec :: rs2) st = (Ok (), st') -> len (tasks st') < max_tasks cfg ->
  exists x, get_task (task_id r) st' = Some x /\ rec_le r x.
Proof.
  intros Hwf Hst Hread Hty Hr Hrun Hroom.
  apply Forall_app in Hread as [Hr1 [Hrec Hr2]%Forall_cons].
  rewrite for_each_app in Hrun
    by (intros x Hx; apply recover_record_returns; by apply (proj1 (Forall_forall _ _) Hr1)).
  set (st1 := (for_each (recover_record cfg) rs1 st).2) in *. cbn [for_each] in Hrun.
  apply nbind_Ok in Hrun as ([] & st2 & Hst2 & Hst').
  assert (evolved cfg st st1) as Hev1.
  { apply (ev_for_each cfg (recover_record cfg) rs1 st); [|done]. intros. apply ev_recover_record. }
  assert (evolved cfg st1 st2) as Hev2.
  { pose proof (ev_recover_record cfg rec st1 (proj1 Hev1)) as E. by rewrite Hst2 in E. }
  assert (evolved cfg st2 st') as Hev3.
  { pose proof (ev_for_each cfg (recover_record cfg) rs2 st2) as E. unfold ev in E. rewrite Hst' in E.
    apply E; [|apply Hev2]. intros. by apply ev_recover_record. }
  assert (table_ok st1) as Hok1.
  { apply (moves_for_each ascends (recover_record cfg) rs1 st); [|done]. intros x s Hx.
    apply recover_record_ascends. by apply (proj1 (Forall_forall _ _) Hr1). }
  assert (ascends st2 st') as Hasc.
  { pose proof (moves_for_each ascends (recover_record cfg) rs2 st2) as E. unfold moves in E.
    rewrite Hst' in E. apply E. intros x s Hx. apply recover_record_ascends.
    by apply (proj1 (Forall_forall _ _) Hr2). }
  pose proof (evolved_len _ _ Hev2 (proj1 Hev1)). pose proof (evolved_len _ _ Hev3 (proj1 Hev2)).
  assert (recover_record cfg rec st1 = recover_task cfg (wr_payload rec) st1) as Erec.
  { unfold recover_record. by rewrite Hty. }
  destruct (recover_task_covers (wr_payload rec) r st1 Hok1 Hr ltac:(lia)) as (x & Hx & Hle).
  rewrite <- Erec, Hst2 in Hx. cbn [snd] in Hx.
  assert (table_ok st2) as Hok2.
  { pose proof (recover_record_ascends rec st1 Hrec) as E. unfold moves in E. rewrite Hst2 in E.
    by apply E. }
  destruct (Hasc Hok2) as [_ Hup]. destruct (Hup _ _ Hx) as (x' & Hx' & Hle').
  exists x'. split; [done|by eapply rec_le_trans].
Qed.

(** The requeueing pass returns and keeps the table. *)
Lemma requeue_pass (l : list (pystr * TaskRecord)) st :
  (for_each (fun kv => requeue_pending kv.1 kv.2) l st).1 = Ok () /\
  tasks (for_each (fun kv => requeue_pending kv.1 kv.2) l st).2 = tasks st.
Proof.
  split.
  - revert st. apply returns_for_each, Forall_forall. intros kv _. apply requeue_returns.
  - apply (moves_for_each same_tasks). intros kv st' _. apply requeue_tasks.
Qed.

(** Recovery from a log of readable records returns, with the table of its records. *)
Lemma recover_from_wal_spec st log rs :
  wal st = Some log -> wal_holds log rs -> Forall readable_record rs ->
  exists st1 st2, for_each (recover_record cfg) rs st = (Ok (), st1) /\
    recover_from_wal cfg st = (Ok (), st2) /\ tasks st2 = tasks st1.
Proof.
  intros Hw Hlog Hrs. unfold recover_from_wal, nbind at 1, gets at 1. rewrite Hw.
  rewrite (wal_holds_replay log rs false Hlog).
  assert (returns (for_each (recover_record cfg) rs)) as Hret.
  { apply returns_for_each. eapply Forall_impl; [done|]. apply recover_record_returns. }
  specialize (Hret st). destruct (for_each (recover_record cfg) rs st) as [o st1] eqn:E.
  cbn [fst] in Hret. subst o. destruct (requeue_pass (tasks st1) st1) as [Hok Ht].
  exists st1, (for_each (fun kv => requeue_pending kv.1 kv.2) (tasks st1) st1).2. split_and!; [done| |done].
  unfold nbind. rewrite E. exact (eq_trans (surjective_pairing _) (f_equal2 pair Hok eq_refl)).
Qed.

(** What [wal_append] adds to the log. *)
Lemma wal_append_holds r st st1 log rs :
  record_ok r = true -> record_text_ok r = true -> vc_wf (vector_clock r) ->
  json_ok (JObj (vc_json (node_clock st))) = true ->
  wal st = Some log -> wal_holds log rs -> wal_append r st = (Ok (), st1) ->
  exists log1 off off' d d', wal st1 = Some log1 /\ from_dict (JObj d) = Ok r /\
    wal_holds log1 (rs ++ [wal_record off RECORD_TASK d; wal_record off' RECORD_CLOCK d']).
Proof.
  intros Hok Htext Hvc Hclock Hw Hlog. unfold wal_append, nbind at 1, gets at 1. rewrite Hw.
  intros ([off log1] & s1 & [= Happ <-] & ([] & s2 & [= <-] & Hrun)%nbind_Ok)%nbind_Ok.
  unfold nbind at 1, gets in Hrun. apply nbind_Ok in Hrun as ([off' log2] & s3 & [= Happ' <-] & [= <-]).
  destruct (append_holds _ _ _ _ _ rs (to_dict_json_ok r Htext) Hlog Happ) as (d & Hd & Hlog1 & _).
  destruct (append_holds _ _ _ _ _ _ Hclock Hlog1 Happ') as (d' & _ & Hlog2 & _).
  exists log2, off, off', d, d'. split_and!; [done| |by rewrite <- app_assoc in Hlog2].
  rewrite Hd. by apply from_dict_to_dict.
Qed.

End recovery.

(** ** A sample restart *)

Definition toy_log : WriteAheadLog :=
  get_ok {| wal_data := None; is_open := false; max_record_bytes := 0 |} (wal_init None 100000).

Definition toy_logging : NodeState := set_wal (Some toy_log) (toy_state false true).
Definition toy_logged : NodeState := (wal_append sample_record toy_logging).2.
Definition toy_restarted : NodeState := set_wal (wal toy_logged) (toy_state false true).

