(* ===== verification/Mesh.v ===== *)
(** * Nodes on a transport ([PeerNode] over [Transport])

    What the transports promise to a node, as a class, its two implementations, and what a node
    obtains from it: an update that one peer seals and sends is authenticated and stored by the
    other. *)

From Stdlib Require Import ZArith NArith Lia.
From S2P Require Import Prelude PyFloat Text Json JsonFacts Security Consensus Crypto Lattice Heapq Queue.
From S2P Require Import Wal Metrics Failure Message SimNetwork Tcp Sha256 FloatText Node NodeFacts NodeTheorems.
Open Scope Z_scope.

(** ** The interface *)

(** A transport holds messages for [recv]; [arrives s m t t'] is the arrival of [m] from [s]. *)
Class Carrier (T : Type) := {
  received : T -> list (pystr * Message);
  arrives : pystr -> Message -> T -> T -> Prop;
  arrives_copy : forall s m t t', arrives s m t t' -> received t' = received t ++ [(s, sorted_message m)];
  arrives_ok : forall s m t t', arrives s m t t' -> message_ok m = true;
}.

(** The endpoint [ep_object] of a simulated network. *)
Record Endpoint := { ep_net : SimNetwork; ep_object : nat }.

Definition endpoint_inbox (e : Endpoint) : list (pystr * Message) :=
  match endpoints (ep_net e) !! ep_object e with Some ep => ep_inbox ep | None => [] end.

(** An arrival that the network neither blocks nor refuses. *)
Definition sim_arrives (s : pystr) (m : Message) (e e' : Endpoint) : Prop :=
  exists ep, endpoints (ep_net e) !! ep_object e = Some ep /\ ep_closed ep = false /\
    inbox_full (max_inbox_size (ep_security ep)) (ep_inbox ep) = false /\ fits (ep_security ep) m /\
    is_blocked s (ep_node_id ep) (ep_net e) = false /\
    e' = {| ep_net := (route_arrive s (ep_node_id ep) (ep_object e) m (ep_net e)).2; ep_object := ep_object e |}.

Lemma sim_arrives_copy s m e e' :
  sim_arrives s m e e' -> endpoint_inbox e' = endpoint_inbox e ++ [(s, sorted_message m)].
Proof.
  intros (ep & Hep & Hc & Hroom & Hfit & Hb & ->). unfold endpoint_inbox. cbn [ep_net ep_object]. rewrite Hep.
  unfold route_arrive, deliver_packet. rewrite Hb, Hep, Hc. fold (isolate ep m).
  rewrite (isolate_fits ep m Hfit), Hroom. cbn [snd put_inbox with_endpoints endpoints].
  by rewrite lookup_insert, decide_True.
Qed.

Lemma sim_arrives_ok s m e e' : sim_arrives s m e e' -> message_ok m = true.
Proof. by intros (ep & _ & _ & _ & (? & _) & _). Qed.

#[export] Instance sim_carrier : Carrier Endpoint := {|
  received := endpoint_inbox; arrives := sim_arrives; arrives_copy := sim_arrives_copy;
  arrives_ok := sim_arrives_ok |}.

(** A handler of a TCP transport reads the frame of [m] on a connection open for [s]. *)
Definition tcp_arrives `{Ed25519} (s : pystr) (m : Message) (t t' : TcpTransport) : Prop :=
  exists rd w key ts n m0 frame rest e sent,
    s = sender_id m /\ signed key ts n m0 = Ok m /\ accepts t key (r_now rd) m /\
    (msg_type m ∉ [str "hello"; str "hello_ack"]) /\
    message_to_bytes (max_frame_size (tcp_security t)) m = Ok frame /\
    inbox_full (max_inbox_size (tcp_security t)) (tcp_inbox t) = false /\ tcp_closed t = false /\
    t' = (client_turn rd w {| c_stream := {| incoming := frame ++ rest; ending := e |};
                              c_phase := Open (Some s); c_sent := sent |} t).2.

Lemma tcp_arrives_copy `{Ed25519Laws} s m t t' :
  tcp_arrives s m t t' -> tcp_inbox t' = tcp_inbox t ++ [(s, sorted_message m)].
Proof.
  intros (rd & w & key & ts & n & m0 & frame & rest & e & sent & -> & Hs & Ha & Hty & Hf & Hroom & Hc & ->).
  by rewrite (turn_delivers t rd key ts n m0 m frame rest e w sent Hs Ha Hty Hf Hroom Hc).
Qed.

Lemma tcp_arrives_ok `{Ed25519} s m t t' : tcp_arrives s m t t' -> message_ok m = true.
Proof.
  by intros (rd & w & key & ts & n & m0 & frame & rest & e & sent & _ & _ & (_ & _ & _ & (? & _) & _) & _).
Qed.

#[export] Instance tcp_carrier `{Ed25519Laws} : Carrier TcpTransport := {|
  received := tcp_inbox; arrives := tcp_arrives; arrives_copy := tcp_arrives_copy;
  arrives_ok := tcp_arrives_ok |}.

(** ** Sealed records *)

Lemma authorization_total `{Ed25519} r ring :
  record_text_ok r = true -> exists b, verify_task_authorization r ring = Ok b.
Proof.
  intros Ht. assert (exists b, verify_task_signature r ring = Ok b) as [b Hb].
  { unfold verify_task_signature. destruct (signature r); [|by exists false].
    destruct (signer_id r) as [signer|] eqn:Es; [|by exists false].
    destruct (canonical_bytes_ok (with_signature r None (Some signer))) as [data ->]; [|by eexists].
    revert Ht. unfold record_text_ok. cbn [with_signature task_id task_error claimed_by updated_by signer_id
      fence_token lease_expiry vector_clock]. by rewrite Es. }
  unfold verify_task_authorization. rewrite Hb. cbn [rbind]. repeat case_match; by eexists.
Qed.

Section mesh.
Context `{Ed25519Laws} `{MathLib} `{UnicodeDB} `{World}.

(** What signing does to a record that its signer may publish. *)
Lemma sign_record_ok key signer r r' :
  sign_task key r signer = Ok r' -> record_ok r = true -> record_text_ok r = true ->
  peer_ok signer = true -> scalar_str signer = true ->
  record_ok r' = true /\ record_text_ok r' = true /\ signer_id r' = Some signer /\ same_content r' r /\
  forall ring, get_peer_key signer ring = Some (public_key key) ->
    (forall c, claimed_by r = Some c -> c = signer /\ ft_peer_id (fence_token r) = signer) ->
    verify_task_authorization r' ring = Ok true.
Proof.
  intros Hs Hok Htext Hp Hsc. pose proof Hs as Hs'. unfold sign_task in Hs'. inv_result. split_and!; [| |done|done|].
  - revert Hok. unfold record_ok. cbn [with_signature task_id payload task_result task_error claimed_by updated_by
      signer_id fence_token vector_clock lease_expiry signature opt_ok]. rewrite !andb_true_iff.
    assert (forall d, (len (ed_sign key d) =? 64) = true) as Hl
      by (intros d; unfold len; by rewrite ed_sign_length). rewrite Hl. tauto.
  - revert Htext. unfold record_text_ok. cbn [with_signature task_id task_error claimed_by updated_by signer_id
      fence_token lease_expiry vector_clock opt_ok]. rewrite !andb_true_iff. tauto.
  - intros ring Hkey Hown.
    destruct (sign_task_authorized key r signer ring Htext Hsc Hkey) as (t' & Ht' & _ & _ & Ha).
    rewrite Hs in Ht'. injection Ht' as <-. by apply Ha.
Qed.

Lemma seal_record_ok cfg r r' st st' :
  seal_record cfg r st = (Ok r', st') -> record_ok r = true -> record_text_ok r = true ->
  peer_ok (node_id cfg) = true -> scalar_str (node_id cfg) = true ->
  record_ok r' = true /\ record_text_ok r' = true /\
  (enabled (security cfg) = true -> signer_id r' = Some (node_id cfg) /\
   forall ring, get_peer_key (node_id cfg) ring = Some (public_key (identity cfg)) ->
     (forall c, claimed_by r = Some c -> c = node_id cfg /\ ft_peer_id (fence_token r) = node_id cfg) ->
     verify_task_authorization r' ring = Ok true).
Proof.
  unfold seal_record. intros Hseal Hok Htext Hp Hsc. destruct (enabled (security cfg)); cbn [negb] in Hseal.
  - injection Hseal as Hs <-. destruct (sign_record_ok _ _ _ _ Hs Hok Htext Hp Hsc) as (? & ? & ? & _ & ?). done.
  - injection Hseal as <- <-. done.
Qed.

(** ** The sender *)

(** The gossip that carries one record. *)
Definition update_of (cfg : NodeConfig) (tid : pystr) (r : TaskRecord) : Message := {|
  msg_type := str "gossip"; sender_id := node_id cfg;
  msg_payload := [(str "tasks", JObj [(tid, JObj (to_dict r))])]; timestamp := None; nonce := None;
  msg_signature := None; msg_version := protocol_version (security cfg) |}.

Definition same_outbox (st st' : NodeState) : Prop := outbox st' = outbox st.
#[local] Instance same_outbox_preorder : PreOrder same_outbox.
Proof. split; [done|]. intros a b c E1 E2. unfold same_outbox in *. congruence. Qed.

Lemma wal_append_outbox r st : moves same_outbox (wal_append r) st.
Proof.
  apply moves_gets. destruct (wal st); [|apply moves_ret; apply _].
  apply moves_lift_bind; [apply _|]. intros ow _. apply moves_bind; [apply _|done|]. intros [] st' _.
  apply moves_gets, moves_lift_bind; [apply _|]. intros ow' _. done.
Qed.

Lemma sends_outbox (m : Message) ps st :
  exists st', for_each (fun p => send p m) ps st = (Ok (), st') /\
    outbox st' = outbox st ++ ((fun p => (p, m)) <$> ps).
Proof.
  revert st. induction ps as [|p ps IH]; intros st; [exists st; by rewrite app_nil_r|].
  destruct (IH (set_outbox (outbox st ++ [(p, m)]) st)) as (st' & E & Ho). exists st'. split; [exact E|].
  rewrite Ho. cbn [outbox set_outbox upd2 fmap list_fmap]. by rewrite <- app_assoc.
Qed.

(** A broadcast seals the record, stores it, and sends one signed update to every peer. *)
Lemma broadcast_outbox cfg tid r st st' :
  broadcast_task_update cfg tid r st = (Ok (), st') ->
  exists r' m ts n st1, seal_record cfg r st = (Ok r', st1) /\ get_task tid st' = Some r' /\
    signed (identity cfg) ts n (update_of cfg tid r') = Ok m /\
    outbox st' = outbox st ++ ((fun p => (p, m)) <$> peers cfg).
Proof.
  intros Hb. pose proof Hb as (r' & st1 & Hseal & Hrun)%nbind_Ok.
  pose proof (seal_same_content cfg r r' st st1 Hseal) as [-> _].
  apply nbind_Ok in Hrun as ([] & st2 & [= <-] & Hrun).
  apply nbind_Ok in Hrun as ([] & st3 & Hw & Hrun).
  apply nbind_Ok in Hrun as (m & st4 & Hsm & Hrun).
  assert (outbox st3 = outbox st /\ tasks st3 = dict_set tid r' (tasks st)) as [Ho Ht].
  { pose proof (wal_append_outbox r' (set_tasks (dict_set tid r' (tasks st)) st)) as Hm1.
    pose proof (wal_append_tasks r' (set_tasks (dict_set tid r' (tasks st)) st)) as Hm2.
    unfold moves in *. rewrite Hw in *. done. }
  assert (outbox st4 = outbox st3 /\ tasks st4 = tasks st3 /\
    exists ts n, signed (identity cfg) ts n (update_of cfg tid r') = Ok m) as (Ho4 & Ht4 & ts & n & Hs).
  { unfold signed_message in Hsm. apply nbind_Ok in Hsm as (ts & s1 & [= <- <-] & Hsm).
    apply nbind_Ok in Hsm as (n & s2 & [= <- <-] & Hsm). unfold lift in Hsm. injection Hsm as Hs <-.
    split_and!; [done|done|]. by exists (wall_at (ticks st3)), (nonce_at (S (ticks st3))). }
  destruct (sends_outbox m (peers cfg) st4) as (st5 & E & Ho5).
  pose proof (sends_tasks m (peers cfg) st4) as Ht5. unfold moves, same_tasks in Ht5.
  rewrite E in Hrun, Ht5. injection Hrun as <-. exists r', m, ts, n, st.
  split_and!; [done| |done|by rewrite Ho5, Ho4, Ho]. unfold get_task. cbn [snd] in Ht5.
  rewrite Ht5, Ht4, Ht. apply dict_get_set_eq.
Qed.

(** ** The receiver *)

(** What node [cfg] needs to authenticate [m] from the holder of [key]. *)
Definition node_accepts (cfg : NodeConfig) (st : NodeState) (key : PrivateKey) (m : Message) : Prop :=
  enabled (security cfg) = true ->
  get_peer_key (sender_id m) (keyring cfg) = Some (public_key key) /\
  msg_version m = protocol_version (security cfg) /\
  exists ts n, timestamp m = Some ts /\ nonce m = Some n /\
    let now := wall_at (ticks st) in
    let window := replay_window_seconds (security cfg) in
    py_gt (fabs (fsub now ts)) window = false /\
    dict_mem (sender_id m, n) (rc_expire (fsub now window) (rc_entries (message_replay st))) = false.

Lemma authenticate_accepts cfg st key ts n m0 m :
  signed key ts n m0 = Ok m -> message_ok m = true ->
  msg_type m ∈ [str "heartbeat"; str "gossip"; str "credit"] -> node_accepts cfg st key m ->
  exists st', authenticate_message cfg (sender_id m) (sorted_message m) st = (Ok true, st') /\
    tasks st' = tasks st.
Proof.
  intros Hs Hok Hty Hacc. unfold authenticate_message. destruct (enabled (security cfg)) eqn:He; cbn [negb];
    [|by eexists]. destruct (Hacc He) as (Hkey & Hv & ts' & n' & Ht & Hn & Hw & Hfresh).
  destruct (signed_inv _ _ _ _ _ Hs) as (_ & _ & _ & Hsd & _).
  destruct (signed_verifies key ts n m0 m (keyring cfg) Hs Hok) as [Hver _]. rewrite <- Hsd in Hver.
  destruct (Hver Hkey) as [_ Hver']. cbn [sorted_message sender_id msg_version msg_type timestamp nonce] in *.
  rewrite Hv, Z.eqb_refl, !bool_decide_eq_true_2 by done. unfold has_peer.
  assert (dict_mem (sender_id m) (keyring cfg) = true) as -> by (apply dict_mem_true; by eexists).
  cbn [negb]. unfold nbind, lift. rewrite Hver', Ht, Hn. cbn [negb]. unfold clock_wall. rewrite Hw.
  unfold check_and_remember. cbn [message_replay tick upd2]. rewrite Hfresh. by eexists.
Qed.

(** What an authorised record makes of the record of its task. *)
Lemma gossip_entry_result cfg sender tid raw r st :
  from_dict raw = Ok r -> task_id r = tid -> gossip_authorized cfg sender r = Ok true ->
  get_task tid (gossip_entry cfg sender (tid, raw) st).2 =
    match get_task tid st with
    | Some old => match merge_records old r (merge_keyring cfg) with Ok x => Some x | Raise _ => Some old end
    | None => if max_tasks cfg <=? len (tasks st) then None else Some r
    end.
Proof.
  intros Hr Htid Hauth. unfold gossip_entry. rewrite Hr, bool_decide_eq_true_2 by done. cbn [negb].
  unfold nbind, lift, gets. rewrite Hauth. cbn [negb]. unfold get_task.
  destruct (dict_get tid (tasks st)) as [old|] eqn:El.
  - destruct (merge_records old r (merge_keyring cfg)) as [x|e]; [rewrite gossip_commit_tasks; apply dict_get_set_eq|].
    destruct e; exact El.
  - destruct (max_tasks cfg <=? len (tasks st)); [exact El|]. rewrite gossip_commit_tasks. apply dict_get_set_eq.
Qed.

(** A record that is authorised and fits ends up in the table, or below what is there. *)
Lemma gossip_entry_stores cfg sender tid raw r st :
  from_dict raw = Ok r -> task_id r = tid -> gossip_authorized cfg sender r = Ok true ->
  table_ok st -> (forall old, get_task tid st = Some old -> record_text_ok old = true) ->
  (get_task tid st = None -> len (tasks st) < max_tasks cfg) ->
  exists x, get_task tid (gossip_entry cfg sender (tid, raw) st).2 = Some x /\ rec_le r x /\
    (get_task tid st = None -> x = r).
Proof.
  intros Hr Htid Hauth Htab Htext Hroom. pose proof (from_dict_mergeable _ _ Hr) as Hm. rewrite Htid in Hm.
  rewrite (gossip_entry_result cfg sender tid raw r st Hr Htid Hauth).
  destruct (get_task tid st) as [old|] eqn:El.
  - assert (exists x, merge_records old r (merge_keyring cfg) = Ok x /\ rec_le r x) as (x & -> & Hx); [|by exists x].
    pose proof (Htab tid old El) as Hold.
    assert (rec_le r (merge_core old r)) as Hle.
    { split; [by eapply merge_ge_r|]. rewrite merge_core_clock. apply vc_merge_le_r; eauto with peerq. }
    unfold merge_records. rewrite raise_if_false
      by (rewrite bool_decide_eq_true_2; [done|destruct Hold, Hm; congruence]).
    unfold merge_keyring, gossip_authorized in *. destruct (enabled (security cfg)); [|by eexists].
    destruct (authorization_total old (keyring cfg) (Htext old eq_refl)) as [b ->].
    case_bool_decide; [|done]. rewrite Hauth. cbn [rbind andb negb]. destruct b; cbn; [by eexists|].
    exists r. split; [done|]. by eapply rec_le_refl.
  - specialize (Hroom eq_refl). destruct (Z.leb_spec (max_tasks cfg) (len (tasks st))); [lia|].
    exists r. split_and!; [done|by eapply rec_le_refl|done].
Qed.

(** The handling of a one-record gossip, once it is authenticated. *)
Lemma receive_update cfg sender m st st1 tid raw :
  authenticate_message cfg sender m st = (Ok true, st1) -> msg_type m = str "gossip" ->
  msg_payload m = [(str "tasks", JObj [(tid, raw)])] -> 0 < max_gossip_tasks (security cfg) ->
  (receive cfg sender m st).2 = (gossip_entry cfg sender (tid, raw) st1).2.
Proof.
  intros Ha Hty Hp Hmax. unfold receive. unfold nbind at 1. rewrite Ha. cbn [negb].
  rewrite Hty, Hp. change (bool_decide (str "gossip" = str "heartbeat")) with false.
  change (bool_decide (str "gossip" = str "gossip")) with true.
  change (default (JObj []) (dict_get (str "tasks") [(str "tasks", JObj [(tid, raw)])])) with (JObj [(tid, raw)]).
  cbv iota. destruct (Z.ltb_spec (max_gossip_tasks (security cfg)) (len [(tid, raw)])) as [Hlt|]; [unfold len in Hlt; cbn in Hlt; lia|].
  cbn [for_each]. unfold nbind. destruct (gossip_entry cfg sender (tid, raw) st1) as [[[]|e] st2]; done.
Qed.

(** The payload of a signed gossip, as the transport hands it on. *)
Lemma sorted_update key ts n m0 m tid r :
  signed key ts n m0 = Ok m -> msg_payload m0 = [(str "tasks", JObj [(tid, JObj (to_dict r))])] ->
  msg_payload (sorted_message m) = [(str "tasks", JObj [(tid, sort_keys (JObj (to_dict r)))])].
Proof.
  intros Hs Hpay. destruct (signed_inv _ _ _ _ _ Hs) as (_ & _ & _ & _ & Hp & _). unfold sorted_message. cbn [msg_payload].
  by rewrite Hp, Hpay.
Qed.

(** A signed one-record gossip that reaches a node is stored. *)
Lemma update_received cfg st key ts n m0 m tid r :
  signed key ts n m0 = Ok m -> message_ok m = true -> msg_type m0 = str "gossip" ->
  msg_payload m0 = [(str "tasks", JObj [(tid, JObj (to_dict r))])] -> node_accepts cfg st key m ->
  task_id r = tid -> record_ok r = true -> vc_wf (vector_clock r) ->
  gossip_authorized cfg (sender_id m0) r = Ok true -> 0 < max_gossip_tasks (security cfg) ->
  table_ok st -> (forall old, get_task tid st = Some old -> record_text_ok old = true) ->
  (get_task tid st = None -> len (tasks st) < max_tasks cfg) ->
  exists x, get_task tid (receive cfg (sender_id m0) (sorted_message m) st).2 = Some x /\ rec_le r x /\
    (get_task tid st = None -> x = r).
Proof.
  intros Hs Hmok Hty Hpay Hacc Htid Hok Hvc Hauth Hmax Htab Hold Hroom.
  destruct (signed_inv _ _ _ _ _ Hs) as (_ & _ & _ & Hsd & _ & Hmt & _). rewrite Hty in Hmt.
  destruct (authenticate_accepts cfg st key ts n m0 m Hs Hmok) as (st2 & Hau & Ht2); [|done|].
  { rewrite Hmt. set_solver. }
  rewrite Hsd in Hau.
  pose proof (sorted_update _ _ _ _ _ _ _ Hs Hpay) as Hps.
  rewrite (receive_update cfg (sender_id m0) (sorted_message m) st st2 tid (sort_keys (JObj (to_dict r)))
    Hau Hmt Hps Hmax).
  unfold table_ok, get_task in *. rewrite <- Ht2 in Htab, Hold, Hroom |- *.
  exact (gossip_entry_stores cfg (sender_id m0) tid _ r st2 (from_dict_to_dict r Hok Hvc) Htid Hauth Htab Hold Hroom).
Qed.

(** ** Updates reach the peers *)

(** C11: An update reaches every peer, end to end: when [a] broadcasts a record it may publish, it
    stores the sealed record [r'] and sends every peer one message; whenever that message arrives at
    a peer [b] over any transport that meets the interface, [b] authenticates the copy that its
    transport holds and afterwards stores a record at least as high in the lattice as [r'], and
    exactly [r'] when it did not know the task. *)
Theorem broadcast_reaches_peer (a b : NodeConfig) (sta sta' stb : NodeState) (tid : pystr) (r : TaskRecord) :
  broadcast_task_update a tid r sta = (Ok (), sta') ->
  task_id r = tid -> record_ok r = true -> record_text_ok r = true -> vc_wf (vector_clock r) ->
  peer_ok (node_id a) = true -> scalar_str (node_id a) = true ->
  (forall c, claimed_by r = Some c -> c = node_id a /\ ft_peer_id (fence_token r) = node_id a) ->
  enabled (security a) = enabled (security b) -> 0 < max_gossip_tasks (security b) ->
  table_ok stb -> (forall old, get_task tid stb = Some old -> record_text_ok old = true) ->
  (get_task tid stb = None -> len (tasks stb) < max_tasks b) ->
  exists r' m, get_task tid sta' = Some r' /\ same_content r' r /\
    outbox sta' = outbox sta ++ ((fun p => (p, m)) <$> peers a) /\
    forall (T : Type) (CT : Carrier T) (t t' : T),
      arrives (node_id a) m t t' -> node_accepts b stb (identity a) m ->
      exists copy x, received t' = received t ++ [(node_id a, copy)] /\
        get_task tid (receive b (node_id a) copy stb).2 = Some x /\ rec_le r' x /\
        (get_task tid stb = None -> x = r').
Proof.
  intros Hb Htid Hok Htext Hvc Hpa Hsc Hown Hmode Hmax Htab Hold Hroom.
  destruct (broadcast_outbox a tid r sta sta' Hb) as (r' & m & ts & n & st1 & Hseal & Hget & Hs & Hout).
  destruct (seal_same_content a r r' sta st1 Hseal) as [_ Hsame].
  destruct (seal_record_ok a r r' sta st1 Hseal Hok Htext Hpa Hsc) as (Hok' & Htext' & Hauth).
  exists r', m. split_and!; [done..|]. intros T HT t t' Harr Hacc.
  pose proof (arrives_ok _ _ _ _ Harr) as Hmok. exists (sorted_message m).
  assert (vector_clock r' = vector_clock r /\ task_id r' = task_id r) as [Hvc' Htid']
    by exact (conj (f_equal vector_clock Hsame) (f_equal task_id Hsame)).
  assert (gossip_authorized b (node_id a) r' = Ok true) as Hga.
  { unfold gossip_authorized. rewrite <- Hmode. destruct (enabled (security a)) eqn:He; [|done].
    destruct (Hauth eq_refl) as [Hsig Hver]. rewrite bool_decide_eq_true_2 by done.
    destruct (signed_inv _ _ _ _ _ Hs) as (_ & _ & _ & Hsd & _). cbn in Hsd.
    apply Hver; [|done]. rewrite <- Hsd. symmetry in Hmode. by apply (Hacc Hmode). }
  destruct (update_received b stb (identity a) ts n (update_of a tid r') m tid r' Hs Hmok eq_refl eq_refl Hacc
    ltac:(congruence) Hok' ltac:(by rewrite Hvc') Hga Hmax Htab Hold Hroom) as (x & Hx & Hle & Hnew).
  exists x. split_and!; [|done..]. by apply arrives_copy.
Qed.
End mesh.

(** ** A sample mesh: p1 broadcasts a pending task to p2 over the simulated network *)

Definition p1_record : TaskRecord := {|
  task_id := str "u"; state := PENDING; payload := str_bytes "job"; task_result := None; task_error := None;
  claimed_by := None; fence_token := ftoken 0 []; lease_expiry := fzero;
  vector_clock := VectorClock_init {[str "p1" := 1]}; updated_by := str "p1"; signature := None; signer_id := None |}.

Definition p2_cfg : NodeConfig := {|
  node_id := str "p2"; peers := [str "p1"]; has_handler := true; lease_duration := decimal_float false 5 0;
  identity := toy_seed 2; keyring := toy_ring; security := toy_security true; max_tasks := 2 |}.

Definition p1_sent : NodeState := (broadcast_task_update (toy_cfg true true) (str "u") p1_record (toy_state true true)).2.
Definition p1_update : Message := match outbox p1_sent with (_, m) :: _ => m | [] => sample_message end.
Definition p2_inbox : Endpoint := {| ep_net := two_endpoints; ep_object := 1 |}.

Lemma p1_update_arrives :
  arrives (str "p1") p1_update p2_inbox
    {| ep_net := (route_arrive (str "p1") (str "p2") 1 p1_update two_endpoints).2; ep_object := 1 |}.
Proof.
  exists p2_endpoint. split_and!; try (vm_compute; reflexivity).
  split_and!; [vm_compute; reflexivity|vm_compute; reflexivity|vm_compute; discriminate|vm_compute; reflexivity].
Qed.

Lemma one_message_inj {A B} (p : A) (m m' : B) : [(p, m)] = [] ++ ((fun q => (q, m')) <$> [p]) -> m' = m.
Proof. by intros [= ->]. Qed.

Lemma broadcast_reaches_peer_witness :
  exists copy x, endpoint_inbox
      {| ep_net := (route_arrive (str "p1") (str "p2") 1 p1_update two_endpoints).2; ep_object := 1 |} =
      [(str "p1", copy)] /\
    get_task (str "u") (receive p2_cfg (str "p1") copy blank_state).2 = Some x /\ same_content x p1_record.
Proof.
  assert (broadcast_task_update (toy_cfg true true) (str "u") p1_record (toy_state true true) = (Ok (), p1_sent)) as H1.
  { assert (is_ok (broadcast_task_update (toy_cfg true true) (str "u") p1_record (toy_state true true)).1 = true) as E
      by (vm_compute; reflexivity).
    unfold p1_sent. destruct (broadcast_task_update _ _ _ _) as [[[]|e] s]; [reflexivity|discriminate E]. }
  assert (node_id (toy_cfg true true) = str "p1") as Hid by (vm_compute; reflexivity).
  assert (outbox p1_sent = [(str "p2", p1_update)]) as Ho by (vm_compute; reflexivity).
  assert (outbox (toy_state true true) = []) as Ho0 by (vm_compute; reflexivity).
  assert (peers (toy_cfg true true) = [str "p2"]) as Hp by (vm_compute; reflexivity).
  assert (node_accepts p2_cfg blank_state (identity (toy_cfg true true)) p1_update) as Hacc.
  { intros _. split_and!; [vm_compute; reflexivity|vm_compute; reflexivity|].
    assert (timestamp p1_update = Some (Z_to_float 0)) as Ht by (vm_compute; reflexivity).
    assert (nonce p1_update = Some (nonce_at 1)) as Hn by (vm_compute; reflexivity).
    exists (Z_to_float 0), (nonce_at 1). split; [exact Ht|]. split; [exact Hn|]. split; vm_compute; reflexivity. }
  assert (table_ok blank_state) as Htab by (intros k x Hx; discriminate Hx).
  destruct (broadcast_reaches_peer (toy_cfg true true) p2_cfg (toy_state true true) p1_sent blank_state (str "u")
    p1_record H1) as (r' & m & _ & Hsame & Hout & Hall).
  - reflexivity.
  - vm_compute; reflexivity.
  - vm_compute; reflexivity.
  - apply VectorClock_init_wf.
  - vm_compute; reflexivity.
  - vm_compute; reflexivity.
  - intros c Hc. discriminate Hc.
  - vm_compute; reflexivity.
  - vm_compute; reflexivity.
  - exact Htab.
  - intros old Hold. discriminate Hold.
  - intros _. vm_compute. reflexivity.
  - rewrite Ho, Ho0, Hp in Hout. apply one_message_inj in Hout. rewrite Hout, Hid in Hall.
    destruct (Hall Endpoint sim_carrier p2_inbox _ p1_update_arrives Hacc) as (copy & x & Hr & Hx & _ & Hnew).
    exists copy, x. rewrite (Hnew eq_refl) in *. exact (conj Hr (conj Hx Hsame)).
Defined.
