(* ===== verification/Worker.v ===== *)
(** * The worker executes tasks ([_worker_loop] of [peerq/node.py])

    That a node which accepts a task also finishes it: every step from the submission to the commit
    returns, and what the table and the peers hold at the end.  A computation that returns is
    described by what it returns ([runs]). *)

From Stdlib Require Import ZArith NArith Lia.
From S2P Require Import Prelude PyFloat Text Json JsonFacts Security Consensus Crypto Lattice Heapq Queue.
From S2P Require Import Wal Metrics Failure Message SimNetwork Tcp Sha256 FloatText PyText Node NodeFacts NodeTheorems.
From S2P Require Import NodeScenarios Mesh.
Open Scope Z_scope.
Open Scope node_scope.

(** ** Computations that return *)

Definition runs {A} (m : M A) (st : NodeState) (Q : A -> NodeState -> Prop) : Prop :=
  exists a st', m st = (Ok a, st') /\ Q a st'.

Lemma runs_bind {A B} (m : M A) (k : A -> M B) st (Q : A -> NodeState -> Prop) R :
  runs m st Q -> (forall a st', Q a st' -> runs (k a) st' R) -> runs (nbind m k) st R.
Proof.
  intros (a & st1 & Hm & HQ) Hk. destruct (Hk a st1 HQ) as (b & st2 & Hb & HR). exists b, st2. split; [|done].
  unfold nbind. by rewrite Hm.
Qed.

Lemma runs_weaken {A} (m : M A) st (Q R : A -> NodeState -> Prop) :
  runs m st Q -> (forall a st', Q a st' -> R a st') -> runs m st R.
Proof. intros (a & st' & Hm & HQ) HR. exists a, st'. auto. Qed.

Lemma runs_step {A B} (m : M A) (k : A -> M B) st a st' R :
  m st = (Ok a, st') -> runs (k a) st' R -> runs (nbind m k) st R.
Proof. intros Hm (b & st2 & Hb & HR). exists b, st2. split; [|done]. unfold nbind. by rewrite Hm. Qed.

(** ** Clocks that fit JSON *)

(** The counters of a clock are below [n] and its peers have encodable names. *)
Definition clock_below (n : Z) (c : VectorClock) : Prop :=
  forall k v, clock c !! k = Some v -> scalar_str k = true /\ v < n.

Lemma clock_below_increment n c p :
  1 <= n -> scalar_str p = true -> clock_below n c -> clock_below (n + 1) (increment c p).
Proof.
  intros Hn Hp Hc k v. unfold increment, VectorClock_init. cbn [clock]. intros [Hk _]%map_lookup_filter_Some.
  apply lookup_insert_Some in Hk as [[<- <-]|[_ Hk]].
  - split; [done|]. unfold vc_get. destruct (clock c !! p) as [x|] eqn:Ex; cbn; [|lia]. apply Hc in Ex. lia.
  - apply Hc in Hk. split; [tauto|lia].
Qed.

Lemma int_json_ok z : Z.abs z < 2 ^ 63 -> json_ok (JInt z) = true.
Proof.
  intros Hz. cbn [json_ok]. apply Z.leb_le. pose proof (N_str_short (Z.abs_N z) ltac:(lia)) as Hl. unfold len in Hl.
  unfold int_max_str_digits. lia.
Qed.

Lemma clock_below_text n c : n <= 2 ^ 63 -> vc_wf c -> clock_below n c ->
  forallb (fun kv => scalar_str kv.1 && json_ok (JInt kv.2)) (map_to_list (clock c)) = true.
Proof.
  intros Hn Hwf Hc. apply forallb_Forall, Forall_forall. intros [k v] Hin%elem_of_map_to_list. cbn [fst snd].
  destruct (Hc k v Hin) as [-> Hv]. cbn [andb].
  assert (0 < v) by (by eapply Hwf). rewrite (int_json_ok v); [done|lia].
Qed.

(** ** The steps of the worker *)

Section worker.
Context `{Ed25519} `{MathLib} `{UnicodeDB} `{World} (cfg : NodeConfig).

(** The environment: the wall clock shows finite times, the nonces are those that a message may have,
    the names of the node and the protocol version can be written. *)
Record env_ok : Prop := {
  env_wall : forall i, float_ok (wall_at i) = true;
  env_nonce : forall i, scalar_str (nonce_at i) = true /\ 1 <= len (nonce_at i) <= 128;
  env_name : scalar_str (node_id cfg) = true;
  env_version : Z.abs (protocol_version (security cfg)) < 2 ^ 63;
}.

(** The parts of the state that a message on its way out leaves alone. *)
Definition held (st : NodeState) := (node_clock st, wal st, worker st, queue st, metrics st).

(** The tasks the node has completed, and what else a step may leave alone. *)
Definition done_count (st : NodeState) : Z := get_counter (str "completed") (metrics st).
Definition load (st : NodeState) := (queue st, done_count st).

Lemma done_count_incr name st :
  done_count (set_metrics (increment_counter (str name) 1 (metrics st)) st) =
  done_count st + (if decide (str name = str "completed") then 1 else 0).
Proof. apply get_counter_increment. Qed.

(** A record as [_seal_record] returns it for the content that it has. *)
Definition sealed (r : TaskRecord) : Prop := exists st, seal_record cfg (with_signature r None None) st = (Ok r, st).

(** Without signatures a record is only sealed when it has none. *)
Definition sealable (r : TaskRecord) : Prop := enabled (security cfg) = false -> with_signature r None None = r.

Lemma sealed_sealable r : sealed r -> sealable r.
Proof. intros [st E] He. unfold seal_record in E. rewrite He in E. by injection E. Qed.

Lemma seal_runs r st : env_ok -> record_text_ok r = true ->
  runs (seal_record cfg r) st (fun r' st' =>
    st' = st /\ same_content r' r /\ record_text_ok r' = true /\ (sealable r -> sealed r')).
Proof.
  intros He Hr. unfold sealable, sealed, seal_record. destruct (enabled (security cfg)) eqn:Hon; cbn [negb].
  2: { exists r, st. split_and!; try done. intros Hu. exists st. by rewrite (Hu eq_refl). }
  assert (record_text_ok (with_signature r None (Some (node_id cfg))) = true) as Hs.
  { revert Hr. unfold record_text_ok. cbn. rewrite !andb_true_iff. pose proof (env_name He). tauto. }
  unfold lift, sign_task. destruct (canonical_bytes_ok _ Hs) as [b Hb]. rewrite Hb. cbn [rbind]. eexists _, st.
  split; [reflexivity|]. split_and!; [done|done|done|]. intros _. exists st.
  cbn [with_signature task_id state payload task_result task_error claimed_by fence_token lease_expiry vector_clock updated_by].
  unfold with_signature in Hb |- *. cbn. by rewrite Hb.
Qed.

(** The message that [_signed_message] signs. *)
Definition draft_of (mt : pystr) (p : list (pystr * json)) : Message := {|
  msg_type := mt; sender_id := node_id cfg; msg_payload := p; timestamp := None; nonce := None;
  msg_signature := None; msg_version := protocol_version (security cfg) |}.

(** The same with its time and nonce, which is what is signed. *)
Definition stamped (ts : float) (n : pystr) (m : Message) : Message := {|
  msg_type := msg_type m; sender_id := sender_id m; msg_payload := msg_payload m; timestamp := Some ts; nonce := Some n;
  msg_signature := None; msg_version := msg_version m |}.

Lemma signed_message_runs mt p st : env_ok -> scalar_str mt = true -> json_ok (JObj p) = true ->
  runs (signed_message cfg mt p) st (fun m st' =>
    (exists ts n, signed (identity cfg) ts n (draft_of mt p) = Ok m /\ message_ok (stamped ts n (draft_of mt p)) = true) /\ st' = tick (tick st) /\
    is_ok (message_bytes (sorted_message m)) = true).
Proof.
  intros He Hmt Hp. unfold signed_message. eapply runs_step; [reflexivity|]. eapply runs_step; [reflexivity|].
  cbn [ticks tick upd2]. fold (draft_of mt p).
  assert (exists m, signed (identity cfg) (wall_at (ticks st)) (nonce_at (S (ticks st))) (draft_of mt p) = Ok m /\
    message_ok (stamped (wall_at (ticks st)) (nonce_at (S (ticks st))) (draft_of mt p)) = true /\
    is_ok (message_bytes (sorted_message m)) = true) as (m & Hm & Hu & Hb).
  2: { exists m, (tick (tick st)). unfold lift. rewrite Hm. split_and!; eauto. }
  unfold signed, draft_of.
  pose proof (env_wall He (ticks st)) as Hw. destruct (env_nonce He (S (ticks st))) as [Hs Hl].
  assert (isfinite (wall_at (ticks st)) = true) as -> by (unfold float_ok in Hw; by apply andb_true_iff in Hw as [[? _]%andb_true_iff _]).
  destruct (Z.leb_spec 1 (len (nonce_at (S (ticks st))))); [|lia]. destruct (Z.leb_spec (len (nonce_at (S (ticks st)))) 128); [|lia].
  cbn [raise_if negb andb rbind msg_type sender_id msg_payload msg_version]. unfold message_bytes.
  match goal with |- context [unsigned_document ?m] => set (u := m) end.
  assert (message_ok u = true) as Hu.
  { unfold message_ok, u. cbn [msg_type sender_id msg_payload timestamp nonce msg_signature msg_version opt_ok].
    rewrite Hmt, (env_name He), Hp, Hw, Hs, (int_json_ok _ (env_version He)).
    destruct (Z.leb_spec 1 (len (nonce_at (S (ticks st))))); [|lia]. by destruct (Z.leb_spec (len (nonce_at (S (ticks st)))) 128); [|lia]. }
  destruct (canonical_json_ok (JObj (unsigned_document u))) as (b & Hb & _); [by apply unsigned_json_ok|]. rewrite Hb.
  cbn [rbind]. eexists. split; [reflexivity|]. split; [exact Hu|].
  change (is_ok (message_bytes (sorted_message u)) = true). rewrite message_bytes_sorted by done. unfold message_bytes. by rewrite Hb.
Qed.

Lemma sends_runs (m : Message) ps st :
  runs (for_each (fun p => send p m) ps) st (fun _ st' =>
    held st' = held st /\ tasks st' = tasks st /\ ticks st' = ticks st /\ outbox st' = outbox st ++ ((fun p => (p, m)) <$> ps)).
Proof.
  revert st. induction ps as [|p ps IH]; intros st; cbn [for_each].
  - exists (), st. split_and!; try done. by rewrite app_nil_r.
  - eapply runs_step; [reflexivity|]. eapply runs_weaken; [apply IH|]. intros [] st' (Hh & Ht & Hk & Ho).
    split_and!; [exact Hh|exact Ht|exact Hk|]. rewrite Ho. cbn. by rewrite <- app_assoc.
Qed.

(** The payload of the gossip of one record. *)
Definition update_doc (tid : pystr) (r : TaskRecord) : list (pystr * json) := [(str "tasks", JObj [(tid, JObj (to_dict r))])].

Lemma update_doc_ok tid r : scalar_str tid = true -> record_text_ok r = true -> json_ok (JObj (update_doc tid r)) = true.
Proof.
  intros Ht Hr%to_dict_json_ok. unfold update_doc.
  assert (json_ok (JObj [(tid, JObj (to_dict r))]) = true) as Hi.
  { change (bool_decide (NoDup [tid]) && (scalar_str tid && json_ok (JObj (to_dict r)) && true) = true).
    rewrite Ht, Hr, bool_decide_eq_true_2; [done|]. apply NoDup_singleton. }
  change (bool_decide (NoDup [str "tasks"]) && (scalar_str (str "tasks") && json_ok (JObj [(tid, JObj (to_dict r))]) && true) = true).
  rewrite Hi, bool_decide_eq_true_2; [done|]. apply NoDup_singleton.
Qed.

(** A message that carries an update of the task, signed by the node. *)
Definition carries (tid : pystr) (r : TaskRecord) (m : Message) : Prop :=
  exists ts n, signed (identity cfg) ts n (update_of cfg tid r) = Ok m /\ message_ok (stamped ts n (update_of cfg tid r)) = true.

(** Every peer is sent one and the same update of the task: a record sealed by the node. *)
Definition announced (tid : pystr) (r : TaskRecord) (sent : list (pystr * Message)) : Prop :=
  sealed r /\ exists m, carries tid r m /\ sent = (fun p => (p, m)) <$> peers cfg.

Lemma broadcast_runs tid r st :
  env_ok -> scalar_str tid = true -> record_text_ok r = true -> sealable r -> wal st = None ->
  runs (broadcast_task_update cfg tid r) st (fun _ st' =>
    exists r' sent, same_content r' r /\ tasks st' = dict_set tid r' (tasks st) /\ announced tid r' sent /\
      outbox st' = outbox st ++ sent /\ held st' = held st /\ ticks st' = S (S (ticks st))).
Proof.
  intros He Ht Hr Hs Hw. destruct (seal_runs r st He Hr) as (r' & st0 & Eseal & -> & Hc & Hr' & Hs').
  eapply runs_step; [exact Eseal|]. eapply runs_step; [reflexivity|]. set (st1 := set_tasks (dict_set tid r' (tasks st)) st).
  apply (runs_step _ _ _ () st1). { unfold wal_append, nbind, gets. change (wal st1) with (wal st). by rewrite Hw. }
  eapply runs_bind; [by apply signed_message_runs, update_doc_ok|]. intros m st2 (Hm & -> & _).
  eapply runs_weaken; [apply sends_runs|]. intros [] st' (Hh & Hts & Hk & Ho).
  exists r', ((fun p => (p, m)) <$> peers cfg). split_and!; try done. split; [by apply Hs'|by exists m].
Qed.

Lemma same_content_fields a b :
  same_content a b ->
  task_id a = task_id b /\ state a = state b /\ payload a = payload b /\ task_result a = task_result b /\
  task_error a = task_error b /\ claimed_by a = claimed_by b /\ fence_token a = fence_token b /\
  lease_expiry a = lease_expiry b /\ vector_clock a = vector_clock b /\ updated_by a = updated_by b.
Proof. unfold same_content, with_signature. intros E. injection E. intros. by split_and!. Qed.

(** An item whose records can be written. *)
Definition item_ok (w : WorkItem) : Prop :=
  scalar_str (w_task_id w) = true /\ ft_peer_id (w_token w) = node_id cfg /\ Z.abs (epoch (w_token w)) < 2 ^ 63 /\
  float_ok (w_lease_exp w) = true.

Lemma work_record_text w s res err lease vc n :
  env_ok -> item_ok w -> opt_ok scalar_str err = true -> float_ok lease = true ->
  n <= 2 ^ 63 -> vc_wf vc -> clock_below n vc -> record_text_ok (work_record cfg w s res err lease vc) = true.
Proof.
  intros He (Ht & Hp & Hep & _) Herr Hl Hn Hwf Hc. unfold record_text_ok, work_record.
  cbn [task_id task_error claimed_by updated_by signer_id fence_token lease_expiry vector_clock opt_ok].
  rewrite Ht, Herr, Hp, (env_name He), (int_json_ok _ Hep), Hl, (clock_below_text n vc) by done. reflexivity.
Qed.

(** The state in which the worker steps: no log, and a clock that can be written. *)
Record work_state (n : Z) (st : NodeState) : Prop := {
  ws_wal : wal st = None;
  ws_clock : clock_below n (node_clock st);
  ws_wf : vc_wf (node_clock st);
}.

Lemma work_state_held n st st' : held st' = held st -> work_state n st -> work_state n st'.
Proof. unfold held. intros [= Hc Hw _ _ _] [Ha Hb Hd]. split; by rewrite ?Hc, ?Hw. Qed.

Lemma work_state_bump n st : 1 <= n -> env_ok -> work_state n st ->
  work_state (n + 1) (set_clock (increment (node_clock st) (node_id cfg)) st).
Proof.
  intros Hn He [Ha Hb Hd]. split; [done| |].
  - cbn. apply clock_below_increment; [done|apply He|done].
  - cbn. by apply increment_wf.
Qed.

(** From the call of the handler. *)
Lemma worker_run_runs w st n :
  env_ok -> item_ok w -> n <= 2 ^ 63 -> work_state n st ->
  runs (worker_run cfg w) st (fun _ st' =>
    worker st' = WRunning w /\ work_state n st' /\ load st' = load st /\ node_clock st' = node_clock st /\ ticks st' = ticks st /\ outbox st' = outbox st /\
    (exists r, get_task (w_task_id w) st' = Some r /\ fence_token r = w_token w) /\
    (forall k, k <> w_task_id w -> get_task k st' = get_task k st)).
Proof.
  intros He Hi Hn Hw. eapply runs_step; [reflexivity|]. eapply runs_bind.
  { apply seal_runs; [done|]. eapply work_record_text; [done|done|done|apply Hi|done|apply Hw|apply Hw]. }
  intros r st1 (-> & Hc & _ & _). eapply runs_step; [reflexivity|]. eexists _, _. split; [reflexivity|].
  split_and!; try done; [split; apply Hw| |].
  - exists r. unfold get_task. cbn. split; [apply dict_get_set_eq|]. apply same_content_fields in Hc. by destruct Hc as (_ & _ & _ & _ & _ & _ & -> & _).
  - intros k Hk. unfold get_task. cbn. by apply dict_get_set_ne.
Qed.

(** The item that the worker makes of a task it claims at the reading [now]. *)
Definition item_of (tid : pystr) (r : TaskRecord) (now : float) : WorkItem := {|
  w_task_id := tid; w_record := r; w_token := next_for (fence_token r) (node_id cfg);
  w_lease_exp := fadd now (task_lease_duration cfg (payload r)) |}.

Lemma get_section_head st pr tid :
  node_wf cfg st -> head (qview (queue st)) = Some (pr, tid) ->
  exists q', get_section (queue st) = Some ((pr, tid), q') /\ qview (queue st) = (pr, tid) :: qview q'.
Proof.
  intros Hwf Hh. pose proof (pop_entry_spec _ (wf_queue _ _ Hwf)) as Hp. unfold get_section, empty.
  destruct (pop_entry (queue st)) as [[x q']|] eqn:Ep.
  - destruct Hp as (_ & Hv & _). rewrite Hv in Hh. cbn in Hh. injection Hh as ->. exists q'. split; [|done].
    destruct (Z.eqb_spec (len (q_heap (queue st))) 0) as [Hz|]; [|done].
    unfold pop_entry in Ep. destruct (q_heap (queue st)); [by cbn in Ep|]. unfold len in Hz. cbn in Hz. lia.
  - destruct Hp as [Hv _]. by rewrite Hv in Hh.
Qed.

(** From the head of the loop: a pending task at the head of the queue is claimed and announced. *)
Lemma worker_take_runs st pr tid r n :
  let w := item_of tid r (now_at (S (ticks st))) in
  env_ok -> node_wf cfg st -> head (qview (queue st)) = Some (pr, tid) -> get_task tid st = Some r -> state r = PENDING ->
  1 <= n < 2 ^ 63 -> work_state n st -> item_ok w ->
  runs (worker_take cfg) st (fun _ st' =>
    worker st' = WClaimed w /\ work_state (n + 1) st' /\ node_clock st' = increment (node_clock st) (node_id cfg) /\
    qview (queue st) = (pr, tid) :: qview (queue st') /\ done_count st' = done_count st /\ ticks st' = (4 + ticks st)%nat /\ (forall k, k <> tid -> get_task k st' = get_task k st) /\
    exists c sent, get_task tid st' = Some c /\ is_claim cfg w (node_clock st') c /\ announced tid c sent /\
      outbox st' = outbox st ++ sent).
Proof.
  intros w He Hwf Hh Hg Hst Hn Hws Hi. destruct (get_section_head st pr tid Hwf Hh) as (q' & Hq & Hqv).
  unfold worker_take. eapply runs_step; [reflexivity|]. rewrite Hq. do 3 (eapply runs_step; [reflexivity|]). cbv beta.
  cbn [set_queued set_queue upd tasks]. change (dict_get tid (tasks st)) with (get_task tid st). rewrite Hg, Hst. cbn [is_terminal].
  eapply runs_step; [reflexivity|]. eapply runs_step.
  { unfold is_active_claim, held_elsewhere. rewrite Hst. reflexivity. }
  cbv iota. eapply runs_step; [reflexivity|]. eapply runs_step; [reflexivity|]. cbv zeta. eapply runs_step; [reflexivity|].
  match goal with |- runs _ ?s _ => set (st1 := s) end. change (now_at _) with (now_at (S (ticks st))). fold w.
  assert (work_state (n + 1) st1) as Hw1 by (destruct (work_state_bump n st ltac:(lia) He Hws) as [Ha Hb Hd]; by split).
  eapply runs_bind.
  { apply seal_runs; [done|]. eapply work_record_text; [done|done|done|apply Hi| |apply Hw1|apply Hw1]. lia. }
  intros c st2 (-> & Hc & Hct & Hcs). eapply runs_step; [reflexivity|]. eapply runs_step; [reflexivity|]. eapply runs_bind.
  { apply broadcast_runs; [done|apply Hi|done|by apply sealed_sealable, Hcs|apply Hw1]. }
  intros [] st2 (c' & sent & Hc' & Hts & Ha & Ho & Hh' & Hk). eexists _, _. split; [reflexivity|].
  injection Hh' as Hcl Hwl _ Hqu Hme.
  split_and!; [done|split; cbn; rewrite ?Hcl, ?Hwl; apply Hw1|by cbn; rewrite Hcl|by cbn; rewrite Hqu| |by cbn; rewrite Hk| |].
  { transitivity (get_counter (str "completed") (metrics st2)); [done|]. rewrite Hme. transitivity (done_count st1 + 0); [exact (done_count_incr "claimed" st1)|apply Z.add_0_r]. }
  - intros k Hne. unfold get_task. cbn. rewrite Hts, dict_get_set_ne by done. cbn. by apply dict_get_set_ne.
  - exists c', sent. split_and!; [unfold get_task; cbn; rewrite Hts; apply dict_get_set_eq| |done|by cbn; rewrite Ho].
    unfold is_claim. cbn [set_worker upd2 node_clock]. rewrite Hcl. exact (same_content_trans _ _ _ Hc' Hc).
Qed.

(** The outcome of a handler whose error can be written. *)
Definition outcome_text_ok (o : HandlerOutcome) : bool := match o with HReturn _ => true | HRaise s => scalar_str s end.

(** From the return of the handler: a worker that may commit commits and announces. *)
Lemma worker_finish_runs w o st n :
  env_ok -> item_ok w -> outcome_text_ok o = true -> 1 <= n < 2 ^ 63 -> work_state n st -> may_commit w st = true ->
  runs (worker_finish cfg w o) st (fun _ st' =>
    worker st' = WCommitted w (match o with HReturn _ => DONE | HRaise _ => FAILED end) /\ work_state (n + 1) st' /\
    node_clock st' = increment (node_clock st) (node_id cfg) /\ load st' = load st /\
    (forall k, k <> w_task_id w -> get_task k st' = get_task k st) /\
    exists r sent, get_task (w_task_id w) st' = Some r /\
      same_content r (committed cfg w o (increment (node_clock st) (node_id cfg))) /\ announced (w_task_id w) r sent /\
      outbox st' = outbox st ++ sent).
Proof.
  intros He Hi Ho Hn Hws Hm. unfold worker_finish. unfold may_commit, get_task in Hm.
  destruct (match o with HReturn b => _ | HRaise s => _ end) as [[res err] ns] eqn:Eo.
  assert (opt_ok scalar_str err = true) as Herr by (destruct o; injection Eo as <- <- <-; done).
  eapply runs_step; [reflexivity|]. eapply runs_step; [reflexivity|]. cbn [tick upd2 tasks].
  apply andb_true_iff in Hm as [Hl%negb_true_iff Hf]. rewrite Hl.
  replace (match dict_get (w_task_id w) (tasks st) with Some c => py_gt (fence_token c) (w_token w) | None => false end) with false
    by (destruct (dict_get (w_task_id w) (tasks st)); [by apply negb_true_iff in Hf|done]).
  eapply runs_step; [reflexivity|]. cbv beta. eapply runs_step; [reflexivity|].
  match goal with |- runs _ ?s _ => set (st1 := s) end. assert (work_state (n + 1) st1) as Hw1.
  { destruct (work_state_bump n st ltac:(lia) He Hws) as [Ha Hb Hd]. by split. }
  eapply runs_bind.
  { apply seal_runs; [done|]. eapply work_record_text; [done|done|done|by vm_compute| |apply Hw1|apply Hw1]. lia. }
  intros r st2 (-> & Hc & Hr & Hrs). eapply runs_step; [reflexivity|]. eapply runs_bind.
  { apply broadcast_runs; [done|apply Hi|done|by apply sealed_sealable, Hrs|apply Hw1]. }
  intros [] st2 (r' & sent & Hc' & Hts & Ha & Hout & Hh' & Hk). eexists _, _. split; [reflexivity|].
  injection Hh' as Hcl Hwl _ Hqu Hme.
  split_and!; [by destruct o; injection Eo as <- <- <-|split; cbn; rewrite ?Hcl, ?Hwl; apply Hw1|by cbn; rewrite Hcl|unfold load, done_count; cbn; by rewrite Hqu, Hme| |].
  - intros k Hne. unfold get_task. cbn. rewrite Hts, dict_get_set_ne by done. cbn. by apply dict_get_set_ne.
  - exists r', sent. split_and!; [unfold get_task; cbn; rewrite Hts; apply dict_get_set_eq| |done|by cbn; rewrite Hout].
    eapply same_content_trans; [exact Hc'|]. by destruct o; injection Eo as <- <- <-.
Qed.

(** From the end of the commit to the head of the loop. *)
Lemma worker_settle_runs w ns st n :
  env_ok -> work_state n st ->
  runs (worker_settle cfg w ns) st (fun _ st' =>
    worker st' = WIdle /\ node_clock st' = node_clock st /\ tasks st' = tasks st /\ work_state n st' /\
    queue st' = queue st /\ done_count st' = done_count st + (if decide (ns = DONE) then 1 else 0) /\
    exists credit, outbox st' = outbox st ++ credit /\ (updated_by (w_record w) ∉ peers cfg -> credit = [])).
Proof.
  intros He Hws. unfold worker_settle. eapply runs_step; [reflexivity|].
  set (st1 := set_metrics _ st).
  assert (done_count st1 = done_count st + (if decide (ns = DONE) then 1 else 0)) as Hd
    by (unfold st1; rewrite done_count_incr; by destruct ns).
  destruct (negb _ && _) eqn:Ec; cbn [when].
  - apply andb_true_iff in Ec as [_ Hp%bool_decide_eq_true].
    eapply (runs_bind _ _ _ (fun _ s => node_clock s = node_clock st /\ tasks s = tasks st /\ wal s = wal st /\
      queue s = queue st /\ done_count s = done_count st1 /\ exists m, outbox s = outbox st ++ [m])).
    { eapply runs_bind; [by apply signed_message_runs; vm_compute|]. intros m st2 (_ & -> & _). eexists _, _. split; [reflexivity|].
      split_and!; try done. by eexists. }
    intros [] st2 (Hc & Ht & Hw & Hq & Hdc & m & Hm). eexists _, _. split; [reflexivity|].
    split_and!; [done|done|done|split; cbn; rewrite ?Hc, ?Hw; apply Hws|done|by rewrite <- Hd, <- Hdc|]. exists [m]. by split.
  - eapply runs_step; [reflexivity|]. eexists _, _. split; [reflexivity|]. cbn.
    split_and!; [done|done|done|split; apply Hws|done|exact Hd|]. exists []. by rewrite app_nil_r.
Qed.

Lemma submit_runs tid p priority st n :
  env_ok -> node_wf cfg st -> tid <> [] -> len tid <= MAX_TASK_ID_LENGTH -> scalar_str tid = true -> len p <= MAX_TASK_PAYLOAD ->
  (dict_mem tid (tasks st) = true \/ len (tasks st) < max_tasks cfg) -> full (queue st) = false ->
  1 <= n < 2 ^ 63 -> work_state n st ->
  runs (submit_task cfg tid p priority) st (fun _ st' =>
    work_state (n + 1) st' /\ ticks st' = ticks st /\ outbox st' = outbox st /\ done_count st' = done_count st /\
    (maxsize (queue st') = maxsize (queue st) /\ worker st' = worker st) /\
    exists r, get_task tid st' = Some r /\ record_text_ok r = true /\
      (seal_record cfg (submitted cfg tid p (increment (node_clock st) (node_id cfg))) st).1 = Ok r).
Proof.
  intros He Hwf Hne Hl Hs Hp Hroom Hfull Hn Hws.
  unfold runs. rewrite submit_accepted.
  2: { rewrite bool_decide_eq_false_2 by done. cbn [orb]. by apply Z.ltb_ge. }
  2: { by apply Z.ltb_ge. }
  2: { destruct Hroom as [-> | Hlt]; [done|]. rewrite (proj2 (Z.leb_gt _ _) Hlt). by rewrite andb_false_r. }
  pose proof (work_state_bump n st ltac:(lia) He Hws) as Hw1. set (st1 := set_clock _ st) in *.
  match goal with |- exists a st', ?m ?s = (Ok a, st') /\ @?Q st' => change (runs m s (fun _ => Q)) end.
  assert (record_text_ok (submitted cfg tid p (increment (node_clock st) (node_id cfg))) = true) as Htx.
  { unfold record_text_ok, submitted.
    cbn [task_id task_error claimed_by updated_by signer_id fence_token lease_expiry vector_clock opt_ok ft_peer_id epoch].
    rewrite Hs, (env_name He), (clock_below_text (n + 1)); [by vm_compute|lia|apply Hw1|apply Hw1]. }
  destruct (seal_runs _ st1 He Htx) as (r & st2 & Es & -> & Hc & Hr & _). eapply runs_step; [exact Es|]. do 2 (eapply runs_step; [reflexivity|]).
  eapply runs_step. { unfold wal_append, nbind, gets. cbn. change (wal st1) with (wal st). rewrite (ws_wal _ _ Hws). reflexivity. }
  eapply runs_step; [reflexivity|]. unfold put_section. cbn. rewrite (wf_policy _ _ Hwf), Hfull. cbn [raise_if rbind].
  eexists _, _. split; [reflexivity|]. split_and!; try done; [split; apply Hw1|transitivity (done_count st + 0); [exact (done_count_incr "enqueued" st)|apply Z.add_0_r]|].
  exists r. unfold get_task. cbn. rewrite dict_get_set_eq. split_and!; [done|done|].
  unfold seal_record in Es |- *. by destruct (negb _); cbn in Es |- *; injection Es as ->.
Qed.

(** ** An iteration of the loop

    [handler] is what the handler does with each task and payload. *)
Definition iteration (handler : pystr -> list byte -> HandlerOutcome) : M () :=
  worker_take cfg ;;*
  let* phase := gets worker in
  match phase with
  | WClaimed w =>
      let o := handler (w_task_id w) (payload (w_record w)) in
      worker_run cfg w ;;*
      worker_finish cfg w o ;;*
      worker_settle cfg w (match o with HReturn _ => DONE | HRaise _ => FAILED end)
  | _ => nret ()
  end.

(** What an iteration does with the task [tid], which it finds pending as [r0]: [c] is the claim and [r]
    the outcome. *)
Record executed (n : Z) (pr : Z) (tid : pystr) (r0 : TaskRecord) (o : HandlerOutcome) (st st' : NodeState)
    (c r : TaskRecord) (sent1 sent2 credit : list (pystr * Message)) : Prop := {
  ex_idle : worker st' = WIdle;
  ex_state : work_state (n + 2) st';
  ex_wf : node_wf cfg st';
  ex_queue : qview (queue st) = (pr, tid) :: qview (queue st');
  ex_count : done_count st' = done_count st + (match o with HReturn _ => 1 | HRaise _ => 0 end);
  ex_others : forall k, k <> tid -> get_task k st' = get_task k st;
  ex_clock : node_clock st' = increment (increment (node_clock st) (node_id cfg)) (node_id cfg);
  ex_claim : is_claim cfg (item_of tid r0 (now_at (S (ticks st)))) (increment (node_clock st) (node_id cfg)) c;
  ex_record : get_task tid st' = Some r;
  ex_outcome : same_content r (committed cfg (item_of tid r0 (now_at (S (ticks st)))) o (node_clock st'));
  ex_outbox : outbox st' = outbox st ++ sent1 ++ sent2 ++ credit;
  ex_sent_claim : announced tid c sent1;
  ex_sent_outcome : announced tid r sent2;
}.

Lemma iteration_runs handler st pr tid r0 n :
  let w := item_of tid r0 (now_at (S (ticks st))) in
  let o := handler tid (payload r0) in
  env_ok -> node_wf cfg st -> head (qview (queue st)) = Some (pr, tid) -> get_task tid st = Some r0 -> state r0 = PENDING ->
  1 <= n -> n + 2 < 2 ^ 63 -> work_state n st -> item_ok w -> outcome_text_ok o = true ->
  py_gt (now_at (4 + ticks st)%nat) (w_lease_exp w) = false ->
  runs (iteration handler) st (fun _ st' => exists c r sent1 sent2 credit, executed n pr tid r0 o st st' c r sent1 sent2 credit).
Proof.
  intros w o He Hwf Hh Hr0 Hp0 Hn1 Hn Hws Hi Ho Htime.
  destruct (worker_take_runs st pr tid r0 n He Hwf Hh Hr0 Hp0 ltac:(lia) Hws Hi)
    as ([] & s2 & E2 & Hwk2 & Hw2 & Hc2 & Hq2 & Hd2 & Hk2 & Hother2 & c & sent1 & Hg2 & Hcl & Ha1 & Ho2).
  destruct (worker_run_runs w s2 (n + 1) He Hi ltac:(lia) Hw2) as ([] & s3 & E3 & _ & Hw3 & [= Hq3 Hd3] & Hc3 & Hk3 & Ho3 & (r3 & Hr3 & Hf3) & Hother3).
  assert (may_commit w s3 = true) as Hm.
  { unfold may_commit. cbn [w w_task_id item_of] in Hr3 |- *. rewrite Hr3, Hf3, Hk3, Hk2, Htime. cbn [negb andb]. unfold py_gt. by rewrite pycmp_refl. }
  destruct (worker_finish_runs w o s3 (n + 1) He Hi Ho ltac:(lia) Hw3 Hm)
    as ([] & s4 & E4 & _ & Hw4 & Hclk & [= Hq4 Hd4] & Hother4 & r & sent2 & Hr & Hc & Ha2 & Ho4).
  destruct (worker_settle_runs w (match o with HReturn _ => DONE | HRaise _ => FAILED end) s4 _ He Hw4)
    as ([] & s5 & E5 & Hidle & Hc5 & Ht5 & Hw5 & Hq5 & Hd5 & credit & Ho5 & _).
  exists (), s5. split.
  { unfold iteration, nbind at 1. rewrite E2. unfold nbind at 1, gets. rewrite Hwk2. fold w. cbn [w w_task_id w_record item_of].
    fold w o. unfold nbind at 1. rewrite E3. unfold nbind. by rewrite E4. }
  assert (forall k, get_task k s5 = get_task k s4) as H5 by (intros k; unfold get_task; by rewrite Ht5).
  exists c, r, sent1, sent2, credit. split.
  - done.
  - by replace (n + 2) with (n + 1 + 1) by lia.
  - pose proof (ev_worker_take cfg st Hwf) as [Hwf2 _]. rewrite E2 in Hwf2. cbn in Hwf2.
    pose proof (ev_worker_run cfg w s2 (dict_get_key _ _ _ Hg2) Hwf2) as [Hwf3 _]. rewrite E3 in Hwf3. cbn in Hwf3.
    pose proof (ev_worker_finish cfg w o s3 (dict_get_key _ _ _ Hr3) Hwf3) as [Hwf4 _]. rewrite E4 in Hwf4. cbn in Hwf4.
    pose proof (ev_worker_settle cfg w (match o with HReturn _ => DONE | HRaise _ => FAILED end) s4 Hwf4) as [Hwf5 _]. by rewrite E5 in Hwf5.
  - rewrite Hq2. congruence.
  - rewrite Hd5, Hd4, Hd3, Hd2. by destruct o.
  - intros k Hk. by rewrite H5, (Hother4 k Hk), (Hother3 k Hk), (Hother2 k Hk).
  - congruence.
  - unfold is_claim in Hcl |- *. by rewrite Hc2 in Hcl.
  - by rewrite H5.
  - by rewrite Hc5, Hclk.
  - by rewrite Ho5, Ho4, Ho3, Ho2, <- !app_assoc.
  - done.
  - done.
Qed.

(** A task from its submission to the end of the worker's iteration, [o] being what its handler does. *)
Definition execute (tid : pystr) (p : list byte) (priority : Z) (o : HandlerOutcome) : M () :=
  submit_task cfg tid p priority ;;*
  iteration (fun _ _ => o).

(** What is expected of the task and of the node that is given it. *)
Record accepts_task (n : Z) (st : NodeState) (tid : pystr) (p : list byte) (priority : Z) : Prop := {
  at_wf : node_wf cfg st;
  at_id : tid <> [] /\ len tid <= MAX_TASK_ID_LENGTH /\ scalar_str tid = true;
  at_payload : len p <= MAX_TASK_PAYLOAD;
  at_room : dict_mem tid (tasks st) = true \/ len (tasks st) < max_tasks cfg;
  at_queue : full (queue st) = false;
  at_first : Forall (fun x => x.1 < priority) (qview (queue st));
  at_state : 1 <= n < 2 ^ 62 /\ work_state n st;
  at_lease : float_ok (fadd (now_at (S (ticks st))) (task_lease_duration cfg p)) = true;
  at_time : py_gt (now_at (4 + ticks st)%nat) (fadd (now_at (S (ticks st))) (task_lease_duration cfg p)) = false;
}.

Lemma spec_put_first tid priority (l : list (Z * pystr)) :
  Forall (fun x => x.1 < priority) l -> head (spec_put tid priority l) = Some (priority, tid).
Proof. destruct 1 as [|[k y] l Hk _]; cbn in *; [done|]. by destruct (Z.leb_spec priority k); [lia|]. Qed.

Lemma submit_iteration_runs handler st tid p priority n :
  let o := handler tid p in
  env_ok -> accepts_task n st tid p priority -> outcome_text_ok o = true ->
  runs (submit_task cfg tid p priority ;;* iteration handler) st (fun _ st' => exists st1 r0 c r sent1 sent2 credit,
    (forall k, k <> tid -> get_task k st1 = get_task k st) /\ outbox st1 = outbox st /\ done_count st1 = done_count st /\
    qview (queue st') = qview (queue st) /\ node_clock st1 = increment (node_clock st) (node_id cfg) /\
    work_state (n + 1) st1 /\ item_ok (item_of tid r0 (now_at (S (ticks st1)))) /\ same_content r0 (submitted cfg tid p (node_clock st1)) /\ executed (n + 1) priority tid r0 o st1 st' c r sent1 sent2 credit).
Proof.
  intros o He Hat Ho. pose proof Hat as [Hwf (Hid & Hlen & Hsc) Hp Hroom Hfull Hfirst [Hn Hws] Hlease Htime].
  destruct (submit_runs tid p priority st n He Hwf Hid Hlen Hsc Hp Hroom Hfull ltac:(lia) Hws) as ([] & s1 & E1 & Hw1 & Hk1 & Ho1 & Hd1 & _).
  destruct (submit_task_effect cfg tid p priority st s1 Hwf E1) as (_ & (r1 & Hr1 & Hc1) & Hother1 & Hcl1 & _ & _ & Hq1).
  pose proof (ev_submit cfg tid p priority st Hwf) as [Hwf1 _]. rewrite E1 in Hwf1. cbn in Hwf1.
  pose proof Hc1 as (_ & Hst1 & Hp1 & _ & _ & _ & Hf1 & _)%same_content_fields. cbn in Hp1, Hf1, Hst1.
  assert (w_lease_exp (item_of tid r1 (now_at (S (ticks s1)))) = fadd (now_at (S (ticks st))) (task_lease_duration cfg p)) as Hlx
    by (cbn; by rewrite Hk1, Hp1).
  assert (item_ok (item_of tid r1 (now_at (S (ticks s1))))) as Hi
    by (split_and!; [done|done|by cbn; rewrite Hf1|by rewrite Hlx]).
  destruct (iteration_runs handler s1 priority tid r1 (n + 1) He Hwf1) as ([] & s2 & E2 & c & r & sent1 & sent2 & credit & Hex);
    [by rewrite Hq1, spec_put_first|done|done|lia|lia|done|done|by rewrite Hp1|by rewrite Hlx, Hk1|]. rewrite Hp1 in Hex.
  exists (), s2. split; [unfold nbind at 1; by rewrite E1|].
  exists s1, r1, c, r, sent1, sent2, credit. split_and!; [done|done|done| |done|done|done|by rewrite Hcl1|done].
  pose proof (ex_queue _ _ _ _ _ _ _ _ _ _ _ _ Hex) as Hqe. rewrite Hq1 in Hqe.
  destruct Hfirst as [|x l Hx _]; cbn in Hqe; [by injection Hqe|]. destruct x as [k y]. cbn in Hx, Hqe.
  destruct (Z.leb_spec priority k); [lia|by injection Hqe].
Qed.

End worker.

(** ** Outcomes that do not spread *)

(** The worker commits whatever the handler returns or raises; a result or an error above the limits that
    every reader of a record applies stays in the table of this node. *)
Lemma oversized_outcome_unreadable r :
  (exists b, task_result r = Some b /\ MAX_TASK_RESULT < len b) \/ (exists s, task_error r = Some s /\ MAX_ERROR_LENGTH < len s) ->
  exists e, from_dict (JObj (to_dict r)) = Raise e.
Proof.
  intros Hbig. destruct (from_dict (JObj (to_dict r))) as [r'|e] eqn:E; [exfalso|by exists e]. unfold from_dict in E.
  change (jget (str "result") (to_dict r)) with (opt_json (fun b => JStr (hex b)) (task_result r)) in E.
  change (jget (str "error") (to_dict r)) with (opt_json JStr (task_error r)) in E.
  inv_result. destruct Hbig as [(b & Hb & Hl)|(s & Hs & Hl)].
  - rewrite Hb in *. cbn [opt_json] in *. rewrite hex_len in *.
    destruct (Z.ltb_spec (MAX_TASK_RESULT * 2) (2 * len b)); [done|lia].
  - rewrite Hs in *. cbn [opt_json] in *. by destruct (Z.ltb_spec MAX_ERROR_LENGTH (len s)); [|lia].
Qed.

(** ** Samples *)

(** A world whose clocks stand still. *)
Definition still_world : World := {|
  now_at := fun _ => decimal_float false 1 0; wall_at := fun _ => decimal_float false 1 0;
  nonce_at := fun _ => str "n"; choice_at := fun _ => O |}.


(** A handler whose exception has a lone surrogate in its text: the record is stored and sealed, the
    message that announces it cannot be encoded, and the worker's loop ends; no task is executed any more. *)
Example unencodable_error_ends_worker :
  let st := run_loop WorkerLoop (worker_finish (toy_cfg true true) (toy_item true) (HRaise [0xD800%N])) (toy_running true) in
  dict_get WorkerLoop (bg_tasks st) = Some (Crashed MessageDecodeError) /\
  match get_task (str "t") st with Some r => state r = FAILED | None => False end /\ outbox st = outbox (toy_running true).
Proof. vm_compute. split_and!; reflexivity. Qed.
