(* ===== verification/Drain.v ===== *)
(** * The worker drains its queue ([_worker_loop] of [peerq/node.py], turn after turn)

    From any state in which every queued task is either finished or pending under a lease that its
    handler respects, as many turns of the loop as the queue has entries empty it: every pending task
    is executed, a task that was queued twice is executed once, nothing else changes. *)

From Stdlib Require Import ZArith NArith Lia.
From S2P Require Import Prelude PyFloat Text Json JsonFacts Security Consensus Crypto Lattice Heapq Queue.
From S2P Require Import Wal Metrics Failure Message SimNetwork Tcp Sha256 FloatText PyText Node NodeFacts NodeTheorems.
From S2P Require Import NodeScenarios Mesh Worker.
Open Scope Z_scope.
Open Scope node_scope.

Section drain.
Context `{Ed25519} `{MathLib} `{UnicodeDB} `{World} (cfg : NodeConfig) (handler : pystr -> list byte -> HandlerOutcome).

(** [n] iterations of the loop. *)
Fixpoint turns (n : nat) : M () :=
  match n with
  | O => nret ()
  | S n' => iteration cfg handler ;;* turns n'
  end.

(** A pending task whose handler ends within the lease, whenever it is started. *)
Record startable (k : pystr) (r : TaskRecord) : Prop := {
  su_name : scalar_str k = true;
  su_epoch : Z.abs (epoch (fence_token r) + 1) < 2 ^ 63;
  su_outcome : outcome_text_ok (handler k (payload r)) = true;
  su_lease : forall i, float_ok (fadd (now_at i) (task_lease_duration cfg (payload r))) = true;
  su_time : forall i, py_gt (now_at (3 + i)%nat) (fadd (now_at i) (task_lease_duration cfg (payload r))) = false;
}.

Definition can_run (st : NodeState) (k : pystr) : Prop :=
  exists r, get_task k st = Some r /\ (is_terminal (state r) = true \/ state r = PENDING /\ startable k r).

(** What becomes of the record of a queued task. *)
Definition settles (k : pystr) (r r' : TaskRecord) : Prop :=
  if is_terminal (state r) then r' = r
  else
    task_id r' = k /\ payload r' = payload r /\ claimed_by r' = Some (node_id cfg) /\
    fence_token r' = next_for (fence_token r) (node_id cfg) /\
    match handler k (payload r) with
    | HReturn b => state r' = DONE /\ task_result r' = Some b /\ task_error r' = None
    | HRaise s => state r' = FAILED /\ task_result r' = None /\ task_error r' = Some s
    end.

(** The tasks that are pending and whose handler returns. *)
Definition completes (st : NodeState) (k : pystr) : Prop :=
  exists r b, get_task k st = Some r /\ state r = PENDING /\ handler k (payload r) = HReturn b.

#[local] Instance completes_dec st k : Decision (completes st k).
Proof.
  destruct (get_task k st) as [r|] eqn:E; [|right; intros (r & b & Hr & _); congruence].
  destruct (decide (state r = PENDING)); [|right; intros (r' & b & Hr & Hp & _); congruence].
  destruct (handler k (payload r)) as [b|s] eqn:Eh; [left; by exists r, b|right; intros (r' & b & Hr & Hp & Hh); congruence].
Defined.

(** One turn, on the task at the head of the queue. *)
Lemma turn_runs st pr k l n :
  env_ok cfg -> node_wf cfg st -> worker st = WIdle -> qview (queue st) = (pr, k) :: l -> can_run st k ->
  1 <= n -> n + 2 < 2 ^ 63 -> work_state n st ->
  runs (iteration cfg handler) st (fun _ st' =>
    worker st' = WIdle /\ node_wf cfg st' /\ work_state (n + 2) st' /\ qview (queue st') = l /\
    (forall j, j <> k -> get_task j st' = get_task j st) /\
    (exists r r', get_task k st = Some r /\ get_task k st' = Some r' /\ settles k r r' /\ is_terminal (state r') = true) /\
    done_count st' = done_count st + (if decide (completes st k) then 1 else 0)).
Proof.
  intros He Hwf Hidle Hq (r & Hr & Hcan) Hn Hn2 Hws. destruct Hcan as [Hterm|[Hp Hs]].
  - destruct (get_section_head cfg st pr k Hwf) as (q' & Hg & Hv); [by rewrite Hq|].
    set (st1 := set_queued (queued_task_ids st ∖ {[k]}) (set_queue q' st)).
    assert (worker_take cfg st = (Ok (), st1)) as E.
    { unfold worker_take, nbind at 1, gets at 1. rewrite Hg. unfold nbind at 1, modify at 1, nbind at 1, modify at 1, nbind at 1, gets at 1.
      cbn [set_queued set_queue upd tasks]. change (dict_get k (tasks st)) with (get_task k st). by rewrite Hr, Hterm. }
    exists (), st1. split; [unfold iteration, nbind at 1; rewrite E; unfold nbind, gets; by change (worker st1) with (worker st); rewrite Hidle|].
    pose proof (ev_worker_take cfg st Hwf) as [Hwf1 _]. rewrite E in Hwf1. split_and!; try done.
    + destruct Hws as [? Hc ?]. split; [done| |done]. intros j v Hj. destruct (Hc j v Hj). split; [done|lia].
    + rewrite Hq in Hv. by injection Hv as ->.
    + exists r, r. split_and!; try done. unfold settles. by rewrite Hterm.
    + rewrite decide_False; [change (done_count st1) with (done_count st); lia|].
      intros (r' & b & Hr' & Hp & _). assert (r' = r) as -> by congruence. by rewrite Hp in Hterm.
  - destruct Hs as [Hname Hep Hout Hlease Htime].
    eapply runs_weaken; [apply (iteration_runs cfg handler st pr k r n); try done|].
    + by rewrite Hq.
    + split_and!; try done. apply Hlease.
    + apply Htime.
    + intros [] st' (c & r' & sent1 & sent2 & credit & Hex).
      destruct Hex as [Hidle' Hws' Hwf' Hqv Hcount Hothers _ _ Hrec Hoc _ _ _]. split_and!; try done.
      * rewrite Hq in Hqv. by injection Hqv.
      * exists r, r'. apply same_content_fields in Hoc. unfold settles. rewrite Hp. cbn [is_terminal].
        destruct (handler k (payload r)) eqn:Eh; cbn in Hoc; destruct Hoc as (-> & -> & -> & -> & -> & -> & -> & _); by split_and!.
      * rewrite Hcount. f_equal. destruct (handler k (payload r)) as [b|s] eqn:Eh.
        -- rewrite decide_True; [done|]. by exists r, b.
        -- rewrite decide_False; [done|]. intros (r2 & b & Hr2 & _ & Hh). congruence.
Qed.

Definition queued (l : list (Z * pystr)) : gset pystr := list_to_set l.*2.

(** The tasks left to complete, after the first one. *)
Lemma completes_rest (st st' : NodeState) (k : pystr) (l : gset pystr) :
  (forall j, j <> k -> get_task j st' = get_task j st) ->
  (exists r', get_task k st' = Some r' /\ is_terminal (state r') = true) ->
  Z.of_nat (size (filter (completes st) ({[k]} ∪ l))) =
  (if decide (completes st k) then 1 else 0) + Z.of_nat (size (filter (completes st') l)).
Proof.
  intros Hother (r' & Hr' & Hterm).
  assert (~ completes st' k) as Hk.
  { intros (r & b & Hr & Hp & _). assert (r = r') as -> by congruence. by rewrite Hp in Hterm. }
  assert (forall j, j <> k -> completes st' j <-> completes st j) as Hiff.
  { intros j Hj. unfold completes. by setoid_rewrite (Hother j Hj). }
  destruct (decide (completes st k)) as [Hc|Hc].
  - assert (filter (completes st) ({[k]} ∪ l) = {[k]} ∪ filter (completes st') l) as ->.
    { apply leibniz_equiv. intros j. rewrite elem_of_filter, !elem_of_union, elem_of_filter, elem_of_singleton.
      destruct (decide (j = k)) as [->|Hj]; [tauto|]. rewrite (Hiff j Hj). tauto. }
    rewrite size_union, size_singleton; [lia|]. set_solver.
  - assert (filter (completes st) ({[k]} ∪ l) = filter (completes st') l) as ->; [|lia].
    apply leibniz_equiv. intros j. rewrite !elem_of_filter, !elem_of_union, elem_of_singleton.
    destruct (decide (j = k)) as [->|Hj]; [tauto|]. rewrite (Hiff j Hj). tauto.
Qed.

Lemma settles_keeps k r r1 r2 : settles k r r1 -> is_terminal (state r1) = true -> settles k r1 r2 -> settles k r r2.
Proof. intros Hs Ht Hs2. unfold settles in Hs2. rewrite Ht in Hs2. by subst. Qed.

Lemma turns_run l st n :
  env_ok cfg -> node_wf cfg st -> worker st = WIdle -> qview (queue st) = l -> Forall (fun x => can_run st x.2) l ->
  1 <= n -> n + 2 * len l < 2 ^ 63 -> work_state n st ->
  runs (turns (length l)) st (fun _ st' =>
    worker st' = WIdle /\ qview (queue st') = [] /\ node_wf cfg st' /\ work_state (n + 2 * len l) st' /\
    (forall k, k ∉ queued l -> get_task k st' = get_task k st) /\
    (forall k, k ∈ queued l -> exists r r', get_task k st = Some r /\ get_task k st' = Some r' /\ settles k r r') /\
    done_count st' = done_count st + Z.of_nat (size (filter (completes st) (queued l)))).
Proof.
  intros He. revert st n. induction l as [|[pr k] l IH]; intros st n Hwf Hidle Hq Hcan Hn Hn2 Hws; cbn [turns length].
  { exists (), st. change (queued []) with (∅ : gset pystr). do 4 (split; [done|]).
    split; [by change (2 * len []) with 0; rewrite Z.add_0_r|]. split; [done|]. split; [intros k []%elem_of_empty|].
    rewrite filter_empty_L, size_empty by apply _. cbn. lia. }
  apply Forall_cons in Hcan as [Hk Hl]. unfold len in *. cbn [length] in Hn2.
  eapply runs_bind; [apply (turn_runs st pr k l n); try done; lia|].
  intros [] st1 (Hidle1 & Hwf1 & Hws1 & Hq1 & Hother1 & (r & r1 & Hr & Hr1 & Hs1 & Ht1) & Hd1).
  eapply runs_weaken; [apply (IH st1 (n + 2)); try done; [|lia|lia]|].
  { eapply Forall_impl; [exact Hl|]. intros [pr' j] (rj & Hrj & Hj). cbn [snd] in *.
    destruct (decide (j = k)) as [->|Hne]; [exists r1; auto|]. exists rj. by rewrite Hother1. }
  intros [] st' (Hidle' & Hq' & Hwf' & Hws' & Hother' & Hset' & Hd'). change (queued ((pr, k) :: l)) with ({[k]} ∪ queued l).
  split_and!; try done.
  - replace (n + 2 * Z.of_nat (length ((pr, k) :: l))) with (n + 2 + 2 * Z.of_nat (length l)) by (cbn [length]; lia). done.
  - intros j [Hj%not_elem_of_singleton Hl']%not_elem_of_union. by rewrite Hother', Hother1.
  - intros j Hj. destruct (decide (j ∈ queued l)) as [Hjl|Hjl].
    + destruct (Hset' j Hjl) as (s & s' & Es & Es' & Hss). destruct (decide (j = k)) as [->|Hne].
      * exists r, s'. split_and!; try done. assert (s = r1) as -> by congruence. by eapply settles_keeps.
      * exists s, s'. by rewrite <- Hother1.
    + assert (j = k) as -> by set_solver. exists r, r1. by rewrite Hother'.
  - rewrite Hd', Hd1, (completes_rest st st1 k (queued l)); [lia|done|by exists r1].
Qed.

End drain.

(** ** A sample: a queue that holds one task twice and another whose handler fails *)

Definition sample_handler (k : pystr) (p : list byte) : HandlerOutcome :=
  if bool_decide (k = str "t") then HReturn (p ++ p) else HRaise (str "no").

Definition sample_submit (k : string) (st : NodeState) : NodeState :=
  (submit_task (toy_cfg true true) (str k) (str_bytes "in") 0 st).2.

Definition sample_queue : NodeState := sample_submit "t" (sample_submit "u" (sample_submit "t" (toy_state true true))).

Lemma sample_queue_wf : node_wf (toy_cfg true true) sample_queue.
Proof. do 3 (apply ev_submit). exact (toy_wf true true). Qed.

Lemma sample_startable k r :
  (k = str "t" \/ k = str "u") -> payload r = str_bytes "in" -> fence_token r = ftoken 0 [] ->
  startable (H2 := still_world) (toy_cfg true true) sample_handler k r.
Proof. intros [-> | ->] Hp Hf; (split; rewrite ?Hp, ?Hf; [..|intros i|intros i]); by vm_compute. Qed.

