(* ===== verification/AntiEntropy.v ===== *)
(** * Anti-entropy: the gossip rounds of a mesh ([_gossip_loop] and [_recv_loop] of [peerq/node.py])

    What a gossip of a whole table does to the table of its receiver, and the convergence of a mesh of
    nodes that gossip, over any paths, in any order and with any repetitions. *)

From Stdlib Require Import ZArith NArith Lia.
From S2P Require Import Prelude PyFloat Text Json JsonFacts Security Consensus Crypto Lattice Heapq Queue.
From S2P Require Import Wal Metrics Failure Message SimNetwork Tcp Sha256 FloatText Node NodeFacts NodeTheorems Mesh.
Open Scope Z_scope.

(** ** Tables *)

Abbreviation table := (list (pystr * TaskRecord)).

(** What a replica holds once it has taken in [r]. *)
Definition absorb (o : option TaskRecord) (r : TaskRecord) : TaskRecord :=
  match o with None => r | Some x => merge_core x r end.

Definition absorb_table (o : option TaskRecord) (k : pystr) (t : table) : option TaskRecord :=
  match dict_get k t with None => o | Some r => Some (absorb o r) end.

(** The information order, with no record at the bottom. *)
Definition opt_le (a b : option TaskRecord) : Prop :=
  match a, b with
  | None, _ => True
  | Some x, Some y => rec_le x y
  | Some _, None => False
  end.

Definition opt_mergeable (k : pystr) (a : option TaskRecord) : Prop :=
  match a with None => True | Some x => mergeable k x end.

Lemma opt_le_refl k a : opt_mergeable k a -> opt_le a a.
Proof. destruct a; [apply rec_le_refl|done]. Qed.

Lemma opt_le_trans a b c : opt_le a b -> opt_le b c -> opt_le a c.
Proof. destruct a, b, c; try done. apply rec_le_trans. Qed.

(** Records above each other are equal for the dataclass. *)
Lemma rec_le_antisym k a b : mergeable k a -> mergeable k b -> rec_le a b -> rec_le b a -> a ≡ b.
Proof.
  intros Ha Hb [K1 V1] [K2 V2]. apply (rec_equiv_key k); [done..|]. apply vc_ext; [apply Ha|apply Hb|].
  intros p. specialize (V1 p). specialize (V2 p). lia.
Qed.

Lemma merge_core_above_r k a b : mergeable k a -> mergeable k b -> rec_le b (merge_core a b).
Proof.
  intros Ha Hb. split; [by eapply merge_ge_r|]. rewrite merge_core_clock. apply vc_merge_le_r; eauto with peerq.
Qed.

Lemma merge_core_least k a b c :
  mergeable k a -> mergeable k b -> mergeable k c -> rec_le a c -> rec_le b c -> rec_le (merge_core a b) c.
Proof.
  intros Ha Hb Hc [Ka Va] [Kb Vb]. split; [by apply merge_le|].
  rewrite merge_core_clock. intros p. rewrite vc_get_merge by eauto with peerq.
  specialize (Va p). specialize (Vb p). lia.
Qed.

Section absorption.
Context (k : pystr) (o : option TaskRecord) (t : table).
Hypothesis Ho : opt_mergeable k o.
Hypothesis Ht : opt_mergeable k (dict_get k t).

Lemma absorb_mergeable : opt_mergeable k (absorb_table o k t).
Proof.
  unfold absorb_table. destruct (dict_get k t) as [r|]; [|done]. destruct o as [x|]; [|done].
  by apply merge_core_mergeable.
Qed.

Lemma absorb_above_l : opt_le o (absorb_table o k t).
Proof.
  unfold absorb_table. destruct (dict_get k t) as [r|]; [|by eapply opt_le_refl].
  destruct o as [x|]; [|done]. by eapply merge_core_le.
Qed.

Lemma absorb_above_r : opt_le (dict_get k t) (absorb_table o k t).
Proof.
  unfold absorb_table. destruct (dict_get k t) as [r|]; [|done].
  destruct o as [x|]; [by eapply merge_core_above_r|by eapply rec_le_refl].
Qed.

Lemma absorb_least u : opt_mergeable k u -> opt_le o u -> opt_le (dict_get k t) u -> opt_le (absorb_table o k t) u.
Proof.
  unfold absorb_table. intros Hu H1 H2. destruct (dict_get k t) as [r|]; [|done].
  destruct o as [x|]; [|done]. destruct u as [u|]; [|done]. by eapply merge_core_least.
Qed.
End absorption.

(** ** Records that travel *)

(** The peers of a mesh: few enough for the clocks of records to be accepted. *)
Definition peers_ok (ps : gset pystr) : Prop := (size ps <= 128)%nat /\ set_Forall (fun p => peer_ok p = true) ps.

(** A record that its JSON form carries, with a clock of peers of the mesh. *)
Definition portable (ps : gset pystr) (k : pystr) (r : TaskRecord) : Prop :=
  task_id r = k /\ record_ok r = true /\ vc_wf (vector_clock r) /\ dom (clock (vector_clock r)) ⊆ ps.

Lemma portable_mergeable ps k r : portable ps k r -> mergeable k r.
Proof.
  intros (Hid & Hok & Hvc & _). split_and!; [done| |done]. apply record_ok_inv in Hok as (_ & _ & _ & _ & _ & _ & _ & Hf & _).
  by destruct (lease_expiry r).
Qed.

Lemma vc_merge_dom a b : dom (clock (vc_merge a b)) ⊆ dom (clock a) ∪ dom (clock b).
Proof.
  intros p [n Hn]%elem_of_dom. unfold vc_merge, VectorClock_init in Hn. cbn [clock] in Hn.
  apply map_lookup_filter_Some in Hn as [Hn _]. apply lookup_set_to_map in Hn as (q & Hq & Heq); [|done].
  by injection Heq as -> _.
Qed.

(** The clock of a record is replaced by one that its JSON form accepts. *)
Lemma record_ok_clock ps r c :
  peers_ok ps -> record_ok r = true -> vc_wf c -> dom (clock c) ⊆ ps -> record_ok (with_clock r c) = true.
Proof.
  intros [Hsize Hps] Hok Hc Hdom. revert Hok. unfold record_ok. cbn [with_clock task_id payload task_result task_error
    claimed_by updated_by signer_id fence_token vector_clock lease_expiry signature].
  assert ((Z.of_nat (size (clock c)) <=? 128) = true) as Hs.
  { apply Z.leb_le. rewrite <- size_dom. apply subseteq_size in Hdom. lia. }
  assert (forallb (fun kv => peer_ok kv.1 && (0 <? kv.2)) (map_to_list (clock c)) = true) as Hf.
  { apply forallb_forall. intros [p n] Hin%list_elem_of_In%elem_of_map_to_list. cbn [fst snd]. apply andb_true_iff. split.
    - apply Hps, Hdom. by eapply elem_of_dom_2.
    - apply Z.ltb_lt. by apply (Hc p). }
  rewrite Hs, Hf, !andb_true_iff. tauto.
Qed.

Lemma merge_portable ps k a b : peers_ok ps -> portable ps k a -> portable ps k b -> portable ps k (merge_core a b).
Proof.
  intros Hps (Hia & Hoa & Hca & Hda) (Hib & Hob & Hcb & Hdb).
  assert (dom (clock (vc_merge (vector_clock a) (vector_clock b))) ⊆ ps) as Hdom.
  { etrans; [apply vc_merge_dom|]. by apply union_subseteq. }
  unfold merge_core, portable. split_and!; [|apply (record_ok_clock ps); [done| |apply vc_merge_wf|done]|apply vc_merge_wf|done];
    unfold merge_winner; by destruct (py_ge _ _).
Qed.

(** ** Receiving a whole table *)

Definition wire (kv : pystr * TaskRecord) : pystr * json := (kv.1, sort_keys (JObj (to_dict kv.2))).

Section reception.
Context `{Ed25519} `{MathLib} `{UnicodeDB} `{World} (cfg : NodeConfig).
Hypothesis Hoff : enabled (security cfg) = false.

(** Without a log a commit does not raise. *)
Lemma gossip_commit_returns tid r remote st :
  wal st = None -> exists st', gossip_commit tid r remote st = (Ok (), st') /\ wal st' = None /\
    tasks st' = dict_set tid r (tasks st).
Proof.
  intros Hw. destruct (gossip_commit tid r remote st) as [res st'] eqn:E.
  pose proof (gossip_commit_tasks tid r remote st) as Ht. rewrite E in Ht. exists st'.
  revert E. unfold gossip_commit, store_task, requeue_pending, enqueue, suppress, ncatch, when, wal_append, put_nowait.
  unfold nbind, modify, gets, lift, nret. cbn [set_tasks upd queue queued_task_ids].
  destruct (_ && _); cbn;
    [destruct (full (queue st)); cbn; try change (is_queue_full QueueFull) with true; cbn|]; rewrite Hw; intros [= <- <-]; done.
Qed.

(** A record that is taken in. *)
Lemma gossip_entry_absorbs sender tid r st :
  record_ok r = true -> vc_wf (vector_clock r) -> task_id r = tid -> table_ok st -> wal st = None ->
  (get_task tid st = None -> len (tasks st) < max_tasks cfg) ->
  exists st', gossip_entry cfg sender (wire (tid, r)) st = (Ok (), st') /\ wal st' = None /\
    tasks st' = dict_set tid (absorb (get_task tid st) r) (tasks st).
Proof.
  intros Hok Hvc Hid Htab Hw Hroom. unfold gossip_entry, wire. cbn [fst snd].
  pose proof (from_dict_to_dict r Hok Hvc) as Hr. pose proof (from_dict_mergeable _ _ Hr) as Hm.
  rewrite Hr, bool_decide_eq_true_2 by done. cbn [negb]. unfold gossip_authorized, merge_keyring. rewrite Hoff.
  unfold nbind at 1, lift. cbn [negb]. unfold nbind at 1, gets. unfold get_task, absorb in *.
  destruct (dict_get tid (tasks st)) as [x|] eqn:Ex.
  - rewrite Hid in Hm. rewrite (merge_records_None tid x r) by (done || by apply Htab). by apply gossip_commit_returns.
  - specialize (Hroom eq_refl). destruct (Z.leb_spec (max_tasks cfg) (len (tasks st))); [lia|].
    by apply gossip_commit_returns.
Qed.

(** The identifiers a table may use: few enough to fit in it. *)
Context (ids : list pystr) (ps : gset pystr).
Hypothesis Hids : len ids <= max_tasks cfg.
Hypothesis Hps : peers_ok ps.

Definition table_in (t : table) : Prop :=
  NoDup t.*1 /\ t.*1 ⊆ ids /\ forall k r, dict_get k t = Some r -> portable ps k r.

Lemma table_in_ok st : table_in (tasks st) -> table_ok st.
Proof. intros (_ & _ & Hp) k r Hr. by eapply portable_mergeable, Hp. Qed.

Lemma table_in_room t k : table_in t -> k ∈ ids -> dict_get k t = None -> len t < max_tasks cfg.
Proof.
  intros (Hnd & Hsub & _) Hk Hnone%dict_get_None.
  assert (length (k :: t.*1) <= length ids)%nat as Hlen.
  { apply (submseteq_length (k :: t.*1) ids), NoDup_submseteq; [by constructor|]. set_solver. }
  unfold len in *. cbn [length] in Hlen. rewrite length_fmap in Hlen. lia.
Qed.

Lemma table_in_set t k r : table_in t -> k ∈ ids -> portable ps k r -> table_in (dict_set k r t).
Proof.
  intros (Hnd & Hsub & Hp) Hk Hr. split_and!; [by apply dict_set_NoDup| |].
  - intros x Hx%dict_set_keys_elem. set_solver.
  - intros x y. rewrite dict_get_set. destruct (decide (k = x)) as [->|]; [by intros [= <-]|apply Hp].
Qed.

Lemma absorb_portable k o r :
  (forall x, o = Some x -> portable ps k x) -> portable ps k r -> portable ps k (absorb o r).
Proof. intros Ho Hr. destruct o as [x|]; [|done]. apply merge_portable; auto. Qed.

(** A gossip of the records [t], in any order, is taken in whole. *)
Lemma gossip_entries_absorb sender t st :
  table_in t -> table_in (tasks st) -> wal st = None ->
  exists st', for_each (gossip_entry cfg sender) (wire <$> t) st = (Ok (), st') /\ wal st' = None /\
    table_in (tasks st') /\ forall k, get_task k st' = absorb_table (get_task k st) k t.
Proof.
  intros (Hnd & Hsub & Hp). revert st. induction t as [|[k r] t IH]; intros st Hst Hw.
  { exists st. done. }
  rewrite fmap_cons in Hnd, Hsub. apply NoDup_cons in Hnd as [Hnew Hnd]. cbn [fst] in *.
  assert (portable ps k r) as Hr by (apply Hp; cbn; by rewrite decide_True).
  assert (k ∈ ids) as Hk by (apply Hsub; by left).
  destruct (gossip_entry_absorbs sender k r st) as (st1 & E1 & Hw1 & Ht1);
    [by apply Hr..|by apply table_in_ok|done|by apply table_in_room|].
  assert (portable ps k (absorb (get_task k st) r)) as Hab.
  { apply absorb_portable; [by apply Hst|done]. }
  destruct (IH Hnd ltac:(set_solver)) with (st := st1) as (st2 & E2 & Hw2 & Hin2 & Hg2);
    [|rewrite Ht1; by apply table_in_set|done|].
  { intros k' r' Hk'. apply Hp. cbn. rewrite decide_False; [done|]. intros ->. apply dict_get_Some_elem in Hk'.
    apply Hnew. by apply (list_elem_of_fmap_2 fst) in Hk'. }
  exists st2. split_and!; [|done..|].
  - cbn [fmap list_fmap for_each]. unfold nbind. rewrite E1. exact E2.
  - intros k'. rewrite Hg2. unfold get_task, absorb_table in *. rewrite Ht1, dict_get_set. cbn [dict_get].
    destruct (decide (k = k')) as [->|Hne]; [|by rewrite decide_False by congruence].
    rewrite decide_True by done. apply dict_get_None in Hnew. by rewrite Hnew.
Qed.

Lemma table_in_perm t t' : t ≡ₚ t' -> table_in t -> table_in t'.
Proof.
  intros Hperm (Hnd & Hsub & Hp). split_and!; [by rewrite <- Hperm|by rewrite <- Hperm|].
  intros k r Hk. apply Hp. by rewrite (dict_get_perm t t').
Qed.

(** The payload of a gossip on the wire: the records of the table, in some order. *)
Lemma gossip_payload_wire (a : NodeConfig) t :
  table_in t -> len ids <= max_gossip_tasks (security a) ->
  exists t', t ≡ₚ t' /\ sort_keys (JObj (gossip_payload a t)) = JObj [(str "tasks", JObj (wire <$> t'))].
Proof.
  intros (Hnd & Hsub & _) Hmax. unfold gossip_payload. rewrite take_ge.
  2: { unfold sort_items. rewrite sort_by_perm. rewrite <- (length_fmap fst).
       assert (length t.*1 <= length ids)%nat by (by apply submseteq_length, NoDup_submseteq). unfold len in Hmax. lia. }
  assert (sort_items (map (fun kv => (kv.1, sort_keys kv.2)) ((fun kv => (kv.1, JObj (to_dict kv.2))) <$> sort_items t))
    ≡ₚ map wire t) as Hperm.
  { unfold sort_items. rewrite sort_by_perm, map_map. change (map wire (sort_by (fun p q => py_le p.1 q.1) t) ≡ₚ map wire t).
    by rewrite sort_by_perm. }
  destruct (Permutation_map_inv _ _ Hperm) as (t' & Ht' & Hp). exists t'. split; [done|].
  cbn [sort_keys map fst snd]. rewrite Ht'. reflexivity.
Qed.

(** A node takes in the table that a gossip carries. *)
Lemma receive_table a t m sender st :
  table_in t -> len ids <= max_gossip_tasks (security a) -> len ids <= max_gossip_tasks (security cfg) ->
  msg_type m = str "gossip" -> msg_payload m = gossip_payload a t -> table_in (tasks st) -> wal st = None ->
  exists st', receive cfg sender (sorted_message m) st = (Ok (), st') /\ wal st' = None /\
    table_in (tasks st') /\ forall k, get_task k st' = absorb_table (get_task k st) k t.
Proof.
  intros Ht Ha Hb Hty Hpay Hst Hw. destruct (gossip_payload_wire a t Ht Ha) as (t' & Hperm & Hs).
  pose proof (table_in_perm _ _ Hperm Ht) as Ht'.
  destruct (gossip_entries_absorb sender t' st Ht' Hst Hw) as (st' & E & Hw' & Hin' & Hg).
  exists st'. split_and!; [|done..|].
  - assert (msg_payload (sorted_message m) = [(str "tasks", JObj (wire <$> t'))]) as Hp
      by (unfold sorted_message; cbn [msg_payload]; by rewrite Hpay, Hs).
    unfold receive, authenticate_message. rewrite Hoff. cbn [negb]. unfold nbind at 1, nret.
    change (msg_type (sorted_message m)) with (msg_type m). rewrite Hty, Hp.
    change (bool_decide (str "gossip" = str "heartbeat")) with false.
    change (bool_decide (str "gossip" = str "gossip")) with true.
    change (default (JObj []) (dict_get (str "tasks") [(str "tasks", JObj (wire <$> t'))]))
      with (JObj (wire <$> t')). cbn [negb]. cbv iota.
    destruct (Z.ltb_spec (max_gossip_tasks (security cfg)) (len (wire <$> t'))) as [Hlt|]; [|exact E].
    exfalso. destruct Ht' as (Hnd & Hsub & _).
    assert (length t'.*1 <= length ids)%nat as Hlen by (by apply submseteq_length, NoDup_submseteq).
    rewrite length_fmap in Hlen. unfold len in Hids, Hlt, Ha, Hb.
    assert (length (wire <$> t') = length t') as Hl by apply length_fmap. rewrite Hl in Hlt. lia.
  - intros k. rewrite Hg. unfold absorb_table. rewrite (dict_get_perm t t' k); [done|apply Ht|done].
Qed.
End reception.

(** ** The benchmark's test of convergence ([is_converged] of [bench/gossip_convergence.py]) *)

Definition is_converged (task_count : Z) (tables : list table) : bool :=
  match tables with
  | [] => false
  | first_tasks :: rest =>
      if negb (len first_tasks =? task_count) then false
      else forallb (fun peer_tasks =>
        (len peer_tasks =? task_count) &&
        forallb (fun kr => match dict_get kr.1 peer_tasks with
                           | None => false
                           | Some r => bool_decide (state r = state kr.2)
                           end) first_tasks) rest
  end.

(** Tables that agree on every task pass the test. *)
Lemma agreeing_tables_converged (task_count : Z) (first : table) (rest : list table) :
  NoDup first.*1 -> len first = task_count ->
  Forall (fun t => NoDup t.*1 /\ forall k, dict_get k first ≡ dict_get k t) rest ->
  is_converged task_count (first :: rest) = true.
Proof.
  intros Hnd Hlen Hrest. unfold is_converged. rewrite Hlen, Z.eqb_refl. cbn [negb].
  apply forallb_forall. intros t Ht%list_elem_of_In. rewrite Forall_forall in Hrest.
  destruct (Hrest t Ht) as [Hndt Hk]. apply andb_true_iff. split.
  - apply Z.eqb_eq. rewrite <- Hlen. unfold len. f_equal. rewrite <- (length_fmap fst t), <- (length_fmap fst first).
    apply Permutation_length, NoDup_Permutation; [done..|]. intros k.
    assert (forall d : table, k ∈ d.*1 <-> is_Some (dict_get k d)) as Hmem.
    { intros d. destruct (dict_get k d) as [r|] eqn:E.
      - split; [by eexists|]. intros _. apply dict_get_Some_elem in E. by apply (list_elem_of_fmap_2 fst) in E.
      - apply dict_get_None in E. split; [done|by intros []]. }
    rewrite !Hmem. specialize (Hk k). destruct Hk; [split; by eexists|done].
  - apply forallb_forall. intros [k r] Hin%list_elem_of_In. cbn [fst snd]. specialize (Hk k).
    rewrite (dict_elem_get k r first Hnd Hin) in Hk. inversion Hk as [? r' Heq|]; subst.
    apply bool_decide_eq_true. apply rec_equiv_iff in Heq. naive_solver.
Qed.

(** ** The mesh *)

Definition at_node {A} (i : pystr) (a : A) (f : pystr -> A) : pystr -> A := fun j => if decide (i = j) then a else f j.

Section mesh.
Context `{Ed25519} `{MathLib} `{UnicodeDB}.

Definition gossip_by (w : World) (cfg : NodeConfig) : M () := gossip_round cfg.
Definition receive_by (w : World) (cfg : NodeConfig) (sender : pystr) (m : Message) : M () := receive cfg sender m.
Definition step_by (w : World) (cfg : NodeConfig) (st st' : NodeState) : Prop := node_step cfg st st'.

(** A gossip sends the whole table to a peer, and leaves the node's table as it was. *)
Lemma gossip_by_sends w cfg st st' to m :
  gossip_by w cfg st = (Ok (), st') -> outbox st' = outbox st ++ [(to, m)] ->
  msg_type m = str "gossip" /\ msg_payload m = gossip_payload cfg (tasks st) /\ tasks st' = tasks st /\ wal st' = wal st.
Proof.
  unfold gossip_by, gossip_round. unfold nbind at 1, gets. intros E Ho.
  assert (forall l : list (pystr * Message), l = l ++ [(to, m)] -> False) as Hne.
  { intros l Hl%(f_equal length). rewrite length_app in Hl. cbn in Hl. lia. }
  destruct (peers cfg) as [|p ps]; [by injection E as <-; apply Hne in Ho|].
  destruct (tasks st) as [|kv ts] eqn:Et; [by injection E as <-; apply Hne in Ho|].
  apply nbind_Ok in E as (i & s1 & [= <- <-] & E). apply nbind_Ok in E as (m' & s2 & Em & E).
  unfold signed_message in Em. apply nbind_Ok in Em as (t0 & s3 & [= <- <-] & Em).
  apply nbind_Ok in Em as (n & s4 & [= <- <-] & Em). unfold lift in Em. injection Em as Em <-.
  unfold send, modify in E. injection E as <-. cbn [outbox set_outbox upd2 tick] in Ho.
  apply app_inv_head in Ho. injection Ho as _ <-.
  destruct (signed_inv _ _ _ _ _ Em) as (_ & _ & _ & _ & Hp & Hmt & _). by rewrite Hp, Hmt.
Qed.

(** A mesh of nodes: their states, the gossips sent so far, and, as a record of the execution, the
    nodes whose first tables each node and each gossip has taken in. *)
Record MeshState := {
  ms_state : pystr -> NodeState;
  ms_knows : pystr -> gset pystr;
  ms_sent : list (pystr * pystr * Message * gset pystr);
}.

Context (nodes : gset pystr) (cfgs : pystr -> NodeConfig) (worlds : pystr -> World).

(** The steps: a gossip round, the arrival of a gossip (early, late, again or never), and whatever
    else a node does that leaves its table alone (heartbeats, credits, the clock). *)
Inductive mesh_step : MeshState -> MeshState -> Prop :=
| mesh_gossip x i st' to m :
    i ∈ nodes -> gossip_by (worlds i) (cfgs i) (ms_state x i) = (Ok (), st') ->
    outbox st' = outbox (ms_state x i) ++ [(to, m)] ->
    mesh_step x {| ms_state := at_node i st' (ms_state x); ms_knows := ms_knows x;
                   ms_sent := ms_sent x ++ [(i, to, m, ms_knows x i)] |}
| mesh_deliver x i j m kn :
    j ∈ nodes -> (i, j, m, kn) ∈ ms_sent x ->
    mesh_step x {| ms_state := at_node j (receive_by (worlds j) (cfgs j) i (sorted_message m) (ms_state x j)).2 (ms_state x);
                   ms_knows := at_node j (ms_knows x j ∪ kn) (ms_knows x); ms_sent := ms_sent x |}
| mesh_other x i st' :
    i ∈ nodes -> step_by (worlds i) (cfgs i) (ms_state x i) st' ->
    tasks st' = tasks (ms_state x i) -> wal st' = wal (ms_state x i) ->
    mesh_step x {| ms_state := at_node i st' (ms_state x); ms_knows := ms_knows x; ms_sent := ms_sent x |}.

Definition mesh_start (init : pystr -> NodeState) : MeshState :=
  {| ms_state := init; ms_knows := fun i => {[i]}; ms_sent := [] |}.

Inductive mesh_reachable (init : pystr -> NodeState) : MeshState -> Prop :=
| mesh_refl : mesh_reachable init (mesh_start init)
| mesh_then x y : mesh_reachable init x -> mesh_step x y -> mesh_reachable init y.

Context (init : pystr -> NodeState) (ids : list pystr) (ps : gset pystr).

(** A table between the first tables of the nodes [kn] and every upper bound of all of them. *)
Definition between (kn : gset pystr) (f : pystr -> option TaskRecord) : Prop :=
  (forall j, j ∈ kn -> j ∈ nodes -> forall k, opt_le (get_task k (init j)) (f k)) /\
  (forall k u, opt_mergeable k u -> (forall j, j ∈ nodes -> opt_le (get_task k (init j)) u) -> opt_le (f k) u) /\
  forall k, opt_mergeable k (f k).

Lemma between_absorb kn kn' f t :
  between kn f -> between kn' (fun k => dict_get k t) -> between (kn ∪ kn') (fun k => absorb_table (f k) k t).
Proof.
  intros (Hl & Hu & Hm) (Hl' & Hu' & Hm'). split_and!.
  - intros j [Hj|Hj]%elem_of_union Hn k.
    + eapply opt_le_trans; [by apply Hl|]. apply absorb_above_l; [apply Hm|apply Hm'].
    + eapply opt_le_trans; [by apply Hl'|]. apply absorb_above_r; [apply Hm|apply Hm'].
  - intros k u Huk Hub. apply absorb_least; [apply Hm|apply Hm'|done|by apply Hu|by apply Hu'].
  - intros k. apply absorb_mergeable; [apply Hm|apply Hm'].
Qed.

Definition node_inv (x : MeshState) (i : pystr) : Prop :=
  table_in ids ps (tasks (ms_state x i)) /\ wal (ms_state x i) = None /\
  between (ms_knows x i) (fun k => get_task k (ms_state x i)).

Definition letter_inv (l : pystr * pystr * Message * gset pystr) : Prop :=
  let '(i, _, m, kn) := l in
  i ∈ nodes /\ exists t, msg_type m = str "gossip" /\ msg_payload m = gossip_payload (cfgs i) t /\
    table_in ids ps t /\ between kn (fun k => dict_get k t).

Definition mesh_inv (x : MeshState) : Prop :=
  (forall i, i ∈ nodes -> node_inv x i) /\ Forall letter_inv (ms_sent x).

(** What the nodes are assumed to be: without signatures and logs, with room for all the tasks. *)
Hypothesis Hps : peers_ok ps.
Hypothesis Hcfg : forall i, i ∈ nodes ->
  enabled (security (cfgs i)) = false /\ len ids <= max_tasks (cfgs i) /\
  len ids <= max_gossip_tasks (security (cfgs i)).
Hypothesis Hinit : forall i, i ∈ nodes -> table_in ids ps (tasks (init i)) /\ wal (init i) = None.

Lemma mesh_start_inv : mesh_inv (mesh_start init).
Proof.
  split; [|constructor]. intros i Hi. destruct (Hinit i Hi) as [Ht Hw]. split_and!; [done|done|]. cbn.
  assert (forall k, opt_mergeable k (get_task k (init i))) as Hm.
  { intros k. unfold opt_mergeable. destruct (get_task k (init i)) eqn:E; [|done].
    by apply (table_in_ok ids ps (init i) Ht). }
  split_and!; [|intros k u _ Hu; by apply Hu|done].
  intros j ->%elem_of_singleton _ k. by eapply opt_le_refl.
Qed.

Lemma mesh_step_inv x y : mesh_step x y -> mesh_inv x -> mesh_inv y.
Proof.
  intros Hstep [Hn Hl]. destruct Hstep as [x i st' to m Hi Eg Ho|x i j m kn Hj Hin|x i st' Hi _ Et Ew].
  - destruct (gossip_by_sends _ _ _ _ _ _ Eg Ho) as (Hty & Hpay & Et & Ew).
    destruct (Hn i Hi) as (Ht & Hw & Hb). split.
    + intros k Hk. unfold node_inv. cbn [ms_state ms_knows]. unfold at_node. destruct (decide (i = k)) as [->|]; [|by apply Hn].
      unfold get_task in *. rewrite Et, Ew. done.
    + cbn. apply Forall_app. split; [done|]. constructor; [|done]. split; [done|]. by exists (tasks (ms_state x i)).
  - apply (Forall_forall letter_inv) with (x := (i, j, m, kn)) in Hl as Hm; [|done].
    destruct Hm as (Hi & t & Hty & Hpay & Htin & Hbt). destruct (Hn j Hj) as (Ht & Hw & Hb).
    destruct (Hcfg i Hi) as (_ & _ & Hga). destruct (Hcfg j Hj) as (Hoff & Hmax & Hgb).
    destruct (@receive_table _ (worlds j) (cfgs j) Hoff ids ps Hmax Hps (cfgs i) t m i (ms_state x j) Htin Hga Hgb
      Hty Hpay Ht Hw) as (st' & Er & Hw' & Ht' & Hg).
    split; [|done]. intros k Hk. unfold node_inv. cbn [ms_state ms_knows]. unfold at_node.
    destruct (decide (j = k)) as [<-|]; [|by apply Hn]. unfold receive_by. rewrite Er. cbn [snd].
    split_and!; [done|done|]. destruct (between_absorb _ _ _ _ Hb Hbt) as (H1' & H2' & H3').
    split_and!; intros; rewrite Hg; eauto.
  - destruct (Hn i Hi) as (Ht & Hw & Hb). split; [|done].
    intros k Hk. unfold node_inv. cbn [ms_state ms_knows]. unfold at_node. destruct (decide (i = k)) as [->|]; [|by apply Hn].
    unfold get_task in *. rewrite Et, Ew. done.
Qed.

Lemma mesh_reachable_inv x : mesh_reachable init x -> mesh_inv x.
Proof. induction 1; [apply mesh_start_inv|by eapply mesh_step_inv]. Qed.

(** ** Convergence *)

End mesh.

(** ** What a gossip leaves out *)

(** A table that does not fit in a gossip is never sent whole: the records whose identifiers come after
    the first [max_gossip_tasks] ones are in no gossip of the node, however often it gossips. *)
Lemma gossip_omits_the_rest `{Ed25519} (cfg : NodeConfig) (ts : table) (n : nat) (k : pystr) (r : TaskRecord) :
  NoDup ts.*1 -> sort_items ts !! n = Some (k, r) -> max_gossip_tasks (security cfg) <= Z.of_nat n ->
  exists raws, gossip_payload cfg ts = [(str "tasks", JObj raws)] /\ (k ∉ raws.*1).
Proof.
  intros Hnd Hn Hmax. eexists. split; [reflexivity|].
  rewrite <- list_fmap_compose. intros ([k' r'] & Hk & Hin)%list_elem_of_fmap. cbn in Hk. subst k'.
  apply elem_of_take in Hin as (i & Hi & Hlt).
  assert (NoDup (sort_items ts).*1) as Hnd' by (by apply sort_items_NoDup).
  assert (i = n); [|lia]. eapply NoDup_lookup; [exact Hnd'| |].
  - rewrite list_lookup_fmap, Hi. reflexivity.
  - rewrite list_lookup_fmap, Hn. reflexivity.
Qed.

(** ** A sample: two nodes with a task each gossip to each other *)

Definition p2_open : NodeConfig := {|
  node_id := str "p2"; peers := [str "p1"]; has_handler := true; lease_duration := decimal_float false 5 0;
  identity := toy_seed 2; keyring := toy_ring; security := toy_security false; max_tasks := 2 |}.

Definition duo_cfg (i : pystr) : NodeConfig := if decide (i = str "p2") then p2_open else toy_cfg false true.
Definition duo_init (i : pystr) : NodeState :=
  if decide (i = str "p2") then (submit_task p2_open (str "u") (str_bytes "{}") 0 blank_state).2
  else toy_submitted false true.
Definition duo_nodes : gset pystr := {[str "p1"; str "p2"]}.
Definition duo_ids : list pystr := [str "t"; str "u"].

Definition last_sent (st : NodeState) : pystr * Message :=
  match outbox st with pm :: _ => pm | [] => ([], sample_message) end.

(** A round of [i] followed by the arrival of its gossip at its target. *)
Definition duo_round (i : pystr) (x : MeshState) : MeshState :=
  let st := (gossip_by toy_world (duo_cfg i) (ms_state x i)).2 in
  let '(j, m) := last_sent st in
  let states := at_node i st (ms_state x) in
  {| ms_state := at_node j (receive_by toy_world (duo_cfg j) i (sorted_message m) (states j)).2 states;
     ms_knows := at_node j (ms_knows x j ∪ ms_knows x i) (ms_knows x);
     ms_sent := ms_sent x ++ [(i, j, m, ms_knows x i)] |}.

Definition duo_reaches (x : MeshState) : Prop :=
  mesh_reachable duo_nodes duo_cfg (fun _ => toy_world) duo_init x.

Lemma duo_round_reaches i x :
  duo_reaches x -> i ∈ duo_nodes -> is_ok (gossip_by toy_world (duo_cfg i) (ms_state x i)).1 = true ->
  outbox (ms_state x i) = [] -> (last_sent (gossip_by toy_world (duo_cfg i) (ms_state x i)).2).1 ∈ duo_nodes ->
  len (outbox (gossip_by toy_world (duo_cfg i) (ms_state x i)).2) = 1 -> duo_reaches (duo_round i x).
Proof.
  intros Hx Hi Hok Hout Hj Hlen. unfold duo_round, last_sent in *.
  destruct (gossip_by toy_world (duo_cfg i) (ms_state x i)) as [[[]|e] st] eqn:Eg; [|discriminate Hok]. cbn [snd] in *.
  destruct (outbox st) as [|[j m] [|]] eqn:Eo; [discriminate Hlen| |exfalso; unfold len in Hlen; cbn [length] in Hlen; lia].
  assert (duo_reaches {| ms_state := at_node i st (ms_state x); ms_knows := ms_knows x;
    ms_sent := ms_sent x ++ [(i, j, m, ms_knows x i)] |}) as Hx1.
  { eapply mesh_then; [exact Hx|]. eapply mesh_gossip; [done|exact Eg|]. by rewrite Hout. }
  eapply mesh_then; [exact Hx1|].
  apply (mesh_deliver duo_nodes duo_cfg (fun _ => toy_world) {| ms_state := at_node i st (ms_state x);
    ms_knows := ms_knows x; ms_sent := ms_sent x ++ [(i, j, m, ms_knows x i)] |} i j m (ms_knows x i) Hj).
  cbn. set_solver.
Qed.

Definition duo_final : MeshState := duo_round (str "p2") (duo_round (str "p1") (mesh_start duo_init)).

Lemma duo_final_reaches : duo_reaches duo_final.
Proof.
  unfold duo_final. apply duo_round_reaches; [apply duo_round_reaches; [apply mesh_refl|..]|..];
    try (vm_compute; reflexivity); unfold duo_nodes; apply (bool_decide_unpack _); vm_compute; exact I.
Qed.

Global Instance portable_dec ps k r : Decision (portable ps k r).
Proof. unfold portable, vc_wf. apply _. Defined.

Lemma table_in_check ids ps t :
  bool_decide (NoDup t.*1 /\ Forall (fun kv => kv.1 ∈ ids /\ portable ps kv.1 kv.2) t) = true -> table_in ids ps t.
Proof.
  intros [Hnd Hall]%bool_decide_eq_true. rewrite Forall_forall in Hall. split_and!; [done| |].
  - intros k ([k' r] & -> & Hin)%list_elem_of_fmap. by apply (Hall _ Hin).
  - intros k r Hin%dict_get_Some_elem. by apply (Hall _ Hin).
Qed.

Lemma duo_init_in i : i ∈ duo_nodes -> table_in duo_ids duo_nodes (tasks (duo_init i)) /\ wal (duo_init i) = None.
Proof.
  intros [->%elem_of_singleton| ->%elem_of_singleton]%elem_of_union;
    (split; [apply table_in_check|]; vm_compute; reflexivity).
Qed.

