(* ===== verification/Provenance.v ===== *)
(** * Where records come from: the integrity of a cluster

    A cluster of nodes on a network that loses, delays, repeats and reorders messages and in which an
    adversary injects messages it cannot sign.  Whatever happens, the payload of a task anywhere is one
    with which that task was submitted, and a result is one that a handler returned for it. *)

From Stdlib Require Import ZArith NArith Lia.
From S2P Require Import Prelude PyFloat Text Json JsonFacts Security Consensus Crypto Lattice Heapq Queue.
From S2P Require Import Wal Metrics Failure Message SimNetwork Tcp Sha256 FloatText Node NodeLogic NodeFacts NodeTheorems Mesh.
From S2P Require Import NodeScenarios AntiEntropy.
Open Scope Z_scope.

Lemma vc_entries_same d l : vc_entries ((fun kv => (kv.1, JInt kv.2)) <$> d) = Ok l -> l = d.
Proof.
  revert l. induction d as [|[p n] d IH]; intros l; cbn [fmap list_fmap vc_entries fst snd]; intros Hl; inv_result; [done|].
  f_equal. by apply IH.
Qed.

Lemma read_hex b o : rmap Some (fromhex_or_raise (hex b)) = Ok o -> o = Some b.
Proof. rewrite fromhex_or_raise_hex. by intros [= <-]. Qed.

(** Whatever record is read from the JSON form of [r] is [r]. *)
Lemma from_dict_reads r r' :
  from_dict (sort_keys (JObj (to_dict r))) = Ok r' -> r' = with_clock r (VectorClock_init (clock (vector_clock r))).
Proof.
  pose proof (to_dict_keys_NoDup r) as nd. cbn [sort_keys from_dict]. rewrite !jget_sorted by exact nd.
  jget_field (to_dict r) nd "task_id"%string. jget_field (to_dict r) nd "state"%string.
  jget_field (to_dict r) nd "payload"%string. jget_field (to_dict r) nd "result"%string.
  jget_field (to_dict r) nd "error"%string. jget_field (to_dict r) nd "claimed_by"%string.
  jget_field (to_dict r) nd "updated_by"%string. jget_field (to_dict r) nd "signer_id"%string.
  jget_field (to_dict r) nd "fence_token"%string. jget_field (to_dict r) nd "vector_clock"%string.
  jget_field (to_dict r) nd "lease_expiry"%string. jget_field (to_dict r) nd "signature"%string.
  destruct (vc_json_sorted (vector_clock r)) as (l & Hl & ->).
  set (ftd := [(str "epoch", JInt (epoch (fence_token r))); (str "peer_id", JStr (ft_peer_id (fence_token r)))]).
  assert (NoDup ftd.*1) as ndf by apply fence_dict_NoDup.
  rewrite !sort_keys_opt_str. cbn [sort_keys]. rewrite !jget_sorted by exact ndf.
  jget_field ftd ndf "epoch"%string. jget_field ftd ndf "peer_id"%string. cbn [sort_keys].
  rewrite state_of_value_value, fromhex_or_raise_hex. intros Hr. inv_result.
  assert (list_to_map l = clock (vector_clock r)) as Hlm.
  { rewrite <- (list_to_map_to_list (clock (vector_clock r))). apply list_to_map_proper; [|done].
    rewrite Hl. apply NoDup_fst_map_to_list. }
  assert (a7 = l) as -> by (by eapply vc_entries_same).
  assert (a1 = task_result r) as -> by (destruct (task_result r); cbn [opt_json] in *; inv_result; [by apply read_hex|done]).
  assert (a2 = task_error r) as -> by (destruct (task_error r); cbn [opt_json] in *; by inv_result).
  assert (a9 = signature r) as -> by (destruct (signature r); cbn [opt_json] in *; inv_result; [by apply read_hex|done]).
  assert (a3 = claimed_by r) as -> by (destruct (claimed_by r); cbn [opt_json opt_peer] in *; by inv_result).
  assert (a5 = signer_id r) as -> by (destruct (signer_id r); cbn [opt_json opt_peer] in *; by inv_result).
  assert (a4 = Some (updated_by r)) as -> by (cbn [opt_peer] in *; by inv_result).
  assert (a8 = lease_expiry r) as -> by (cbn [finite_number] in *; by inv_result).
  rewrite Hlm. by destruct r as [? ? ? ? ? ? []].
Qed.


(** The entries of a gossip on the wire, as its sender builds it. *)
Lemma gossip_records m (ts : list (pystr * TaskRecord)) raws k raw :
  msg_payload m = [(str "tasks", JObj ((fun kv => (kv.1, JObj (to_dict kv.2))) <$> ts))] ->
  dict_get (str "tasks") (msg_payload (sorted_message m)) = Some (JObj raws) -> (k, raw) ∈ raws ->
  exists r, raw = sort_keys (JObj (to_dict r)) /\ (k, r) ∈ ts.
Proof.
  intros Hp Hr Hin.
  assert (msg_payload (sorted_message m) = [(str "tasks", sort_keys (JObj ((fun kv => (kv.1, JObj (to_dict kv.2))) <$> ts)))])
    as Hps by (unfold sorted_message; cbn [msg_payload]; by rewrite Hp).
  rewrite Hps in Hr. cbn [dict_get] in Hr. rewrite decide_True in Hr by done. cbn [sort_keys] in Hr. injection Hr as <-.
  unfold sort_items in Hin. rewrite sort_by_perm in Hin.
  apply list_elem_of_In, in_map_iff in Hin as ([k1 v1] & [= <- <-] & Hin).
  apply list_elem_of_In, list_elem_of_fmap in Hin as ([k2 r2] & [= -> ->] & Hin). by exists r2.
Qed.

(** ** What a record may say *)

Section provenance.
Context `{Ed25519} `{MathLib} `{UnicodeDB}.

(** Which payloads tasks were submitted with, and what handlers returned and raised for them. *)
Context (submitted_with : pystr -> list byte -> Prop).
Context (handler_returned : pystr -> list byte -> list byte -> Prop).
Context (handler_raised : pystr -> list byte -> pystr -> Prop).

Definition genuine (k : pystr) (r : TaskRecord) : Prop :=
  submitted_with k (payload r) /\
  match state r with
  | DONE => exists b, task_result r = Some b /\ handler_returned k (payload r) b
  | FAILED => exists e, task_error r = Some e /\ handler_raised k (payload r) e
  | _ => task_result r = None /\ task_error r = None
  end.

Lemma genuine_fields k r r' :
  state r' = state r -> payload r' = payload r -> task_result r' = task_result r -> task_error r' = task_error r ->
  genuine k r -> genuine k r'.
Proof. unfold genuine. by intros -> -> -> ->. Qed.

Lemma genuine_same k r r' : same_content r' r -> genuine k r -> genuine k r'.
Proof.
  intros Hs. apply genuine_fields; [exact (f_equal state Hs)|exact (f_equal payload Hs)|exact (f_equal task_result Hs)
    |exact (f_equal task_error Hs)].
Qed.

Lemma genuine_merge k a b : genuine k a -> genuine k b -> genuine k (merge_core a b).
Proof. unfold merge_core, merge_winner. by destruct (py_ge _ _). Qed.

Lemma genuine_merge_records k a b kr m :
  merge_records a b kr = Ok m -> genuine k a -> genuine k b -> genuine k m.
Proof. intros (_ & [->|[_ [-> | ->]]])%merge_records_cases; auto using genuine_merge. Qed.

(** A message, as it is on the wire, whose records are genuine. *)
Definition letter_genuine (m : Message) : Prop :=
  msg_type m = str "gossip" ->
  forall raws k raw r, dict_get (str "tasks") (msg_payload m) = Some (JObj raws) -> (k, raw) ∈ raws ->
    from_dict raw = Ok r -> task_id r = k -> genuine k r.

Definition item_genuine (w : WorkItem) : Prop := submitted_with (w_task_id w) (payload (w_record w)).

Definition worker_genuine (w : WorkerPhase) : Prop :=
  match w with WIdle => True | WClaimed w | WRunning w | WCommitted w _ => item_genuine w end.

Definition audit_genuine (p : ReclaimPhase) : Prop :=
  match p with RIdle => True | RAudit _ _ items => Forall (fun kv => submitted_with kv.1 (payload kv.2)) items end.

Definition table_genuine (ts : table) : Prop := forall k r, (k, r) ∈ ts -> genuine k r.

Record sound (st : NodeState) : Prop := {
  sound_wal : wal st = None;
  sound_tasks : table_genuine (tasks st);
  sound_worker : worker_genuine (worker st);
  sound_audit : audit_genuine (reclaimer st);
  sound_outbox : Forall (fun pm => letter_genuine (sorted_message pm.2)) (outbox st);
}.

(** ** A computation keeps a state sound *)

Abbreviation safe := (keeps sound sound (fun _ => sound)).

Lemma safe_lift {A} (r : result A) (post : A -> Prop) : (forall a, r = Ok a -> post a) -> safe (lift r) post.
Proof. by apply keeps_lift. Qed.

Lemma safe_catch {A} p (m h : M A) (post : A -> Prop) : safe m post -> safe h post -> safe (ncatch p m h) post.
Proof. intros Hm Hh. by eapply keeps_catch. Qed.

(** ** The methods of a node *)

Section methods.
Context `{World} (cfg : NodeConfig).

Lemma sound_frame st st' :
  wal st' = wal st -> tasks st' = tasks st -> worker st' = worker st -> reclaimer st' = reclaimer st ->
  outbox st' = outbox st -> sound st -> sound st'.
Proof. intros E1 E2 E3 E4 E5 []. split; by rewrite ?E1, ?E2, ?E3, ?E4, ?E5. Qed.

Lemma safe_frame f :
  (forall st, (wal (f st), tasks (f st), worker (f st), reclaimer (f st), outbox (f st)) =
              (wal st, tasks st, worker st, reclaimer st, outbox st)) -> safe (modify f) any.
Proof. intros Hf. apply keeps_modify. intros st. specialize (Hf st). injection Hf as ?????. by apply (sound_frame st). Qed.

Lemma safe_read {A} (f : nat -> A) : safe (fun st => (Ok (f (ticks st)), tick st)) any.
Proof. intros st Hs. split; [by apply (sound_frame st)|done]. Qed.

Lemma safe_incr name : safe (incr name) any.
Proof. by apply safe_frame. Qed.
Lemma safe_bump : safe (bump_clock cfg) any.
Proof. by apply safe_frame. Qed.
Lemma safe_clock_now : safe clock_now any.
Proof. apply safe_read. Qed.

Lemma safe_store k r : genuine k r -> safe (store_task k r) any.
Proof.
  intros Hr. apply keeps_modify. intros st []. split; try done. cbn. intros k' r' [[= -> ->]|Hin]%dict_set_elem; auto.
Qed.

Lemma safe_tasks : safe (gets tasks) table_genuine.
Proof. apply keeps_gets. by intros st []. Qed.

Lemma safe_any {A} (f : NodeState -> A) : safe (gets f) any.
Proof. by apply keeps_gets. Qed.

Lemma safe_lift_any {A} (r : result A) : safe (lift r) any.
Proof. by apply safe_lift. Qed.

Lemma safe_set_worker w : worker_genuine w -> safe (modify (set_worker w)) any.
Proof. intros Hw. apply keeps_modify. intros st []. by split. Qed.

Lemma safe_set_reclaimer p : audit_genuine p -> safe (modify (set_reclaimer p)) any.
Proof. intros Hp. apply keeps_modify. intros st []. by split. Qed.

Lemma safe_send p m : letter_genuine (sorted_message m) -> safe (send p m) any.
Proof. intros Hm. apply keeps_modify. intros st []. split; try done. cbn. apply Forall_app. split; [done|by constructor]. Qed.

Lemma safe_enqueue k p : safe (enqueue k p) any.
Proof.
  apply safe_catch; [|by apply keeps_ret]. apply (keeps_bind sound sound sound _ _ any); [apply safe_any|]. intros q _.
  apply (keeps_bind sound sound sound _ _ any); [apply safe_lift_any|]. intros q' _. eapply (keeps_then sound sound); by apply safe_frame.
Qed.

Lemma safe_requeue k r : safe (requeue_pending k r) any.
Proof.
  apply (keeps_bind sound sound sound _ _ any); [apply safe_any|]. intros qi _. apply keeps_when. intros _. apply safe_enqueue.
Qed.

Lemma safe_wal_append r : safe (wal_append r) any.
Proof. intros st Hs. unfold wal_append, nbind, gets. rewrite (sound_wal st Hs). by split. Qed.

Lemma safe_seal k r : genuine k r -> safe (seal_record cfg r) (genuine k).
Proof.
  intros Hr st Hs. destruct (seal_record cfg r st) as [res st'] eqn:E. destruct res as [r'|e].
  - destruct (seal_same_content cfg r r' st st' E) as [-> Hc]. split; [done|].
    by apply (genuine_same k r).
  - unfold seal_record in E. by destruct (negb _); injection E as _ <-.
Qed.

(** The signed copy of a message says what the message says. *)
Lemma safe_signed mt p :
  safe (signed_message cfg mt p) (fun m => msg_type m = mt /\ msg_payload m = p).
Proof.
  apply (keeps_bind sound sound sound _ _ any); [apply safe_read|]. intros ts _. apply (keeps_bind sound sound sound _ _ any); [apply safe_read|]. intros n _.
  apply safe_lift. intros m (_ & _ & _ & _ & Hp & Hmt & _)%signed_inv. done.
Qed.

Lemma safe_sends m ps : letter_genuine (sorted_message m) -> safe (for_each (fun p => send p m) ps) any.
Proof. intros Hm. apply keeps_for_each. apply Forall_forall. intros p _. by apply safe_send. Qed.

Lemma gossip_genuine m (ts : table) :
  msg_payload m = [(str "tasks", JObj ((fun kv => (kv.1, JObj (to_dict kv.2))) <$> ts))] ->
  (forall k r, (k, r) ∈ ts -> genuine k r) -> letter_genuine (sorted_message m).
Proof.
  intros Hp Hts _ raws k raw r Hr Hin Hd Hid. destruct (gossip_records m ts raws k raw Hp Hr Hin) as (r2 & -> & Hk).
  apply from_dict_reads in Hd as ->. by apply (genuine_fields k r2); [..|apply Hts].
Qed.

Lemma safe_broadcast k r : genuine k r -> safe (broadcast_task_update cfg k r) any.
Proof.
  intros Hr. apply (keeps_bind sound sound sound _ _ (genuine k)); [by apply safe_seal|]. intros r' Hr'.
  eapply (keeps_then sound sound); [by apply safe_store|]. eapply (keeps_then sound sound); [apply safe_wal_append|].
  eapply (keeps_bind sound sound); [apply safe_signed|]. intros m [_ Hp]. apply safe_sends.
  apply (gossip_genuine m [(k, r')]); [done|]. intros ? ? [= -> ->]%list_elem_of_singleton. done.
Qed.

Lemma safe_submit k p priority : submitted_with k p -> safe (submit_task cfg k p priority) any.
Proof.
  intros Hsub. eapply (keeps_then sound sound); [apply safe_lift_any|]. eapply (keeps_then sound sound); [apply safe_lift_any|].
  eapply (keeps_bind sound sound); [apply safe_tasks|]. intros ts _.
  eapply (keeps_then sound sound). { case_match; [eapply (keeps_then sound sound); [apply safe_incr|apply safe_lift_any]|by apply keeps_ret]. }
  eapply (keeps_then sound sound); [apply safe_bump|]. eapply (keeps_bind sound sound); [apply safe_any|]. intros vc _.
  eapply (keeps_bind sound sound); [by apply (safe_seal k)|]. intros r Hr.
  eapply (keeps_then sound sound); [by apply safe_store|]. eapply (keeps_then sound sound); [apply safe_incr|].
  eapply (keeps_then sound sound); [apply safe_wal_append|]. eapply (keeps_bind sound sound); [apply safe_any|]. intros q _.
  destruct (put_section k priority q) as [[q'|]|e]; [eapply (keeps_then sound sound); by apply safe_frame|by apply keeps_ret|].
  eapply (keeps_then sound sound); [|apply safe_lift_any]. apply keeps_when. intros _. apply safe_incr.
Qed.

Lemma safe_gossip_commit k r remote : genuine k r -> safe (gossip_commit k r remote) any.
Proof.
  intros Hr. eapply (keeps_then sound sound); [by apply safe_store|]. eapply (keeps_then sound sound); [apply safe_requeue|].
  eapply (keeps_then sound sound); [by apply safe_frame|apply safe_wal_append].
Qed.

Lemma safe_gossip_entry sender k raw :
  (forall r, from_dict raw = Ok r -> task_id r = k -> genuine k r) -> safe (gossip_entry cfg sender (k, raw)) any.
Proof.
  intros Hraw. unfold gossip_entry. destruct (from_dict raw) as [r|e]; [|case_match; [apply safe_incr|apply safe_lift_any]].
  case_bool_decide as Hid; cbn [negb]; [|apply safe_incr]. specialize (Hraw r eq_refl Hid).
  eapply (keeps_bind sound sound); [apply safe_lift_any|]. intros ok _. destruct (negb ok); [apply safe_incr|].
  eapply (keeps_bind sound sound); [apply safe_tasks|]. intros ts Hts. destruct (dict_get k ts) as [x|] eqn:Ex.
  - destruct (merge_records x r (merge_keyring cfg)) as [m|e] eqn:Em.
    + apply safe_gossip_commit. by eapply genuine_merge_records; [|apply Hts, dict_get_Some_elem|].
    + destruct e; apply safe_incr || apply safe_lift_any.
  - case_match; [apply safe_incr|by apply safe_gossip_commit].
Qed.

Lemma safe_authenticate sender m : safe (authenticate_message cfg sender m) any.
Proof.
  unfold authenticate_message. repeat (case_match; [by apply keeps_ret|]).
  eapply (keeps_bind sound sound); [apply safe_lift_any|]. intros ok _. case_match; [by apply keeps_ret|].
  destruct (timestamp m); [|by apply keeps_ret]. destruct (nonce m); [|by apply keeps_ret].
  eapply (keeps_bind sound sound); [apply safe_read|]. intros now _. case_match; [by apply keeps_ret|].
  intros st Hs. destruct (check_and_remember _ _ _ _ _). split; [by apply (sound_frame st)|done].
Qed.

Lemma safe_receive_genuine sender m : letter_genuine m -> safe (receive cfg sender m) any.
Proof.
  intros Hm. eapply (keeps_bind sound sound); [apply safe_authenticate|]. intros ok _. destruct (negb ok); [apply safe_incr|].
  case_bool_decide. { eapply (keeps_bind sound sound); [apply safe_clock_now|]. intros now _. by apply safe_frame. }
  case_bool_decide as Hty.
  - destruct (dict_get (str "tasks") (msg_payload m)) as [v|] eqn:Ev; cbn [default from_option id].
    + destruct v as [| | | | | |raws]; try apply safe_incr. case_match; [apply safe_incr|].
      apply keeps_for_each, Forall_forall. intros [k raw] Hin. apply safe_gossip_entry. intros r. by apply (Hm Hty raws).
    + case_match; [apply safe_incr|by apply keeps_ret].
  - case_bool_decide; [|by apply keeps_ret]. case_match; try apply safe_incr. case_match; [apply safe_incr|by apply safe_frame].
Qed.

(** A message that is not authentic is only counted. *)
Lemma safe_receive_refused sender m :
  (forall st, (authenticate_message cfg sender m st).1 <> Ok true) -> safe (receive cfg sender m) any.
Proof.
  intros Hm. eapply (keeps_bind sound sound sound _ _ (fun b => b = false)); [|intros ok ->; apply safe_incr].
  intros st Hs. pose proof (safe_authenticate sender m st Hs) as Ha. specialize (Hm st).
  destruct (authenticate_message cfg sender m st) as [[[]|e] st']; [done|split; [apply Ha|done]|exact Ha].
Qed.

Lemma safe_suspected p : safe (suspected p) any.
Proof. eapply (keeps_bind sound sound); [apply safe_clock_now|]. intros now _. eapply (keeps_bind sound sound); [apply safe_any|]. intros d _. apply safe_lift_any. Qed.

Lemma safe_worker_take : safe (worker_take cfg) any.
Proof.
  eapply (keeps_bind sound sound); [apply safe_any|]. intros q _. destruct (get_section q) as [[[? k] q']|]; [|by apply keeps_ret].
  eapply (keeps_then sound sound); [by apply safe_frame|]. eapply (keeps_then sound sound); [by apply safe_frame|].
  eapply (keeps_bind sound sound); [apply safe_tasks|]. intros ts Hts. destruct (dict_get k ts) as [r|] eqn:Er; [|by apply keeps_ret].
  pose proof (Hts k r (dict_get_Some_elem _ _ _ Er)) as [Hr _]. case_match; [by apply keeps_ret|].
  eapply (keeps_bind sound sound); [apply safe_clock_now|]. intros now _.
  eapply (keeps_bind sound sound sound _ _ any). { unfold is_active_claim. case_match; [|by apply keeps_ret].
    eapply (keeps_bind sound sound); [apply safe_suspected|]. intros sp _. by apply keeps_ret. }
  intros active _. destruct active; [by apply keeps_ret|]. eapply (keeps_then sound sound); [apply safe_bump|].
  eapply (keeps_bind sound sound); [apply safe_clock_now|]. intros now' _. eapply (keeps_bind sound sound); [apply safe_any|]. intros vc _.
  eapply (keeps_bind sound sound); [by apply (safe_seal k)|]. intros c Hc. eapply (keeps_then sound sound); [by apply safe_store|].
  eapply (keeps_then sound sound); [apply safe_incr|]. eapply (keeps_then sound sound); [by apply safe_broadcast|]. by apply safe_set_worker.
Qed.

Lemma safe_worker_run w : item_genuine w -> safe (worker_run cfg w) any.
Proof.
  intros Hw. eapply (keeps_bind sound sound); [apply safe_any|]. intros vc _.
  eapply (keeps_bind sound sound); [by apply (safe_seal (w_task_id w))|]. intros r Hr.
  eapply (keeps_then sound sound); [by apply safe_store|by apply safe_set_worker].
Qed.

(** The handler's outcome for an item of the worker. *)
Definition outcome_genuine (w : WorkItem) (o : HandlerOutcome) : Prop :=
  match o with
  | HReturn b => handler_returned (w_task_id w) (payload (w_record w)) b
  | HRaise e => handler_raised (w_task_id w) (payload (w_record w)) e
  end.

Lemma safe_worker_finish w o : item_genuine w -> outcome_genuine w o -> safe (worker_finish cfg w o) any.
Proof.
  intros Hw Ho. unfold worker_finish. destruct o as [b|e];
    (eapply (keeps_bind sound sound); [apply safe_clock_now|]; intros now _; eapply (keeps_bind sound sound); [apply safe_tasks|]; intros ts _;
     case_match; [eapply (keeps_then sound sound); [apply safe_incr|by apply safe_set_worker]|];
     case_match; [eapply (keeps_then sound sound); [apply safe_incr|by apply safe_set_worker]|];
     eapply (keeps_then sound sound); [apply safe_bump|]; eapply (keeps_bind sound sound); [apply safe_any|]; intros vc _;
     eapply (keeps_bind sound sound); [apply (safe_seal (w_task_id w)); split; [done|by eexists]|]; intros r Hr;
     eapply (keeps_then sound sound); [by apply safe_store|]; eapply (keeps_then sound sound); [by apply safe_broadcast|by apply safe_set_worker]).
Qed.

Lemma other_genuine m : msg_type m <> str "gossip" -> letter_genuine (sorted_message m).
Proof. intros Hm Hty. by destruct (Hm Hty). Qed.

Lemma safe_worker_settle w x : safe (worker_settle cfg w x) any.
Proof.
  eapply (keeps_then sound sound); [apply safe_incr|]. eapply (keeps_then sound sound); [|by apply safe_set_worker]. apply keeps_when. intros _.
  eapply (keeps_bind sound sound); [apply safe_signed|]. intros m [Hty _]. apply safe_send, other_genuine. by rewrite Hty.
Qed.

Lemma safe_heartbeat_round : safe (heartbeat_round cfg) any.
Proof.
  eapply (keeps_bind sound sound); [apply safe_clock_now|]. intros now _. eapply (keeps_bind sound sound); [apply safe_signed|]. intros m [Hty _].
  apply safe_sends, other_genuine. by rewrite Hty.
Qed.

Lemma safe_gossip_round : safe (gossip_round cfg) any.
Proof.
  eapply (keeps_bind sound sound); [apply safe_tasks|]. intros ts Hts. destruct (peers cfg) as [|p ps]; [by apply keeps_ret|].
  destruct ts as [|kv ts]; [by apply keeps_ret|]. eapply (keeps_bind sound sound); [apply safe_read|]. intros i _.
  eapply (keeps_bind sound sound); [apply safe_signed|]. intros m [_ Hp]. apply safe_send. eapply gossip_genuine; [exact Hp|].
  intros k r Hin%subseteq_take. apply Hts. unfold sort_items in Hin. by rewrite sort_by_perm in Hin.
Qed.

Lemma safe_live_among ps : safe (live_among ps) any.
Proof.
  induction ps as [|p ps IH]; [by apply keeps_ret|]. eapply (keeps_bind sound sound); [apply safe_suspected|]. intros sp _.
  eapply (keeps_bind sound sound); [apply IH|]. intros rest _. by apply keeps_ret.
Qed.

Lemma safe_reclaim_item now live k r : submitted_with k (payload r) -> safe (reclaim_item cfg now live (k, r)) any.
Proof.
  intros Hr. unfold reclaim_item. case_match; [by apply keeps_ret|]. eapply (keeps_bind sound sound); [apply safe_suspected|]. intros sp _.
  case_match; [by apply keeps_ret|]. eapply (keeps_bind sound sound); [apply safe_lift_any|]. intros el _.
  case_match; [by apply keeps_ret|]. eapply (keeps_then sound sound); [apply safe_incr|]. case_match.
  - eapply (keeps_bind sound sound); [apply safe_any|]. intros qi _. eapply (keeps_then sound sound); [|by apply keeps_ret].
    apply keeps_when. intros _. apply safe_enqueue.
  - eapply (keeps_then sound sound); [apply safe_bump|]. eapply (keeps_bind sound sound); [apply safe_any|]. intros vc _.
    eapply (keeps_bind sound sound); [by apply (safe_seal k)|]. intros c Hc. eapply (keeps_then sound sound); [by apply safe_store|].
    eapply (keeps_then sound sound); [by apply safe_broadcast|by apply keeps_ret].
Qed.

Lemma safe_reclaim_audit now live items :
  Forall (fun kv => submitted_with kv.1 (payload kv.2)) items -> safe (reclaim_audit cfg now live items) any.
Proof.
  induction 1 as [|[k r] items Hr Hit IH]; cbn [reclaim_audit]; [by apply safe_set_reclaimer|].
  eapply (keeps_bind sound sound); [by apply safe_reclaim_item|]. intros [] _; [by apply safe_set_reclaimer|done].
Qed.

Lemma safe_reclaim_round : safe (reclaim_round cfg) any.
Proof.
  eapply (keeps_bind sound sound); [apply safe_clock_now|]. intros now _. eapply (keeps_bind sound sound); [apply safe_live_among|]. intros live _.
  eapply (keeps_bind sound sound); [apply safe_tasks|]. intros ts Hts. apply safe_reclaim_audit, Forall_forall. intros [k r] Hin.
  by apply Hts.
Qed.

Lemma safe_start : safe (start cfg) any.
Proof.
  eapply (keeps_bind sound sound); [apply safe_any|]. intros b _. destruct b; [by apply keeps_ret|].
  eapply (keeps_then sound sound); [by apply safe_frame|]. eapply (keeps_then sound sound).
  { intros st Hs. unfold recover_from_wal, nbind, gets. rewrite (sound_wal st Hs). by split. }
  eapply (keeps_then sound sound); [by apply safe_frame|]. eapply (keeps_then sound sound); [by apply safe_set_worker|by apply safe_set_reclaimer].
Qed.

Lemma safe_stop : safe stop any.
Proof.
  eapply (keeps_then sound sound); [by apply safe_frame|]. eapply (keeps_bind sound sound); [apply safe_any|]. intros bg _. eapply (keeps_then sound sound).
  { apply keeps_for_each, Forall_forall. intros l _. eapply (keeps_bind sound sound); [apply safe_any|]. intros bg' _.
    repeat case_match; apply safe_lift_any || by apply safe_frame. }
  eapply (keeps_then sound sound); [by apply safe_frame|]. intros st Hs. unfold nbind, gets. rewrite (sound_wal st Hs). by split.
Qed.

Lemma run_loop_sound l (m : M ()) st : safe m any -> sound st -> sound (run_loop l m st).
Proof.
  intros Hm Hs. unfold run_loop. specialize (Hm st Hs). destruct (m st) as [[?|?] st']; [apply Hm|].
  by apply (sound_frame st').
Qed.
End methods.

(** ** The cluster *)

(** The steps of a node that involve no other node and no submission. *)
Inductive internal_step (w : World) (cfg : NodeConfig) : NodeState -> NodeState -> Prop :=
| in_start st : bg_tasks st = [] -> internal_step w cfg st (start cfg st).2
| in_stop st : internal_step w cfg st (stop st).2
| in_heartbeat st :
    live HeartbeatLoop st -> running st = true ->
    internal_step w cfg st (run_loop HeartbeatLoop (heartbeat_round cfg) st)
| in_gossip st : live GossipLoop st -> internal_step w cfg st (run_loop GossipLoop (gossip_round cfg) st)
| in_reclaim st :
    live ReclaimLoop st -> reclaimer st = RIdle ->
    internal_step w cfg st (run_loop ReclaimLoop (reclaim_round cfg) st)
| in_audit now ps items st :
    live ReclaimLoop st -> reclaimer st = RAudit now ps items ->
    internal_step w cfg st (run_loop ReclaimLoop (reclaim_audit cfg now ps items) st)
| in_take st :
    live WorkerLoop st -> worker st = WIdle -> internal_step w cfg st (run_loop WorkerLoop (worker_take cfg) st)
| in_run i st :
    live WorkerLoop st -> worker st = WClaimed i ->
    internal_step w cfg st (run_loop WorkerLoop (worker_run cfg i) st)
| in_finish i o st :
    live WorkerLoop st -> worker st = WRunning i -> outcome_genuine i o ->
    internal_step w cfg st (run_loop WorkerLoop (worker_finish cfg i o) st)
| in_settle i s st :
    live WorkerLoop st -> worker st = WCommitted i s ->
    internal_step w cfg st (run_loop WorkerLoop (worker_settle cfg i s) st).

Lemma internal_sound w cfg st st' : internal_step w cfg st st' -> sound st -> sound st'.
Proof.
  intros Hstep Hs. pose proof (sound_worker st Hs) as Hw. pose proof (sound_audit st Hs) as Ha.
  destruct Hstep as [| | | | | | |i st Hl E|i o st Hl E Ho|];
    try (apply run_loop_sound; [|done]); try rewrite E in Hw.
  - by eapply keeps_state; [apply safe_start|].
  - by eapply keeps_state; [apply safe_stop|].
  - apply safe_heartbeat_round.
  - apply safe_gossip_round.
  - apply safe_reclaim_round.
  - apply safe_reclaim_audit. by match goal with E : reclaimer _ = _ |- _ => rewrite E in Ha end.
  - apply safe_worker_take.
  - by apply safe_worker_run.
  - by apply safe_worker_finish.
  - apply safe_worker_settle.
Qed.

Lemma internal_is_step w cfg st st' : internal_step w cfg st st' -> step_by w cfg st st'.
Proof. destruct 1; by econstructor. Qed.

(** The nodes of a cluster, and the messages on their way with their sender and their target. *)
Record ClusterState := {
  cl_state : pystr -> NodeState;
  cl_soup : list (pystr * pystr * Message);
}.

(** A message that no node of the cluster can verify. *)
Definition unverifiable (cfg : NodeConfig) (m : Message) : Prop :=
  enabled (security cfg) = true /\ verify_signature m (keyring cfg) <> Ok true.

Lemma unverifiable_refused `{World} cfg sender m st :
  unverifiable cfg m -> (authenticate_message cfg sender m st).1 <> Ok true.
Proof.
  intros [Hon Hv]. unfold authenticate_message. rewrite Hon. cbn [negb]. repeat (case_match; [done|]).
  unfold nbind, lift. destruct (verify_signature m (keyring cfg)) as [[]|]; done.
Qed.

Context (nodes : gset pystr) (cfgs : pystr -> NodeConfig) (worlds : pystr -> World).

(** The moves of the nodes and of the network: messages are received any number of times, in any order
    or never. *)
Inductive cluster_move : ClusterState -> ClusterState -> Prop :=
| cl_submit x i k p priority :
    i ∈ nodes -> submitted_with k p ->
    cluster_move x {| cl_state := at_node i (submit_task (cfgs i) k p priority (cl_state x i)).2 (cl_state x);
                      cl_soup := cl_soup x |}
| cl_internal x i st' :
    i ∈ nodes -> internal_step (worlds i) (cfgs i) (cl_state x i) st' ->
    cluster_move x {| cl_state := at_node i st' (cl_state x); cl_soup := cl_soup x |}
| cl_send x i to m rest :
    i ∈ nodes -> outbox (cl_state x i) = (to, m) :: rest ->
    cluster_move x {| cl_state := at_node i (set_outbox rest (cl_state x i)) (cl_state x);
                      cl_soup := cl_soup x ++ [(i, to, sorted_message m)] |}
| cl_receive x s j m :
    j ∈ nodes -> (s, j, m) ∈ cl_soup x -> live RecvLoop (cl_state x j) ->
    cluster_move x {| cl_state := at_node j (run_loop RecvLoop (receive_by (worlds j) (cfgs j) s m) (cl_state x j)) (cl_state x);
                      cl_soup := cl_soup x |}.

(** The adversary adds any message that it cannot sign for a provisioned peer, under any name. *)
Inductive cluster_step : ClusterState -> ClusterState -> Prop :=
| cl_move x y : cluster_move x y -> cluster_step x y
| cl_inject x s j m :
    (forall i, i ∈ nodes -> unverifiable (cfgs i) m) ->
    cluster_step x {| cl_state := cl_state x; cl_soup := cl_soup x ++ [(s, j, m)] |}.

Inductive cluster_reachable (init : pystr -> NodeState) : ClusterState -> Prop :=
| cluster_refl : cluster_reachable init {| cl_state := init; cl_soup := [] |}
| cluster_then x y : cluster_reachable init x -> cluster_step x y -> cluster_reachable init y.

(** A node that has not run yet, without a log. *)
Definition fresh (st : NodeState) : Prop :=
  tasks st = [] /\ wal st = None /\ worker st = WIdle /\ reclaimer st = RIdle /\ outbox st = [].

Lemma fresh_sound st : fresh st -> sound st.
Proof.
  intros (Et & Ew & Ek & Er & Eo). split; rewrite ?Et, ?Ew, ?Ek, ?Er, ?Eo; try done.
  intros k r []%elem_of_nil.
Qed.

Definition deliverable (m : Message) : Prop := letter_genuine m \/ forall i, i ∈ nodes -> unverifiable (cfgs i) m.

Definition cluster_sound (x : ClusterState) : Prop :=
  (forall i, i ∈ nodes -> sound (cl_state x i)) /\ Forall (fun l => deliverable l.2) (cl_soup x).

Lemma at_node_sound i st (f : pystr -> NodeState) :
  sound st -> (forall j, j ∈ nodes -> sound (f j)) -> forall j, j ∈ nodes -> sound (at_node i st f j).
Proof. intros Hst Hf j Hj. unfold at_node. destruct (decide (i = j)); auto. Qed.

Lemma cluster_step_sound x y : cluster_step x y -> cluster_sound x -> cluster_sound y.
Proof.
  intros Hstep [Hn Hl]. destruct Hstep as [x y Hmove|x s j m Hm].
  2: { split; [done|]. cbn. apply Forall_app. split; [done|]. constructor; [by right|done]. }
  destruct Hmove as [x i k p pr Hi Hk|x i st' Hi Hst|x i to m rest Hi Ho|x s j m Hj Hm Hlive].
  - split; [|done]. cbn. apply at_node_sound; [|done]. exact (keeps_state _ _ _ _ _ (safe_submit (cfgs i) k p pr Hk) (Hn i Hi)).
  - split; [|done]. apply at_node_sound; [|done]. exact (internal_sound _ _ _ _ Hst (Hn i Hi)).
  - pose proof (Hn i Hi) as Hs. pose proof (sound_outbox _ Hs) as Hout. rewrite Ho in Hout.
    apply Forall_cons in Hout as [Hm Hrest]. split; cbn.
    + apply at_node_sound; [|done]. destruct Hs. by split.
    + apply Forall_app. split; [done|]. constructor; [by left|done].
  - split; [|done]. apply at_node_sound; [|done]. apply run_loop_sound; [|by apply Hn].
    apply (Forall_forall (fun l => deliverable l.2)) with (x := (s, j, m)) in Hl as [Hg|Hu]; [| |done].
    + by apply safe_receive_genuine.
    + apply safe_receive_refused. intros st. apply unverifiable_refused. by apply Hu.
Qed.

(** C3: a cluster keeps its records genuine: from fresh nodes, whatever the interleaving of
    submissions, claims, executions, reclaims, restarts and gossip, whatever messages are lost, late,
    repeated or reordered, and whatever an adversary without the peers' keys injects, every record in
    the table of a node has a payload with which that task was submitted; a finished one has the result
    or the error that a handler gave for that task and payload, and an unfinished one has neither. *)
Theorem cluster_records_genuine (init : pystr -> NodeState) (x : ClusterState) (i k : pystr) (r : TaskRecord) :
  (forall j, j ∈ nodes -> fresh (init j)) -> cluster_reachable init x -> i ∈ nodes ->
  get_task k (cl_state x i) = Some r -> genuine k r.
Proof.
  intros Hinit Hx Hi Hr. assert (cluster_sound x) as [Hn _].
  { clear Hr. induction Hx as [|x y _ IH Hstep]; [|exact (cluster_step_sound _ _ Hstep IH)]. split; [|constructor].
    intros j Hj. by apply fresh_sound, Hinit. }
  apply (sound_tasks _ (Hn i Hi)). by apply dict_get_Some_elem.
Qed.
End provenance.

(** ** A sample: one node submits, claims, executes and commits a task *)

Definition toy_finished : NodeState :=
  run_loop WorkerLoop (worker_finish (toy_cfg true true) (toy_item true) (HReturn (str_bytes "out"))) (toy_running true).

Definition toy_submitted_with (k : pystr) (p : list byte) : Prop := k = str "t" /\ p = str_bytes "{}".
Definition toy_returned (k : pystr) (p b : list byte) : Prop := toy_submitted_with k p /\ b = str_bytes "out".
Definition toy_raised (k : pystr) (p : list byte) (e : pystr) : Prop := False.

Definition toy_reaches (x : ClusterState) : Prop :=
  cluster_reachable toy_submitted_with toy_returned toy_raised {[str "p1"]} (fun _ => toy_cfg true true)
    (fun _ => toy_world) (fun _ => toy_state true true) x.
Definition toy_at (st : NodeState) : Prop := exists x, toy_reaches x /\ cl_state x (str "p1") = st.

Lemma at_node_eq {A} i (a : A) f : at_node i a f i = a.
Proof. unfold at_node. by rewrite decide_True. Qed.

Lemma toy_at_internal st st' :
  toy_at st -> internal_step toy_returned toy_raised toy_world (toy_cfg true true) st st' -> toy_at st'.
Proof.
  intros (x & Hx & <-) Hst. eexists. split.
  - eapply cluster_then; [exact Hx|]. apply cl_move. eapply (cl_internal _ _ _ _ _ _ x (str "p1") st'); [set_solver|exact Hst].
  - apply at_node_eq.
Qed.

Lemma toy_at_finished : toy_at toy_finished.
Proof.
  assert (toy_at (toy_submitted true true)) as Hsub.
  { exists {| cl_state := at_node (str "p1") (toy_submitted true true) (fun _ => toy_state true true); cl_soup := [] |}.
    split; [|apply (at_node_eq (str "p1"))].
    eapply cluster_then; [apply cluster_refl|]. apply cl_move.
    apply (cl_submit _ _ _ _ (fun _ => toy_cfg true true) _ {| cl_state := fun _ => toy_state true true; cl_soup := [] |}
      (str "p1") (str "t") (str_bytes "{}") 0); [set_solver|done]. }
  assert (toy_at (toy_started true true)) as Hstart.
  { eapply toy_at_internal; [exact Hsub|]. unfold toy_started. apply in_start. vm_compute. reflexivity. }
  assert (toy_at (toy_claimed true)) as Hclaim.
  { eapply toy_at_internal; [exact Hstart|]. unfold toy_claimed. apply in_take; [|apply toy_started_idle].
    apply is_bg_live. vm_compute. reflexivity. }
  assert (toy_at (toy_running true)) as Hrun.
  { eapply toy_at_internal; [exact Hclaim|]. unfold toy_running. apply in_run; [|apply toy_claimed_item].
    apply is_bg_live. vm_compute. reflexivity. }
  eapply toy_at_internal; [exact Hrun|]. unfold toy_finished. apply in_finish.
  - apply is_bg_live. vm_compute. reflexivity.
  - vm_compute. reflexivity.
  - vm_compute. done.
Qed.

Lemma cluster_records_genuine_witness :
  exists r, get_task (str "t") toy_finished = Some r /\ genuine toy_submitted_with toy_returned toy_raised (str "t") r.
Proof.
  assert (match get_task (str "t") toy_finished with Some _ => true | None => false end = true) as Hsome
    by (vm_compute; reflexivity).
  destruct (get_task (str "t") toy_finished) as [r|] eqn:E; [|discriminate Hsome].
  exists r. split; [reflexivity|]. destruct toy_at_finished as (x & Hx & Hst).
  apply (cluster_records_genuine toy_submitted_with toy_returned toy_raised {[str "p1"]} (fun _ => toy_cfg true true)
    (fun _ => toy_world) (fun _ => toy_state true true) x (str "p1")).
  - intros j _. unfold fresh. split_and!; vm_compute; reflexivity.
  - exact Hx.
  - set_solver.
  - rewrite Hst. exact E.
Defined.

(** ** Two live claims of one task

    p1 gossips a pending task to p2, and both workers take it before either hears of the other's claim:
    both hold it under a lease that has not expired. *)
Definition p1_gossiped : NodeState := (gossip_round (toy_cfg true true) (toy_started true true)).2.
Definition p1_claim : NodeState := run_loop WorkerLoop (worker_take (toy_cfg true true)) p1_gossiped.
Definition p2_heard : NodeState :=
  (receive p2_cfg (str "p1") (sorted_message (last_sent p1_gossiped).2) (start p2_cfg blank_state).2).2.
Definition p2_claim : NodeState := run_loop WorkerLoop (worker_take p2_cfg) p2_heard.

Definition holds_live (p k : pystr) (st : NodeState) : bool :=
  match get_task k st with
  | Some r => bool_decide (state r = CLAIMED) && bool_decide (claimed_by r = Some p) && py_gt (lease_expiry r) (now_at (ticks st))
  | None => false
  end.

Example two_live_claims :
  holds_live (str "p1") (str "t") p1_claim = true /\ holds_live (str "p2") (str "t") p2_claim = true.
Proof. split; vm_compute; reflexivity. Qed.
