(* ===== verification/Bench.v ===== *)
(** * The convergence benchmark ([bench/gossip_convergence.py])

    The counting network, the topology that the benchmark builds, and what becomes of it: its nodes are
    given no key of one another, so none of them accepts a message and the test of convergence never
    succeeds. *)

From Stdlib Require Import ZArith NArith Lia.
From S2P Require Import Prelude PyFloat Text Json JsonFacts Security Consensus Crypto Lattice Heapq Queue.
From S2P Require Import Wal Metrics Failure Message SimNetwork Tcp Sha256 FloatText Node NodeLogic NodeFacts NodeTheorems Mesh.
From S2P Require Import NodeScenarios AntiEntropy Provenance.
Open Scope Z_scope.

(** ** [BenchSimNetwork] *)

Record BenchSimNetwork := {
  bench_net : SimNetwork;
  messages_routed : Z;
  bytes_routed : Z;
}.

Definition bench_network_init (n : SimNetwork) : BenchSimNetwork :=
  {| bench_net := n; messages_routed := 0; bytes_routed := 0 |}.

(** [BenchSimNetwork.route_message] up to the sleep of the network's own method. *)
Definition bench_route_begin (source target : pystr) (draw : float) (m : Message) (b : BenchSimNetwork)
    : result (option nat) * BenchSimNetwork :=
  let b1 := {| bench_net := bench_net b; messages_routed := messages_routed b + 1; bytes_routed := bytes_routed b |} in
  match message_to_bytes (256 * 1024) m with
  | Raise e => (Raise e, b1)
  | Ok data =>
      (Ok (route_begin source target draw (bench_net b)),
       {| bench_net := bench_net b; messages_routed := messages_routed b + 1;
          bytes_routed := bytes_routed b + len data |})
  end.

(** ** The topology of [measure_convergence_for_topology] *)

Definition numbered (prefix : string) (i : nat) : pystr := str prefix ++ N_str (N.of_nat i).
Definition bench_node_ids (node_count : nat) : list pystr := numbered "peer-" <$> List.seq 0 node_count.

(** Task [i] goes to node [i % node_count]. *)
Definition bench_tasks_of (node_count task_count j : nat) : list pystr :=
  numbered "bench-conv-task-" <$> filter (fun i => (i mod node_count)%nat = j) (List.seq 0 task_count).

Section bench.
Context `{Ed25519} `{MathLib} `{UnicodeDB}.

(** A node of the benchmark; [generated] is the key it makes for itself. *)
Definition bench_node (math_log2 : float -> float) (env_lease : option pystr) (generated : PrivateKey)
    (node_count : nat) (nid : pystr) : result (NodeConfig * NodeState) :=
  node_init math_log2 nid (filter (fun p => p <> nid) (bench_node_ids node_count)) false
    (Some (decimal_float false 5 0)) env_lease 1000 20 None generated [] default_security 10000.

(** The executions of a node that is given the tasks [ids]: what it does by itself, and messages from
    the other nodes. *)
Inductive bench_step (w : World) (cfg : NodeConfig) (ids : list pystr) : NodeState -> NodeState -> Prop :=
| bench_submit k p priority st : k ∈ ids -> bench_step w cfg ids st (submit_task cfg k p priority st).2
| bench_internal st st' :
    internal_step (fun _ _ _ => True) (fun _ _ _ => True) w cfg st st' -> bench_step w cfg ids st st'
| bench_transport sent rest st : outbox st = sent :: rest -> bench_step w cfg ids st (set_outbox rest st)
| bench_receive s m st :
    s <> node_id cfg -> live RecvLoop st ->
    bench_step w cfg ids st (run_loop RecvLoop (receive_by w cfg s m) st).

Inductive bench_reachable (w : World) (cfg : NodeConfig) (ids : list pystr) (st0 : NodeState) : NodeState -> Prop :=
| bench_refl : bench_reachable w cfg ids st0 st0
| bench_then st st' : bench_reachable w cfg ids st0 st -> bench_step w cfg ids st st' -> bench_reachable w cfg ids st0 st'.

(** ** Nothing is accepted *)

(** A node that knows no key but its own. *)
Definition knows_only_itself (cfg : NodeConfig) : Prop :=
  enabled (security cfg) = true /\ forall s, s <> node_id cfg -> has_peer s (keyring cfg) = false.

Lemma stranger_refused `{World} cfg s m st :
  knows_only_itself cfg -> s <> node_id cfg -> (authenticate_message cfg s m st).1 <> Ok true.
Proof.
  intros [Hon Hring] Hs. unfold authenticate_message. rewrite Hon, (Hring s Hs). cbn [negb].
  repeat (case_match; [done|]). done.
Qed.

Abbreviation sound_in ids := (sound (fun k _ => k ∈ ids) (fun _ _ _ => True) (fun _ _ _ => True)).

Lemma bench_step_sound w cfg ids st st' :
  knows_only_itself cfg -> bench_step w cfg ids st st' -> sound_in ids st -> sound_in ids st'.
Proof.
  intros Hown Hstep Hs. destruct Hstep as [k p pr st Hk|st st' Hin|sent rest st Ho|s m st Hne Hl].
  - exact (keeps_state _ _ _ _ _ (safe_submit (fun k _ => k ∈ ids) (fun _ _ _ => True) (fun _ _ _ => True) cfg k p pr Hk) Hs).
  - exact (internal_sound _ _ _ _ _ _ _ Hin Hs).
  - destruct Hs as [? ? ? ? Hout]. split; try done. rewrite Ho in Hout. by apply Forall_cons in Hout as [_ ?].
  - apply run_loop_sound; [|done]. apply safe_receive_refused. intros st1. by apply stranger_refused.
Qed.

(** A node that is built without a key ring and without a log knows no key but its own. *)
Lemma lonely_node log2 nid ps handler lease env mq ic key sec mt cfg st :
  node_init log2 nid ps handler lease env mq ic None key [] sec mt = Ok (cfg, st) -> enabled sec = true ->
  node_id cfg = nid /\ knows_only_itself cfg /\ fresh st.
Proof.
  unfold node_init. intros Hn Hon.
  change (get_peer_key nid []) with (@None PublicKey) in Hn. cbv iota in Hn. unfold add_peer in Hn. inv_result.
  injection Hn as <- <-. split_and!; [done| |done]. split; [done|]. intros s Hs. cbn in Hs |- *.
  unfold has_peer, dict_mem. cbn. by rewrite decide_False.
Qed.

(** The benchmark's nodes know no key but their own. *)
Lemma bench_node_alone log2 env key n nid cfg st :
  bench_node log2 env key n nid = Ok (cfg, st) -> node_id cfg = nid /\ knows_only_itself cfg /\ fresh st.
Proof. unfold bench_node. intros Hn. by eapply lonely_node. Qed.

Lemma bench_is_step w cfg ids st st' : bench_step w cfg ids st st' -> step_by w cfg st st'.
Proof.
  destruct 1 as [k p pr st Hk|st st' Hin|sent rest st Ho|s m st Hne Hl].
  - apply step_submit.
  - by apply internal_is_step in Hin.
  - by eapply step_transport.
  - by apply step_receive.
Qed.

Lemma bench_reachable_table w cfg ids st0 st :
  knows_only_itself cfg -> fresh st0 -> node_wf cfg st0 -> bench_reachable w cfg ids st0 st ->
  NoDup (tasks st).*1 /\ (tasks st).*1 ⊆ ids.
Proof.
  intros Hown Hfresh Hwf Hreach.
  assert (node_wf cfg st /\ sound_in ids st) as [Hwf' Hs].
  { induction Hreach as [|st st' _ [Hw Hs] Hstep]; [split; [done|by apply fresh_sound]|]. split.
    - apply (node_step_evolved cfg st st' (bench_is_step _ _ _ _ _ Hstep) Hw).
    - by eapply bench_step_sound. }
  split; [apply (wf_keys cfg st Hwf')|]. intros k ([k' r] & -> & Hin)%list_elem_of_fmap.
  by destruct (sound_tasks _ _ _ _ Hs k' r Hin).
Qed.

Lemma bench_share node_count task_count :
  (2 <= node_count)%nat -> (2 <= task_count)%nat -> len (bench_tasks_of node_count task_count 0) < Z.of_nat task_count.
Proof.
  intros Hn Ht. unfold bench_tasks_of, len. rewrite length_fmap.
  pose proof (length_filter_lt (fun i => (i mod node_count)%nat = 0%nat) (List.seq 0 task_count) 1%nat) as Hlt.
  rewrite length_seq in Hlt. apply inj_lt, Hlt; [apply elem_of_seq; lia|].
  rewrite Nat.mod_small by lia. done.
Qed.

(** The benchmark cannot succeed: with two nodes or more and two tasks or more, its first node never
    holds all the tasks, whatever the other nodes send and whatever it does itself, so the test of
    convergence fails at every point of every run. *)
Theorem bench_never_converges (w : World) (math_log2 : float -> float) (env_lease : option pystr)
    (generated : PrivateKey) (node_count task_count : nat) (cfg : NodeConfig) (st0 st : NodeState) (rest : list table) :
  (2 <= node_count)%nat -> (2 <= task_count)%nat ->
  bench_node math_log2 env_lease generated node_count (numbered "peer-" 0) = Ok (cfg, st0) ->
  bench_reachable w cfg (bench_tasks_of node_count task_count 0) st0 st ->
  is_converged (Z.of_nat task_count) (tasks st :: rest) = false.
Proof.
  intros Hn Ht Hb Hreach. destruct (bench_node_alone _ _ _ _ _ _ _ Hb) as (_ & Hown & Hfresh).
  assert (node_wf cfg st0) as Hwf by (unfold bench_node in Hb; by eapply node_init_wf).
  destruct (bench_reachable_table _ _ _ _ _ Hown Hfresh Hwf Hreach) as [Hnd Hsub].
  pose proof (bench_share node_count task_count Hn Ht) as Hshare.
  assert (length (tasks st).*1 <= length (bench_tasks_of node_count task_count 0))%nat as Hlen
    by (by apply submseteq_length, NoDup_submseteq).
  rewrite length_fmap in Hlen. unfold is_converged. unfold len in *.
  destruct (Z.eqb_spec (Z.of_nat (length (tasks st))) (Z.of_nat task_count)); [lia|done].
Qed.

(** ** The measurement *)

(** The keys of the dictionary that a measurement returns. *)
Record Convergence := {
  virtual_time_sec : float;
  rounds : nat;
  messages_sent : Z;
  bytes_sent : Z;
}.

Definition max_rounds : nat := 200.

(** [while not is_converged() and rounds < max_rounds]: [tables] are those of the nodes at each test. *)
Fixpoint rounds_from (fuel rounds : nat) (task_count : Z) (tables : nat -> list table) : nat :=
  match fuel with
  | O => rounds
  | S f => if is_converged task_count (tables rounds) then rounds else rounds_from f (S rounds) task_count tables
  end.

(** The loop, the assertion and the result of [measure_convergence_for_topology]; [net] is the network
    when the loop ends. *)
Definition measure (task_count : Z) (gossip_interval : float) (tables : nat -> list table) (net : BenchSimNetwork) : result Convergence :=
  let t_start := decimal_float false 100 0 in
  let n := rounds_from max_rounds 0 task_count tables in
  let now := Nat.iter n (fun t => fadd t gossip_interval) t_start in
  raise_if (negb (is_converged task_count (tables n))) AssertionError ;;!
  Ok {| virtual_time_sec := fsub now t_start; rounds := n; messages_sent := messages_routed net; bytes_sent := bytes_routed net |}.

(** The topologies of [run_gossip_benchmarks]. *)
Definition test_topologies : list (nat * nat) := [(3, 30); (5, 50); (10, 100)]%nat.

Lemma rounds_from_spec fuel r task_count tables :
  let n := rounds_from fuel r task_count tables in
  (r <= n <= r + fuel)%nat /\ (n < r + fuel -> is_converged task_count (tables n) = true)%nat /\
  (forall i, (r <= i < n)%nat -> is_converged task_count (tables i) = false).
Proof.
  cbv zeta. revert r. induction fuel as [|f IH]; intros r; cbn [rounds_from]; [split_and!; intros; lia|].
  destruct (is_converged task_count (tables r)) eqn:E; [split_and!; [lia|lia|done|intros; lia]|].
  destruct (IH (S r)) as (Hr & Hc & Hn). split_and!; [lia|lia|intros; apply Hc; lia|].
  intros i Hi. destruct (decide (i = r)) as [->|]; [done|]. apply Hn. lia.
Qed.

(** The loop ends after at most 200 rounds, at the first test that succeeds if there is one. *)
Lemma measure_rounds task_count gi tables net c :
  measure task_count gi tables net = Ok c ->
  (rounds c <= 200)%nat /\ is_converged task_count (tables (rounds c)) = true /\
  forall i, (i < rounds c)%nat -> is_converged task_count (tables i) = false.
Proof.
  unfold measure. intros Hm. inv_result. breflect. cbn [rounds].
  destruct (rounds_from_spec max_rounds 0 task_count tables) as (Hr & _ & Hb). unfold max_rounds in *.
  split_and!; [lia| |intros; apply Hb; lia].
  match goal with E : _ = true |- _ => exact E end.
Qed.

(** Every measurement of the benchmark fails its assertion, whatever its nodes do. *)
Theorem bench_measurement_fails (w : World) (math_log2 : float -> float) (env_lease : option pystr) (generated : PrivateKey)
    (node_count task_count : nat) (cfg : NodeConfig) (st0 : NodeState) (gi : float) (tables : nat -> list table) (net : BenchSimNetwork) :
  (node_count, task_count) ∈ test_topologies ->
  bench_node math_log2 env_lease generated node_count (numbered "peer-" 0) = Ok (cfg, st0) ->
  (forall n, exists st rest, tables n = tasks st :: rest /\ bench_reachable w cfg (bench_tasks_of node_count task_count 0) st0 st) ->
  measure (Z.of_nat task_count) gi tables net = Raise AssertionError.
Proof.
  intros Ht Hb Htab. unfold measure. destruct (Htab (rounds_from max_rounds 0 (Z.of_nat task_count) tables)) as (st & rest & -> & Hr).
  rewrite (bench_never_converges w math_log2 env_lease generated node_count task_count cfg st0 st rest); [done| | |done|done].
  all: unfold test_topologies in Ht; set_unfold in Ht; destruct_or?; simplify_eq; lia.
Qed.
End bench.

(** ** A sample: two nodes, four tasks *)

Definition bench_pair : result (NodeConfig * NodeState) :=
  bench_node (fun _ => fzero) None (toy_seed 1) 2 (numbered "peer-" 0).

Example bench_share_sample : bench_tasks_of 2 4 0 = [str "bench-conv-task-0"; str "bench-conv-task-2"].
Proof. vm_compute. reflexivity. Qed.

Lemma bench_never_converges_witness :
  exists cfg st0, bench_pair = Ok (cfg, st0) /\
    is_converged 4 [tasks (submit_task cfg (str "bench-conv-task-2") (str_bytes "x") 0 st0).2; []] = false.
Proof.
  assert (is_ok bench_pair = true) as Hok by (vm_compute; reflexivity).
  destruct bench_pair as [[cfg st0]|] eqn:E; [|discriminate Hok]. exists cfg, st0. split; [reflexivity|].
  apply (bench_never_converges toy_world (fun _ => fzero) None (toy_seed 1) 2 4 cfg st0); [lia|lia|exact E|].
  eapply bench_then; [apply bench_refl|]. apply bench_submit. apply (bool_decide_unpack _). vm_compute. exact I.
Defined.

(** The first topology of the benchmark, had its nodes done nothing. *)
Definition bench_first : result (NodeConfig * NodeState) :=
  bench_node (fun _ => fzero) None (toy_seed 1) 3 (numbered "peer-" 0).

Lemma bench_measurement_fails_witness :
  exists cfg st0, bench_first = Ok (cfg, st0) /\
    measure 30 (decimal_float false 5 (-1)) (fun _ => [tasks st0; []; []]) (bench_network_init (sim_network_init true)) = Raise AssertionError.
Proof.
  assert (is_ok bench_first = true) as Hok by (vm_compute; reflexivity).
  destruct bench_first as [[cfg st0]|] eqn:E; [|discriminate Hok]. exists cfg, st0. split; [reflexivity|].
  apply (bench_measurement_fails toy_world (fun _ => fzero) None (toy_seed 1) 3 30 cfg st0).
  - apply list_elem_of_here.
  - exact E.
  - intros n. exists st0, [[]; []]. split; [reflexivity|apply bench_refl].
Defined.
