(* ===== verification/Robust.v ===== *)
(** * The background loops do not end: nodes that never crash

    An exception that escapes from one of the five background loops of a node ends that loop silently,
    and makes [stop] raise before it has cancelled the others.  Here is what keeps the loops alive in a
    cluster of correct nodes, whatever is sent by an adversary without their keys, for as long as the
    counters of the records can be written in JSON; and how a counter of 4300 digits ends one. *)

From Stdlib Require Import ZArith NArith Lia.
From S2P Require Import Prelude PyFloat Text Json JsonFacts Security Consensus Crypto Lattice Heapq Queue.
From S2P Require Import Wal Metrics Failure Message Encodable SimNetwork Tcp Sha256 FloatText Node NodeLogic NodeFacts NodeTheorems Mesh.
From S2P Require Import NodeScenarios Worker AntiEntropy Provenance.
Open Scope Z_scope.
Open Scope node_scope.

(** The computations that raise nothing. *)
Abbreviation never := (fun _ _ => False).

Lemma jget_sort_keys k d d' : NoDup d.*1 -> sort_keys (JObj d) = JObj d' -> jget k d' = sort_keys (jget k d).
Proof. intros Hnd Hd. change (sort_keys (JObj d)) with (JObj (sort_items (map (fun kv => (kv.1, sort_keys kv.2)) d))) in Hd.
  injection Hd as <-. by apply jget_sorted. Qed.

Lemma json_ok_fields d :
  NoDup d.*1 -> (forall k v, (k, v) ∈ d -> scalar_str k = true /\ json_ok v = true) -> json_ok (JObj d) = true.
Proof.
  intros Hnd Hd. change (bool_decide (NoDup d.*1) && forallb (fun kv => scalar_str kv.1 && json_ok kv.2) d = true).
  rewrite bool_decide_eq_true_2 by done. apply forallb_Forall, Forall_forall. intros [k v] Hin. destruct (Hd k v Hin) as [? ?].
  by apply andb_true_iff.
Qed.

(** ** States from which nothing is raised *)

(** The counters of a clock are positive and below [n], and its peers have encodable names. *)
Definition clock_between (n : Z) (c : VectorClock) : Prop :=
  forall k v, clock c !! k = Some v -> scalar_str k = true /\ 0 < v < n.

Lemma clock_between_below n c : clock_between n c -> clock_below n c.
Proof. intros Hc k v Hk. by destruct (Hc k v Hk) as (? & ? & ?). Qed.

Lemma clock_between_wf n c : clock_between n c -> vc_wf c.
Proof. intros Hc k v Hk. by destruct (Hc k v Hk) as (? & ? & ?). Qed.

Lemma clock_between_make n c : clock_below n c -> vc_wf c -> clock_between n c.
Proof. intros Hb Hw k v Hk. destruct (Hb k v Hk) as [? ?]. split; [done|]. split; [by eapply Hw|done]. Qed.

Lemma clock_between_mono n n' c : n <= n' -> clock_between n c -> clock_between n' c.
Proof. intros Hn Hc k v Hk. destruct (Hc k v Hk) as (? & ? & ?). split; [done|lia]. Qed.

Lemma clock_between_increment n c p :
  1 <= n -> scalar_str p = true -> clock_between n c -> clock_between (n + 1) (increment c p).
Proof.
  intros Hn Hp Hc. apply clock_between_make; [|apply increment_wf].
  apply clock_below_increment; [done|done|by apply clock_between_below].
Qed.

Lemma clock_between_merge n a b : clock_between n a -> clock_between n b -> clock_between n (vc_merge a b).
Proof.
  intros Ha Hb k v Hk.
  pose proof (vc_get_merge a b k (clock_between_wf _ _ Ha) (clock_between_wf _ _ Hb)) as Hg.
  pose proof (vc_merge_wf a b k v Hk) as Hpos. unfold vc_get in Hg. rewrite Hk in Hg. cbn in Hg, Hpos.
  destruct (clock a !! k) as [x|] eqn:Ea, (clock b !! k) as [y|] eqn:Eb; cbn in Hg.
  - destruct (Ha k x Ea) as (? & ? & ?), (Hb k y Eb) as (? & ? & ?). split; [done|lia].
  - destruct (Ha k x Ea) as (? & ? & ?). split; [done|lia].
  - destruct (Hb k y Eb) as (? & ? & ?). split; [done|lia].
  - lia.
Qed.

(** A reading of the clock reached the detector with every heartbeat. *)
Definition heard (w : World) (beats : list (pystr * float)) : PhiAccrualDetector :=
  foldl (fun d b => heartbeat b.1 b.2 d) (detector_init 1000 5 (decimal_float false 1 (-4))) beats.
Definition at_readings (w : World) (beats : list (pystr * float)) : Prop :=
  Forall (fun b => exists i, b.2 = now_at i) beats.

Section robust.
Context `{Ed25519} `{MathLib} `{UnicodeDB}.

(** With which payloads tasks are submitted. *)
Context (submitted_with : pystr -> list byte -> Prop).

(** A record that can be written, with counters below [n]. *)
Record record_calm (n : Z) (k : pystr) (r : TaskRecord) : Prop := {
  rc_id : scalar_str (task_id r) = true;
  rc_error : opt_ok scalar_str (task_error r) = true;
  rc_claim : opt_ok scalar_str (claimed_by r) = true;
  rc_updated : scalar_str (updated_by r) = true;
  rc_signer : opt_ok scalar_str (signer_id r) = true;
  rc_token : scalar_str (ft_peer_id (fence_token r)) = true;
  rc_epoch : 0 <= epoch (fence_token r) < n;
  rc_lease : float_ok (lease_expiry r) = true;
  rc_clock : clock_between n (vector_clock r);
  rc_payload : submitted_with k (payload r);
}.

Lemma record_calm_text n k r : n <= 2 ^ 63 -> record_calm n k r -> record_text_ok r = true.
Proof.
  intros Hn []. unfold record_text_ok.
  assert (json_ok (JInt (epoch (fence_token r))) = true) as -> by (apply int_json_ok; lia).
  rewrite (clock_below_text n) by (done || by eapply clock_between_wf || by apply clock_between_below).
  rewrite !andb_true_iff. tauto.
Qed.

Lemma record_calm_mono n n' k r : n <= n' -> record_calm n k r -> record_calm n' k r.
Proof. intros Hn []. split; try done; [lia|by eapply clock_between_mono]. Qed.

(** A sealed copy of a record that can be written. *)
Lemma record_calm_same n k r r' : same_content r' r -> record_text_ok r' = true -> record_calm n k r -> record_calm n k r'.
Proof.
  intros (E1 & E2 & E3 & E4 & E5 & E6 & E7 & E8 & E9 & E10)%same_content_fields Ht [].
  unfold record_text_ok in Ht. rewrite !andb_true_iff in Ht. split; rewrite ?E1, ?E2, ?E3, ?E4, ?E5, ?E6, ?E7, ?E8, ?E9, ?E10; tauto.
Qed.

Lemma record_calm_merge n k a b : record_calm n k a -> record_calm n k b -> record_calm n k (merge_core a b).
Proof.
  intros Ha Hb. pose proof (clock_between_merge n _ _ (rc_clock _ _ _ Ha) (rc_clock _ _ _ Hb)) as Hm.
  unfold merge_core, merge_winner. destruct (py_ge _ _); [destruct Ha|destruct Hb]; by split.
Qed.

(** A message, as it is on the wire, that can be verified and whose records can be read. *)
Definition letter_calm (n : Z) (m : Message) : Prop :=
  is_ok (message_bytes m) = true /\
  (msg_type m = str "gossip" ->
  forall raws k raw, dict_get (str "tasks") (msg_payload m) = Some (JObj raws) -> (k, raw) ∈ raws ->
    match from_dict raw with Ok r => record_calm n k r | Raise e => catches_type_value e = true end).

Lemma letter_calm_mono n n' m : n <= n' -> letter_calm n m -> letter_calm n' m.
Proof.
  intros Hn [Hb Hm]. split; [done|]. intros Hty raws k raw Hr Hin. specialize (Hm Hty raws k raw Hr Hin). destruct (from_dict raw); [|done].
  by apply (record_calm_mono n).
Qed.

Lemma other_calm n m :
  msg_type m <> str "gossip" -> is_ok (message_bytes (sorted_message m)) = true -> letter_calm n (sorted_message m).
Proof. intros Hm Hb. split; [done|]. intros Hty. by destruct (Hm Hty). Qed.

(** The records of a gossip, as its sender builds it. *)
Lemma gossip_calm n m (ts : table) :
  msg_payload m = [(str "tasks", JObj ((fun kv => (kv.1, JObj (to_dict kv.2))) <$> ts))] ->
  (forall k r, (k, r) ∈ ts -> record_calm n k r) -> is_ok (message_bytes (sorted_message m)) = true ->
  letter_calm n (sorted_message m).
Proof.
  intros Hp Hts Hb. split; [done|]. intros _ raws k raw Hr Hin. destruct (gossip_records m ts raws k raw Hp Hr Hin) as (r & -> & Hk).
  specialize (Hts k r Hk). destruct (from_dict _) as [r'|e] eqn:Hd.
  - apply from_dict_reads in Hd as ->. rewrite VectorClock_init_id by (eapply clock_between_wf, rc_clock, Hts).
    by destruct r.
  - destruct (from_dict_raises _ _ Hd) as [->|(_ & data & z & Hv & Hz & _)]; [done|].
    pose proof (to_dict_keys_NoDup r) as nd. rewrite (jget_sort_keys _ _ _ nd Hv) in Hz.
    revert Hz. by jget_field (to_dict r) nd "lease_expiry"%string.
Qed.

(** ** The states of a node *)

Section methods.
Context `{w : World} (cfg : NodeConfig).

(** The item of a worker. *)
Definition item_calm (n : Z) (i : WorkItem) : Prop :=
  submitted_with (w_task_id i) (payload (w_record i)) /\ ft_peer_id (w_token i) = node_id cfg /\
  0 <= epoch (w_token i) < n /\ float_ok (w_lease_exp i) = true.

Definition worker_calm (n : Z) (p : WorkerPhase) : Prop :=
  match p with WIdle => True | WClaimed i | WRunning i | WCommitted i _ => item_calm n i end.

Definition table_calm (n : Z) (ts : table) : Prop := forall k r, (k, r) ∈ ts -> record_calm n k r.

Definition audit_calm (n : Z) (p : ReclaimPhase) : Prop :=
  match p with
  | RIdle => True
  | RAudit _ live items => Forall (fun p => scalar_str p = true) live /\ table_calm n items
  end.

Record calm (n : Z) (st : NodeState) : Prop := {
  calm_wal : wal st = None;
  calm_clock : clock_between n (node_clock st);
  calm_keys : NoDup (tasks st).*1;
  calm_tasks : table_calm n (tasks st);
  calm_worker : worker_calm n (worker st);
  calm_audit : audit_calm n (reclaimer st);
  calm_detector : exists beats, at_readings w beats /\ failure_detector st = heard w beats;
  calm_loops : forall l e, (l, Crashed e) ∉ bg_tasks st;
  calm_outbox : Forall (fun pm => letter_calm n (sorted_message pm.2)) (outbox st);
}.

(** What a node needs of its surroundings: readings and leases that are finite, names that can be
    encoded, and a suspicion level for every history of heartbeats. *)
Record steady : Prop := {
  st_env : env_ok cfg;
  st_now : forall i, float_ok (now_at i) = true;
  st_peers : Forall (fun p => scalar_str p = true) (peers cfg);
  st_tasks : forall k p i, submitted_with k p ->
    scalar_str k = true /\ float_ok (fadd (now_at i) (task_lease_duration cfg p)) = true;
  st_detector : forall beats p i, at_readings w beats ->
    exists b, is_suspected p phi_threshold (now_at i) (heard w beats) = Ok b;
}.

Lemma item_calm_mono n n' i : n <= n' -> item_calm n i -> item_calm n' i.
Proof. intros Hn (? & ? & ? & ?). split_and!; [done|done|lia|lia|done]. Qed.

Lemma calm_mono n n' st : n <= n' -> calm n st -> calm n' st.
Proof.
  intros Hn []. split; try done.
  - by eapply clock_between_mono.
  - intros k r Hin. by eapply record_calm_mono; [|eauto].
  - destruct (worker st); try done; by eapply item_calm_mono.
  - destruct (reclaimer st); [done|]. destruct calm_audit0 as [? Ht]. split; [done|]. intros k r Hin.
    by eapply record_calm_mono; [|eauto].
  - eapply Forall_impl; [done|]. intros pm. by apply letter_calm_mono.
Qed.

Lemma calm_frame n st st' :
  (wal st', node_clock st', tasks st', worker st', reclaimer st', failure_detector st', bg_tasks st', outbox st') =
  (wal st, node_clock st, tasks st, worker st, reclaimer st, failure_detector st, bg_tasks st, outbox st) ->
  calm n st -> calm n st'.
Proof. intros [= E1 E2 E3 E4 E5 E6 E7 E8] []. split; by rewrite ?E1, ?E2, ?E3, ?E4, ?E5, ?E6, ?E7, ?E8. Qed.

Context (Hst : steady).

(** Computations that raise nothing: those that leave the counters below [n], and those that count once. *)
Abbreviation quiet n := (keeps (calm n) (calm n) never).
Abbreviation rises n := (keeps (calm n) (calm (n + 1)) never).

Lemma quiet_rises {A} n (m : M A) post : quiet n m post -> rises n m post.
Proof. intros Hm. eapply keeps_weaken; [exact Hm|done| |done]. intros st. apply calm_mono. lia. Qed.

(** A computation that returns. *)
Lemma quiet_runs {A} n (m : M A) (post : A -> Prop) :
  (forall st, calm n st -> runs m st (fun a st' => calm n st' /\ post a)) -> quiet n m post.
Proof. intros Hm st Hs. destruct (Hm st Hs) as (a & st' & -> & ?). done. Qed.

Lemma quiet_frame n f :
  (forall st, (wal (f st), node_clock (f st), tasks (f st), worker (f st), reclaimer (f st), failure_detector (f st), bg_tasks (f st), outbox (f st)) =
    (wal st, node_clock st, tasks st, worker st, reclaimer st, failure_detector st, bg_tasks st, outbox st)) ->
  quiet n (modify f) any.
Proof. intros Hf. apply keeps_modify. intros st. by apply calm_frame. Qed.

Lemma quiet_read {A} n (f : nat -> A) (post : A -> Prop) :
  (forall i, post (f i)) -> quiet n (fun st => (Ok (f (ticks st)), tick st)) post.
Proof. intros Hf st Hs. split; [by apply (calm_frame n st)|done]. Qed.

Lemma quiet_incr n name : quiet n (incr name) any.
Proof. by apply quiet_frame. Qed.

Definition reading (x : float) : Prop := float_ok x = true /\ exists i, x = now_at i.

Lemma quiet_now n : quiet n clock_now reading.
Proof. apply quiet_read. intros i. split; [apply Hst|by exists i]. Qed.

Lemma quiet_any {A} n (f : NodeState -> A) : quiet n (gets f) any.
Proof. by apply keeps_gets. Qed.

Lemma quiet_clock n : quiet n (gets node_clock) (clock_between n).
Proof. apply keeps_gets. by intros st []. Qed.

Lemma quiet_tasks n : quiet n (gets tasks) (fun ts => NoDup ts.*1 /\ table_calm n ts).
Proof. apply keeps_gets. by intros st []. Qed.

Lemma rises_bump n : 1 <= n -> rises n (bump_clock cfg) any.
Proof.
  intros Hn. apply keeps_modify. intros st Hs. destruct (calm_mono n (n + 1) st ltac:(lia) Hs). split; try done.
  cbn. apply clock_between_increment; [done|apply Hst|apply Hs].
Qed.

Lemma quiet_store n k r : record_calm n k r -> quiet n (store_task k r) any.
Proof.
  intros Hr. apply keeps_modify. intros st []. split; try done; cbn; [by apply dict_set_NoDup|].
  intros k' r' [[= -> ->]|Hin]%dict_set_elem; auto.
Qed.

Lemma quiet_set_worker n p : worker_calm n p -> quiet n (modify (set_worker p)) any.
Proof. intros Hp. apply keeps_modify. intros st []. by split. Qed.

Lemma quiet_set_reclaimer n p : audit_calm n p -> quiet n (modify (set_reclaimer p)) any.
Proof. intros Hp. apply keeps_modify. intros st []. by split. Qed.

Lemma quiet_merge_clock n c :
  clock_between n c -> quiet n (modify (fun st => set_clock (vc_merge (node_clock st) c) st)) any.
Proof. intros Hc. apply keeps_modify. intros st []. split; try done. by apply clock_between_merge. Qed.

Lemma quiet_sends n m ps : letter_calm n (sorted_message m) -> quiet n (for_each (fun p => send p m) ps) any.
Proof.
  intros Hm. apply keeps_for_each, Forall_forall. intros p _. apply keeps_modify. intros st []. split; try done. cbn.
  apply Forall_app. split; [done|by constructor].
Qed.

Lemma quiet_send n p m : letter_calm n (sorted_message m) -> quiet n (send p m) any.
Proof. intros Hm. apply keeps_modify. intros st []. split; try done. cbn. apply Forall_app. split; [done|by constructor]. Qed.

Lemma quiet_enqueue n k p : quiet n (enqueue k p) any.
Proof.
  apply (keeps_catch (calm n) (calm n) (fun e st => e = QueueFull /\ calm n st)).
  - eapply keeps_bind; [by apply (keeps_gets _ _ any)|]. intros q _.
    unfold put_nowait. destruct (full q); [by intros st Hs|]. apply (keeps_bind _ (calm n) _ _ _ any); [by eapply keeps_ok|].
    intros q' _. eapply (keeps_then _ (calm n)); apply keeps_modify; intros st; by apply (calm_frame n).
  - intros e He. apply (keeps_weaken (calm n) (calm n) _ _ _ any); [by apply keeps_ret| |done..]. by intros st [_ ?].
  - intros e st He [-> _]. by cbn in He.
Qed.

Lemma quiet_requeue n k r : quiet n (requeue_pending k r) any.
Proof. eapply keeps_bind; [apply quiet_any|]. intros qi _. apply keeps_when. intros _. apply quiet_enqueue. Qed.

Lemma quiet_wal_append n r : quiet n (wal_append r) any.
Proof. intros st Hs. unfold wal_append, nbind, gets. by rewrite (calm_wal n st Hs). Qed.

Lemma quiet_seal n k r : n <= 2 ^ 63 -> record_calm n k r -> quiet n (seal_record cfg r) (record_calm n k).
Proof.
  intros Hn Hr. apply quiet_runs. intros st Hs.
  eapply runs_weaken; [apply seal_runs; [apply Hst|by eapply record_calm_text]|].
  intros r' st' (-> & Hc & Ht & _). split; [done|]. by eapply record_calm_same.
Qed.

Lemma quiet_signed n mt p : scalar_str mt = true -> json_ok (JObj p) = true ->
  quiet n (signed_message cfg mt p) (fun m => msg_type m = mt /\ msg_payload m = p /\ is_ok (message_bytes (sorted_message m)) = true).
Proof.
  intros Hmt Hp. apply quiet_runs. intros st Hs. eapply runs_weaken; [by apply signed_message_runs; [apply Hst|..]|].
  intros m st' ((ts & t & Hm & _) & -> & Hb). destruct (signed_inv _ _ _ _ _ Hm) as (_ & _ & _ & _ & Hp' & Hmt' & _).
  split; [by apply (calm_frame n st)|by split_and!].
Qed.

Lemma quiet_gossip n (ts : table) (k : Message -> M ()) :
  n <= 2 ^ 63 -> NoDup ts.*1 -> table_calm n ts -> (forall m, letter_calm n (sorted_message m) -> quiet n (k m) any) ->
  quiet n (nbind (signed_message cfg (str "gossip") [(str "tasks", JObj ((fun kv => (kv.1, JObj (to_dict kv.2))) <$> ts))]) k) any.
Proof.
  intros Hn Hnd Hts Hk. eapply keeps_bind; [apply quiet_signed; [done|]|].
  - apply json_ok_fields; [apply NoDup_singleton|]. intros ? ? [= -> ->]%list_elem_of_singleton. split; [done|].
    apply json_ok_fields; [by rewrite <- list_fmap_compose|]. intros k0 v Hin.
    apply list_elem_of_fmap in Hin as ([k' r] & [= -> ->] & Hin). specialize (Hts k' r Hin). split.
    + by apply (st_tasks Hst _ _ 0%nat (rc_payload _ _ _ Hts)).
    + apply to_dict_json_ok. by eapply record_calm_text.
  - intros m (_ & Hp & Hb). apply Hk. by eapply gossip_calm.
Qed.

Lemma quiet_broadcast n k r : n <= 2 ^ 63 -> record_calm n k r -> quiet n (broadcast_task_update cfg k r) any.
Proof.
  intros Hn Hr. eapply keeps_bind; [by apply (quiet_seal n k)|]. intros r' Hr'.
  eapply keeps_then; [by apply quiet_store|]. eapply keeps_then; [apply quiet_wal_append|].
  apply (quiet_gossip n [(k, r')]); [done|apply NoDup_singleton|by intros ? ? [= -> ->]%list_elem_of_singleton|].
  intros m. apply quiet_sends.
Qed.

Lemma quiet_suspected n p : quiet n (suspected p) any.
Proof.
  intros st Hs. destruct (calm_detector n st Hs) as (beats & Hb & Ed).
  destruct (st_detector Hst beats p (ticks st) Hb) as [b Es].
  unfold suspected, clock_now, nbind, gets, lift. cbn [tick upd2 failure_detector]. rewrite Ed, Es.
  split; [by apply (calm_frame n st)|done].
Qed.

(** ** The worker *)

Lemma work_record_calm n i s res err lease vc :
  item_calm n i -> opt_ok scalar_str err = true -> float_ok lease = true -> clock_between n vc ->
  record_calm n (w_task_id i) (work_record cfg i s res err lease vc).
Proof.
  intros (Hs & Hp & He & Hl) Herr Hle Hc. pose proof (env_name _ (st_env Hst)) as Hname.
  split; cbn; try done; [by apply (st_tasks Hst _ _ 0%nat Hs)|by rewrite Hp].
Qed.

Lemma rises_worker_take n : 1 <= n -> n + 1 <= 2 ^ 63 -> rises n (worker_take cfg) any.
Proof.
  intros Hlo Hn. eapply (keeps_bind _ (calm n)); [apply quiet_any|]. intros q _.
  destruct (get_section q) as [[[? k] q']|]; [|by apply quiet_rises, keeps_ret].
  eapply (keeps_then _ (calm n)); [by apply quiet_frame|]. eapply (keeps_then _ (calm n)); [by apply quiet_frame|].
  eapply (keeps_bind _ (calm n)); [apply quiet_tasks|]. intros ts [_ Hts].
  destruct (dict_get k ts) as [r|] eqn:Er; [|by apply quiet_rises, keeps_ret].
  pose proof (Hts k r (dict_get_Some_elem _ _ _ Er)) as Hr. case_match; [by apply quiet_rises, keeps_ret|].
  eapply (keeps_bind _ (calm n)); [apply quiet_now|]. intros now _.
  eapply (keeps_bind _ (calm n) _ _ _ any). { unfold is_active_claim. case_match; [|by apply keeps_ret].
    eapply (keeps_bind _ (calm n)); [apply quiet_suspected|]. intros sp _. by apply keeps_ret. }
  intros active _. destruct active; [by apply quiet_rises, keeps_ret|]. eapply keeps_then; [by apply rises_bump|].
  eapply keeps_bind; [apply quiet_now|]. intros now' [_ [i ->]]. cbv zeta.
  match goal with |- context [work_record cfg ?i0] => assert (item_calm (n + 1) i0) as Hi; [|set (it := i0) in *] end.
  { pose proof (rc_epoch _ _ _ Hr). split_and!; cbn; [apply Hr|done|lia|lia|].
    by apply (st_tasks Hst k (payload r) i), Hr. }
  eapply keeps_bind; [apply quiet_clock|]. intros vc Hvc.
  eapply keeps_bind; [apply (quiet_seal (n + 1) (w_task_id it)); [done|by apply work_record_calm; [..|apply Hi|]]|]. intros c Hc.
  eapply keeps_then; [by apply quiet_store|]. eapply keeps_then; [apply quiet_incr|].
  eapply keeps_then; [by apply quiet_broadcast|]. by apply quiet_set_worker.
Qed.

Lemma quiet_worker_run n i : n <= 2 ^ 63 -> item_calm n i -> quiet n (worker_run cfg i) any.
Proof.
  intros Hn Hi. eapply keeps_bind; [apply quiet_clock|]. intros vc Hvc.
  eapply keeps_bind; [apply (quiet_seal n (w_task_id i)); [done|by apply work_record_calm; [..|apply Hi|]]|]. intros r Hr.
  eapply keeps_then; [by apply quiet_store|by apply quiet_set_worker].
Qed.

Lemma rises_worker_finish n i o : 1 <= n -> n + 1 <= 2 ^ 63 -> item_calm n i -> outcome_text_ok o = true ->
  rises n (worker_finish cfg i o) any.
Proof.
  intros Hlo Hn Hi Ho. unfold worker_finish.
  destruct (match o with HReturn b => _ | HRaise s => _ end) as [[res err] ns] eqn:Eo.
  assert (opt_ok scalar_str err = true) as Herr by (destruct o; injection Eo as <- <- <-; done).
  eapply (keeps_bind _ (calm n)); [apply quiet_now|]. intros now _. eapply (keeps_bind _ (calm n)); [apply quiet_tasks|]. intros ts _.
  assert (rises n (rejected ;;* modify (set_worker WIdle)) any) as Hreject.
  { eapply (keeps_then _ (calm n)); [apply quiet_incr|by apply quiet_rises, quiet_set_worker]. }
  destruct (py_gt now (w_lease_exp i)); [done|]. destruct (match dict_get (w_task_id i) ts with Some c => _ | None => _ end); [done|].
  assert (item_calm (n + 1) i) as Hi' by (eapply item_calm_mono; [|done]; lia).
  eapply keeps_then; [by apply rises_bump|]. eapply keeps_bind; [apply quiet_clock|]. intros vc Hvc.
  eapply keeps_bind; [apply (quiet_seal (n + 1) (w_task_id i)); [done|by apply work_record_calm; [..|vm_compute|]]|]. intros r Hr.
  eapply keeps_then; [by apply quiet_store|]. eapply keeps_then; [by apply quiet_broadcast|by apply quiet_set_worker].
Qed.

Lemma quiet_worker_settle n i s : quiet n (worker_settle cfg i s) any.
Proof.
  eapply keeps_then; [apply quiet_incr|]. eapply keeps_then; [|by apply quiet_set_worker]. apply keeps_when. intros _.
  eapply keeps_bind; [by apply quiet_signed; vm_compute|]. intros m (Hty & _ & Hb). apply quiet_send, other_calm; [by rewrite Hty|done].
Qed.

(** ** Dissemination *)

Lemma quiet_heartbeat_round n : quiet n (heartbeat_round cfg) any.
Proof.
  eapply keeps_bind; [apply quiet_now|]. intros now [Hnow _]. eapply keeps_bind; [apply quiet_signed; [done|]|].
  - apply json_ok_fields; [apply NoDup_singleton|]. by intros ? ? [= -> ->]%list_elem_of_singleton.
  - intros m (Hty & _ & Hb). apply quiet_sends, other_calm; [by rewrite Hty|done].
Qed.

Lemma quiet_gossip_round n : n <= 2 ^ 63 -> quiet n (gossip_round cfg) any.
Proof.
  intros Hn. eapply keeps_bind; [apply quiet_tasks|]. intros ts [Hnd Hts]. destruct (peers cfg) as [|p ps]; [by apply keeps_ret|].
  destruct ts as [|kv ts]; [by apply keeps_ret|]. eapply keeps_bind; [by apply (quiet_read n choice_at any)|]. intros i _.
  apply (quiet_gossip n); [done| | |].
  - assert (take (Z.to_nat (max_gossip_tasks (security cfg))) (sort_items (kv :: ts)) `sublist_of` sort_items (kv :: ts)) as Hsub
      by apply sublist_take. eapply sublist_NoDup; [|by apply fmap_sublist].
    unfold sort_items. by rewrite sort_by_perm.
  - intros k r Hin%subseteq_take. apply Hts. unfold sort_items in Hin. by rewrite sort_by_perm in Hin.
  - intros m. apply quiet_send.
Qed.

(** ** The audit *)

Lemma score_ok tid p : scalar_str tid = true -> scalar_str p = true -> exists z, score tid p = Ok z.
Proof.
  intros Ht Hp. unfold score. destruct (utf8_encode_scalar (tid ++ str ":" ++ p)) as [b ->]; [|by eexists].
  unfold scalar_str in *. apply forallb_Forall in Ht, Hp. apply Forall_app. split; [by eapply Forall_impl|].
  constructor; [done|by eapply Forall_impl].
Qed.

Lemma max_by_score_ok tid best b l :
  scalar_str tid = true -> Forall (fun p => scalar_str p = true) l -> exists p, max_by_score tid best b l = Ok p.
Proof.
  intros Ht Hl. revert best b. induction Hl as [|p l Hp Hl IH]; intros best b; cbn [max_by_score]; [by eexists|].
  destruct (score_ok tid p Ht Hp) as [z ->]. cbn [rbind]. by case_match.
Qed.

Lemma rendezvous_ok tid l :
  scalar_str tid = true -> Forall (fun p => scalar_str p = true) l -> exists o, rendezvous_reclaimer tid l = Ok o.
Proof.
  intros Ht [|p l' Hp Hl]; cbn [rendezvous_reclaimer]; [by eexists|]. destruct (score_ok tid p Ht Hp) as [z ->]. cbn [rbind].
  destruct (max_by_score_ok tid p z l' Ht Hl) as [o ->]. by eexists.
Qed.

Lemma quiet_live_among n ps :
  Forall (fun p => scalar_str p = true) ps -> quiet n (live_among ps) (Forall (fun p => scalar_str p = true)).
Proof.
  induction 1 as [|p ps Hp Hps IH]; [by apply keeps_ret|]. eapply keeps_bind; [apply quiet_suspected|]. intros sp _.
  eapply keeps_bind; [apply IH|]. intros rest Hr. apply keeps_ret. destruct sp; [done|by constructor].
Qed.

Lemma reset_calm n tid r vc :
  record_calm n tid r -> clock_between (n + 1) vc -> record_calm (n + 1) tid (reset_record cfg tid r vc).
Proof.
  intros Hr Hc. pose proof (env_name _ (st_env Hst)) as Hname. pose proof (rc_epoch _ _ _ Hr).
  split; cbn; try done; [by apply (st_tasks Hst _ _ 0%nat (rc_payload _ _ _ Hr))|lia|apply Hr].
Qed.

(** An item of the audit and what follows it: only an item that ends in a broadcast counts. *)
Lemma rises_reclaim_item n now live kv (k : bool -> M ()) :
  1 <= n -> n + 1 <= 2 ^ 63 -> Forall (fun p => scalar_str p = true) live -> record_calm n kv.1 kv.2 ->
  rises n (k false) any -> quiet (n + 1) (k true) any -> rises n (nbind (reclaim_item cfg now live kv) k) any.
Proof.
  destruct kv as [tid r]. cbn [fst snd]. intros Hlo Hn Hlive Hr Hf Ht. unfold reclaim_item.
  case_match; [done|]. apply keeps_assoc. eapply (keeps_bind _ (calm n)); [apply quiet_suspected|]. intros sp _.
  case_match; [done|]. apply keeps_assoc.
  destruct (rendezvous_ok tid live) as [o Eo]; [by apply (st_tasks Hst _ _ 0%nat (rc_payload _ _ _ Hr))|done|].
  eapply (keeps_bind _ (calm n) _ _ _ any); [by eapply keeps_ok|]. intros el _.
  case_match; [done|]. apply keeps_assoc. eapply (keeps_then _ (calm n)); [apply quiet_incr|]. case_match.
  - apply keeps_assoc. eapply (keeps_bind _ (calm n)); [apply quiet_any|]. intros qi _. apply keeps_assoc.
    eapply (keeps_then _ (calm n)); [|done]. apply keeps_when. intros _. apply quiet_enqueue.
  - apply keeps_assoc. eapply keeps_then; [by apply rises_bump|]. apply keeps_assoc. eapply keeps_bind; [apply quiet_clock|]. intros vc Hvc.
    apply keeps_assoc. eapply keeps_bind; [by apply (quiet_seal (n + 1) tid), reset_calm|]. intros c Hc.
    apply keeps_assoc. eapply keeps_then; [by apply quiet_store|]. apply keeps_assoc. eapply keeps_then; [by apply quiet_broadcast|done].
Qed.

Lemma rises_reclaim_audit n now live items :
  1 <= n -> n + 1 <= 2 ^ 63 -> Forall (fun p => scalar_str p = true) live -> table_calm n items ->
  rises n (reclaim_audit cfg now live items) any.
Proof.
  intros Hlo Hn Hlive. induction items as [|[k r] items IH]; cbn [reclaim_audit]; intros Hit.
  { by apply quiet_rises, quiet_set_reclaimer. }
  assert (table_calm n items) as Hrest by (intros k' r' Hin; apply Hit; by right).
  apply rises_reclaim_item; [done..|apply Hit; by left|by apply IH|].
  apply quiet_set_reclaimer. split; [done|]. intros k' r' Hin. eapply record_calm_mono; [|by apply Hrest]. lia.
Qed.

Lemma rises_reclaim_round n : 1 <= n -> n + 1 <= 2 ^ 63 -> rises n (reclaim_round cfg) any.
Proof.
  intros Hlo Hn. eapply (keeps_bind _ (calm n)); [apply quiet_now|]. intros now _.
  eapply (keeps_bind _ (calm n)); [apply quiet_live_among, Hst|]. intros live Hlive.
  eapply (keeps_bind _ (calm n)); [apply quiet_tasks|]. intros ts [_ Hts]. apply rises_reclaim_audit; [done..| |done].
  constructor; [apply Hst|done].
Qed.

(** ** Reception *)

Lemma quiet_gossip_commit n k r remote :
  record_calm n k r -> clock_between n (vector_clock remote) -> quiet n (gossip_commit k r remote) any.
Proof.
  intros Hr Hc. eapply keeps_then; [by apply quiet_store|]. eapply keeps_then; [apply quiet_requeue|].
  eapply keeps_then; [by apply quiet_merge_clock|apply quiet_wal_append].
Qed.

Lemma authorization_ok n k r ring : n <= 2 ^ 63 -> record_calm n k r -> exists b, verify_task_authorization r ring = Ok b.
Proof.
  intros Hn Hr. assert (record_text_ok (with_signature r None (signer_id r)) = true) as [b Hb]%canonical_bytes_ok
    by exact (record_calm_text n k r Hn Hr).
  unfold verify_task_authorization, verify_task_signature. rewrite Hb.
  destruct (signature r), (signer_id r); cbn [rbind]; repeat case_match; by eexists.
Qed.

Lemma merge_ok n k a b kr :
  n <= 2 ^ 63 -> record_calm n k a -> record_calm n k b ->
  merge_records a b kr = Raise ValueError \/ exists m, merge_records a b kr = Ok m /\ record_calm n k m.
Proof.
  intros Hn Ha Hb. destruct (merge_records a b kr) as [m|e] eqn:Em.
  - right. exists m. split; [done|]. apply merge_records_cases in Em as (_ & [->|[_ [-> | ->]]]); auto using record_calm_merge.
  - left. revert Em. unfold merge_records, raise_if. case_match; cbn [rbind]; [by intros [= <-]|]. destruct kr as [ring|]; [|done].
    destruct (authorization_ok n k a ring Hn Ha) as [va ->], (authorization_ok n k b ring Hn Hb) as [vb ->]. cbn [rbind].
    destruct va, vb; cbn; congruence.
Qed.

Lemma quiet_gossip_entry n sender k raw :
  n <= 2 ^ 63 -> match from_dict raw with Ok r => record_calm n k r | Raise e => catches_type_value e = true end ->
  quiet n (gossip_entry cfg sender (k, raw)) any.
Proof.
  intros Hn Hraw. unfold gossip_entry. destruct (from_dict raw) as [r|e]; [|rewrite Hraw; apply quiet_incr].
  case_bool_decide; cbn [negb]; [|apply quiet_incr].
  assert (exists b, gossip_authorized cfg sender r = Ok b) as [b Hb].
  { unfold gossip_authorized. repeat case_match; try by eexists. by eapply authorization_ok. }
  apply (keeps_bind _ (calm n) _ _ _ any); [by eapply keeps_ok|]. intros ok _. destruct ok; cbn [negb]; [|apply quiet_incr].
  eapply keeps_bind; [apply quiet_tasks|]. intros ts [_ Hts]. destruct (dict_get k ts) as [x|] eqn:Ex.
  - destruct (merge_ok n k x r (merge_keyring cfg) Hn) as [-> |(m & -> & Hm)]; [by apply Hts, dict_get_Some_elem|done|apply quiet_incr|].
    apply quiet_gossip_commit; [done|apply Hraw].
  - case_match; [apply quiet_incr|]. apply quiet_gossip_commit; [done|apply Hraw].
Qed.

(** The message was decoded from a frame, so its bytes can be computed again. *)
Lemma quiet_authenticate n sender m : is_ok (message_bytes m) = true -> quiet n (authenticate_message cfg sender m) any.
Proof.
  intros Hm. unfold authenticate_message. repeat (case_match; [by apply keeps_ret|]).
  assert (exists b, verify_signature m (keyring cfg) = Ok b) as [b Hb].
  { unfold verify_signature. destruct (message_bytes m) as [d|]; [|done]. repeat case_match; by eexists. }
  apply (keeps_bind _ (calm n) _ _ _ any); [by eapply keeps_ok|]. intros ok _. case_match; [by apply keeps_ret|].
  destruct (timestamp m); [|by apply keeps_ret]. destruct (nonce m); [|by apply keeps_ret].
  eapply keeps_bind; [by apply (quiet_read n wall_at any)|]. intros now _. case_match; [by apply keeps_ret|].
  intros st Hs. destruct (check_and_remember _ _ _ _ _). split; [by apply (calm_frame n st)|done].
Qed.

Lemma quiet_heard n sender now : reading now ->
  quiet n (modify (fun st => set_detector (heartbeat sender now (failure_detector st)) st)) any.
Proof.
  intros [_ [i Hi]]. apply keeps_modify. intros st [? ? ? ? ? ? (beats & Hb & Ed) ? ?]. split; try done.
  exists (beats ++ [(sender, now)]). split; [apply Forall_app; split; [done|constructor; [by exists i|done]]|].
  unfold heard in *. rewrite foldl_app, <- Ed. done.
Qed.

Lemma quiet_receive n sender m :
  n <= 2 ^ 63 ->
  letter_calm n m \/ (is_ok (message_bytes m) = true /\ forall st, (authenticate_message cfg sender m st).1 <> Ok true) ->
  quiet n (receive cfg sender m) any.
Proof.
  intros Hn Hm. assert (is_ok (message_bytes m) = true) as Hb by (by destruct Hm as [[]|[]]). apply (keeps_bind _ (calm n) _ _ _ (fun ok => ok = true -> letter_calm n m)).
  { intros st Hs. pose proof (quiet_authenticate n sender m Hb st Hs) as Ha.
    destruct (authenticate_message cfg sender m st) as [[ok|e] st'] eqn:Ea; [|done]. split; [apply Ha|]. intros ->.
    destruct Hm as [?|[_ Hm]]; [done|]. specialize (Hm st). by rewrite Ea in Hm. }
  intros ok Hok. destruct ok; cbn [negb]; [|apply quiet_incr]. specialize (Hok eq_refl).
  case_bool_decide. { eapply keeps_bind; [apply quiet_now|]. intros now Hnow. by apply quiet_heard. }
  case_bool_decide as Hty.
  - destruct (dict_get (str "tasks") (msg_payload m)) as [v|] eqn:Ev; cbn [default from_option id].
    + destruct v as [| | | | | |raws]; try apply quiet_incr. case_match; [apply quiet_incr|].
      apply keeps_for_each, Forall_forall. intros [k raw] Hin. apply quiet_gossip_entry; [done|]. by apply (proj2 Hok Hty raws).
    + case_match; [apply quiet_incr|by apply keeps_ret].
  - case_bool_decide; [|by apply keeps_ret]. case_match; try apply quiet_incr. case_match; [apply quiet_incr|by apply quiet_frame].
Qed.

(** ** Life cycle *)

Lemma quiet_start n : quiet n (start cfg) any.
Proof.
  eapply keeps_bind; [apply quiet_any|]. intros b _. destruct b; [by apply keeps_ret|].
  eapply (keeps_then _ (calm n)); [by apply quiet_frame|]. eapply (keeps_then _ (calm n)).
  { intros st Hs. unfold recover_from_wal, nbind, gets. by rewrite (calm_wal n st Hs). }
  eapply (keeps_then _ (calm n)).
  { apply keeps_modify. intros st []. split; try done. cbn. intros l e Hin. destruct (has_handler cfg); set_solver. }
  eapply keeps_then; [by apply quiet_set_worker|by apply quiet_set_reclaimer].
Qed.

Lemma quiet_stop n : quiet n stop any.
Proof.
  eapply (keeps_then _ (calm n)); [by apply quiet_frame|]. eapply keeps_bind; [apply quiet_any|]. intros bg _.
  eapply (keeps_then _ (calm n)).
  { apply keeps_for_each, Forall_forall. intros l _. intros st Hs. unfold stop_loop, nbind, gets.
    assert (calm n (set_bg (dict_set l Cancelled (bg_tasks st)) st)) as Hc.
    { destruct Hs. split; try done. cbn. intros l' e [?|Hin]%dict_set_elem; [done|]. by eapply calm_loops0. }
    destruct (dict_get l (bg_tasks st)) as [[]|] eqn:El; try done.
    apply dict_get_Some_elem in El. by apply (calm_loops n st Hs) in El. }
  eapply (keeps_then _ (calm n)). { apply keeps_modify. intros st []. split; try done. cbn. intros l e []%elem_of_nil. }
  intros st Hs. unfold nbind, gets. by rewrite (calm_wal n st Hs).
Qed.

Lemma run_loop_calm n n' l (m : M ()) st : keeps (calm n) (calm n') never m any -> calm n st -> calm n' (run_loop l m st).
Proof. intros Hm Hs. unfold run_loop. specialize (Hm st Hs). destruct (m st) as [[?|?] st']; [apply Hm|done]. Qed.

(** ** Submission: it may be refused, but it leaves the node as it should be. *)
Lemma submit_calm n k p priority :
  1 <= n -> n + 1 <= 2 ^ 63 -> submitted_with k p ->
  keeps (calm n) (calm (n + 1)) (fun _ => calm (n + 1)) (submit_task cfg k p priority) any.
Proof.
  intros Hlo Hn Hsub. pose proof (st_tasks Hst _ _ 0%nat Hsub) as [Hk _]. pose proof (env_name _ (st_env Hst)) as Hname.
  assert (forall (A : Type) (m : M A) post, rises n m post -> keeps (calm n) (calm (n + 1)) (fun _ => calm (n + 1)) m post) as Hr.
  { intros A m post Hm st Hs. specialize (Hm st Hs). by destruct (m st) as [[]]. }
  assert (forall (A : Type) (m : M A) post, quiet (n + 1) m post -> keeps (calm (n + 1)) (calm (n + 1)) (fun _ => calm (n + 1)) m post) as Hq.
  { intros A m post Hm st Hs. specialize (Hm st Hs). by destruct (m st) as [[]]. }
  assert (forall st, calm n st -> calm (n + 1) st) as Hmono by (intros st; apply calm_mono; lia).
  eapply (keeps_then _ (calm n)); [apply keeps_lift; [intros _; apply Hmono|done]|].
  eapply (keeps_then _ (calm n)); [apply keeps_lift; [intros _; apply Hmono|done]|].
  eapply (keeps_bind _ (calm n) _ _ _ any); [by apply keeps_gets|]. intros ts _.
  eapply (keeps_then _ (calm n)).
  { case_match; [|by apply keeps_ret]. eapply (keeps_then _ (calm n)); [apply keeps_modify; intros st; by apply (calm_frame n)|].
    apply keeps_lift; [intros _; apply Hmono|done]. }
  eapply keeps_then; [by apply Hr, rises_bump|]. eapply keeps_bind; [apply Hq, quiet_clock|]. intros vc Hvc.
  eapply keeps_bind; [apply Hq, (quiet_seal (n + 1) k); [done|]|].
  { split; cbn; done || lia. }
  intros r Hrc. eapply keeps_then; [by apply Hq, quiet_store|]. eapply keeps_then; [apply Hq, quiet_incr|].
  eapply keeps_then; [apply Hq, quiet_wal_append|]. eapply keeps_bind; [apply Hq, quiet_any|]. intros q _.
  destruct (put_section k priority q) as [[q'|]|e].
  - eapply keeps_then; [by apply Hq, quiet_frame|]. by apply Hq, quiet_frame.
  - by apply keeps_ret.
  - eapply (keeps_then _ (calm (n + 1))); [apply Hq, keeps_when; intros _; apply quiet_incr|]. by apply keeps_lift.
Qed.

(** ** Steps *)

Lemma rise_loop n l (m : M ()) st : rises n m any -> calm n st -> calm (n + 1) (run_loop l m st).
Proof. apply run_loop_calm. Qed.

Lemma rise_state n (m : M ()) st : rises n m any -> calm n st -> calm (n + 1) (m st).2.
Proof. intros Hm Hs. specialize (Hm st Hs). destruct (m st) as [[?|?] st']; [apply Hm|done]. Qed.

Lemma internal_calm handler_returned handler_raised n st st' :
  (forall k p e, handler_raised k p e -> scalar_str e = true) -> 1 <= n -> n + 1 <= 2 ^ 63 ->
  internal_step handler_returned handler_raised w cfg st st' -> calm n st -> calm (n + 1) st'.
Proof.
  intros Herr Hlo Hn Hstep Hs. pose proof (calm_worker n st Hs) as Hw. pose proof (calm_audit n st Hs) as Ha.
  destruct Hstep as [| | | | |now ps items st Hl E| |i st Hl E|i o st Hl E Ho|i o st Hl E];
    try (rewrite E in Hw); try (rewrite E in Ha); try (apply rise_loop; [|done]).
  - by apply rise_state; [apply quiet_rises, quiet_start|].
  - by apply rise_state; [apply quiet_rises, quiet_stop|].
  - apply quiet_rises, quiet_heartbeat_round.
  - apply quiet_rises, quiet_gossip_round. lia.
  - by apply rises_reclaim_round.
  - by apply rises_reclaim_audit; [..|apply Ha|apply Ha].
  - by apply rises_worker_take.
  - apply quiet_rises, quiet_worker_run; [lia|done].
  - apply rises_worker_finish; [done..|]. destruct o as [b|e]; [done|]. by eapply Herr.
  - apply quiet_rises, quiet_worker_settle.
Qed.
End methods.

(** ** The cluster *)

Context (handler_returned : pystr -> list byte -> list byte -> Prop).
Context (handler_raised : pystr -> list byte -> pystr -> Prop).
Context (nodes : gset pystr) (cfgs : pystr -> NodeConfig) (worlds : pystr -> World).

(** A message that the reader of frames lets through. *)
Definition decodable (m : Message) : Prop :=
  exists data config, 0 <= max_json_items config /\ message_from_bytes data config = Ok m.

(** The runs of a cluster with the number of moves its nodes have made; the adversary's messages, which
    no node can verify, are not counted. *)
Inductive cluster_run (init : pystr -> NodeState) : nat -> ClusterState -> Prop :=
| run_none : cluster_run init 0 {| cl_state := init; cl_soup := [] |}
| run_move n x y :
    cluster_run init n x -> cluster_move submitted_with handler_returned handler_raised nodes cfgs worlds x y ->
    cluster_run init (S n) y
| run_inject n x s j m :
    cluster_run init n x -> decodable m -> (forall i, i ∈ nodes -> unverifiable (cfgs i) m) ->
    cluster_run init n {| cl_state := cl_state x; cl_soup := cl_soup x ++ [(s, j, m)] |}.

(** What the network carries. *)
Definition arrives (n : Z) (m : Message) : Prop :=
  letter_calm n m \/ (is_ok (message_bytes m) = true /\ forall i, i ∈ nodes -> unverifiable (cfgs i) m).

Definition cluster_calm (n : Z) (x : ClusterState) : Prop :=
  (forall i, i ∈ nodes -> calm (w := worlds i) (cfgs i) n (cl_state x i)) /\ Forall (fun l => arrives n l.2) (cl_soup x).

Lemma at_node_calm n i st (f : pystr -> NodeState) :
  calm (w := worlds i) (cfgs i) n st -> (forall j, j ∈ nodes -> calm (w := worlds j) (cfgs j) n (f j)) ->
  forall j, j ∈ nodes -> calm (w := worlds j) (cfgs j) n (at_node i st f j).
Proof. intros Hst Hf j Hj. unfold at_node. destruct (decide (i = j)) as [<-|]; auto. Qed.

Lemma cluster_calm_mono n n' x : n <= n' -> cluster_calm n x -> cluster_calm n' x.
Proof.
  intros Hn [Hs Hl]. split; [intros i Hi; by eapply calm_mono; [|apply Hs]|].
  eapply Forall_impl; [exact Hl|]. intros l [?|?]; [left; by eapply letter_calm_mono|by right].
Qed.

Context (Hsteady : forall i, i ∈ nodes -> steady (w := worlds i) (cfgs i)).
Context (Herr : forall k p e, handler_raised k p e -> scalar_str e = true).

Lemma cluster_move_calm n x y :
  1 <= n -> n + 1 <= 2 ^ 63 -> cluster_move submitted_with handler_returned handler_raised nodes cfgs worlds x y ->
  cluster_calm n x -> cluster_calm (n + 1) y.
Proof.
  intros Hlo Hn Hmove Hc. destruct (cluster_calm_mono n (n + 1) x ltac:(lia) Hc) as [Hs Hl]. destruct Hc as [Hs0 Hl0].
  destruct Hmove as [x i k p pr Hi Hk|x i st' Hi Hst|x i to m rest Hi Ho|x s j m Hj Hm Hlive].
  - split; [|done]. cbn. apply at_node_calm; [|done].
    exact (keeps_state _ _ _ _ _ (submit_calm (w := worlds i) (cfgs i) (Hsteady i Hi) n k p pr Hlo Hn Hk) (Hs0 i Hi)).
  - split; [|done]. apply at_node_calm; [|done]. by eapply internal_calm; [apply Hsteady|..|apply Hs0].
  - pose proof (Hs i Hi) as [? ? ? ? ? ? ? ? Hout]. rewrite Ho in Hout. apply Forall_cons in Hout as [Hm Hrest]. split; cbn.
    + by apply at_node_calm.
    + apply Forall_app. split; [done|]. constructor; [by left|done].
  - split; [|done]. apply at_node_calm; [|done]. eapply run_loop_calm; [|by apply Hs].
    apply (quiet_receive (w := worlds j) (cfgs j) (Hsteady j Hj)); [done|].
    apply (Forall_forall (fun l => arrives (n + 1) l.2)) with (x := (s, j, m)) in Hl as [?|[? Hu]]; [by left| |done].
    right. split; [done|]. intros st. by apply unverifiable_refused, Hu.
Qed.

Lemma cluster_run_calm init n x :
  (forall i, i ∈ nodes -> calm (w := worlds i) (cfgs i) 1 (init i)) -> cluster_run init n x -> Z.of_nat n < 2 ^ 62 ->
  cluster_calm (Z.of_nat n + 1) x.
Proof.
  intros Hinit. induction 1 as [|n x y Hx IH Hmove|n x s j m Hx IH Hd Hu]; intros Hn.
  - split; [done|constructor].
  - replace (Z.of_nat (S n) + 1) with (Z.of_nat n + 1 + 1) by lia. apply (cluster_move_calm _ x); [lia|lia|done|apply IH; lia].
  - destruct (IH Hn) as [Hs Hl]. split; [done|]. cbn. apply Forall_app. split; [done|]. constructor; [|done].
    right. split; [|done]. destruct Hd as (data & config & Hi & Hm). by eapply decoded_message_writable.
Qed.

(** A node without a log, as it is built. *)
Lemma init_calm w log2 nid ps handler lease env mq ic key ring sec mt cfg st :
  node_init log2 nid ps handler lease env mq ic None key ring sec mt = Ok (cfg, st) -> calm (w := w) cfg 1 st.
Proof.
  unfold node_init. intros Hn. inv_result. injection Hn as <- <-.
  split; cbn [wal node_clock tasks worker reclaimer failure_detector bg_tasks outbox]; [done| | | |done|done| | |constructor].
  - intros k v. unfold VectorClock_init. cbn. intros [Hk Hp]%map_lookup_filter_Some. apply lookup_singleton_Some in Hk as [_ <-].
    cbn in Hp. lia.
  - constructor.
  - intros k r []%elem_of_nil.
  - exists []. split; [constructor|done].
  - intros l e []%elem_of_nil.
Qed.

Definition built_without_log (cfg : NodeConfig) (st : NodeState) : Prop :=
  exists log2 nid ps handler lease env mq ic key ring sec mt,
    node_init log2 nid ps handler lease env mq ic None key ring sec mt = Ok (cfg, st).

End robust.

(** ** A sample under the still clock *)

Lemma heard_still beats : at_readings still_world beats ->
  intervals (heard still_world beats) = [] /\ forall p t, dict_get p (last_heartbeat (heard still_world beats)) = Some t -> t = decimal_float false 1 0.
Proof.
  induction beats as [|[q t] beats IH] using rev_ind; [done|]. intros [Hb [[i Ht] _]%Forall_cons]%Forall_app. cbn in Ht. subst t.
  destruct (IH Hb) as [Hi Hl]. unfold heard in *. rewrite foldl_app. cbn [foldl fst snd heartbeat intervals last_heartbeat]. split.
  - destruct (dict_get q _) as [u|] eqn:E; [|done]. by rewrite (Hl q u E).
  - intros p t. rewrite dict_get_set. destruct (decide (q = p)); [by intros [= <-]|apply Hl].
Qed.

Lemma still_suspected `{MathLib} beats p i : at_readings still_world beats ->
  exists b, is_suspected p phi_threshold (now_at (World := still_world) i) (heard still_world beats) = Ok b.
Proof.
  intros Hb. destruct (heard_still beats Hb) as [Hi _]. unfold is_suspected, phi. rewrite Hi. destruct (dict_get p _); by eexists.
Qed.

Definition no_error (k : pystr) (p : list byte) (e : pystr) : Prop := False.

Lemma toy_steady : steady toy_submitted_with (w := still_world) (toy_cfg true true).
Proof.
  split.
  - split; [intros i|intros i|..]; vm_compute; [reflexivity|split; [reflexivity|split; discriminate]|reflexivity|reflexivity].
  - intros i. vm_compute. reflexivity.
  - apply forallb_Forall. vm_compute. reflexivity.
  - intros k p i [-> ->]. split; vm_compute; reflexivity.
  - intros beats p i. apply still_suspected.
Qed.

(** The node after a submission, the start and a turn of its worker. *)
Definition still_started : NodeState := (start (toy_cfg true true) (toy_submitted true true)).2.
Definition still_claimed : NodeState := run_loop WorkerLoop (worker_take (H2 := still_world) (toy_cfg true true)) still_started.

Lemma still_run :
  exists x, cluster_run toy_submitted_with toy_returned no_error {[str "p1"]} (fun _ => toy_cfg true true)
    (fun _ => still_world) (fun _ => toy_state true true) 3 x /\ cl_state x (str "p1") = still_claimed.
Proof.
  set (x1 := {| cl_state := at_node (str "p1") (toy_submitted true true) (fun _ => toy_state true true); cl_soup := [] |}).
  set (x2 := {| cl_state := at_node (str "p1") still_started (cl_state x1); cl_soup := [] |}).
  exists {| cl_state := at_node (str "p1") still_claimed (cl_state x2); cl_soup := [] |}. split; [|apply (at_node_eq (str "p1"))].
  eapply run_move; [eapply run_move; [eapply run_move; [apply run_none|]|]|].
  - apply (cl_submit _ _ _ _ (fun _ => toy_cfg true true) _ {| cl_state := fun _ => toy_state true true; cl_soup := [] |}
      (str "p1") (str "t") (str_bytes "{}") 0); [set_solver|done].
  - apply (cl_internal _ _ _ _ _ _ x1 (str "p1") still_started); [set_solver|]. unfold x1. cbn [cl_state]. rewrite at_node_eq.
    unfold still_started. apply in_start. vm_compute. reflexivity.
  - apply (cl_internal _ _ _ _ _ _ x2 (str "p1") still_claimed); [set_solver|]. unfold x2. cbn [cl_state]. rewrite at_node_eq.
    unfold still_claimed. apply in_take; [apply is_bg_live|]; vm_compute; reflexivity.
Qed.


(** ** What ends a loop *)

Definition worker_crashed (st : NodeState) : bool :=
  match dict_get WorkerLoop (bg_tasks st) with Some (Crashed _) => true | _ => false end.

(** A pending record whose token has the greatest epoch that JSON can carry: every reader accepts it. *)
Definition huge_epoch_task : TaskRecord := {|
  task_id := str "t"; state := PENDING; payload := str_bytes "{}"; task_result := None; task_error := None;
  claimed_by := None; fence_token := ftoken (10 ^ 4300 - 1) (str "p2"); lease_expiry := fzero;
  vector_clock := VectorClock_init {[str "p2" := 1]}; updated_by := str "p2"; signature := None; signer_id := None |}.

Definition huge_epoch_gossip : Message := {|
  msg_type := str "gossip"; sender_id := str "p2";
  msg_payload := [(str "tasks", JObj [(str "t", JObj (to_dict huge_epoch_task))])];
  timestamp := None; nonce := None; msg_signature := None; msg_version := 2 |}.

(** The node claims the task under the next epoch, which has a digit more than the interpreter converts:
    the claim is stored and cannot be announced, and the worker ends. *)
Example huge_epoch_ends_worker :
  let st := (receive (toy_cfg false true) (str "p2") huge_epoch_gossip (start (toy_cfg false true) (toy_state false true)).2).2 in
  is_bg WorkerLoop st = true /\ dict_mem (str "t") (tasks st) = true /\
  worker_crashed (run_loop WorkerLoop (worker_take (toy_cfg false true)) st) = true.
Proof. vm_compute. split_and!; reflexivity. Qed.

(** A node whose PEERQ_LEASE_DURATION is "inf". *)
Definition infinite_lease_node : result (NodeConfig * NodeState) :=
  node_init (fun _ => fzero) (str "p1") [str "p2"] true None (Some (str "inf")) 3 5 None (toy_seed 1) toy_ring (toy_security true) 2.

(** The lease of the node is not checked, and every claim falls back to it: the first claim has a lease
    that JSON cannot carry, and the worker ends. *)
Example infinite_lease_ends_worker :
  match infinite_lease_node with
  | Ok (cfg, st) =>
      let st := (start cfg (submit_task cfg (str "t") (str_bytes "{}") 0 st).2).2 in
      is_bg WorkerLoop st = true /\ worker_crashed (run_loop WorkerLoop (worker_take cfg) st) = true
  | Raise _ => False
  end.
Proof. vm_compute. split; reflexivity. Qed.

(** With a log, a handler that returns 64 KiB for a payload of 64 KiB ends the worker: the record exceeds the
    limit of the log (see [LogSize.full_record_not_logged]). *)
Example full_result_ends_worker :
  let big := replicate (Z.to_nat MAX_TASK_PAYLOAD) (Z_byte 0) in
  let cfg := toy_cfg false true in
  match wal_init None MAX_FRAME_SIZE with
  | Ok log =>
      let st := (submit_task cfg (str "t") big 0 (start cfg (set_wal (Some log) (toy_state false true))).2).2 in
      let st := run_loop WorkerLoop (worker_take cfg) st in
      match worker st with
      | WClaimed i =>
          let st := run_loop WorkerLoop (worker_run cfg i) st in
          is_bg WorkerLoop st = true /\ worker_crashed (run_loop WorkerLoop (worker_finish cfg i (HReturn big)) st) = true
      | _ => False
      end
  | Raise _ => False
  end.
Proof. vm_compute. split; reflexivity. Qed.
