(* ===== verification/Benches.v ===== *)
(** * The benchmarks of the library ([bench/crypto_throughput.py], [bench/wal_throughput.py],
    [bench/overhead.py])

    What each benchmark does with the library, its assertions, and the numbers it computes from the
    readings of the performance counter, a function of the number of readings made; its printing is left
    out.  Every benchmark runs to its end, and what each of its phases really exercised. *)

From Stdlib Require Import ZArith NArith Lia.
From S2P Require Import Prelude PyFloat Text Json JsonFacts Security Consensus Crypto Lattice Heapq Queue.
From S2P Require Import Wal Metrics Failure Message Encodable LogSize SimNetwork Tcp Sha256 FloatText Node NodeLogic NodeFacts.
From S2P Require Import PyText NodeTheorems Mesh NodeScenarios Worker AntiEntropy Provenance Bench.
Open Scope Z_scope.

Definition nonzero (x : float) : Prop := match x with S754_zero _ => False | _ => True end.

(** The counter advances in each of [n] phases. *)
Definition advances (perf : nat -> float) (n : nat) : Prop :=
  forall i, (i < n)%nat -> nonzero (fsub (perf (2 * i + 1)%nat) (perf (2 * i)%nat)).

(** [[f(x) for x in l]] of a fallible [f]. *)
Fixpoint map_result {A B} (f : A -> result B) (l : list A) : result (list B) :=
  match l with
  | [] => Ok []
  | x :: l' => let! y := f x in let! ys := map_result f l' in Ok (y :: ys)
  end.

(** [n / (t1 - t0)] of a count and two readings. *)
Definition rate (n : Z) (t0 t1 : float) : result float := py_div (Z_to_float n) (fsub t1 t0).

Lemma py_div_ok x y : nonzero y -> py_div x y = Ok (fdiv x y).
Proof. by destruct y. Qed.

Lemma rate_ok n perf k i a b :
  advances perf k -> (i < k)%nat -> a = (2 * i)%nat -> b = (2 * i + 1)%nat -> exists x, rate n (perf a) (perf b) = Ok x.
Proof. intros Hp Hi -> ->. unfold rate. rewrite py_div_ok by (by apply Hp). by eexists. Qed.

Lemma map_result_ok {A B} (f : A -> result B) (P : A -> B -> Prop) l :
  Forall (fun x => exists y, f x = Ok y /\ P x y) l -> exists ys, map_result f l = Ok ys /\ Forall2 P l ys.
Proof.
  induction 1 as [|x l (y & Hy & HP) _ (ys & Hys & H2)]; cbn [map_result]; [by exists []|].
  exists (y :: ys). rewrite Hy, Hys. split; [done|by constructor].
Qed.

(** The bytes of a JSON text, written with apostrophes for its double quotes. *)
Definition json_bytes (s : string) : list byte := (fun b => if bool_decide (b = Z_byte 39) then Z_byte 34 else b) <$> str_bytes s.

(** The records of the benchmarks: done tasks of one node. *)
Definition bench_record (prefix node : string) (p res : list byte) (lease : float) (i : nat) : TaskRecord := {|
  task_id := numbered prefix i; state := DONE; payload := p; task_result := Some res; task_error := None;
  claimed_by := Some (str node); fence_token := ftoken 1 (str node); lease_expiry := lease;
  vector_clock := VectorClock_init {[str node := Z.of_nat i + 1]}; updated_by := str node; signature := None; signer_id := None |}.

Lemma numbered_scalar prefix i : scalar_str (str prefix) = true -> scalar_str (numbered prefix i) = true.
Proof.
  intros Hp. unfold numbered, scalar_str in *. rewrite forallb_app, Hp. apply forallb_Forall.
  eapply Forall_impl; [apply N_str_digit|]. intros c Hc. by apply num_char_scalar, digit_num_char.
Qed.

Lemma single_clock node n : 0 < n -> map_to_list (clock (VectorClock_init {[str node := n]})) = [(str node, n)].
Proof.
  intros Hn. unfold VectorClock_init. cbn [clock].
  rewrite map_filter_singleton_True by (cbn; lia). apply map_to_list_singleton.
Qed.

Lemma bench_record_text prefix node p res lease i :
  scalar_str (str prefix) = true -> scalar_str (str node) = true -> float_ok lease = true -> Z.of_nat i < 2 ^ 62 ->
  record_text_ok (bench_record prefix node p res lease i) = true.
Proof.
  intros Hp Hn Hl Hi. unfold record_text_ok, bench_record.
  cbn [task_id task_error claimed_by updated_by signer_id fence_token lease_expiry vector_clock opt_ok ft_peer_id epoch].
  rewrite single_clock by lia. cbn [forallb fst snd].
  rewrite numbered_scalar, Hn, Hl, (int_json_ok (Z.of_nat i + 1)) by (done || lia). done.
Qed.

(** ** [crypto_throughput.py] *)

Definition make_bench_record : nat -> TaskRecord :=
  bench_record "crypto-bench-task-" "node-signer"
    (json_bytes "{'operation':'aggregate','metrics':[98.2, 99.1, 99.9],'batch':1024}")
    (json_bytes "{'status':'completed','records_processed':1024,'duration_ms':12.4}") (decimal_float false 100 0).

(** The forged record of the last phase: the payload is replaced and the signature kept. *)
Definition tampered (r : TaskRecord) : TaskRecord := {|
  task_id := task_id r; state := state r; payload := str_bytes "MALICIOUS_TAMPERED_PAYLOAD"; task_result := task_result r;
  task_error := task_error r; claimed_by := claimed_by r; fence_token := fence_token r; lease_expiry := lease_expiry r;
  vector_clock := vector_clock r; updated_by := updated_by r; signature := signature r; signer_id := None |}.

Section crypto.
Context `{Ed25519}.

(** The loop of the fourth phase: every verification is asserted. *)
Fixpoint verify_all (ring : PeerKeyRing) (rs : list TaskRecord) : result () :=
  match rs with
  | [] => Ok ()
  | r :: rs' =>
      let! ok := verify_task_signature r ring in
      raise_if (negb ok) AssertionError ;;!
      verify_all ring rs'
  end.

(** The loop of the fifth phase. *)
Fixpoint count_rejected (ring : PeerKeyRing) (rs : list TaskRecord) : result Z :=
  match rs with
  | [] => Ok 0
  | r :: rs' =>
      let! ok := verify_task_signature r ring in
      let! n := count_rejected ring rs' in
      Ok (if ok then n else n + 1)
  end.

Record CryptoReport := {
  keygen_rate : float;
  ser_rate : float;
  total_bytes : Z;
  ser_mb : float;
  sign_rate : float;
  verify_rate : float;
  rejected_count : Z;
  reject_rate : float;
}.

(** [run_crypto_benchmarks]; [keypair] is the key generated after the [keygen_iterations] of the first
    phase.  The average size that the report prints divides by the number of records. *)
Definition run_crypto_benchmarks (keypair : PrivateKey) (keygen_iterations records : nat) (perf : nat -> float)
    : result CryptoReport :=
  let! keygen_rate := rate (Z.of_nat keygen_iterations) (perf 0%nat) (perf 1%nat) in
  let sample_records := make_bench_record <$> List.seq 0 records in
  let! serialized_bytes := map_result canonical_task_bytes sample_records in
  let! ser_rate := rate (len sample_records) (perf 2%nat) (perf 3%nat) in
  let total_bytes := zsum (map len serialized_bytes) in
  let! ser_mb := py_div (fdiv (Z_to_float total_bytes) (Z_to_float (1024 * 1024))) (fsub (perf 3%nat) (perf 2%nat)) in
  let! _ := py_div (Z_to_float total_bytes) (Z_to_float (len sample_records)) in
  let! signed_records := map_result (fun r => sign_task keypair r (str "node-signer")) sample_records in
  let! sign_rate := rate (len signed_records) (perf 4%nat) (perf 5%nat) in
  let! keyring := add_peer (str "node-signer") (KeyWrapper (public_key keypair)) [] in
  verify_all keyring signed_records ;;!
  let! verify_rate := rate (len signed_records) (perf 6%nat) (perf 7%nat) in
  let tampered_records := tampered <$> signed_records in
  let! rejected_count := count_rejected keyring tampered_records in
  raise_if (negb (rejected_count =? len tampered_records)) AssertionError ;;!
  let! reject_rate := rate (len tampered_records) (perf 8%nat) (perf 9%nat) in
  Ok {| keygen_rate := keygen_rate; ser_rate := ser_rate; total_bytes := total_bytes; ser_mb := ser_mb;
        sign_rate := sign_rate; verify_rate := verify_rate; rejected_count := rejected_count; reject_rate := reject_rate |}.

(** A forged record names no signer, so it is rejected before any signature is looked at, by every ring. *)
Lemma tampered_rejected ring r : verify_task_signature (tampered r) ring = Ok false.
Proof. unfold verify_task_signature, tampered. cbn [signature signer_id]. by destruct (signature r). Qed.

Lemma count_tampered ring rs : count_rejected ring (tampered <$> rs) = Ok (len rs).
Proof.
  induction rs as [|r rs IH]; [done|]. cbn [fmap list_fmap count_rejected]. rewrite tampered_rejected. cbn [rbind].
  change (list_fmap _ _ tampered rs) with (tampered <$> rs). rewrite IH. cbn [rbind]. unfold len. cbn [length]. f_equal. lia.
Qed.

(** The forged payload has no part in it: the same record with its own payload is rejected as well. *)
Lemma untampered_rejected ring r p :
  verify_task_signature {| task_id := task_id r; state := state r; payload := p; task_result := task_result r;
    task_error := task_error r; claimed_by := claimed_by r; fence_token := fence_token r; lease_expiry := lease_expiry r;
    vector_clock := vector_clock r; updated_by := updated_by r; signature := signature r; signer_id := None |} ring = Ok false.
Proof. unfold verify_task_signature. cbn [signature signer_id]. by destruct (signature r). Qed.
End crypto.

Lemma bench_text i : Z.of_nat i < 2 ^ 62 -> record_text_ok (make_bench_record i) = true.
Proof. by apply bench_record_text; vm_compute. Qed.

Lemma bench_texts n : Z.of_nat n <= 2 ^ 62 -> Forall (fun r => record_text_ok r = true) (make_bench_record <$> List.seq 0 n).
Proof. intros Hn. apply Forall_fmap, Forall_forall. intros i Hi%elem_of_seq. apply bench_text. lia. Qed.

Section crypto_facts.
Context `{Ed25519Laws}.

Lemma verify_all_ok ring rs : Forall (fun r => verify_task_signature r ring = Ok true) rs -> verify_all ring rs = Ok ().
Proof. induction 1 as [|r rs Hr _ IH]; cbn [verify_all]; [done|]. by rewrite Hr. Qed.

(** The benchmark runs to its end whenever the counter advances in every phase: every signature it makes
    is verified, and every forged record is rejected. *)
Theorem crypto_benchmark_completes (keypair : PrivateKey) (keygen_iterations records : nat) (perf : nat -> float) :
  Z.of_nat records <= 2 ^ 62 -> nonzero (Z_to_float (Z.of_nat records)) -> advances perf 5 ->
  exists report, run_crypto_benchmarks keypair keygen_iterations records perf = Ok report /\
    rejected_count report = Z.of_nat records.
Proof.
  intros Hn Hz Hperf. unfold run_crypto_benchmarks.
  assert (len (make_bench_record <$> List.seq 0 records) = Z.of_nat records) as Hlen
    by (unfold len; by rewrite length_fmap, length_seq).
  destruct (rate_ok (Z.of_nat keygen_iterations) perf 5 0 0 1 Hperf ltac:(lia) eq_refl eq_refl) as [x0 ->]. cbn [rbind].
  destruct (map_result_ok canonical_task_bytes (fun _ _ => True) (make_bench_record <$> List.seq 0 records)) as (bs & -> & _).
  { eapply Forall_impl; [by apply bench_texts|]. intros r Hr. destruct (canonical_bytes_ok r Hr) as [b Hb]. eauto. }
  cbn [rbind]. destruct (rate_ok (len (make_bench_record <$> List.seq 0 records)) perf 5 1 2 3 Hperf ltac:(lia) eq_refl eq_refl) as [x1 ->]. cbn [rbind].
  rewrite (py_div_ok _ _ (Hperf 1%nat ltac:(lia))). cbn [rbind]. rewrite Hlen, py_div_ok by done. cbn [rbind].
  set (ring := [(str "node-signer", public_key keypair)]).
  destruct (map_result_ok (fun r => sign_task keypair r (str "node-signer")) (fun _ r' => verify_task_signature r' ring = Ok true)
    (make_bench_record <$> List.seq 0 records)) as (rs & -> & Hrs).
  { eapply Forall_impl; [by apply bench_texts|]. intros r Hr.
    destruct (sign_task_authorized keypair r (str "node-signer") ring Hr eq_refl eq_refl) as (r' & Hs & _ & Hv & _). eauto. }
  assert (len rs = Z.of_nat records) as Hl by (rewrite <- Hlen; unfold len; by rewrite (Forall2_length _ _ _ Hrs)).
  cbn [rbind]. destruct (rate_ok (len rs) perf 5 2 4 5 Hperf ltac:(lia) eq_refl eq_refl) as [x2 ->]. cbn [rbind].
  change (add_peer _ _ []) with (@Ok PeerKeyRing ring). cbn [rbind]. rewrite verify_all_ok.
  2: { clear -Hrs. by induction Hrs; constructor. }
  cbn [rbind]. destruct (rate_ok (len rs) perf 5 3 6 7 Hperf ltac:(lia) eq_refl eq_refl) as [x3 ->]. cbn [rbind].
  rewrite count_tampered. cbn [rbind]. assert (len (tampered <$> rs) = len rs) as Ht by (unfold len; by rewrite length_fmap).
  rewrite Ht, Z.eqb_refl. cbn [negb raise_if rbind]. destruct (rate_ok (len rs) perf 5 4 8 9 Hperf ltac:(lia) eq_refl eq_refl) as [x4 ->]. cbn [rbind].
  eexists. split; [reflexivity|exact Hl].
Qed.
End crypto_facts.

(** ** [wal_throughput.py] *)

Definition make_record : nat -> TaskRecord :=
  bench_record "bench-task-" "node-bench" (json_bytes "{'action':'compute','matrix':[1.2,3.4,5.6,7.8]}")
    (json_bytes "{'status':'ok','value':42.0}") fzero.

(** The loops that append the records of a range. *)
Fixpoint append_records (is_ : list nat) (wal : WriteAheadLog) : result WriteAheadLog :=
  match is_ with
  | [] => Ok wal
  | i :: rest => let! ow := append_task (make_record i) wal in append_records rest ow.2
  end.

Record WalReport := {
  file_size_bytes : Z;
  throughput_buffered : float;
  mb_per_sec : float;
  throughput_sync : float;
  avg_fsync_ms : float;
  replayed_count : Z;
  throughput_replay : float;
  replay_mb_sec : float;
}.

Definition megabytes (n : Z) : float := fdiv (Z_to_float n) (Z_to_float (1024 * 1024)).

(** [run_wal_benchmarks]: the file is new, and the log that replays it is another object. *)
Definition run_wal_benchmarks (count_buffered count_sync : nat) (perf : nat -> float) : result WalReport :=
  let! wal := wal_init None MAX_FRAME_SIZE in
  let! wal := append_records (List.seq 0 count_buffered) wal in
  let file_size_bytes := len (default [] (wal_data wal)) in
  let! throughput_buffered := rate (Z.of_nat count_buffered) (perf 0%nat) (perf 1%nat) in
  let! mb_per_sec := py_div (megabytes file_size_bytes) (fsub (perf 1%nat) (perf 0%nat)) in
  let! wal := append_records (List.seq count_buffered count_sync) wal in
  let! throughput_sync := rate (Z.of_nat count_sync) (perf 2%nat) (perf 3%nat) in
  let! avg := py_div (fsub (perf 3%nat) (perf 2%nat)) (Z_to_float (Z.of_nat count_sync)) in
  let wal := wal_close wal in
  let! wal_replay := wal_init (wal_data wal) MAX_FRAME_SIZE in
  let '(recs, failure) := replay true wal_replay in
  match failure with Some e => Raise e | None => Ok () end ;;!
  let! throughput_replay := rate (len recs) (perf 4%nat) (perf 5%nat) in
  let! replay_mb_sec := py_div (megabytes (len (default [] (wal_data wal)))) (fsub (perf 5%nat) (perf 4%nat)) in
  Ok {| file_size_bytes := file_size_bytes; throughput_buffered := throughput_buffered; mb_per_sec := mb_per_sec;
        throughput_sync := throughput_sync; avg_fsync_ms := fmul avg (Z_to_float 1000); replayed_count := len recs;
        throughput_replay := throughput_replay; replay_mb_sec := replay_mb_sec |}.

Lemma make_record_text i : Z.of_nat i < 2 ^ 62 -> record_text_ok (make_record i) = true.
Proof. by apply bench_record_text; vm_compute. Qed.

Lemma make_record_bound i : Z.of_nat i < 2 ^ 62 -> record_bound (make_record i) <= MAX_FRAME_SIZE.
Proof.
  intros Hi. unfold record_bound, clock_size, make_record, bench_record, numbered, opt_len.
  cbn [task_id task_error task_result payload claimed_by updated_by signer_id signature fence_token lease_expiry vector_clock ft_peer_id epoch
    default from_option].
  rewrite single_clock by lia. cbn [map fst snd]. unfold zsum. cbn [foldr].
  pose proof (N_str_short (N.of_nat i) ltac:(lia)). pose proof (N_str_short (Z.abs_N (Z.of_nat i + 1)) ltac:(lia)).
  unfold len in *. rewrite length_app, Nat2Z.inj_add.
  repeat match goal with |- context [Z.of_nat (length ?l)] =>
    match l with N_str (N.of_nat _) => fail 1 | N_str (Z.abs_N (Z.of_nat _ + 1)) => fail 1 | _ => idtac end;
    let n := eval vm_compute in (Z.of_nat (length l)) in change (Z.of_nat (length l)) with n end.
  unfold MAX_FRAME_SIZE. lia.
Qed.

(** An open log of the benchmark. *)
Definition bench_log (wal : WriteAheadLog) (rs : list WalRecord) : Prop :=
  wal_holds wal rs /\ is_open wal = true /\ max_record_bytes wal = MAX_FRAME_SIZE.

Lemma append_records_ok is_ wal rs :
  Forall (fun i => Z.of_nat i < 2 ^ 62) is_ -> bench_log wal rs ->
  exists wal' rs', append_records is_ wal = Ok wal' /\ bench_log wal' (rs ++ rs') /\ len rs' = len is_.
Proof.
  intros His. revert wal rs. induction His as [|i is_ Hi _ IH]; intros wal rs (Hh & Ho & Hm); cbn [append_records].
  { exists wal, []. rewrite app_nil_r. split_and!; done. }
  destruct (append_task_fits (make_record i) wal Ho (make_record_text i Hi)) as [f Hf].
  { unfold make_record, bench_record. cbn [vector_clock]. rewrite <- length_map_to_list, single_clock by lia. by vm_compute. }
  { rewrite Hm. split; [by apply make_record_bound|done]. }
  destruct (append_holds RECORD_TASK (to_dict (make_record i)) wal _ _ rs (to_dict_json_ok _ (make_record_text i Hi)) Hh Hf)
    as (d & _ & Hh' & Ho' & Hm').
  rewrite Hf. cbn [rbind snd]. destruct (IH _ _ (conj Hh' (conj Ho' (eq_trans Hm' Hm)))) as (wal' & rs' & -> & Hb & Hl).
  eexists wal', (_ :: rs'). split; [done|]. split; [|unfold len in *; cbn [length]; lia].
  by rewrite <- app_assoc in Hb.
Qed.

Lemma reopened wal rs : bench_log wal rs ->
  exists wal', wal_init (wal_data (wal_close wal)) MAX_FRAME_SIZE = Ok wal' /\ replay true wal' = (rs, None).
Proof.
  intros ((data & Hd & Hl) & Ho & Hm). destruct (wal_log_magic _ _ _ Hl) as [rest ->].
  unfold wal_close, with_data. cbn [wal_data]. rewrite Hd. unfold wal_init. change (MAX_FRAME_SIZE <=? 0) with false. cbn [raise_if rbind].
  rewrite wal_open_magic. eexists. split; [reflexivity|]. rewrite Hm in Hl. by apply replay_clean.
Qed.

(** The benchmark runs to its end whenever the counter advances in every phase: every record is appended,
    and the strict replay of the file yields exactly as many records as were appended. *)
Theorem wal_benchmark_counts (count_buffered count_sync : nat) (perf : nat -> float) :
  Z.of_nat count_buffered + Z.of_nat count_sync <= 2 ^ 62 -> nonzero (Z_to_float (Z.of_nat count_sync)) -> advances perf 3 ->
  exists report, run_wal_benchmarks count_buffered count_sync perf = Ok report /\
    replayed_count report = Z.of_nat count_buffered + Z.of_nat count_sync.
Proof.
  intros Hn Hz Hperf. unfold run_wal_benchmarks. change (wal_init None MAX_FRAME_SIZE) with (Ok new_log). cbn [rbind].
  destruct (append_records_ok (List.seq 0 count_buffered) new_log []) as (w1 & rs1 & -> & Hb1 & Hl1).
  { apply Forall_forall. intros i Hi%elem_of_seq. lia. }
  { split; [|done]. eexists. split; [done|constructor]. }
  cbn [rbind]. destruct (rate_ok (Z.of_nat count_buffered) perf 3 0 0 1 Hperf ltac:(lia) eq_refl eq_refl) as [x0 ->]. cbn [rbind].
  rewrite (py_div_ok _ _ (Hperf 0%nat ltac:(lia))). cbn [rbind].
  destruct (append_records_ok (List.seq count_buffered count_sync) w1 _ ltac:(apply Forall_forall; intros i Hi%elem_of_seq; lia) Hb1) as (w2 & rs2 & -> & Hb2 & Hl2).
  cbn [rbind]. destruct (rate_ok (Z.of_nat count_sync) perf 3 1 2 3 Hperf ltac:(lia) eq_refl eq_refl) as [x1 ->]. cbn [rbind].
  rewrite py_div_ok by done. cbn [rbind]. destruct (reopened w2 _ Hb2) as (w3 & -> & Hr). cbn [rbind]. rewrite Hr.
  cbn [rbind]. match goal with |- context [rate (len ?l) _ _] =>
    destruct (rate_ok (len l) perf 3 2 4 5 Hperf ltac:(lia) eq_refl eq_refl) as [x2 ->] end. cbn [rbind].
  rewrite (py_div_ok _ _ (Hperf 2%nat ltac:(lia))). cbn [rbind]. eexists. split; [reflexivity|]. cbn [replayed_count].
  unfold len in *. rewrite !length_app, length_seq in *. cbn [length]. lia.
Qed.

(** ** [overhead.py] *)

Record OverheadState := {
  oh_val : Z;
  oh_hist : LogLinearHistogram;
  oh_collector : MetricsCollector;
  oh_clock : VectorClock;
}.

(** [max(0.0, ((t1 - t0) / iterations) - baseline)]; the counter is read in nanoseconds. *)
Definition per_iteration (t0 t1 : Z) (iterations : nat) : result float := py_div (Z_to_float (t1 - t0)) (Z_to_float (Z.of_nat iterations)).

Fixpoint record_times (n : nat) (v : float) (h : LogLinearHistogram) : result LogLinearHistogram :=
  match n with O => Ok h | S n' => let! h' := record v h in record_times n' v h' end.

(** [run_overhead_benchmark]: the objects at the end, and the baseline and the three differences. *)
Definition run_overhead_benchmark (math_log2 : float -> float) (iterations : nat) (perf_ns : nat -> Z)
    : result (OverheadState * (float * list float)) :=
  let val := zsum (map Z.of_nat (List.seq 0 iterations)) in
  let! baseline_ns := per_iteration (perf_ns 0%nat) (perf_ns 1%nat) iterations in
  let! hist := histogram_init math_log2 7 (decimal_float false 1 9) in
  let! hist := record_times iterations (decimal_float false 1450 0) hist in
  let! hist_ns := per_iteration (perf_ns 2%nat) (perf_ns 3%nat) iterations in
  let! collector := metrics_init math_log2 7 in
  let collector := Nat.iter iterations (increment_counter (str "completed") 1) collector in
  let! counter_ns := per_iteration (perf_ns 4%nat) (perf_ns 5%nat) iterations in
  let vc := VectorClock_init (<[str "p1" := 1]> (<[str "p2" := 5]> {[str "p3" := 12]})) in
  let vc := Nat.iter iterations (fun vc => increment vc (str "p1")) vc in
  let! vc_ns := per_iteration (perf_ns 6%nat) (perf_ns 7%nat) iterations in
  Ok ({| oh_val := val; oh_hist := hist; oh_collector := collector; oh_clock := vc |},
      (baseline_ns, (fun x => py_max fzero (fsub x baseline_ns)) <$> [hist_ns; counter_ns; vc_ns])).

(** The values that a histogram accepts. *)
Definition measurable (v : float) : Prop := double v = true /\ isfinite v = true /\ py_lt v fzero = false.

Lemma record_measurable h v : hist_wf h -> measurable v -> exists h', record v h = Ok h' /\ hist_wf h' /\ total_count h' = total_count h + 1.
Proof.
  intros Hwf (Hd & Hf & Hp). pose proof (histogram_record_cases h v Hwf Hd) as Hr. rewrite Hp in Hr.
  destruct v; try done; destruct Hr as (h' & ? & ? & ? & _); eauto.
Qed.

Lemma record_times_ok n v h :
  hist_wf h -> measurable v -> exists h', record_times n v h = Ok h' /\ hist_wf h' /\ total_count h' = total_count h + Z.of_nat n.
Proof.
  intros Hwf Hv. revert h Hwf. induction n as [|n IH]; intros h Hwf; cbn [record_times]; [exists h; split_and!; [done|done|lia]|].
  destruct (record_measurable h v Hwf Hv) as (h1 & -> & Hwf1 & Hc1).
  cbn [rbind]. destruct (IH h1 Hwf1) as (h' & -> & Hwf' & Hc'). exists h'. split_and!; [done|done|lia].
Qed.

Lemma increments_counter name n m : get_counter name (Nat.iter n (increment_counter name 1) m) = get_counter name m + Z.of_nat n.
Proof.
  induction n as [|n IH]; [cbn; lia|]. rewrite Nat.iter_succ, get_counter_increment, decide_True, IH by done. lia.
Qed.

Lemma increments_clock p n c : vc_wf c ->
  vc_get (Nat.iter n (fun c => increment c p) c) p = vc_get c p + Z.of_nat n /\
  (forall q, q <> p -> vc_get (Nat.iter n (fun c => increment c p) c) q = vc_get c q).
Proof.
  intros Hwf. induction n as [|n [IH1 IH2]]; [split; [cbn; lia|done]|]. rewrite Nat.iter_succ.
  assert (vc_wf (Nat.iter n (fun c => increment c p) c)) as Hw by (destruct n; [done|rewrite Nat.iter_succ; apply increment_wf]).
  split; [rewrite vc_get_increment by done; rewrite decide_True by done; lia|].
  intros q Hq. rewrite vc_get_increment by done. rewrite decide_False by done. rewrite Z.add_0_r. by apply IH2.
Qed.

(** The benchmark runs to its end, and its phases did the work that they are meant to measure: the
    histogram holds a sample, the counter an event and the clock a tick for each iteration. *)
Theorem overhead_benchmark_counts (math_log2 : float -> float) (iterations : nat) (perf_ns : nat -> Z) :
  nonzero (Z_to_float (Z.of_nat iterations)) ->
  is_ok (histogram_init math_log2 7 (decimal_float false 1 9)) = true -> is_ok (metrics_init math_log2 7) = true ->
  exists s times, run_overhead_benchmark math_log2 iterations perf_ns = Ok (s, times) /\
    total_count (oh_hist s) = Z.of_nat iterations /\ get_counter (str "completed") (oh_collector s) = Z.of_nat iterations /\
    vc_get (oh_clock s) (str "p1") = 1 + Z.of_nat iterations /\ vc_get (oh_clock s) (str "p2") = 5 /\ length times.2 = 3%nat.
Proof.
  intros Hz Hh Hm. unfold run_overhead_benchmark, per_iteration. rewrite !py_div_ok by done. cbn [rbind].
  destruct (histogram_init math_log2 7 _) as [h|] eqn:Eh; [|done]. cbn [rbind].
  pose proof (histogram_init_wf _ _ _ _ Eh) as Hwf.
  destruct (record_times_ok iterations (decimal_float false 1450 0) h Hwf (conj eq_refl (conj eq_refl eq_refl))) as (h' & -> & _ & Hc). cbn [rbind].
  destruct (metrics_init math_log2 7) as [m|] eqn:Em; [|done]. cbn [rbind]. eexists _, _. split; [reflexivity|].
  cbn [oh_hist oh_collector oh_clock snd].
  assert (total_count h = 0) as H0 by (clear -Eh; unfold histogram_init in Eh; by inv_result).
  assert (get_counter (str "completed") m = 0) as H1 by (clear -Em; unfold metrics_init in Em; by inv_result).
  set (c := VectorClock_init _).
  assert (vc_wf c) as Hcw by apply VectorClock_init_wf.
  destruct (increments_clock (str "p1") iterations c Hcw) as [H2 H3].
  rewrite increments_counter, Hc, H0, H1, H2, H3 by done. split_and!; [lia|lia|f_equal|by vm_compute|done].
Qed.

(** ** Samples: a counter that advances by one with each reading *)

Definition unit_counter (i : nat) : float := Z_to_float (Z.of_nat i).

Lemma unit_advances n : (n <= 5)%nat -> advances unit_counter n.
Proof. intros Hn i Hi. assert (i < 5)%nat as H5 by lia. do 5 (destruct i as [|i]; [by vm_compute|]). lia. Qed.

Lemma crypto_benchmark_completes_witness :
  exists report, run_crypto_benchmarks (toy_seed 1) 5 2 unit_counter = Ok report /\ rejected_count report = 2.
Proof. apply (crypto_benchmark_completes (toy_seed 1) 5 2 unit_counter); [lia|vm_compute; exact I|apply unit_advances; lia]. Defined.

Lemma wal_benchmark_counts_witness :
  exists report, run_wal_benchmarks 2 1 unit_counter = Ok report /\ replayed_count report = 3.
Proof. apply (wal_benchmark_counts 2 1 unit_counter); [lia|vm_compute; exact I|apply unit_advances; lia]. Defined.

Lemma overhead_benchmark_counts_witness :
  exists s times, run_overhead_benchmark (fun _ => Z_to_float 30) 3 (fun i => Z.of_nat i) = Ok (s, times) /\
    total_count (oh_hist s) = 3.
Proof.
  destruct (overhead_benchmark_counts (fun _ => Z_to_float 30) 3 (fun i => Z.of_nat i)) as (s & times & E & Hc & _).
  - vm_compute. exact I.
  - vm_compute. reflexivity.
  - vm_compute. reflexivity.
  - exists s, times. split; [exact E|exact Hc].
Defined.
