(* ===== verification/Batch.v ===== *)
(** * Nodes that are given tasks and then execute them

    The common part of the benchmarks and the demonstration: a node accepts a list of tasks, one after
    the other, and then its worker takes its turns until they are done. *)

From Stdlib Require Import ZArith NArith Lia.
From S2P Require Import Prelude PyFloat Text Json JsonFacts Security Consensus Crypto Lattice Heapq Queue.
From S2P Require Import Wal Metrics Failure Message Encodable LogSize SimNetwork Tcp Sha256 FloatText PyText Node NodeFacts NodeTheorems.
From S2P Require Import NodeScenarios Mesh Worker Drain AntiEntropy Provenance Bench Benches.
Open Scope Z_scope.
Open Scope node_scope.

(** ** Names and payloads *)

(** [f"...{i}".encode()] *)
Definition data (prefix : string) (i : nat) : list byte := default [] (utf8_encode (numbered prefix i)).

Lemma numbered_inj prefix i j : numbered prefix i = numbered prefix j -> i = j.
Proof.
  unfold numbered. intros E%app_inv_head. apply (f_equal digits_value) in E. rewrite !digits_value_N_str in E. lia.
Qed.

Lemma numbered_len prefix i : Z.of_nat i < 2 ^ 62 -> len (numbered prefix i) <= len (str prefix) + 64.
Proof. intros Hi. pose proof (N_str_short (N.of_nat i) ltac:(lia)). unfold numbered, len in *. rewrite length_app. lia. Qed.

Lemma data_encode prefix i : scalar_str (str prefix) = true -> utf8_encode (numbered prefix i) = Some (data prefix i).
Proof.
  intros Hp. pose proof (numbered_scalar prefix i Hp) as Hs. unfold scalar_str in Hs. apply forallb_Forall in Hs.
  destruct (utf8_encode_scalar (numbered prefix i)) as [b Hb]; [by eapply Forall_impl; [exact Hs|]|]. unfold data. by rewrite Hb.
Qed.

Lemma data_len prefix i :
  scalar_str (str prefix) = true -> ascii_chars (str prefix) -> Z.of_nat i < 2 ^ 62 -> len (data prefix i) <= len (str prefix) + 64.
Proof.
  intros Hs Ha Hi. destruct (utf8_ascii (numbered prefix i)) as (b & Hb & Hl).
  { apply Forall_app. split; [done|]. pose proof (proj1 (Z_str_bound (Z.of_nat i))) as Hz. unfold Z_str in Hz. by destruct i. }
  rewrite data_encode in Hb by done. injection Hb as ->. rewrite Hl. by apply numbered_len.
Qed.

(** A payload that starts with a letter which starts no JSON value carries no lease. *)
Lemma plain_lease `{UnicodeDB} prefix i c t :
  scalar_str (str prefix) = true -> str prefix = c :: t -> c = 100%N \/ c = 112%N \/ c = 105%N -> payload_lease (data prefix i) = None.
Proof.
  intros Hp Ht Hc. unfold payload_lease. rewrite (utf8_decode_encode _ _ (data_encode prefix i Hp)). unfold numbered. rewrite Ht.
  by destruct Hc as [-> | [-> | ->]].
Qed.

Lemma plain_task_lease `{Ed25519} `{UnicodeDB} (cfg : NodeConfig) p : payload_lease p = None -> task_lease_duration cfg p = lease_duration cfg.
Proof. intros Hp. unfold task_lease_duration. rewrite Hp. cbn. by case_match. Qed.

(** ** Nodes as they are built *)

Lemma init_starts `{Ed25519} `{UnicodeDB} log2 nid ps handler lease env mq ic key ring sec mt cfg st :
  node_init log2 nid ps handler lease env mq ic None key ring sec mt = Ok (cfg, st) ->
  node_wf cfg st /\ max_tasks cfg = mt /\ work_state 1 st /\ tasks st = [] /\ qview (queue st) = [] /\ worker st = WIdle /\
  done_count st = 0 /\ maxsize (queue st) = mq.
Proof.
  intros Hn. pose proof (node_init_wf _ _ _ _ _ _ _ _ _ _ _ _ _ _ _ Hn) as Hwf. split; [exact Hwf|].
  unfold node_init in Hn. inv_result. injection Hn as <- <-. split_and!; try done.
  - split; [done| |apply (wf_clock _ _ Hwf)]. intros k v. unfold VectorClock_init. cbn.
    intros [Hk Hp]%map_lookup_filter_Some. apply lookup_singleton_Some in Hk as [_ <-]. cbn in Hp. lia.
  - unfold metrics_init in *. by inv_result.
Qed.

Lemma queue_length {T} (q : PriorityQueue T) : len (q_heap q) = len (qview q).
Proof. unfold qview, len. rewrite length_fmap. by rewrite sort_by_perm. Qed.

Lemma empty_not_full {T} (q : PriorityQueue T) : qview q = [] -> full q = false.
Proof. intros Hq. unfold full. rewrite queue_length, Hq. destruct (Z.leb_spec (maxsize q) 0); [done|]. by apply Z.leb_gt. Qed.

Lemma keys_bound (st : NodeState) (l : list pystr) : NoDup (task_keys st) -> task_keys st ⊆ l -> len (tasks st) <= len l.
Proof.
  intros Hnd Hs. unfold len. rewrite <- (length_fmap fst). apply inj_le, submseteq_length, NoDup_submseteq; [exact Hnd|exact Hs].
Qed.

Lemma spec_put_perm {T} (x : T) p (l : list (Z * T)) : spec_put x p l ≡ₚ l ++ [(p, x)].
Proof.
  induction l as [|[q y] l IH]; cbn; [done|]. destruct (p <=? q); [by rewrite IH|]. exact (Permutation_cons_append ((q, y) :: l) (p, x)).
Qed.

Section batch.
Context `{Ed25519} `{MathLib} `{UnicodeDB} `{World} (cfg : NodeConfig) (handler : pystr -> list byte -> HandlerOutcome).
Context (name : nat -> pystr) (load : nat -> list byte) (prio : nat -> Z) (outcome : nat -> list byte).

(** The submissions, in order. *)
Fixpoint submit_all (is_ : list nat) : M () :=
  match is_ with
  | [] => nret ()
  | i :: rest => submit_task cfg (name i) (load i) (prio i) ;;* submit_all rest
  end.

(** A node accepts the tasks, then its worker takes [n] turns. *)
Definition batch (is_ : list nat) (n : nat) : M () := submit_all is_ ;;* turns cfg handler n.

(** A task that a node accepts and whose handler returns within the lease, whenever it is started. *)
Record task_ok (i : nat) : Prop := {
  tk_name : name i <> [] /\ len (name i) <= MAX_TASK_ID_LENGTH /\ scalar_str (name i) = true;
  tk_load : len (load i) <= MAX_TASK_PAYLOAD;
  tk_outcome : handler (name i) (load i) = HReturn (outcome i);
  tk_lease : forall k, float_ok (fadd (now_at k) (task_lease_duration cfg (load i))) = true;
  tk_time : forall k, py_gt (now_at (3 + k)%nat) (fadd (now_at k) (task_lease_duration cfg (load i))) = false;
}.

(** The record of a task that the node has executed. *)
Definition accomplished (st : NodeState) (i : nat) : Prop :=
  exists r, get_task (name i) st = Some r /\ state r = DONE /\ payload r = load i /\ task_result r = Some (outcome i) /\
    claimed_by r = Some (node_id cfg) /\ fence_token r = ftoken 1 (node_id cfg).

(** The node when it has been given the tasks [l]. *)
Record given (size : Z) (l : list nat) (st : NodeState) : Prop := {
  gi_wf : node_wf cfg st;
  gi_state : work_state (1 + len l) st;
  gi_idle : worker st = WIdle;
  gi_queue : qview (queue st) ≡ₚ (fun i => (prio i, name i)) <$> l;
  gi_size : maxsize (queue st) = size;
  gi_keys : task_keys st ⊆ name <$> l;
  gi_count : done_count st = 0;
  gi_pending : forall i, i ∈ l -> exists r, get_task (name i) st = Some r /\ state r = PENDING /\
    payload r = load i /\ fence_token r = ftoken 0 [];
}.

Lemma submit_given size l i st :
  env_ok cfg -> given size l st -> task_ok i -> (forall j, j ∈ l -> name j <> name i) -> len l < max_tasks cfg -> len l < size -> len l < 2 ^ 62 ->
  runs (submit_task cfg (name i) (load i) (prio i)) st (fun _ st' => given size (l ++ [i]) st').
Proof.
  intros He [Hwf Hws Hidle Hq Hsz Hk Hc Hp] [(Hid & Hidl & Hids) Hpl _ _ _] Hi Hl Hl2 Hl3. set (tid := name i) in *. set (p := load i) in *.
  assert (len (tasks st) < max_tasks cfg) as Hroom.
  { pose proof (keys_bound st _ (wf_keys _ _ Hwf) Hk) as Hkb. unfold len in *. rewrite length_fmap in Hkb. lia. }
  assert (full (queue st) = false) as Hfull.
  { unfold full. rewrite Hsz, queue_length. destruct (Z.leb_spec size 0); [done|]. apply Z.leb_gt. unfold len in *. rewrite Hq. by rewrite length_fmap. }
  destruct (submit_runs cfg tid p (prio i) st (1 + len l) He Hwf Hid Hidl Hids Hpl (or_intror Hroom) Hfull ltac:(unfold len in *; lia) Hws)
    as ([] & st' & E & Hw' & _ & _ & Hd' & [Hm' Hi'] & _).
  destruct (submit_task_effect cfg tid p (prio i) st st' Hwf E) as (_ & (r & Hr & Hcr) & Hother & _ & _ & _ & Hq').
  apply same_content_fields in Hcr as (_ & Hst & Hpr & _ & _ & _ & Hf & _). cbn in Hst, Hpr, Hf.
  pose proof (ev_submit cfg tid p (prio i) st Hwf) as [Hwf' _]. rewrite E in Hwf'. cbn in Hwf'.
  exists (), st'. split; [done|]. split.
  - done.
  - replace (1 + len (l ++ [i])) with (1 + len l + 1) by (unfold len; rewrite length_app; cbn; lia). done.
  - congruence.
  - by rewrite Hq', spec_put_perm, Hq, fmap_app.
  - congruence.
  - intros j Hj. rewrite fmap_app. apply elem_of_app. destruct (decide (j = tid)) as [->|Hne]; [right; by apply list_elem_of_singleton|left].
    apply Hk. apply list_elem_of_fmap in Hj as ([j' x] & -> & Hx). apply dict_elem_get in Hx; [|apply (wf_keys _ _ Hwf')].
    change (get_task j' st' = Some x) in Hx. rewrite Hother in Hx by done. by eapply dict_get_key.
  - by rewrite Hd'.
  - intros j [Hj| ->%list_elem_of_singleton]%elem_of_app; [|by exists r].
    destruct (Hp j Hj) as (x & Hx & Hx'). exists x. by rewrite Hother; [|apply Hi].
Qed.

Lemma submit_all_given size is_ l st :
  env_ok cfg -> given size l st -> Forall task_ok is_ -> NoDup (name <$> (l ++ is_)) ->
  len (l ++ is_) <= max_tasks cfg -> len (l ++ is_) <= size -> len (l ++ is_) < 2 ^ 62 ->
  runs (submit_all is_) st (fun _ st' => given size (l ++ is_) st').
Proof.
  intros He. revert l st. induction is_ as [|i is_ IH]; intros l st Hg Hok Hnd H1' H2' H3'; cbn [submit_all].
  { exists (), st. by rewrite app_nil_r. }
  apply Forall_cons in Hok as [Hi Hok]. rewrite cons_middle, app_assoc in *.
  eapply runs_bind; [apply (submit_given size l i st); try done|].
  - intros j Hj Heq. rewrite !fmap_app in Hnd. apply NoDup_app in Hnd as [Hnd _]. apply NoDup_app in Hnd as (_ & Hd & _).
    apply (Hd (name j)); [by apply list_elem_of_fmap_2|]. rewrite Heq. by apply list_elem_of_singleton.
  - unfold len in *. rewrite !length_app in H1'. cbn in H1'. lia.
  - unfold len in *. rewrite !length_app in H2'. cbn in H2'. lia.
  - unfold len in *. rewrite !length_app in H3'. cbn in H3'. lia.
  - intros [] st1 Hg1. by apply IH.
Qed.

Lemma given_can_run size l st i : Forall task_ok l -> given size l st -> i ∈ l -> can_run cfg handler st (name i).
Proof.
  intros Hok Hg Hi. destruct (gi_pending _ _ _ Hg i Hi) as (r & Hr & Hs & Hp & Hf). exists r. split; [done|]. right. split; [done|].
  rewrite Forall_forall in Hok. destruct (Hok i Hi) as [(_ & _ & Hn) _ Ho Hl Ht]. split; rewrite ?Hp, ?Hf; [done|done|by rewrite Ho|apply Hl|apply Ht].
Qed.

(** A node that accepts a batch of tasks and takes as many turns has executed them all. *)
Lemma batch_runs size share st0 :
  env_ok cfg -> given size [] st0 -> Forall task_ok share -> NoDup (name <$> share) -> len share <= max_tasks cfg -> len share <= size ->
  len share < 2 ^ 61 ->
  runs (batch share (length share)) st0 (fun _ st =>
    worker st = WIdle /\ done_count st = len share /\ qview (queue st) = [] /\
    (forall i, i ∈ share -> accomplished st i) /\ task_keys st ⊆ name <$> share).
Proof.
  intros He Hg0 Hok Hnd Hmax Hsize Hlen. unfold batch. eapply runs_bind; [apply (submit_all_given size share [] st0); rewrite ?app_nil_l; try done; lia|].
  intros [] st1 Hg. rewrite app_nil_l in Hg. pose proof Hg as [Hwf1 Hws1 Hidle1 Hq1 _ Hk1 Hc1 Hp1].
  assert (length (qview (queue st1)) = length share) as Hll by (by rewrite Hq1, length_fmap). rewrite <- Hll.
  eapply runs_weaken; [apply (turns_run cfg handler _ st1 (1 + len share)); try done|].
  - rewrite Hq1. apply Forall_fmap, Forall_forall. intros i Hi. by apply (given_can_run size share st1).
  - unfold len. lia.
  - unfold len in *. rewrite Hll. lia.
  - intros [] st' (Hidle' & Hq' & Hwf' & _ & Hrest & Hset & Hd').
    assert (queued (qview (queue st1)) = list_to_set (name <$> share)) as Hqu.
    { unfold queued. apply leibniz_equiv. intros k. by rewrite !elem_of_list_to_set, Hq1, <- list_fmap_compose. }
    rewrite Hqu in Hrest, Hset, Hd'. split_and!; [done| |done| |].
    + rewrite Hd', Hc1. match goal with |- context [filter ?P ?X] => assert (filter P X = X) as -> end.
      { apply leibniz_equiv. intros k. rewrite elem_of_filter. split; [by intros []|]. intros Hk. split; [|done].
        apply elem_of_list_to_set, list_elem_of_fmap in Hk as (i & -> & Hi). destruct (Hp1 i Hi) as (r & Hr & Hs & Hp & _).
        rewrite Forall_forall in Hok. exists r, (outcome i). by rewrite Hp, (tk_outcome _ (Hok i Hi)). }
      rewrite size_list_to_set by done. by rewrite length_fmap.
    + intros i Hi. destruct (Hset (name i)) as (r & r' & Hr & Hr' & Hs).
      { apply elem_of_list_to_set, list_elem_of_fmap. by exists i. }
      destruct (Hp1 i Hi) as (r2 & Hr2 & Hst2 & Hpay & Hft). assert (r2 = r) as -> by congruence.
      rewrite Forall_forall in Hok. unfold settles in Hs. rewrite Hst2, Hpay, (tk_outcome _ (Hok i Hi)) in Hs. cbn in Hs.
      destruct Hs as (_ & Hp' & Hcb & Hf' & Hs' & Hres & _). rewrite Hft in Hf'. exists r'. by split_and!.
    + intros k Hk. destruct (decide (k ∈ name <$> share)) as [|Hne]; [done|].
      apply list_elem_of_fmap in Hk as ([k' x] & -> & Hx). apply dict_elem_get in Hx; [|apply (wf_keys _ _ Hwf')].
      change (get_task k' st' = Some x) in Hx. rewrite Hrest in Hx by (by rewrite elem_of_list_to_set). apply Hk1. by eapply dict_get_key.
Qed.

Lemma init_given log2 nid ps hd lease env mq ic key ring sec mt st :
  node_init log2 nid ps hd lease env mq ic None key ring sec mt = Ok (cfg, st) -> given mq [] st /\ max_tasks cfg = mt.
Proof.
  intros Hn. destruct (init_starts _ _ _ _ _ _ _ _ _ _ _ _ _ _ Hn) as (Hwf & Hmax & Hws & Htasks & Hq & Hidle & Hc & Hsz).
  split; [|done]. split; try done; [by rewrite Hq|unfold task_keys; by rewrite Htasks|intros i []%elem_of_nil].
Qed.
End batch.
