(* ===== verification/Turnaround.v ===== *)
(** * The benchmarks of task execution ([bench/latency.py], [bench/throughput.py])

    A node that is given the tasks of the benchmark one by one and is polled until each is finished, and
    nodes that are given their shares of the tasks and then execute them.  While a benchmark sleeps, the
    worker of a node takes its turns; the other loops of the node send messages and leave its table
    alone, since the nodes know no key but their own.  Printing is left out. *)

From Stdlib Require Import ZArith NArith Lia.
From S2P Require Import Prelude PyFloat Text Json JsonFacts Security Consensus Crypto Lattice Heapq Queue.
From S2P Require Import Wal Metrics Failure Message Encodable LogSize SimNetwork Tcp Sha256 FloatText PyText Node NodeFacts NodeTheorems.
From S2P Require Import NodeScenarios Mesh Worker Drain AntiEntropy Provenance Bench Benches Batch.
Open Scope Z_scope.
Open Scope node_scope.

(** [payload.upper()] *)
Definition upper_byte (b : byte) : byte := if (97 <=? byte_Z b) && (byte_Z b <=? 122) then Z_byte (byte_Z b - 32) else b.
Definition bytes_upper (p : list byte) : list byte := upper_byte <$> p.

(** The handlers of both benchmarks. *)
Definition upper_handler (k : pystr) (p : list byte) : HandlerOutcome := HReturn (bytes_upper p).

Section models.
Context `{Ed25519} `{MathLib} `{UnicodeDB}.

(** ** [latency.py] *)

(** The node that is measured, [n1]. *)
Definition latency_node (math_log2 : float -> float) (env_lease : option pystr) (generated : PrivateKey) : result (NodeConfig * NodeState) :=
  node_init math_log2 (str "p1") [str "p2"] true (Some (decimal_float false 5 0)) env_lease 1000 20 None generated [] default_security 10000.

(** A node of the throughput benchmark. *)
Definition throughput_node (math_log2 : float -> float) (env_lease : option pystr) (generated : PrivateKey) (num_peers j : nat) : result (NodeConfig * NodeState) :=
  node_init math_log2 (numbered "peer-" j) (bench_node_ids num_peers) true (Some (decimal_float false 5 0)) env_lease 10000 500 None generated []
    default_security 10000.

Context `{World} (cfg : NodeConfig).

(** The polling loop: [true] when it has seen the task finished, at most [fuel] polls. *)
Fixpoint wait_terminal (fuel : nat) (tid : pystr) : M bool :=
  match fuel with
  | O => nret false
  | S f =>
      let* rec := gets (get_task tid) in
      match rec with
      | Some r => if is_terminal (state r) then nret true else iteration cfg upper_handler ;;* wait_terminal f tid
      | None => iteration cfg upper_handler ;;* wait_terminal f tid
      end
  end.

Definition latency_us (t0 t1 : float) : float := fmul (fsub t1 t0) (decimal_float false 1 6).

(** The loop over the tasks; [None] when a polling loop has not ended within [polls]. *)
Fixpoint latency_tasks (polls : nat) (perf : nat -> float) (is_ : list nat) (hist : LogLinearHistogram) : M (option LogLinearHistogram) :=
  match is_ with
  | [] => nret (Some hist)
  | i :: rest =>
      submit_task cfg (numbered "t-lat-" i) (data "data-" i) 0 ;;*
      let* finished := wait_terminal polls (numbered "t-lat-" i) in
      if finished then
        let* hist' := lift (record (latency_us (perf (2 * i)%nat) (perf (2 * i + 1)%nat)) hist) in
        latency_tasks polls perf rest hist'
      else nret None
  end.

(** [run_latency_benchmark], between the start and the stop of the nodes. *)
Definition run_latency_benchmark (math_log2 : float -> float) (polls num_tasks : nat) (perf : nat -> float) : M (option LogLinearHistogram) :=
  let* hist := lift (histogram_init math_log2 7 (decimal_float false 1 9)) in
  latency_tasks polls perf (List.seq 0 num_tasks) hist.

(** ** [throughput.py] *)

(** Task [i] goes to node [i % num_peers]. *)
Definition throughput_share (num_peers num_tasks j : nat) : list nat := filter (fun i => (i mod num_peers)%nat = j) (List.seq 0 num_tasks).

(** What a node does: it takes its share of the tasks, then its worker takes [n] turns. *)
Definition throughput_work (share : list nat) (n : nat) : M () :=
  batch cfg upper_handler (numbered "task-") (data "payload-") (fun _ => 0) share n.
End models.

(** [sum(n.metrics.get_counter("completed") for n in nodes)] and the test of the waiting loop. *)
Definition completed_total (sts : list NodeState) : Z := zsum (map done_count sts).
Definition throughput_done (num_tasks : nat) (sts : list NodeState) : bool := Z.of_nat num_tasks <=? completed_total sts.

(** The throughput and the average time per task that the report shows. *)
Definition throughput_report (num_tasks : nat) (t_start t_end : float) : result (float * float) :=
  let duration := fsub t_end t_start in
  let! throughput := py_div (Z_to_float (Z.of_nat num_tasks)) duration in
  let! avg := py_div duration (Z_to_float (Z.of_nat num_tasks)) in
  Ok (throughput, fmul avg (decimal_float false 1 6)).

Section latency.
Context `{Ed25519} `{MathLib} `{UnicodeDB} `{World} (cfg : NodeConfig).

(** The handlers end within the lease of the node, whenever they are started. *)
Record within_lease : Prop := {
  wl_lease : forall i, float_ok (fadd (now_at i) (lease_duration cfg)) = true;
  wl_time : forall i, py_gt (now_at (3 + i)%nat) (fadd (now_at i) (lease_duration cfg)) = false;
}.

(** The record of a task that the node has executed for the benchmark. *)
Definition uppercased (name dname : string) (st : NodeState) (i : nat) : Prop :=
  exists r, get_task (numbered name i) st = Some r /\ state r = DONE /\ payload r = data dname i /\
    task_result r = Some (bytes_upper (data dname i)).

(** The node after [k] tasks. *)
Record measured (k : nat) (st : NodeState) : Prop := {
  me_wf : node_wf cfg st;
  me_state : work_state (1 + 3 * Z.of_nat k) st;
  me_queue : qview (queue st) = [];
  me_keys : task_keys st ⊆ numbered "t-lat-" <$> List.seq 0 k;
  me_count : done_count st = Z.of_nat k;
  me_done : forall i, (i < k)%nat -> uppercased "t-lat-" "data-" st i;
}.

Lemma measured_accepts k st : measured k st -> within_lease -> Z.of_nat k < 10000 -> max_tasks cfg = 10000 ->
  accepts_task cfg (1 + 3 * Z.of_nat k) st (numbered "t-lat-" k) (data "data-" k) 0.
Proof.
  intros [Hwf Hws Hq Hk _ _] [Hl Ht] Hlt Hmax.
  assert (task_lease_duration cfg (data "data-" k) = lease_duration cfg) as Hlease
    by (apply plain_task_lease, (plain_lease "data-" k 100 (str "ata-")); [done|done|by left]).
  split; rewrite ?Hlease; [exact Hwf| | | |by apply empty_not_full|by rewrite Hq| |apply Hl|apply Ht].
  - split_and!; [done| |by apply numbered_scalar]. pose proof (numbered_len "t-lat-" k ltac:(lia)) as Hn. etrans; [exact Hn|]. by vm_compute.
  - etrans; [apply data_len; [done|by repeat constructor|lia]|]. by vm_compute.
  - right. pose proof (keys_bound st _ (wf_keys _ _ Hwf) Hk) as Hb. unfold len in *. rewrite length_fmap, length_seq in Hb. lia.
  - split; [lia|done].
Qed.

(** One task: two polls see it pending and then finished. *)
Lemma latency_task_runs k st polls :
  env_ok cfg -> within_lease -> max_tasks cfg = 10000 -> Z.of_nat k < 10000 -> measured k st ->
  runs (submit_task cfg (numbered "t-lat-" k) (data "data-" k) 0 ;;* wait_terminal cfg (2 + polls) (numbered "t-lat-" k)) st
    (fun b st' => b = true /\ measured (S k) st').
Proof.
  intros He Hwl Hmax Hk Hm. pose proof (measured_accepts k st Hm Hwl Hk Hmax) as Hat. set (tid := numbered "t-lat-" k) in *. set (p := data "data-" k) in *.
  destruct (submit_iteration_runs cfg upper_handler st tid p 0 _ He Hat eq_refl)
    as ([] & st' & E & st1 & r0 & c & r & s1 & s2 & cr & Hother & _ & Hd1 & Hq & _ & _ & _ & Hr0 & Hex).
  apply nbind_Ok in E as ([] & st2 & E1 & E2).
  destruct (submit_task_effect cfg tid p 0 st st2 (at_wf _ _ _ _ _ _ Hat) E1) as (_ & (r2 & Hr2 & Hc2) & Hother2 & _).
  apply same_content_fields in Hc2 as (_ & Hs2 & _). cbn in Hs2.
  destruct Hex as [_ Hws Hwf _ Hcount Hothers _ _ Hrec Hoc _ _ _]. apply same_content_fields in Hoc as (_ & Hst & Hp & Hres & _). cbn in Hst, Hp, Hres.
  apply same_content_fields in Hr0 as (_ & _ & Hp0 & _). cbn in Hp0. rewrite Hp0 in Hp.
  assert (forall j, j <> tid -> get_task j st' = get_task j st) as Hrest by (intros j Hj; by rewrite Hothers, Hother).
  exists true, st'. split.
  { unfold nbind at 1. rewrite E1. cbn [Nat.add wait_terminal]. unfold nbind at 1, gets at 1. rewrite Hr2, Hs2. cbn [is_terminal].
    unfold nbind at 1. rewrite E2. unfold nbind at 1, gets at 1. by rewrite Hrec, Hst. }
  split; [done|]. destruct Hm as [_ _ Hq0 Hk0 Hc0 Hd0]. split.
  - done.
  - by replace (1 + 3 * Z.of_nat (S k)) with (1 + 3 * Z.of_nat k + 1 + 2) by lia.
  - by rewrite Hq.
  - intros j Hj. rewrite seq_S, fmap_app. apply elem_of_app. destruct (decide (j = tid)) as [->|Hne]; [right; by apply list_elem_of_singleton|left].
    apply Hk0. apply list_elem_of_fmap in Hj as ([j' x] & -> & Hx). apply dict_elem_get in Hx; [|apply (wf_keys _ _ Hwf)].
    change (get_task j' st' = Some x) in Hx. rewrite Hrest in Hx by done. by eapply dict_get_key.
  - rewrite Hcount, Hd1, Hc0. cbn. lia.
  - intros i Hi. destruct (decide (i = k)) as [->|Hne].
    + exists r. fold tid p. by split_and!.
    + destruct (Hd0 i ltac:(lia)) as (x & Hx & Hx'). exists x. rewrite Hrest; [done|]. intros Heq%numbered_inj. done.
Qed.

Lemma latency_tasks_run n perf polls k st h :
  env_ok cfg -> within_lease -> max_tasks cfg = 10000 -> Z.of_nat (k + n) <= 10000 -> measured k st -> hist_wf h ->
  (forall i, (i < k + n)%nat -> measurable (latency_us (perf (2 * i)%nat) (perf (2 * i + 1)%nat))) ->
  runs (latency_tasks cfg (2 + polls) perf (List.seq k n) h) st (fun res st' =>
    measured (k + n) st' /\ exists h', res = Some h' /\ total_count h' = total_count h + Z.of_nat n).
Proof.
  intros He Hwl Hmax. revert k st h. induction n as [|n IH]; intros k st h Hn Hm Hh Hperf; cbn [List.seq latency_tasks].
  { exists (Some h), st. rewrite Nat.add_0_r. split_and!; [done|done|]. exists h. split; [done|lia]. }
  destruct (latency_task_runs k st polls He Hwl Hmax ltac:(lia) Hm) as (b & st1 & E & -> & Hm1).
  apply nbind_Ok in E as ([] & st2 & E1 & E2).
  eapply runs_step; [exact E1|]. eapply runs_step; [exact E2|]. cbv iota.
  destruct (record_measurable h (latency_us (perf (2 * k)%nat) (perf (2 * k + 1)%nat)) Hh) as (h1 & Eh & Hh1 & Hc1); [apply Hperf; lia|].
  eapply runs_step; [unfold lift; by rewrite Eh|].
  eapply runs_weaken; [apply (IH (S k) st1 h1); [lia|done|done|intros i Hi; apply Hperf; lia]|].
  intros res st' [Hm' (h' & -> & Hc')]. replace (k + S n)%nat with (S k + n)%nat by lia. split; [done|]. exists h'. split; [done|lia].
Qed.

(** The latency benchmark ends: with at most as many tasks as a node may hold, handlers that end within
    the lease and latencies that are numbers, every polling loop sees its task finished at its second
    poll, the histogram has a sample for every task, and the node holds every task as done with the
    payload in capitals. *)
Theorem latency_benchmark_completes (math_log2 : float -> float) (env_lease : option pystr) (generated : PrivateKey)
    (num_tasks polls : nat) (perf : nat -> float) (st0 : NodeState) :
  latency_node math_log2 env_lease generated = Ok (cfg, st0) -> env_ok cfg -> within_lease -> Z.of_nat num_tasks <= 10000 ->
  (forall i, (i < num_tasks)%nat -> measurable (latency_us (perf (2 * i)%nat) (perf (2 * i + 1)%nat))) ->
  is_ok (histogram_init math_log2 7 (decimal_float false 1 9)) = true ->
  exists st h, run_latency_benchmark cfg math_log2 (2 + polls) num_tasks perf st0 = (Ok (Some h), st) /\
    total_count h = Z.of_nat num_tasks /\ done_count st = Z.of_nat num_tasks /\ qview (queue st) = [] /\
    forall i, (i < num_tasks)%nat -> uppercased "t-lat-" "data-" st i.
Proof.
  intros Hinit He Hwl Hn Hperf Hh. unfold latency_node in Hinit. destruct (init_starts _ _ _ _ _ _ _ _ _ _ _ _ _ _ Hinit) as (Hwf & Hmax & Hws & Htasks & Hq & _ & Hc & _).
  destruct (histogram_init math_log2 7 (decimal_float false 1 9)) as [h0|] eqn:Eh; [|done].
  assert (measured 0 st0) as Hm0.
  { split; [done|done|done|unfold task_keys; by rewrite Htasks|done|intros i Hi; lia]. }
  destruct (latency_tasks_run num_tasks perf polls 0 st0 h0 He Hwl Hmax Hn Hm0 (histogram_init_wf _ _ _ _ Eh) Hperf)
    as (res & st & E & Hm & h & -> & Hcount).
  assert (total_count h0 = 0) as H0' by (clear -Eh; unfold histogram_init in Eh; by inv_result).
  exists st, h. split; [unfold run_latency_benchmark, nbind, lift; by rewrite Eh|]. rewrite Hcount, H0'.
  split_and!; [done|apply (me_count _ _ Hm)|apply (me_queue _ _ Hm)|apply (me_done _ _ Hm)].
Qed.
End latency.

Section throughput.
Context `{Ed25519} `{MathLib} `{UnicodeDB} `{World} (cfg : NodeConfig).

Lemma throughput_task_ok i : within_lease cfg -> Z.of_nat i < 2 ^ 62 ->
  task_ok cfg upper_handler (numbered "task-") (data "payload-") (fun i => bytes_upper (data "payload-" i)) i.
Proof.
  intros [Hl Ht] Hi. assert (task_lease_duration cfg (data "payload-" i) = lease_duration cfg) as Hlease
    by (apply plain_task_lease, (plain_lease "payload-" i 112 (str "ayload-")); [done|done|by right; left]).
  split; rewrite ?Hlease; [|etrans; [apply data_len; [done|by repeat constructor|lia]|]; by vm_compute|done|apply Hl|apply Ht].
  split_and!; [done| |by apply numbered_scalar]. pose proof (numbered_len "task-" i ltac:(lia)) as Hn. etrans; [exact Hn|]. by vm_compute.
Qed.

(** A node takes and executes its share. *)
Lemma throughput_work_runs math_log2 env_lease generated num_peers j share st0 :
  throughput_node math_log2 env_lease generated num_peers j = Ok (cfg, st0) -> env_ok cfg -> within_lease cfg ->
  NoDup share -> len share <= 10000 -> Forall (fun i => Z.of_nat i < 2 ^ 62) share ->
  runs (throughput_work cfg share (length share)) st0 (fun _ st =>
    done_count st = len share /\ qview (queue st) = [] /\ forall i, i ∈ share -> uppercased "task-" "payload-" st i).
Proof.
  intros Hinit He Hwl Hnd Hlen Hb. unfold throughput_node in Hinit. destruct (init_given cfg (numbered "task-") (data "payload-") (fun _ => 0) _ _ _ _ _ _ _ _ _ _ _ _ _ Hinit) as [Hg Hmax].
  eapply runs_weaken; [apply (batch_runs cfg upper_handler (numbered "task-") (data "payload-") (fun _ => 0) (fun i => bytes_upper (data "payload-" i)) 10000 share st0); try done|].
  - eapply Forall_impl; [exact Hb|]. intros i Hi. by apply throughput_task_ok.
  - apply NoDup_fmap_2; [|done]. intros i i'. apply numbered_inj.
  - by rewrite Hmax.
  - lia.
  - intros [] st (_ & Hd & Hq & Hall & _). split_and!; [done|done|]. intros i Hi. destruct (Hall i Hi) as (r & Hr & Hs & Hp & Hres & _). by exists r.
Qed.
End throughput.

(** Every task belongs to exactly one share. *)
Lemma share_sizes num_peers num_tasks : (0 < num_peers)%nat ->
  zsum (map (fun j => len (throughput_share num_peers num_tasks j)) (List.seq 0 num_peers)) = Z.of_nat num_tasks.
Proof.
  intros Hp. induction num_tasks as [|n IH].
  - unfold throughput_share. cbn [List.seq]. generalize (List.seq 0 num_peers). intros l. induction l as [|j l IHl]; [done|exact IHl].
  - unfold throughput_share in *. rewrite seq_S. cbn [Nat.add].
    assert (forall l, zsum (map (fun j => len (filter (fun i => (i mod num_peers)%nat = j) (List.seq 0 n ++ [n]))) l) =
      zsum (map (fun j => len (filter (fun i => (i mod num_peers)%nat = j) (List.seq 0 n))) l) +
      zsum (map (fun j => if decide ((n mod num_peers)%nat = j) then 1 else 0) l)) as ->.
    { induction l as [|j l IHl]; [done|]. cbn [map]. unfold zsum in *. cbn [foldr]. rewrite IHl, filter_app. unfold len at 1. rewrite length_app.
      rewrite filter_cons, filter_nil. unfold len. destruct (decide _); cbn; lia. }
    rewrite IH.
    assert (forall m s k, zsum (map (fun j => if decide (k = j) then 1 else 0) (List.seq s m)) = if decide (s <= k < s + m)%nat then 1 else 0) as ->.
    { induction m as [|m IHm]; intros s k; cbn [List.seq map]; [by rewrite decide_False by lia|]. unfold zsum in *. cbn [foldr]. rewrite IHm.
      repeat destruct (decide _); lia. }
    rewrite decide_True by (pose proof (Nat.mod_upper_bound n num_peers); lia). lia.
Qed.

Section cluster.
Context `{Ed25519} `{MathLib} `{UnicodeDB}.

(** The throughput benchmark ends: each of its nodes accepts its share of the tasks and executes it in as
    many turns of its worker as the share has tasks; then the sum of the counters of completed tasks is the
    number of tasks, which ends the waiting loop, and every task is done at the node that was given it,
    with the payload in capitals. *)
Theorem throughput_benchmark_completes (math_log2 : float -> float) (env_lease : option pystr) (generated : nat -> PrivateKey)
    (worlds : nat -> World) (cfgs : nat -> NodeConfig) (st0s : nat -> NodeState) (num_peers num_tasks : nat) :
  (0 < num_peers)%nat -> Z.of_nat num_tasks <= 10000 ->
  (forall j, (j < num_peers)%nat -> throughput_node math_log2 env_lease (generated j) num_peers j = Ok (cfgs j, st0s j) /\
     env_ok (H2 := worlds j) (cfgs j) /\ within_lease (H2 := worlds j) (cfgs j)) ->
  exists sts, (forall j, (j < num_peers)%nat ->
      let share := throughput_share num_peers num_tasks j in
      throughput_work (H2 := worlds j) (cfgs j) share (length share) (st0s j) = (Ok (), sts j) /\
      forall i, i ∈ share -> uppercased "task-" "payload-" (sts j) i) /\
    completed_total (sts <$> List.seq 0 num_peers) = Z.of_nat num_tasks /\
    throughput_done num_tasks (sts <$> List.seq 0 num_peers) = true.
Proof.
  intros Hp Hn Hnodes. set (share := throughput_share num_peers num_tasks).
  set (sts := fun j => (throughput_work (H2 := worlds j) (cfgs j) (share j) (length (share j)) (st0s j)).2).
  assert (forall j, (j < num_peers)%nat -> throughput_work (H2 := worlds j) (cfgs j) (share j) (length (share j)) (st0s j) = (Ok (), sts j) /\
    done_count (sts j) = len (share j) /\ forall i, i ∈ share j -> uppercased "task-" "payload-" (sts j) i) as Hall.
  { intros j Hj. destruct (Hnodes j Hj) as (Hinit & He & Hwl).
    destruct (throughput_work_runs (H2 := worlds j) (cfgs j) _ _ _ _ _ (share j) _ Hinit He Hwl) as ([] & st & E & Hd & _ & Hup).
    - apply NoDup_filter, NoDup_seq.
    - unfold share, throughput_share, len. pose proof (length_filter (fun i => (i mod num_peers)%nat = j) (List.seq 0 num_tasks)) as Hf.
      rewrite length_seq in Hf. lia.
    - apply Forall_forall. intros i [_ Hi%elem_of_seq]%list_elem_of_filter. lia.
    - unfold sts. rewrite E. by split_and!. }
  exists sts. assert (completed_total (sts <$> List.seq 0 num_peers) = Z.of_nat num_tasks) as Htotal.
  { rewrite <- (share_sizes num_peers num_tasks Hp). unfold completed_total. f_equal. change (sts <$> ?l) with (map sts l). rewrite map_map.
    apply map_ext_in. intros j Hj%in_seq. apply Hall. lia. }
  split_and!; [|done|unfold throughput_done; rewrite Htotal; apply Z.leb_refl]. intros j Hj. destruct (Hall j Hj) as (E & _ & Hup). by split.
Qed.
End cluster.

(** ** Samples, under clocks that stand still *)

Definition log2_30 (x : float) : float := Z_to_float 30.

Lemma still_env cfg : scalar_str (node_id cfg) = true ->
  protocol_version (security cfg) = 2 -> env_ok (H2 := still_world) cfg.
Proof.
  intros Hid Hv. split; [intros i; vm_compute; reflexivity|intros i; vm_compute; split; [reflexivity|split; discriminate]| |rewrite Hv; vm_compute; reflexivity].
  exact Hid.
Qed.

Lemma still_within cfg m : lease_duration cfg = decimal_float false m 0 -> (m = 2 \/ m = 5) -> within_lease (H2 := still_world) cfg.
Proof. intros Hl Hm. split; intros i; rewrite Hl; destruct Hm as [-> | ->]; vm_compute; reflexivity. Qed.

(** What the samples need of a node. *)
Definition sample_node (n : result (NodeConfig * NodeState)) (nid : pystr) (m : Z) : bool :=
  match n with
  | Ok (cfg, _) => bool_decide (node_id cfg = nid) && (protocol_version (security cfg) =? 2) && bool_decide (lease_duration cfg = decimal_float false m 0)
  | Raise _ => false
  end.

Lemma sample_node_ok n nid m : sample_node n nid m = true -> scalar_str nid = true -> (m = 2 \/ m = 5) ->
  exists cfg st, n = Ok (cfg, st) /\ env_ok (H2 := still_world) cfg /\ within_lease (H2 := still_world) cfg.
Proof.
  destruct n as [[cfg st]|]; [|done]. cbn. intros [[Hn%bool_decide_eq_true Hv%Z.eqb_eq]%andb_true_iff Hl%bool_decide_eq_true]%andb_true_iff Hs Hm.
  exists cfg, st. split; [done|]. split; [apply still_env; [by rewrite Hn|done]|by apply (still_within cfg m)].
Qed.

Lemma latency_benchmark_completes_witness :
  exists cfg st0 st h, latency_node log2_30 None (toy_seed 1) = Ok (cfg, st0) /\
    run_latency_benchmark (H2 := still_world) cfg log2_30 2 2 unit_counter st0 = (Ok (Some h), st) /\ total_count h = 2 /\
    uppercased "t-lat-" "data-" st 1.
Proof.
  destruct (sample_node_ok (latency_node log2_30 None (toy_seed 1)) (str "p1") 5) as (cfg & st0 & Hn & He & Hl);
    [vm_compute; reflexivity|reflexivity|right; reflexivity|].
  destruct (latency_benchmark_completes (H2 := still_world) cfg log2_30 None (toy_seed 1) 2 0 unit_counter st0 Hn) as (st & h & E & Hc & _ & _ & Hup).
  - exact He.
  - exact Hl.
  - lia.
  - intros i Hi. destruct i as [|[|i]]; [vm_compute; split_and!; reflexivity..|lia].
  - vm_compute. reflexivity.
  - exists cfg, st0, st, h. split; [exact Hn|]. split; [exact E|]. split; [exact Hc|]. apply Hup. lia.
Defined.

Definition sample_peer (j : nat) : result (NodeConfig * NodeState) := throughput_node log2_30 None (toy_seed (Z.of_nat j)) 2 j.
Definition sample_peer_node (j : nat) : NodeConfig * NodeState :=
  match sample_peer j with Ok n => n | Raise _ => (toy_cfg true true, toy_state true true) end.

Lemma throughput_benchmark_completes_witness :
  exists sts, completed_total (sts <$> List.seq 0 2) = 3 /\ uppercased "task-" "payload-" (sts 0%nat) 2 /\
    throughput_share 2 3 0 = [0%nat; 2%nat].
Proof.
  destruct (throughput_benchmark_completes log2_30 None (fun j => toy_seed (Z.of_nat j)) (fun _ => still_world) (fun j => (sample_peer_node j).1)
    (fun j => (sample_peer_node j).2) 2 3) as (sts & Hall & Htotal & _).
  - lia.
  - lia.
  - intros j Hj. destruct (sample_node_ok (sample_peer j) (numbered "peer-" j) 5) as (cfg & st0 & Hn & Hnode).
    + destruct j as [|[|j]]; [vm_compute; reflexivity..|lia].
    + apply numbered_scalar. reflexivity.
    + right. reflexivity.
    + unfold sample_peer_node. rewrite Hn. exact (conj Hn Hnode).
  - exists sts. split; [exact Htotal|]. split; [|reflexivity]. apply (proj2 (Hall 0%nat ltac:(lia))).
    apply list_elem_of_filter. split; [reflexivity|]. apply elem_of_seq. lia.
Defined.
