(* ===== verification/Discovery.v ===== *)
(** * Peer discovery ([peerq/discovery.py])

    Beacons, the directory of discovered peers with its time to live, and the binding of the
    directory to a node.  Callbacks that a user supplies are outside the model; the one that
    [bind_node] installs is [on_discovered].  [clock.now()] is taken to be a finite number. *)

From Stdlib Require Import ZArith NArith Lia.
From S2P Require Import Prelude PyFloat Text Json JsonFacts Security Consensus Crypto Lattice Heapq Queue.
From S2P Require Import Wal Metrics Failure Message SimNetwork Tcp Sha256 FloatText PyText Node NodeFacts.
Open Scope Z_scope.

Record DiscoveredPeer := {
  dp_node_id : pystr;
  dp_host : pystr;
  dp_port : Z;
  dp_cluster_id : pystr;
  last_seen : float;
}.

Record PeerDiscovery `{Ed25519} := {
  pd_node_id : pystr;
  tcp_host : pystr;
  tcp_port : Z;
  cluster_id : pystr;
  peer_ttl : float;
  pd_identity : PrivateKey;
  pd_keyring : PeerKeyRing;
  pd_security : SecurityConfig;
  pd_replay : ReplayCache;
  pd_peers : list (pystr * DiscoveredPeer);
}.

(** The node that [bind_node] is given: its configuration (whose list of peers grows), its state,
    and its transport when that is a [TcpTransport]. *)
Record BoundNode `{Ed25519} := {
  bn_cfg : NodeConfig;
  bn_state : NodeState;
  bn_tcp : option TcpTransport;
}.

(** [ch.isspace() or ch in "\x00/\\"] *)
Definition bad_host_char `{UnicodeDB} (c : N) : bool :=
  py_isspace c || (c =? 0)%N || (c =? 47)%N || (c =? 92)%N.

Section discovery.
Context `{Ed25519} `{UnicodeDB}.

(** [PeerDiscovery.__init__]; [key] is the identity given or generated. *)
Definition discovery_init (nid host : pystr) (port : Z) (cluster : pystr) (ttl : float) (key : PrivateKey)
    (ring : PeerKeyRing) (sec : SecurityConfig) : result PeerDiscovery :=
  raise_if (bool_decide (nid = []) || (MAX_PEER_ID_LENGTH <? len nid)) ValueError ;;!
  let! ring :=
    match get_peer_key nid ring with
    | None => add_peer nid (KeyWrapper (public_key key)) ring
    | Some k =>
        raise_if (negb (bool_decide (public_bytes k = public_bytes (public_key key)))) ValueError ;;!
        Ok ring
    end in
  let! rc := replay_cache_init (replay_cache_size sec) in
  Ok {| pd_node_id := nid; tcp_host := host; tcp_port := port; cluster_id := cluster; peer_ttl := ttl;
        pd_identity := key; pd_keyring := ring; pd_security := sec; pd_replay := rc; pd_peers := [] |}.

Definition set_pd (rc : ReplayCache) (ps : list (pystr * DiscoveredPeer)) (d : PeerDiscovery) : PeerDiscovery := {|
  pd_node_id := pd_node_id d; tcp_host := tcp_host d; tcp_port := tcp_port d; cluster_id := cluster_id d;
  peer_ttl := peer_ttl d; pd_identity := pd_identity d; pd_keyring := pd_keyring d;
  pd_security := pd_security d; pd_replay := rc; pd_peers := ps |}.

Definition get_active_peers (now : float) (d : PeerDiscovery) : list (pystr * (pystr * Z)) :=
  (fun kv => (kv.1, (dp_host kv.2, dp_port kv.2))) <$>
    filter (fun kv => py_le (fsub now (last_seen kv.2)) (peer_ttl d) = true) (pd_peers d).

(** ** Beacons *)

Definition beacon_message (d : PeerDiscovery) : Message := {|
  msg_type := str "discovery"; sender_id := pd_node_id d;
  msg_payload := [
    (str "cluster_id", JStr (cluster_id d));
    (str "host", JStr (tcp_host d));
    (str "node_id", JStr (pd_node_id d));
    (str "port", JInt (tcp_port d));
    (str "public_key", JStr (pub_to_hex (public_key (pd_identity d))))];
  timestamp := None; nonce := None; msg_signature := None;
  msg_version := protocol_version (pd_security d) |}.

(** [_encode_beacon]; [wall], [n] and [now] are the readings of the clock and the nonce drawn. *)
Definition encode_beacon (wall : float) (n : pystr) (now : float) (d : PeerDiscovery) : result (list byte) :=
  if enabled (pd_security d) then
    let! m := signed (pd_identity d) wall n (beacon_message d) in
    let! frame := message_to_bytes (max_udp_payload (pd_security d)) m in
    Ok (drop 4 frame)
  else
    dumps_bytes true (JObj [
      (str "node_id", JStr (pd_node_id d));
      (str "host", JStr (tcp_host d));
      (str "port", JInt (tcp_port d));
      (str "cluster_id", JStr (cluster_id d));
      (str "ts", JFloat now)]).

(** ** The listener *)

(** The payload of a datagram and the sender it proves, when the datagram is acceptable so far,
    and the replay cache after its check. *)
Definition open_beacon (wall : float) (raw_data : list byte) (d : PeerDiscovery)
    : option (list (pystr * json) * json) * ReplayCache :=
  let sec := pd_security d in
  let rc := pd_replay d in
  if max_udp_payload sec <? len raw_data then (None, rc)
  else if enabled sec then
    match message_from_bytes raw_data sec with
    | Raise _ => (None, rc)
    | Ok m =>
        if negb (bool_decide (msg_type m = str "discovery")) then (None, rc)
        else if negb (msg_version m =? protocol_version sec) then (None, rc)
        else
          match verify_signature m (pd_keyring d), timestamp m, nonce m with
          | Ok true, Some ts, Some n =>
              if py_gt (fabs (fsub wall ts)) (replay_window_seconds sec) then (None, rc)
              else
                let '(fresh, rc') := check_and_remember (sender_id m) n wall (replay_window_seconds sec) rc in
                if negb fresh then (None, rc')
                else
                  match jget (str "node_id") (msg_payload m) with
                  | JStr s =>
                      if bool_decide (s = sender_id m) then (Some (msg_payload m, JStr (sender_id m)), rc')
                      else (None, rc')
                  | _ => (None, rc')
                  end
          | _, _, _ => (None, rc)
          end
    end
  else
    match utf8_decode raw_data with
    | Some t =>
        match @loads_text true t with
        | Some (JObj data) =>
            match dict_get (str "node_id") data with
            | Some remote_id => (Some (data, remote_id), rc)
            | None => (None, rc)
            end
        | _ => (None, rc)
        end
    | None => (None, rc)
    end.

(** The checks of the payload's fields: the peer, its address and its cluster. *)
Definition read_beacon (sender_addr : pystr) (data : list (pystr * json)) (remote_id : json)
    : option (pystr * pystr * Z * pystr) :=
  match remote_id with
  | JStr rid =>
      if bool_decide (rid = []) || (MAX_PEER_ID_LENGTH <? len rid) then None
      else
        match dict_get (str "host") data with
        | Some (JStr host) =>
            if bool_decide (host = []) || (253 <? len host) then None
            else
              let remote_host :=
                if bool_decide (host ∈ [str "0.0.0.0"; str ""; str "::"]) && negb (bool_decide (sender_addr = []))
                then sender_addr else host in
              if bool_decide (remote_host = []) || existsb bad_host_char remote_host then None
              else
                match dict_get (str "port") data with
                | Some (JInt port) =>
                    if negb ((1 <=? port) && (port <=? 65535)) then None
                    else
                      match default (JStr []) (dict_get (str "cluster_id") data) with
                      | JStr cluster => if 128 <? len cluster then None else Some (rid, remote_host, port, cluster)
                      | _ => None
                      end
                | _ => None
                end
        | _ => None
        end
  | _ => None
  end.

(** One datagram of [_listen_loop]: the peer to announce when it is new, and the directory. *)
Definition listen (wall now : float) (sender_addr : pystr) (raw_data : list byte) (d : PeerDiscovery)
    : option DiscoveredPeer * PeerDiscovery :=
  let '(opened, rc) := open_beacon wall raw_data d in
  let d1 := set_pd rc (pd_peers d) d in
  match opened with
  | None => (None, d1)
  | Some (data, rid) =>
      match read_beacon sender_addr data rid with
      | None => (None, d1)
      | Some (remote_id, remote_host, remote_port, cluster) =>
          if bool_decide (remote_id = pd_node_id d) || negb (bool_decide (cluster = cluster_id d)) then (None, d1)
          else if enabled (pd_security d) && negb (has_peer remote_id (pd_keyring d)) then (None, d1)
          else if negb (dict_mem remote_id (pd_peers d)) && (max_peers (pd_security d) <=? len (pd_peers d))
          then (None, d1)
          else
            let peer := {| dp_node_id := remote_id; dp_host := remote_host; dp_port := remote_port;
                           dp_cluster_id := cluster; last_seen := now |} in
            (if dict_mem remote_id (pd_peers d) then None else Some peer,
             set_pd rc (dict_set remote_id peer (pd_peers d)) d)
      end
  end.

(** An iteration of [_ttl_loop] after its sleep: the peers that expire, and the directory. *)
Definition ttl_round (now : float) (d : PeerDiscovery) : list pystr * PeerDiscovery :=
  let expired := (filter (fun kv => py_gt (fsub now (last_seen kv.2)) (peer_ttl d) = true) (pd_peers d)).*1 in
  (expired, set_pd (pd_replay d) (foldl (fun ps pid => dict_del pid ps) (pd_peers d) expired) d).

(** ** Binding to a node *)

Definition with_peers (ps : list pystr) (cfg : NodeConfig) : NodeConfig := {|
  node_id := node_id cfg; peers := ps; has_handler := has_handler cfg; lease_duration := lease_duration cfg;
  identity := identity cfg; keyring := keyring cfg; security := security cfg; max_tasks := max_tasks cfg |}.

Definition with_address (pid host : pystr) (port : Z) (t : TcpTransport) : TcpTransport := {|
  tcp_node_id := tcp_node_id t; peer_addresses := dict_set pid (host, port) (peer_addresses t);
  tcp_identity := tcp_identity t; tcp_keyring := tcp_keyring t; tcp_security := tcp_security t;
  tcp_replay := tcp_replay t; tcp_inbox := tcp_inbox t; connections := connections t;
  incoming_writers := incoming_writers t; closing := closing t; tcp_closed := tcp_closed t |}.

(** The callback [_on_discovered] of [bind_node]. *)
Definition on_discovered (d : PeerDiscovery) (peer : DiscoveredPeer) (b : BoundNode) : BoundNode :=
  let pid := dp_node_id peer in
  if bool_decide (pid = pd_node_id d) then b
  else if enabled (pd_security d) && negb (has_peer pid (keyring (bn_cfg b))) then b
  else if negb (bool_decide (pid ∈ peers (bn_cfg b))) && (max_peers (pd_security d) <=? len (peers (bn_cfg b)))
  then b
  else
    let '(cfg, st) :=
      if bool_decide (pid ∈ peers (bn_cfg b)) then (bn_cfg b, bn_state b)
      else (with_peers (peers (bn_cfg b) ++ [pid]) (bn_cfg b),
            set_flow (init_peer pid (Some 20) (flow_controller (bn_state b))) (bn_state b)) in
    {| bn_cfg := cfg; bn_state := st;
       bn_tcp := with_address pid (dp_host peer) (dp_port peer) <$> bn_tcp b |}.

(** A datagram with the node bound. *)
Definition listen_bound (wall now : float) (sender_addr : pystr) (raw_data : list byte) (d : PeerDiscovery)
    (b : BoundNode) : PeerDiscovery * BoundNode :=
  let '(found, d') := listen wall now sender_addr raw_data d in
  (d', match found with Some peer => on_discovered d' peer b | None => b end).
End discovery.

(** ** The directory *)

Section directory.
Context `{Ed25519} `{UnicodeDB}.

Inductive disc_step : PeerDiscovery -> PeerDiscovery -> Prop :=
| disc_listen wall now addr raw d : disc_step d (listen wall now addr raw d).2
| disc_ttl now d : disc_step d (ttl_round now d).2.

Inductive disc_reachable (d0 : PeerDiscovery) : PeerDiscovery -> Prop :=
| disc_start : disc_reachable d0 d0
| disc_more d d' : disc_reachable d0 d -> disc_step d d' -> disc_reachable d0 d'.

(** An entry of the directory: another peer of the cluster, known to the key ring in secure mode,
    at a usable address. *)
Definition entry_ok (d : PeerDiscovery) (kv : pystr * DiscoveredPeer) : Prop :=
  dp_node_id kv.2 = kv.1 /\ peer_ok kv.1 = true /\ kv.1 <> pd_node_id d /\ dp_cluster_id kv.2 = cluster_id d /\
  1 <= dp_port kv.2 <= 65535 /\ dp_host kv.2 <> [] /\ existsb bad_host_char (dp_host kv.2) = false /\
  (enabled (pd_security d) = true -> has_peer kv.1 (pd_keyring d) = true).

Record disc_wf (d : PeerDiscovery) : Prop := {
  dw_replay : rc_wf (pd_replay d);
  dw_keys : NoDup (pd_peers d).*1;
  dw_bound : 0 <= max_peers (pd_security d) -> len (pd_peers d) <= max_peers (pd_security d);
  dw_entries : Forall (entry_ok d) (pd_peers d);
}.

Lemma open_beacon_replay wall raw d : rc_wf (pd_replay d) -> rc_wf (open_beacon wall raw d).2.
Proof.
  intros Hwf. unfold open_beacon. destruct (max_udp_payload _ <? _); [done|].
  destruct (enabled _); [|by repeat case_match].
  destruct (message_from_bytes _ _) as [m|]; [|done]. destruct (negb _); [done|]. destruct (negb _); [done|].
  destruct (verify_signature _ _) as [[|]|]; try done. destruct (timestamp m) as [ts|]; [|done].
  destruct (nonce m) as [n|]; [|done]. destruct (py_gt _ _); [done|].
  pose proof (check_and_remember_wf (sender_id m) n wall (replay_window_seconds (pd_security d)) _ Hwf) as Hwf'.
  destruct (check_and_remember _ _ _ _ _) as [fresh rc']. by repeat case_match.
Qed.

Lemma read_beacon_inv addr data rid id host port cluster :
  read_beacon addr data rid = Some (id, host, port, cluster) ->
  peer_ok id = true /\ host <> [] /\ existsb bad_host_char host = false /\ 1 <= port <= 65535.
Proof.
  unfold read_beacon. destruct rid as [| | | |rid| |]; try done.
  destruct (bool_decide (rid = []) || _) eqn:E1; [done|].
  destruct (dict_get (str "host") data) as [[| | | |h| |]|]; try done.
  destruct (bool_decide (h = []) || _); [done|].
  set (rh := if bool_decide (h ∈ _) && _ then addr else h).
  destruct (bool_decide (rh = []) || existsb bad_host_char rh) eqn:E2; [done|].
  destruct (dict_get (str "port") data) as [[| |p| | | |]|]; try done.
  destruct ((1 <=? p) && (p <=? 65535)) eqn:E3; [|done]. cbn [negb].
  destruct (default _ _) as [| | | |c| |]; try done. destruct (128 <? len c); [done|]. intros [= <- <- <- <-].
  apply orb_false_iff in E1 as [E1 E1']. apply orb_false_iff in E2 as [E2 E2'].
  apply andb_true_iff in E3 as [E3 E3']. apply Z.leb_le in E3, E3'. apply Z.ltb_ge in E1'.
  apply bool_decide_eq_false in E2. split_and!; [|done..]. unfold peer_ok. rewrite E1. by apply Z.leb_le.
Qed.

(** What a datagram does to the directory. *)
Lemma listen_cases wall now addr raw d :
  (exists rc, (rc_wf (pd_replay d) -> rc_wf rc) /\ listen wall now addr raw d = (None, set_pd rc (pd_peers d) d)) \/
  (exists rc peer, (rc_wf (pd_replay d) -> rc_wf rc) /\ entry_ok d (dp_node_id peer, peer) /\ last_seen peer = now /\
     (dict_mem (dp_node_id peer) (pd_peers d) = false -> len (pd_peers d) < max_peers (pd_security d)) /\
     listen wall now addr raw d =
       (if dict_mem (dp_node_id peer) (pd_peers d) then None else Some peer,
        set_pd rc (dict_set (dp_node_id peer) peer (pd_peers d)) d)).
Proof.
  unfold listen. pose proof (open_beacon_replay wall raw d) as Hrc.
  destruct (open_beacon wall raw d) as [[[data rid]|] rc]; cbn [snd] in Hrc; [|left; by exists rc].
  destruct (read_beacon addr data rid) as [[[[id host] port] cluster]|] eqn:Er; [|left; by exists rc].
  apply read_beacon_inv in Er as (Hid & Hh & Hbad & Hport).
  destruct (bool_decide (id = pd_node_id d) || _) eqn:E1; [left; by exists rc|].
  destruct (enabled (pd_security d) && _) eqn:E2; [left; by exists rc|].
  destruct (negb (dict_mem id (pd_peers d)) && _) eqn:E3; [left; by exists rc|].
  right. exists rc, {| dp_node_id := id; dp_host := host; dp_port := port; dp_cluster_id := cluster; last_seen := now |}.
  split; [exact Hrc|].
  apply orb_false_iff in E1 as [E1%bool_decide_eq_false E1'].
  apply negb_false_iff, bool_decide_eq_true in E1'.
  apply andb_false_iff in E2. rewrite negb_false_iff in E2.
  split; [|split; [|split; [|reflexivity]]]; cbn.
  - split_and!; cbn; try done; [lia|lia|]. intros He. destruct E2 as [E2|E2]; [congruence|done].
  - done.
  - intros Hnew. rewrite Hnew in E3. cbn in E3. by apply Z.leb_gt in E3.
Qed.

Lemma dict_del_all {V} (d : list (pystr * V)) (ks : list pystr) :
  NoDup d.*1 -> foldl (fun ps k => dict_del k ps) d ks = filter (fun kv => kv.1 ∉ ks) d.
Proof.
  revert d. induction ks as [|k ks IH]; intros d Hnd; cbn [foldl].
  - induction d as [|kv d IHd]; [done|]. rewrite filter_cons_True by set_solver. cbn in Hnd.
    apply NoDup_cons in Hnd as [_ Hnd]. by rewrite <- IHd.
  - rewrite IH by (eapply sublist_NoDup; [exact Hnd|by apply fmap_sublist, dict_del_sublist]). clear IH.
    induction d as [|[k' v] d IHd]; [done|]. cbn in Hnd. apply NoDup_cons in Hnd as [Hk Hnd]. cbn [dict_del].
    destruct (decide (k = k')) as [->|Hne].
    + rewrite (filter_cons_False _ (k', v)) by (cbn; set_solver). clear IHd. induction d as [|kv d IHd]; [done|].
      cbn in Hk, Hnd. apply not_elem_of_cons in Hk as [Hk1 Hk2]. apply NoDup_cons in Hnd as [_ Hnd].
      rewrite !filter_cons, IHd by done. destruct (decide (kv.1 ∉ ks)), (decide (kv.1 ∉ k' :: ks)); set_solver.
    + rewrite !filter_cons, IHd by done. cbn. destruct (decide (k' ∉ ks)), (decide (k' ∉ k :: ks)); set_solver.
Qed.

Lemma filter_ext_in {A} (P Q : A -> Prop) `{!forall x, Decision (P x)} `{!forall x, Decision (Q x)} (l : list A) :
  (forall x, x ∈ l -> P x <-> Q x) -> filter P l = filter Q l.
Proof.
  induction l as [|x l IH]; [done|]. intros Hx. rewrite !filter_cons, IH by (intros; apply Hx; by right).
  destruct (decide (P x)) as [HP|HP], (decide (Q x)) as [HQ|HQ]; try done; exfalso; [apply HQ|apply HP];
    apply Hx; done || by left.
Qed.

(** What remains after a round of the TTL loop. *)
Lemma ttl_round_peers now d :
  NoDup (pd_peers d).*1 ->
  pd_peers (ttl_round now d).2 =
    filter (fun kv => py_gt (fsub now (last_seen kv.2)) (peer_ttl d) = false) (pd_peers d).
Proof.
  intros Hnd. cbn [ttl_round snd set_pd pd_peers]. rewrite dict_del_all by done.
  apply filter_ext_in. intros [k p] Hin. cbn [fst snd]. rewrite list_elem_of_fmap. split.
  - intros Hno. apply not_true_iff_false. intros Hgt. apply Hno. exists (k, p). split; [done|].
    by apply list_elem_of_filter.
  - intros Hgt ([k' p'] & -> & [Hgt' Hin']%list_elem_of_filter). cbn in *.
    assert (dict_get k' (pd_peers d) = Some p) as E1 by (by apply dict_elem_get).
    rewrite (dict_elem_get _ _ _ Hnd Hin') in E1. congruence.
Qed.

Lemma disc_step_wf d d' : disc_step d d' -> disc_wf d -> disc_wf d'.
Proof.
  intros Hs [Hrc Hnd Hb He]. destruct Hs as [wall now addr raw d|now d].
  - destruct (listen_cases wall now addr raw d) as [(rc & Hrc' & ->)|(rc & peer & Hrc' & Hok & _ & Hroom & ->)];
      split; cbn [snd set_pd pd_replay pd_peers pd_security]; try (by auto).
    + by apply dict_set_NoDup.
    + intros Hpos. specialize (Hb Hpos). unfold len in *. destruct (dict_mem (dp_node_id peer) (pd_peers d)) eqn:E.
      * pose proof (f_equal length (dict_set_keys_old _ peer _ E)) as El. rewrite !length_fmap in El. lia.
      * rewrite dict_set_keys_new, length_app by done. cbn. specialize (Hroom eq_refl). lia.
    + apply Forall_forall. intros [k v] Hkv. apply dict_set_elem in Hkv as [E|Hin]; [by injection E as -> ->|].
      rewrite Forall_forall in He. exact (He _ Hin).
  - assert (pd_peers (ttl_round now d).2 `sublist_of` pd_peers d) as Hsub.
    { rewrite ttl_round_peers by done. apply sublist_filter. }
    split; [done| | |].
    + eapply sublist_NoDup; [exact Hnd|by apply fmap_sublist].
    + intros Hpos. specialize (Hb Hpos). apply sublist_length in Hsub. unfold len in *.
      change (max_peers (pd_security (ttl_round now d).2)) with (max_peers (pd_security d)). lia.
    + apply Forall_forall. intros kv Hin. rewrite Forall_forall in He.
      apply (He kv). by eapply elem_of_submseteq, sublist_submseteq.
Qed.

Lemma discovery_init_wf nid host port cluster ttl key ring sec d :
  discovery_init nid host port cluster ttl key ring sec = Ok d -> disc_wf d.
Proof.
  unfold discovery_init, replay_cache_init. intros Hinit. inv_result. breflect. split; cbn.
  - unfold rc_wf, len. cbn. split_and!; [lia|apply NoDup_nil_2|lia].
  - apply NoDup_nil_2.
  - unfold len. cbn. lia.
  - done.
Qed.

(** The directory only ever holds peers worth connecting to: whatever datagrams arrive, its
    entries are other members of the same cluster with a bounded identifier, a port in range and a
    host without separators, in secure mode peers whose key was provisioned, at most [max_peers]
    of them and one per identifier. *)
Theorem directory_always_valid (nid host : pystr) (port : Z) (cluster : pystr) (ttl : float) (key : PrivateKey)
    (ring : PeerKeyRing) (sec : SecurityConfig) (d0 d : PeerDiscovery) :
  discovery_init nid host port cluster ttl key ring sec = Ok d0 -> disc_reachable d0 d -> disc_wf d.
Proof.
  intros Hinit Hr. pose proof (discovery_init_wf _ _ _ _ _ _ _ _ _ Hinit) as Hwf.
  induction Hr as [|d d' Hr IH Hs]; [done|by eapply disc_step_wf].
Qed.
End directory.

Section discovery_theorems.
Context `{Ed25519Laws} `{UnicodeDB}.

(** A round of the TTL loop forgets exactly the peers whose last beacon is older than the time
    to live: they are reported, every other entry stays as it was, and the peers reported active
    are the remaining ones that are comparable with the time to live. *)
Theorem ttl_forgets_exactly_the_expired (now : float) (d : PeerDiscovery) :
  NoDup (pd_peers d).*1 ->
  (forall pid, pid ∈ (ttl_round now d).1 <->
     exists p, dict_get pid (pd_peers d) = Some p /\ py_gt (fsub now (last_seen p)) (peer_ttl d) = true) /\
  (forall pid, dict_get pid (pd_peers (ttl_round now d).2) =
     if bool_decide (pid ∈ (ttl_round now d).1) then None else dict_get pid (pd_peers d)) /\
  (forall pid a, (pid, a) ∈ get_active_peers now d -> pid ∉ (ttl_round now d).1).
Proof.
  intros Hnd. assert (forall pid, pid ∈ (ttl_round now d).1 <->
     exists p, dict_get pid (pd_peers d) = Some p /\ py_gt (fsub now (last_seen p)) (peer_ttl d) = true) as Hexp.
  { intros pid. cbn [ttl_round fst]. rewrite list_elem_of_fmap. split.
    - intros ([k p] & -> & [Hgt Hin]%list_elem_of_filter). exists p. split; [by apply dict_elem_get|done].
    - intros (p & Hp%dict_get_Some_elem & Hgt). exists (pid, p). split; [done|]. by apply list_elem_of_filter. }
  split_and!; [done| |].
  - intros pid. rewrite ttl_round_peers by done. set (l := filter _ _).
    assert (NoDup l.*1) as Hl.
    { eapply sublist_NoDup; [exact Hnd|]. apply fmap_sublist, sublist_filter. }
    case_bool_decide as Hin.
    + apply Hexp in Hin as (p & Hp & Hgt). apply dict_get_None. intros Hl1.
      apply list_elem_of_fmap in Hl1 as ([k q] & -> & [Hgt' Hq]%list_elem_of_filter). cbn in *.
      rewrite (dict_elem_get _ _ _ Hnd Hq) in Hp. congruence.
    + destruct (dict_get pid (pd_peers d)) as [p|] eqn:Ep.
      * apply dict_elem_get; [done|]. apply list_elem_of_filter. split; [|by apply dict_get_Some_elem].
        cbn. apply not_true_iff_false. intros Hgt. apply Hin, Hexp. by exists p.
      * apply dict_get_None. apply dict_get_None in Ep. intros Hl1. apply Ep.
        apply list_elem_of_fmap in Hl1 as (kv & -> & [_ Hkv]%list_elem_of_filter). by apply list_elem_of_fmap_2.
  - intros pid a Ha. unfold get_active_peers in Ha.
    apply list_elem_of_fmap in Ha as ([k p] & [= -> _] & [Hle Hp]%list_elem_of_filter).
    rewrite Hexp. intros (q & Hq & Hgt). cbn in Hle. rewrite (dict_elem_get _ _ _ Hnd Hp) in Hq. injection Hq as <-.
    unfold py_le, py_gt in *. by destruct (pycmp _ _) as [[]|].
Qed.

(** A host that a beacon may announce. *)
Definition host_ok (host : pystr) : bool :=
  negb (bool_decide (host = [])) && (len host <=? 253) && negb (existsb bad_host_char host) &&
  negb (bool_decide (host ∈ [str "0.0.0.0"; str ""; str "::"])).

(** The fields of a beacon are accepted as they were announced. *)
Lemma read_beacon_announced a addr :
  peer_ok (pd_node_id a) = true -> host_ok (tcp_host a) = true -> 1 <= tcp_port a <= 65535 ->
  len (cluster_id a) <= 128 ->
  read_beacon addr (msg_payload (beacon_message a)) (JStr (pd_node_id a)) =
    Some (pd_node_id a, tcp_host a, tcp_port a, cluster_id a).
Proof.
  intros Hid Hhost Hport Hcl. unfold read_beacon.
  change (dict_get (str "host") (msg_payload (beacon_message a))) with (Some (JStr (tcp_host a))).
  change (dict_get (str "port") (msg_payload (beacon_message a))) with (Some (JInt (tcp_port a))).
  change (dict_get (str "cluster_id") (msg_payload (beacon_message a))) with (Some (JStr (cluster_id a))).
  cbv iota. unfold peer_ok in Hid. unfold host_ok in Hhost.
  apply andb_true_iff in Hid as [Hid1%negb_true_iff Hid2%Z.leb_le].
  apply andb_true_iff in Hhost as [[[Hh1%negb_true_iff Hh2%Z.leb_le]%andb_true_iff Hh3%negb_true_iff]%andb_true_iff
    Hh4%negb_true_iff].
  rewrite Hid1, Hh1, Hh4. cbn [andb orb default]. rewrite Hh1, Hh3.
  destruct (Z.ltb_spec MAX_PEER_ID_LENGTH (len (pd_node_id a))); [lia|].
  destruct (Z.ltb_spec 253 (len (tcp_host a))); [lia|].
  destruct (Z.leb_spec 1 (tcp_port a)); [|lia]. destruct (Z.leb_spec (tcp_port a) 65535); [|lia].
  cbn [andb negb]. unfold id. by destruct (Z.ltb_spec 128 (len (cluster_id a))); [lia|].
Qed.

(** C28: Discovery finds its peers: the beacon that [a] encodes in secure mode, received by [b] of
    the same cluster within its limits, from a peer whose key [b] holds, in the replay window and
    with a new nonce, puts [a]'s identifier, host and port in [b]'s directory, as new exactly when
    it was not there. *)
Theorem beacon_is_discovered (a b : PeerDiscovery) (wall wall' now now' : float) (n addr : pystr) (m : Message)
    (data : list byte) :
  enabled (pd_security a) = true -> enabled (pd_security b) = true ->
  signed (pd_identity a) wall n (beacon_message a) = Ok m -> encode_beacon wall n now a = Ok data ->
  message_ok m = true -> len data <= max_udp_payload (pd_security b) -> len data <= max_frame_size (pd_security b) ->
  0 <= max_json_items (pd_security b) ->
  validate_json_tree (max_json_depth (pd_security b)) (max_json_items (pd_security b))
    (max_string_length (pd_security b)) (JObj (wire_document m)) = Ok () ->
  get_peer_key (pd_node_id a) (pd_keyring b) = Some (public_key (pd_identity a)) ->
  protocol_version (pd_security a) = protocol_version (pd_security b) ->
  py_gt (fabs (fsub wall' wall)) (replay_window_seconds (pd_security b)) = false ->
  dict_mem (pd_node_id a, n) (rc_expire (fsub wall' (replay_window_seconds (pd_security b)))
    (rc_entries (pd_replay b))) = false ->
  peer_ok (pd_node_id a) = true -> host_ok (tcp_host a) = true -> 1 <= tcp_port a <= 65535 ->
  len (cluster_id a) <= 128 -> cluster_id a = cluster_id b -> pd_node_id a <> pd_node_id b ->
  (dict_mem (pd_node_id a) (pd_peers b) = false -> len (pd_peers b) < max_peers (pd_security b)) ->
  let peer := {| dp_node_id := pd_node_id a; dp_host := tcp_host a; dp_port := tcp_port a;
                 dp_cluster_id := cluster_id a; last_seen := now' |} in
  exists rc, listen wall' now' addr data b =
    (if dict_mem (pd_node_id a) (pd_peers b) then None else Some peer,
     set_pd rc (dict_set (pd_node_id a) peer (pd_peers b)) b).
Proof.
  intros Ha Hb Hs Henc Hok Hudp Hfr Hit Hval Hkey Hver Hwin Hnew Hid Hhost Hport Hcl Hclu Hself Hroom peer.
  destruct (signed_inv _ _ _ _ _ Hs) as (Hts & Hn & _ & Hsd & Hp & Hmt & Hv & _). cbn in Hsd, Hmt, Hv.
  assert (message_from_bytes data (pd_security b) = Ok (sorted_message m)) as Hdec.
  { unfold encode_beacon in Henc. rewrite Ha, Hs in Henc. cbn [rbind] in Henc.
    destruct (message_to_bytes (max_udp_payload (pd_security a)) m) as [frame|] eqn:Ef; [|done]. injection Henc as <-.
    destruct (message_to_bytes_inv _ _ _ Ef) as (body & -> & Hc & _ & _ & Hl1 & Hl2 & Hl3 & Hl4).
    change (drop 4 (be32 (len body) ++ body)) with body in *.
    destruct (canonical_json_ok _ (wire_json_ok m Hok)) as (body' & Hb' & Hload). rewrite Hc in Hb'. injection Hb' as <-.
    apply message_from_wire; try done.
    rewrite validate_json_tree_iff in * by done. by rewrite tree_ok_sort_keys, tree_items_sort_keys. }
  assert (msg_payload (sorted_message m) = msg_payload m) as Hps.
  { unfold sorted_message. cbn [msg_payload]. rewrite Hp. reflexivity. }
  assert (exists rc, open_beacon wall' data b = (Some (msg_payload m, JStr (pd_node_id a)), rc)) as [rc Hopen].
  { destruct (signed_verifies _ _ _ _ _ (pd_keyring b) Hs Hok) as [Hvs _]. destruct (Hvs Hkey) as [_ Hvs'].
    unfold open_beacon. destruct (Z.ltb_spec (max_udp_payload (pd_security b)) (len data)); [lia|].
    rewrite Hb, Hdec, Hvs', Hps. cbn [sorted_message msg_type msg_version timestamp nonce sender_id].
    rewrite Hmt, Hv, Hver, Hts, Hn, Hsd, Hwin, Z.eqb_refl, bool_decide_eq_true_2 by done.
    unfold check_and_remember. rewrite Hnew. cbn [negb]. rewrite Hp.
    change (jget (str "node_id") (msg_payload (beacon_message a))) with (JStr (pd_node_id a)).
    cbv iota. rewrite bool_decide_eq_true_2 by done. by eexists. }
  exists rc. unfold listen. rewrite Hopen, Hp, (read_beacon_announced a addr Hid Hhost Hport Hcl).
  rewrite bool_decide_eq_false_2, bool_decide_eq_true_2, Hb by done. cbn [negb orb andb].
  unfold has_peer. assert (dict_mem (pd_node_id a) (pd_keyring b) = true) as ->
    by (apply dict_mem_true; by eexists). cbn [negb andb].
  destruct (dict_mem (pd_node_id a) (pd_peers b)) eqn:Em; cbn [negb andb]; [done|].
  specialize (Hroom eq_refl). by destruct (Z.leb_spec (max_peers (pd_security b)) (len (pd_peers b))); [lia|].
Qed.
End discovery_theorems.

(** ** The bound node *)

Section binding.
Context `{Ed25519} `{UnicodeDB}.

(** Binding discovery to a node is safe: whatever datagram arrives, the node stays well formed
    and keeps its tasks; its list of peers only grows, at the end, by at most one peer, which is
    not the node's own identifier of discovery, is new in the list and, in secure mode, is in the
    node's key ring; and the list never grows past [max_peers]. *)
Theorem binding_extends_node (wall now : float) (addr : pystr) (raw : list byte) (d d' : PeerDiscovery)
    (b b' : BoundNode) :
  listen_bound wall now addr raw d b = (d', b') -> node_wf (bn_cfg b) (bn_state b) ->
  node_wf (bn_cfg b') (bn_state b') /\ tasks (bn_state b') = tasks (bn_state b) /\
  (peers (bn_cfg b') = peers (bn_cfg b) \/
   exists p, peers (bn_cfg b') = peers (bn_cfg b) ++ [p] /\ (p ∉ peers (bn_cfg b)) /\ p <> pd_node_id d /\
     (enabled (pd_security d) = true -> has_peer p (keyring (bn_cfg b)) = true) /\
     len (peers (bn_cfg b')) <= max_peers (pd_security d)).
Proof.
  unfold listen_bound. intros Hl Hwf.
  destruct (listen_cases wall now addr raw d) as [(rc & _ & E)|(rc & peer & _ & _ & _ & _ & E)]; rewrite E in Hl.
  { injection Hl as <- <-. auto. }
  destruct (dict_mem (dp_node_id peer) (pd_peers d)); injection Hl as <- <-; [by auto|].
  unfold on_discovered. cbn [set_pd pd_node_id pd_security].
  destruct (bool_decide (dp_node_id peer = pd_node_id d)) eqn:E1; [by auto|]. apply bool_decide_eq_false in E1.
  destruct (enabled (pd_security d) && _) eqn:E2; [by auto|].
  apply andb_false_iff in E2. rewrite negb_false_iff in E2.
  destruct (bool_decide (dp_node_id peer ∈ peers (bn_cfg b))) eqn:E3; cbn [negb andb]; [by cbn; auto|].
  apply bool_decide_eq_false in E3.
  destruct (Z.leb_spec (max_peers (pd_security d)) (len (peers (bn_cfg b)))) as [|Hlt]; [by auto|].
  cbn [bn_cfg bn_state]. split_and!; [by destruct Hwf|done|]. right. exists (dp_node_id peer). cbn.
  split_and!; try done.
  - intros He. destruct E2; congruence.
  - unfold len in *. rewrite length_app. cbn. lia.
Qed.

(** A peer that is already in the directory can announce a new address, but the bound node and its
    transport keep the old one: only new peers are passed on. *)
Theorem moved_peer_keeps_old_address (wall now : float) (addr : pystr) (raw : list byte) (d d' : PeerDiscovery)
    (b b' : BoundNode) (p : pystr) (old new : DiscoveredPeer) :
  listen_bound wall now addr raw d b = (d', b') ->
  dict_get p (pd_peers d) = Some old -> dict_get p (pd_peers d') = Some new -> new <> old -> b' = b.
Proof.
  unfold listen_bound. intros Hl Hold Hnew Hne.
  destruct (listen_cases wall now addr raw d) as [(rc & _ & E)|(rc & peer & _ & _ & _ & _ & E)]; rewrite E in Hl.
  { by injection Hl as <- <-. }
  destruct (dict_mem (dp_node_id peer) (pd_peers d)) eqn:Em; injection Hl as <- <-; [done|].
  exfalso. apply dict_mem_false in Em. cbn [set_pd pd_peers] in Hnew. rewrite dict_get_set in Hnew.
  destruct (decide (dp_node_id peer = p)) as [<-|]; congruence.
Qed.
End binding.

(** ** Samples *)

Definition blank_discovery : PeerDiscovery := {|
  pd_node_id := []; tcp_host := []; tcp_port := 0; cluster_id := []; peer_ttl := fzero; pd_identity := toy_seed 1;
  pd_keyring := []; pd_security := default_security; pd_replay := {| rc_max_entries := 1; rc_entries := [] |};
  pd_peers := [] |}.

Definition sample_discovery (n : Z) (nid host : string) : result PeerDiscovery :=
  discovery_init (str nid) (str host) 9000 (str "peerq-default") (decimal_float false 35 (-1)) (toy_seed n)
    toy_ring default_security.
Definition disc_p1 : PeerDiscovery := or_sample (sample_discovery 1 "p1" "10.0.0.1") blank_discovery.
Definition disc_p2 : PeerDiscovery := or_sample (sample_discovery 2 "p2" "10.0.0.2") blank_discovery.

Lemma disc_p2_init : sample_discovery 2 "p2" "10.0.0.2" = Ok disc_p2.
Proof.
  assert (is_ok (sample_discovery 2 "p2" "10.0.0.2") = true) as Hok by (vm_compute; reflexivity).
  unfold disc_p2, or_sample. destruct (sample_discovery 2 "p2" "10.0.0.2"); [reflexivity|discriminate Hok].
Qed.

Definition beacon_p1 : Message :=
  or_sample (signed (toy_seed 1) (decimal_float false 10 0) (str "b1") (beacon_message disc_p1)) sample_message.
Definition datagram_p1 : list byte :=
  or_sample (encode_beacon (decimal_float false 10 0) (str "b1") (decimal_float false 3 0) disc_p1) [].
Definition disc_p2_heard : PeerDiscovery :=
  (listen (decimal_float false 11 0) (decimal_float false 4 0) (str "10.0.0.1") datagram_p1 disc_p2).2.

Definition p1_entry : DiscoveredPeer := {|
  dp_node_id := str "p1"; dp_host := str "10.0.0.1"; dp_port := 9000; dp_cluster_id := str "peerq-default";
  last_seen := decimal_float false 4 0 |}.

Lemma disc_p2_heard_peers : pd_peers disc_p2_heard = [(str "p1", p1_entry)].
Proof. vm_compute. reflexivity. Qed.

Lemma beacon_is_discovered_witness :
  (listen (decimal_float false 11 0) (decimal_float false 4 0) (str "10.0.0.1") datagram_p1 disc_p2).1
    = Some p1_entry.
Proof.
  assert (enabled (pd_security disc_p1) = true) as H1 by (vm_compute; reflexivity).
  assert (enabled (pd_security disc_p2) = true) as H2 by (vm_compute; reflexivity).
  assert (signed (pd_identity disc_p1) (decimal_float false 10 0) (str "b1") (beacon_message disc_p1) = Ok beacon_p1)
    as H3 by (vm_compute; reflexivity).
  assert (encode_beacon (decimal_float false 10 0) (str "b1") (decimal_float false 3 0) disc_p1 = Ok datagram_p1)
    as H4 by (vm_compute; reflexivity).
  assert (validate_json_tree (max_json_depth (pd_security disc_p2)) (max_json_items (pd_security disc_p2))
    (max_string_length (pd_security disc_p2)) (JObj (wire_document beacon_p1)) = Ok ()) as H5
    by (vm_compute; reflexivity).
  assert (pd_node_id disc_p1 <> pd_node_id disc_p2) as H6 by (vm_compute; discriminate).
  assert (dict_mem (pd_node_id disc_p1) (pd_peers disc_p2) = false) as H7 by (vm_compute; reflexivity).
  destruct (beacon_is_discovered disc_p1 disc_p2 (decimal_float false 10 0) (decimal_float false 11 0)
    (decimal_float false 3 0) (decimal_float false 4 0) (str "b1") (str "10.0.0.1") beacon_p1 datagram_p1
    H1 H2 H3 H4) as [rc E];
    [vm_compute; reflexivity|vm_compute; discriminate|vm_compute; discriminate|vm_compute; discriminate|exact H5
    |vm_compute; reflexivity|vm_compute; reflexivity|vm_compute; reflexivity|vm_compute; reflexivity
    |vm_compute; reflexivity|vm_compute; reflexivity|split; vm_compute; discriminate|vm_compute; discriminate
    |vm_compute; reflexivity|exact H6|intros _; vm_compute; reflexivity|].
  rewrite E, H7. vm_compute. reflexivity.
Defined.

Lemma directory_always_valid_witness : entry_ok disc_p2_heard (str "p1", p1_entry).
Proof.
  pose proof disc_p2_init as Hi. unfold sample_discovery in Hi.
  assert (disc_reachable disc_p2 disc_p2_heard) as Hr.
  { eapply disc_more; [apply disc_start|apply disc_listen]. }
  pose proof (dw_entries _ (directory_always_valid _ _ _ _ _ _ _ _ _ _ Hi Hr)) as He.
  rewrite disc_p2_heard_peers in He. exact (proj1 (proj1 (Forall_cons _ _ _) He)).
Defined.

Lemma ttl_forgets_exactly_the_expired_witness :
  dict_get (str "p1") (pd_peers (ttl_round (decimal_float false 20 0) disc_p2_heard).2) = None.
Proof.
  assert (NoDup (pd_peers disc_p2_heard).*1) as Hnd by (rewrite disc_p2_heard_peers; apply NoDup_singleton).
  destruct (ttl_forgets_exactly_the_expired (decimal_float false 20 0) disc_p2_heard Hnd) as (H1 & H2 & _).
  rewrite H2. assert (str "p1" ∈ (ttl_round (decimal_float false 20 0) disc_p2_heard).1) as Hin.
  { apply H1. exists p1_entry. split; vm_compute; reflexivity. }
  by rewrite bool_decide_eq_true_2.
Defined.

Definition bound_p2 : BoundNode := {|
  bn_cfg := with_peers [] (toy_cfg true true); bn_state := toy_state true true; bn_tcp := None |}.

Lemma binding_extends_node_witness :
  node_wf (bn_cfg (listen_bound (decimal_float false 11 0) (decimal_float false 4 0) (str "10.0.0.1") datagram_p1
    disc_p2 bound_p2).2) (bn_state (listen_bound (decimal_float false 11 0) (decimal_float false 4 0)
    (str "10.0.0.1") datagram_p1 disc_p2 bound_p2).2).
Proof.
  assert (node_wf (bn_cfg bound_p2) (bn_state bound_p2)) as Hwf.
  { pose proof (toy_wf true true) as Hw. destruct Hw. by split. }
  destruct (listen_bound (decimal_float false 11 0) (decimal_float false 4 0) (str "10.0.0.1") datagram_p1 disc_p2
    bound_p2) as [d' b'] eqn:E.
  exact (proj1 (binding_extends_node _ _ _ _ _ _ _ _ E Hwf)).
Defined.
