(* ===== verification/DiscoveryLife.v ===== *)
(** * The life of discovery

    The socket calls of [UdpBroadcastTransport.start] ([peerq/transport.py]) and the background loops
    of [PeerDiscovery] ([peerq/discovery.py]): starting and stopping them, and the rounds of the
    announcing, listening and expiring loops over the broadcast transport. *)

From Stdlib Require Import ZArith NArith Lia.
From S2P Require Import Prelude PyFloat Text Json JsonFacts Security Consensus Crypto Lattice Heapq Queue.
From S2P Require Import Wal Metrics Failure Message SimNetwork Tcp Sha256 FloatText PyText Udp Node NodeFacts NodeTheorems.
From S2P Require Import Mesh Discovery JsonIndent NodeScenarios.
Open Scope Z_scope.

(** ** The socket of [UdpBroadcastTransport.start] *)

(** The calls on the socket, in the words of the socket interface. *)
Inductive SockCall :=
| ReuseAddr | ReusePort | Broadcast
| MulticastLoop
| MulticastIf (interface : pystr)
| AddMembership (group interface : pystr)
| Bind (port : Z).

Definition localhost : pystr := str "127.0.0.1".
Definition any_interface : pystr := str "0.0.0.0".

Section udp_socket_start.
Context `{UnicodeDB}.

(** The calls with whether their failure is suppressed; [reuseport] tells whether the platform has the
    option. *)
Definition udp_calls (reuseport : bool) (u : UdpBroadcastTransport) : list (SockCall * bool) :=
  [(ReuseAddr, false)] ++ (if reuseport then [(ReusePort, true)] else []) ++
  if is_multicast (broadcast_addr u) then
    [(MulticastLoop, true); (MulticastIf localhost, true); (Bind (udp_port u), false);
     (AddMembership (broadcast_addr u) localhost, true); (AddMembership (broadcast_addr u) any_interface, true)]
  else [(Broadcast, false); (Bind (udp_port u), false)].

(** The calls one after the other; those that took effect. *)
Fixpoint run_calls (fails : SockCall -> option exc) (calls : list (SockCall * bool)) : result (list SockCall) :=
  match calls with
  | [] => Ok []
  | (c, suppressed) :: rest =>
      match fails c with
      | None => rmap (cons c) (run_calls fails rest)
      | Some e => if suppressed then run_calls fails rest else Raise e
      end
  end.

Definition with_port (p : Z) (u : UdpBroadcastTransport) : UdpBroadcastTransport := {|
  udp_port := p; broadcast_addr := broadcast_addr u; udp_security := udp_security u; udp_limiter := udp_limiter u;
  udp_inbox := udp_inbox u; udp_open := udp_open u |}.

(** [start]: the transport and the calls that took effect on its socket; [endpoint] is the exception of
    [create_datagram_endpoint], [bound] the port that the socket got. *)
Definition udp_socket_start (reuseport : bool) (fails : SockCall -> option exc) (endpoint : option exc) (bound : option Z)
    (u : UdpBroadcastTransport) : result (UdpBroadcastTransport * list SockCall) :=
  let! done := run_calls fails (udp_calls reuseport u) in
  match endpoint with
  | Some e => Raise e
  | None =>
      let u := with_open true u in
      Ok (match bound with Some p => if udp_port u =? 0 then with_port p u else u | None => u end, done)
  end.

(** The interface on which the datagrams to a group leave: the last one set. *)
Definition outgoing_interface (done : list SockCall) : option pystr :=
  foldl (fun acc c => match c with MulticastIf i => Some i | _ => acc end) None done.

(** The groups are joined on an interface. *)
Definition joined (group : pystr) (done : list SockCall) : Prop := exists i, AddMembership group i ∈ done.

(** When the calls that may fail quietly do, the socket is bound all the same; and with the default
    settings of the system the datagrams to the group leave on the loopback interface only, so that
    beacons are not seen beyond the machine. *)
Lemma udp_socket_effect reuseport fails bound u u' done :
  udp_socket_start reuseport fails None bound u = Ok (u', done) ->
  udp_open u' = true /\ Bind (udp_port u) ∈ done /\
  (is_multicast (broadcast_addr u) = true -> fails (MulticastIf localhost) = None ->
     outgoing_interface done = Some localhost) /\
  (is_multicast (broadcast_addr u) = true -> fails (AddMembership (broadcast_addr u) any_interface) = None ->
     joined (broadcast_addr u) done) /\
  (is_multicast (broadcast_addr u) = false -> Broadcast ∈ done).
Proof.
  unfold udp_socket_start, udp_calls, joined. cbn [app run_calls].
  destruct (fails ReuseAddr); [done|]. destruct reuseport; cbn [app run_calls]; try destruct (fails ReusePort);
  (destruct (is_multicast (broadcast_addr u)); cbn [app run_calls];
   [destruct (fails MulticastLoop), (fails (MulticastIf localhost)), (fails (Bind (udp_port u))); try done;
    destruct (fails (AddMembership (broadcast_addr u) localhost)), (fails (AddMembership (broadcast_addr u) any_interface))
   |destruct (fails Broadcast), (fails (Bind (udp_port u))); try done]);
  cbn [rmap rbind]; intros [= <- <-]; cbn;
  (split_and!; [destruct bound; [case_match|]; done|set_solver|..]; try done; intros; try done; try set_solver;
   eexists; set_solver).
Qed.
End udp_socket_start.

(** ** The loops of [PeerDiscovery] *)

Inductive DiscLoop := AnnounceLoop | ListenLoop | TtlLoop.
Global Instance disc_loop_eq_dec : EqDecision DiscLoop.
Proof. solve_decision. Defined.

Record DiscoveryRun `{Ed25519} := {
  dr_disc : PeerDiscovery;
  dr_udp : UdpBroadcastTransport;
  dr_running : bool;
  dr_loops : list (DiscLoop * LoopStatus);
  dr_sent : list (list byte * (pystr * Z));
}.

Section life.
Context `{Ed25519} `{UnicodeDB}.

Definition upd_run (d : PeerDiscovery) (u : UdpBroadcastTransport) (run : bool) (ls : list (DiscLoop * LoopStatus))
    (sent : list (list byte * (pystr * Z))) : DiscoveryRun :=
  {| dr_disc := d; dr_udp := u; dr_running := run; dr_loops := ls; dr_sent := sent |}.

(** A new discovery over a broadcast transport. *)
Definition discovery_run_init (d : PeerDiscovery) (u : UdpBroadcastTransport) : DiscoveryRun := upd_run d u false [] [].

(** [start] *)
Definition discovery_start (r : DiscoveryRun) : DiscoveryRun :=
  if dr_running r then r
  else upd_run (dr_disc r) (dr_udp r) true [(AnnounceLoop, Live); (ListenLoop, Live); (TtlLoop, Live)] (dr_sent r).

(** An iteration of [_announce_loop] up to its sleep: the beacon is encoded outside the suppression of
    exceptions and sent inside it. *)
Definition announce_round (wall : float) (n : pystr) (now : float) (r : DiscoveryRun) : DiscoveryRun :=
  match encode_beacon wall n now (dr_disc r) with
  | Raise e => upd_run (dr_disc r) (dr_udp r) (dr_running r) (dict_set AnnounceLoop (Crashed e) (dr_loops r)) (dr_sent r)
  | Ok data =>
      match udp_send_broadcast data (dr_udp r) with
      | Ok (Some sent) => upd_run (dr_disc r) (dr_udp r) (dr_running r) (dr_loops r) (dr_sent r ++ [sent])
      | Ok None | Raise _ => r
      end
  end.

(** An iteration of [_listen_loop], which waits while the inbox is empty. *)
Definition listen_round (wall now : float) (r : DiscoveryRun) : DiscoveryRun :=
  match udp_recv_broadcast (dr_udp r) with
  | None => r
  | Some ((addr, data), u) =>
      upd_run (listen wall now addr data (dr_disc r)).2 u (dr_running r) (dr_loops r) (dr_sent r)
  end.

(** An iteration of [_ttl_loop] after its sleep. *)
Definition expire_round (now : float) (r : DiscoveryRun) : DiscoveryRun :=
  upd_run (ttl_round now (dr_disc r)).2 (dr_udp r) (dr_running r) (dr_loops r) (dr_sent r).

(** The loops that [stop] cancels and awaits: one that has crashed raises its exception. *)
Fixpoint cancel_all (loops : list (DiscLoop * LoopStatus)) : result () :=
  match loops with
  | [] => Ok ()
  | (_, Crashed e) :: _ => Raise e
  | _ :: rest => cancel_all rest
  end.

(** [stop] *)
Definition discovery_stop (r : DiscoveryRun) : result () * DiscoveryRun :=
  match cancel_all (dr_loops r) with
  | Raise e => (Raise e, upd_run (dr_disc r) (dr_udp r) false (dr_loops r) (dr_sent r))
  | Ok _ => (Ok (), upd_run (dr_disc r) (udp_close (dr_udp r)) false [] (dr_sent r))
  end.

(** What happens while discovery runs: a round of a loop that lives, and datagrams that arrive. *)
Inductive run_step : DiscoveryRun -> DiscoveryRun -> Prop :=
| run_announce wall n now r : dr_running r = true -> dict_get AnnounceLoop (dr_loops r) = Some Live ->
    run_step r (announce_round wall n now r)
| run_listen wall now r : dr_running r = true -> dict_get ListenLoop (dr_loops r) = Some Live ->
    run_step r (listen_round wall now r)
| run_expire now r : dr_running r = true -> dict_get TtlLoop (dr_loops r) = Some Live -> run_step r (expire_round now r)
| run_arrival now source data r :
    run_step r (upd_run (dr_disc r) (datagram_received now source data (dr_udp r)) (dr_running r) (dr_loops r) (dr_sent r)).

Inductive run_reachable (r0 : DiscoveryRun) : DiscoveryRun -> Prop :=
| run_refl : run_reachable r0 r0
| run_more r r' : run_reachable r0 r -> run_step r r' -> run_reachable r0 r'.

(** ** What holds while discovery runs *)

(** The announced fields and the way a beacon is encoded stay those of the start. *)
Definition same_beacon (d0 d : PeerDiscovery) : Prop := forall wall n now, encode_beacon wall n now d = encode_beacon wall n now d0.

Lemma set_pd_beacon rc ps d : same_beacon d (set_pd rc ps d).
Proof. intros wall n now. reflexivity. Qed.

Lemma listen_beacon wall now addr raw d : same_beacon d (listen wall now addr raw d).2.
Proof. destruct (listen_cases wall now addr raw d) as [(rc & _ & ->)|(rc & peer & _ & _ & _ & _ & ->)]; apply set_pd_beacon. Qed.

Record run_ok (d0 : PeerDiscovery) (u0 : UdpBroadcastTransport) (r : DiscoveryRun) : Prop := {
  ro_wf : disc_wf (dr_disc r);
  ro_beacon : same_beacon d0 (dr_disc r);
  ro_addr : broadcast_addr (dr_udp r) = broadcast_addr u0 /\ udp_port (dr_udp r) = udp_port u0 /\
            udp_security (dr_udp r) = udp_security u0 /\ udp_open (dr_udp r) = udp_open u0;
  ro_sent : Forall (fun s => len s.1 <= max_udp_payload (udp_security u0) /\ s.2 = (broadcast_addr u0, udp_port u0) /\
                     exists wall n now, encode_beacon wall n now d0 = Ok s.1) (dr_sent r);
  ro_loops : exists status, dr_loops r = [(AnnounceLoop, status); (ListenLoop, Live); (TtlLoop, Live)] /\
    (status = Live \/ exists e wall n now, status = Crashed e /\ encode_beacon wall n now d0 = Raise e);
}.

Lemma run_step_ok d0 u0 r r' : run_step r r' -> run_ok d0 u0 r -> run_ok d0 u0 r'.
Proof.
  intros Hs [Hwf Hb Ha Hsent (status & Hl & Hst)]. destruct Hs as [wall n now r Hr Hlive|wall now r Hr Hlive|now r Hr Hlive|now source data r].
  - unfold announce_round. destruct (encode_beacon wall n now (dr_disc r)) as [data|e] eqn:Ee.
    + destruct (udp_send_broadcast data (dr_udp r)) as [[sent|]|] eqn:Es; try (by split; eauto).
      unfold udp_send_broadcast in Es. destruct Ha as (Ha1 & Ha2 & Ha3 & Ha4). inv_result. breflect.
      destruct (udp_open (dr_udp r)) eqn:Eo; [|done].
      match goal with E : Some _ = Some _ |- _ => injection E as <- end.
      split; cbn; eauto. apply Forall_app_2; [done|]. apply Forall_singleton. cbn. rewrite <- Ha3, Ha1, Ha2. split_and!; [lia|done|].
      exists wall, n, now. by rewrite <- Hb.
    + split; cbn; eauto. exists (Crashed e). rewrite Hl. split; [done|]. right. exists e, wall, n, now. by rewrite <- Hb.
  - unfold listen_round, udp_recv_broadcast. destruct (udp_inbox (dr_udp r)) as [|[addr data] rest]; [by split; eauto|].
    pose proof (disc_step_wf _ _ (disc_listen wall now addr data (dr_disc r)) Hwf).
    assert (same_beacon d0 (listen wall now addr data (dr_disc r)).2) by (intros w n' now'; rewrite listen_beacon; apply Hb).
    split; cbn; eauto.
  - split; cbn; eauto. by eapply (disc_step_wf _ _ (disc_ttl now (dr_disc r))).
  - split; cbn; eauto. unfold datagram_received. destruct (_ <? _); [done|]. destruct (allow _ _ _) as [ok rl].
    destruct (negb ok); [done|]. by destruct (inbox_full _ _).
Qed.

(** C29: Discovery while it runs and when it stops: whatever arrives and in whatever order the loops run,
    the directory stays valid, every datagram sent is a beacon of this node within the limit, for the
    group and port configured; [stop] ends all the loops and closes the socket, unless the announcing
    loop has crashed, which happens only when the beacon cannot be encoded: then [stop] raises that
    exception and leaves the socket open and the other loops uncancelled. *)
Theorem discovery_life (d : PeerDiscovery) (u : UdpBroadcastTransport) (r : DiscoveryRun) :
  disc_wf d -> run_reachable (discovery_start (discovery_run_init d u)) r ->
  disc_wf (dr_disc r) /\
  Forall (fun s => len s.1 <= max_udp_payload (udp_security u) /\ s.2 = (broadcast_addr u, udp_port u) /\
            exists wall n now, encode_beacon wall n now d = Ok s.1) (dr_sent r) /\
  match discovery_stop r with
  | (Ok _, r') => dr_running r' = false /\ dr_loops r' = [] /\ udp_open (dr_udp r') = false
  | (Raise e, r') => (exists wall n now, encode_beacon wall n now d = Raise e) /\
      udp_open (dr_udp r') = udp_open u /\ dict_get ListenLoop (dr_loops r') = Some Live
  end.
Proof.
  intros Hwf Hr. assert (run_ok d u r) as [Hw _ Ha Hs (status & Hl & Hst)].
  { induction Hr as [|r r' Hr IH Hstep]; [|by eapply run_step_ok]. split; cbn; try done. exists Live. by split; [|left]. }
  split_and!; [done|done|]. unfold discovery_stop. rewrite Hl.
  destruct Hst as [->|(e & wall & n & now & -> & He)]; cbn [cancel_all]; [done|].
  split_and!; [by eauto|by apply Ha|done].
Qed.

(** ** Beacons without signatures *)

(** The payload of an unsigned beacon, its keys in order. *)
Definition plain_payload (now : float) (a : PeerDiscovery) : list (pystr * json) :=
  [(str "cluster_id", JStr (cluster_id a)); (str "host", JStr (tcp_host a)); (str "node_id", JStr (pd_node_id a));
   (str "port", JInt (tcp_port a)); (str "ts", JFloat now)].

Lemma plain_payload_ok now a :
  forallb scalar_str [cluster_id a; tcp_host a; pd_node_id a] = true -> 1 <= tcp_port a <= 65535 -> float_ok now = true ->
  json_ok (JObj [(str "node_id", JStr (pd_node_id a)); (str "host", JStr (tcp_host a)); (str "port", JInt (tcp_port a));
    (str "cluster_id", JStr (cluster_id a)); (str "ts", JFloat now)]) = true.
Proof.
  intros Hs Hp Hf. cbn [forallb] in Hs. rewrite !andb_true_iff in Hs. destruct Hs as (Hc & Hh & Hn & _).
  cbn [json_ok forallb fst snd]. rewrite Hc, Hh, Hn, Hf.
  assert ((Z.of_nat (length (N_str (Z.abs_N (tcp_port a)))) <=? int_max_str_digits) = true) as ->; [|reflexivity].
  apply Z.leb_le. pose proof (N_str_short (Z.abs_N (tcp_port a)) ltac:(lia)) as Hl. unfold len in Hl. unfold int_max_str_digits. lia.
Qed.

(** In development mode a beacon is found the same way: what [a] announces without a signature puts its
    identifier, host and port in the directory of [b]. *)
Lemma plain_beacon_is_discovered (a b : PeerDiscovery) (wall wall' now now' : float) (n addr : pystr) (data : list byte) :
  enabled (pd_security a) = false -> enabled (pd_security b) = false -> encode_beacon wall n now a = Ok data ->
  len data <= max_udp_payload (pd_security b) ->
  forallb scalar_str [cluster_id a; tcp_host a; pd_node_id a] = true -> float_ok now = true ->
  peer_ok (pd_node_id a) = true -> host_ok (tcp_host a) = true -> 1 <= tcp_port a <= 65535 -> len (cluster_id a) <= 128 ->
  pd_node_id a <> pd_node_id b -> cluster_id a = cluster_id b ->
  (dict_mem (pd_node_id a) (pd_peers b) = false -> len (pd_peers b) < max_peers (pd_security b)) ->
  dict_get (pd_node_id a) (pd_peers (listen wall' now' addr data b).2) =
    Some {| dp_node_id := pd_node_id a; dp_host := tcp_host a; dp_port := tcp_port a; dp_cluster_id := cluster_id a; last_seen := now' |}.
Proof.
  intros Ha Hb He Hlen Hs Hf Hid Hhost Hport Hcl Hne Hsame Hroom.
  unfold encode_beacon in He. rewrite Ha in He.
  destruct (loads_dumps_bytes true _ (plain_payload_ok now a Hs Hport Hf)) as (bs & Hd & Hl). rewrite Hd in He. apply Ok_inj in He. subst bs.
  unfold loads_bytes in Hl. destruct (utf8_decode data) as [t|] eqn:Et; [|done]. apply loads_lenient in Hl.
  assert (read_beacon addr (plain_payload now a) (JStr (pd_node_id a)) = Some (pd_node_id a, tcp_host a, tcp_port a, cluster_id a)) as Hr
    by exact (read_beacon_announced a addr Hid Hhost Hport Hcl).
  unfold listen, open_beacon. destruct (Z.ltb_spec (max_udp_payload (pd_security b)) (len data)); [lia|]. rewrite Hb, Et.
  unfold allow_json_constants in Hl. rewrite Hl.
  change (sort_keys _) with (JObj (plain_payload now a)). cbv iota.
  change (dict_get (str "node_id") (plain_payload now a)) with (Some (JStr (pd_node_id a))). cbv iota. rewrite Hr.
  rewrite bool_decide_eq_false_2, bool_decide_eq_true_2 by done. cbn [negb orb andb].
  destruct (dict_mem (pd_node_id a) (pd_peers b)) eqn:Em; cbn [negb andb].
  - cbn [snd set_pd pd_peers]. apply dict_get_set_eq.
  - specialize (Hroom eq_refl). destruct (Z.leb_spec (max_peers (pd_security b)) (len (pd_peers b))); [lia|].
    cbn [snd set_pd pd_peers]. apply dict_get_set_eq.
Qed.

(** A cluster identifier of more than 128 characters is accepted by the constructor and announced, but
    every listener ignores such beacons. *)
Lemma long_cluster_ignored addr data rid cluster :
  dict_get (str "cluster_id") data = Some (JStr cluster) -> 128 < len cluster -> read_beacon addr data rid = None.
Proof.
  intros Hc Hl. unfold read_beacon. rewrite Hc. destruct rid; try done. destruct (_ || _); [done|].
  destruct (dict_get (str "host") data) as [[]|]; try done. destruct (_ || _); [done|]. destruct (_ || _); [done|].
  destruct (dict_get (str "port") data) as [[]|]; try done. destruct (negb _); [done|]. cbn [default id].
  unfold id. destruct (Z.ltb_spec 128 (len cluster)); [done|lia].
Qed.
End life.

(** ** Samples *)

#[local] Existing Instance ascii_db.

Definition sample_udp : UdpBroadcastTransport := {|
  udp_port := 19876; broadcast_addr := str "239.255.42.99"; udp_security := default_security;
  udp_limiter := {| rl_max_events := 20; rl_window_seconds := decimal_float false 1 0; rl_max_sources := 1024; rl_events := [] |};
  udp_inbox := []; udp_open := true |}.

Definition sample_run : DiscoveryRun :=
  announce_round (decimal_float false 10 0) (str "b1") (decimal_float false 3 0)
    (discovery_start (discovery_run_init disc_p1 sample_udp)).

Lemma discovery_life_witness :
  len (dr_sent sample_run) = 1 /\ Forall (fun s => s.2 = (str "239.255.42.99", 19876)) (dr_sent sample_run) /\
  udp_open (dr_udp (discovery_stop sample_run).2) = false.
Proof.
  assert (is_ok (sample_discovery 1 "p1" "10.0.0.1") = true) as Hok by (vm_compute; reflexivity).
  assert (disc_wf disc_p1) as Hwf.
  { unfold disc_p1, or_sample. destruct (sample_discovery 1 "p1" "10.0.0.1") as [d|] eqn:E; [|discriminate Hok].
    unfold sample_discovery in E. by eapply discovery_init_wf. }
  destruct (discovery_life disc_p1 sample_udp sample_run Hwf) as (_ & Hs & _).
  { eapply run_more; [apply run_refl|]. unfold sample_run. apply run_announce; reflexivity. }
  split; [vm_compute; reflexivity|]. split; [|vm_compute; reflexivity].
  eapply Forall_impl; [exact Hs|]. intros s (_ & Hx & _). exact Hx.
Defined.

(** A cluster identifier that is too long for a datagram: the first announcement ends the loop, and
    [stop] then raises and leaves the socket open. *)
Definition oversized_run : DiscoveryRun :=
  let d := or_sample (discovery_init (str "p1") (str "10.0.0.1") 9000 (replicate 9000 97%N) (decimal_float false 35 (-1))
                        (toy_seed 1) toy_ring default_security) blank_discovery in
  announce_round (decimal_float false 10 0) (str "b1") (decimal_float false 3 0) (discovery_start (discovery_run_init d sample_udp)).

Example oversized_beacon_ends_discovery :
  is_ok (discovery_stop oversized_run).1 = false /\ udp_open (dr_udp (discovery_stop oversized_run).2) = true /\
  dr_sent oversized_run = [].
Proof. vm_compute. split_and!; reflexivity. Qed.

(** The default multicast address on a platform where every call succeeds: datagrams leave on the loopback only. *)
Example default_discovery_is_local :
  match udp_socket_start true (fun _ => None) None None (with_open false sample_udp) with
  | Ok (_, done) => outgoing_interface done = Some localhost
  | Raise _ => False
  end.
Proof. vm_compute. reflexivity. Qed.
