(* ===== verification/Cli.v ===== *)
(** * The command line ([peerq/cli.py])

    The parsers of peers and of trusted keys, the validation of the status endpoint, the wiring of
    transport, node and discovery that starts a node, and the message that submits a task.  Opening
    the log and the sockets is outside the model: their results are arguments. *)

From Stdlib Require Import ZArith NArith Lia.
From S2P Require Import Prelude PyFloat Text Json JsonFacts Security Consensus Crypto Lattice Heapq Queue.
From S2P Require Import Wal Metrics Failure Message SimNetwork Tcp Sha256 FloatText PyText Node NodeFacts NodeTheorems.
From S2P Require Import Mesh Discovery.
Open Scope Z_scope.

(** [host.lower() == "localhost"] holds exactly for its spellings in ASCII letters: no other
    character has one of these letters as its lower case. *)
Definition is_loopback_host (host : pystr) : bool :=
  if bool_decide (lower <$> host = str "localhost") then true else ip_is_loopback host.

Definition validate_status_binding (status_host : pystr) (status_token : option pystr) : result () :=
  raise_if (match status_token with Some t => len t <? 32 | None => false end) ValueError ;;!
  raise_if (negb (is_loopback_host status_host) &&
            match status_token with Some (_ :: _) => false | _ => true end) ValueError.

Section parsing.
Context `{Ed25519} `{UnicodeDB}.

(** One entry of the list of peers, stripped and not empty. *)
Definition parse_peer_entry (entry : pystr) : result (pystr * (pystr * Z)) :=
  raise_if (negb (has_char 61 entry) || negb (has_char 58 entry)) ValueError ;;!
  match split_first 61 entry with
  | Some (nid, addr) =>
      match split_first 58 addr with
      | Some (host, port_str) =>
          match int_of_str (py_strip port_str) with
          | Some port => Ok (py_strip nid, (py_strip host, port))
          | None => Raise ValueError
          end
      | None => Raise ValueError
      end
  | None => Raise ValueError
  end.

Fixpoint parse_peer_entries (entries : list pystr) (peer_map : list (pystr * (pystr * Z)))
    : result (list (pystr * (pystr * Z))) :=
  match entries with
  | [] => Ok peer_map
  | e :: es =>
      let entry := py_strip e in
      if bool_decide (entry = []) then parse_peer_entries es peer_map
      else
        let! kv := parse_peer_entry entry in
        parse_peer_entries es (dict_set kv.1 kv.2 peer_map)
  end.

Definition parse_peer_addresses (peers_str : pystr) : result (list (pystr * (pystr * Z))) :=
  if bool_decide (py_strip peers_str = []) then Ok []
  else parse_peer_entries (split_on 44 peers_str) [].

Fixpoint parse_key_entries (entries : list pystr) (ring : PeerKeyRing) : result PeerKeyRing :=
  match entries with
  | [] => Ok ring
  | e :: es =>
      match split_first 61 (py_strip e) with
      | Some (peer_id, key) =>
          let! ring' := add_peer (py_strip peer_id) (KeyHex (py_strip key)) ring in
          parse_key_entries es ring'
      | None => Raise ValueError
      end
  end.

Definition parse_peer_keys (keys_str : pystr) : result PeerKeyRing :=
  if bool_decide (py_strip keys_str = []) then Ok []
  else parse_key_entries (split_on 44 keys_str) [].
End parsing.

(** [SecurityConfig(enabled=b)] *)
Definition security_of (b : bool) : SecurityConfig :=
  let c := default_security in {|
  enabled := b; protocol_version := protocol_version c; max_frame_size := max_frame_size c;
  max_udp_payload := max_udp_payload c; max_http_headers := max_http_headers c; max_http_body := max_http_body c;
  sc_max_tasks := sc_max_tasks c; max_peers := max_peers c; max_gossip_tasks := max_gossip_tasks c;
  max_credit_amount := max_credit_amount c; max_lease_duration_seconds := max_lease_duration_seconds c;
  replay_cache_size := replay_cache_size c; replay_window_seconds := replay_window_seconds c;
  max_connections := max_connections c; max_inbox_size := max_inbox_size c;
  read_timeout_seconds := read_timeout_seconds c; write_timeout_seconds := write_timeout_seconds c;
  connect_timeout_seconds := connect_timeout_seconds c; udp_rate_limit := udp_rate_limit c;
  udp_rate_window_seconds := udp_rate_window_seconds c; max_json_depth := max_json_depth c;
  max_json_items := max_json_items c; max_string_length := max_string_length c |}.

(** ** Starting a node *)

Record Setup `{Ed25519} := {
  su_transport : TcpTransport;
  su_node : NodeConfig * NodeState;
  su_discovery : option PeerDiscovery;
}.

Section commands.
Context `{Ed25519} `{MathLib} `{UnicodeDB}.

(** The identity: the key given as text, or the one generated when none is. *)
Definition choose_identity (private_key_hex : option pystr) (generated : PrivateKey) : result PrivateKey :=
  match private_key_hex with
  | Some ((_ :: _) as s) => pair_from_hex s
  | _ => Ok generated
  end.

(** [run_node_command] up to its services; [generated] is a fresh key, [log] the opened log and
    [bound_port] the port that the listening socket got. *)
Definition run_node_setup (math_log2 : float -> float) (env_lease : option pystr) (generated : PrivateKey)
    (log : option WriteAheadLog) (bound_port : Z) (nid host peers_str : pystr) (enable_discovery : bool)
    (cluster : pystr) (status : option pystr) (lease : option float) (private_key_hex : option pystr)
    (peer_keys_str : pystr) (status_token : option pystr) (insecure_dev_mode : bool) : result Setup :=
  match status with Some status_host => validate_status_binding status_host status_token | None => Ok () end ;;!
  let! addresses := parse_peer_addresses peers_str in
  let! key := choose_identity private_key_hex generated in
  let! trusted := parse_peer_keys peer_keys_str in
  let! ring := add_peer nid (KeyWrapper (public_key key)) trusted in
  let sec := security_of (negb insecure_dev_mode) in
  raise_if (enabled sec && existsb (fun kv => negb (has_peer kv.1 ring)) addresses) ValueError ;;!
  let! t := tcp_init nid addresses key ring sec in
  let! n := node_init math_log2 nid addresses.*1 true lease env_lease 1000 20 log key ring sec 10000 in
  let! d :=
    if enable_discovery then
      rmap Some (discovery_init nid host bound_port cluster (decimal_float false 35 (-1)) key ring sec)
    else Ok None in
  Ok {| su_transport := t; su_node := n; su_discovery := d |}.

(** ** Submitting a task *)

Definition submit_record (sender tid : pystr) (p : list byte) : TaskRecord := {|
  task_id := tid; state := PENDING; payload := p; task_result := None; task_error := None; claimed_by := None;
  fence_token := ftoken 0 []; lease_expiry := fzero; vector_clock := VectorClock_init {[sender := 1]};
  updated_by := sender; signature := None; signer_id := None |}.

(** [submit_task_command] up to the send: the transport, the record and the message; [wall] and [n]
    are the time and the nonce of the signature. *)
Definition submit_command (wall : float) (n : pystr) (generated : PrivateKey) (target_host : pystr)
    (target_port : Z) (sender tid payload_str : pystr) (private_key_hex target_key_hex : option pystr)
    (target_id : pystr) (insecure_dev_mode : bool) : result (TcpTransport * TaskRecord * Message) :=
  let! key := choose_identity private_key_hex generated in
  let! ring := add_peer sender (KeyWrapper (public_key key)) [] in
  let! ring :=
    if insecure_dev_mode then Ok ring
    else
      match target_key_hex with
      | Some ((_ :: _) as k) => add_peer target_id (KeyHex k) ring
      | _ => Raise ValueError
      end in
  let sec := security_of (negb insecure_dev_mode) in
  let! t := tcp_init sender [(target_id, (target_host, target_port))] key ring sec in
  match utf8_encode payload_str with
  | None => Raise ValueError
  | Some p =>
      let! r := if enabled sec then sign_task key (submit_record sender tid p) sender
                else Ok (submit_record sender tid p) in
      let msg := {| msg_type := str "gossip"; sender_id := sender;
                    msg_payload := [(str "tasks", JObj [(tid, JObj (to_dict r))])]; timestamp := None;
                    nonce := None; msg_signature := None; msg_version := protocol_version sec |} in
      let! m := if enabled sec then signed key wall n msg else Ok msg in
      Ok (t, r, m)
  end.
End commands.

(** ** The text of the peers *)

Section parsing_facts.
Context `{UnicodeDB}.

(** The characters of a name that survive the parser: no white space, no separator. *)
Definition plain (seps : list N) (s : pystr) : Prop :=
  Forall (fun c => py_isspace c = false /\ (c ∉ seps)) s.

Definition peer_text (kv : pystr * (pystr * Z)) : pystr :=
  kv.1 ++ 61%N :: kv.2.1 ++ 58%N :: Z_str kv.2.2.

(** [",".join(...)] *)
Definition join_comma (l : list pystr) : pystr :=
  match l with [] => [] | w :: ws => foldl (fun acc v => acc ++ 44%N :: v) w ws end.

Definition peer_entry_ok (kv : pystr * (pystr * Z)) : Prop :=
  plain [44; 61]%N kv.1 /\ plain [44; 58]%N kv.2.1 /\ 0 <= kv.2.2 /\ len (Z_str kv.2.2) <= int_max_str_digits.

Lemma Z_str_nonneg z : 0 <= z -> Z_str z = N_str (Z.to_N z).
Proof. by destruct z. Qed.

Lemma Z_str_plain z : 0 <= z -> plain [44]%N (Z_str z).
Proof.
  intros Hz. rewrite Z_str_nonneg by done. eapply Forall_impl; [apply N_str_digit|]. intros c Hc.
  split; [by apply digit_not_space|]. apply digit_range in Hc. rewrite list_elem_of_singleton. lia.
Qed.

(** The text of an entry has no comma and no white space. *)
Lemma peer_text_plain kv : peer_entry_ok kv -> plain [44]%N (peer_text kv).
Proof.
  intros (Hn & Hh & Hp & _). unfold peer_text, plain. rewrite Forall_app. split.
  - eapply Forall_impl; [exact Hn|]. intros c [Hc1 Hc2]. split; [done|set_solver].
  - apply Forall_cons_2; [split; [done|rewrite list_elem_of_singleton; lia]|]. rewrite Forall_app. split.
    + eapply Forall_impl; [exact Hh|]. intros c [Hc1 Hc2]. split; [done|set_solver].
    + apply Forall_cons_2; [split; [done|rewrite list_elem_of_singleton; lia]|]. by apply Z_str_plain.
Qed.

Lemma plain_spaces seps s : plain seps s -> Forall (fun c => py_isspace c = false) s.
Proof. intros Hs. eapply Forall_impl; [exact Hs|]. by intros c []. Qed.
Lemma plain_ne seps s c : plain seps s -> c ∈ seps -> Forall (fun x => x <> c) s.
Proof. intros Hs Hc. eapply Forall_impl; [exact Hs|]. intros x [_ Hx] ->. done. Qed.

Lemma parse_peer_entry_text kv : peer_entry_ok kv -> parse_peer_entry (peer_text kv) = Ok kv.
Proof.
  intros (Hn & Hh & Hp & Hl). destruct kv as [nid [host port]]. cbn [fst snd] in *. unfold parse_peer_entry, peer_text.
  cbn [fst snd].
  assert (split_first 61 (nid ++ 61%N :: host ++ 58%N :: Z_str port) = Some (nid, host ++ 58%N :: Z_str port)) as E1
    by (apply split_first_app, (plain_ne _ _ 61%N Hn); set_solver).
  assert (split_first 58 (host ++ 58%N :: Z_str port) = Some (host, Z_str port)) as E2
    by (apply split_first_app, (plain_ne _ _ 58%N Hh); set_solver).
  assert (has_char 61 (nid ++ 61%N :: host ++ 58%N :: Z_str port) = true) as ->
    by (apply has_char_split; by eexists).
  assert (has_char 58 (nid ++ 61%N :: host ++ 58%N :: Z_str port) = true) as ->.
  { rewrite (app_comm_cons host (58%N :: Z_str port) 61%N), app_assoc. apply has_char_app. }
  cbn [negb orb raise_if rbind]. rewrite E1, E2.
  rewrite (py_strip_plain nid), (py_strip_plain host), (py_strip_plain (Z_str port))
    by eauto using plain_spaces, Z_str_plain.
  rewrite Z_str_nonneg in * by done. rewrite int_of_N_str by done. by rewrite Z2N.id.
Qed.

Lemma parse_peer_entries_text l m :
  Forall peer_entry_ok l -> NoDup (m ++ l).*1 -> parse_peer_entries (peer_text <$> l) m = Ok (m ++ l).
Proof.
  intros Hl. revert m. induction Hl as [|kv l Hkv Hl IH]; intros m Hnd; cbn [fmap list_fmap parse_peer_entries];
    [by rewrite app_nil_r|].
  pose proof (peer_text_plain kv Hkv) as Hpl. rewrite py_strip_plain by (by eapply plain_spaces).
  rewrite bool_decide_eq_false_2 by (unfold peer_text; by destruct kv.1). rewrite parse_peer_entry_text by done.
  cbn [rbind]. rewrite dict_set_keys_new.
  - replace (m ++ kv :: l) with ((m ++ [kv]) ++ l) in * by (by rewrite <- app_assoc).
    destruct kv as [k v]. cbn [fst snd]. by apply IH.
  - apply dict_mem_false, dict_get_None. rewrite fmap_app in Hnd. apply NoDup_app in Hnd as (_ & Hd & _).
    intros Hin. apply (Hd kv.1 Hin). cbn. by left.
Qed.

(** The list of peers on the command line is read as it is written: any table of peers whose
    names and hosts have no separators or white space, with its ports, is what parsing its text
    gives. *)
Theorem peer_addresses_round_trip (l : list (pystr * (pystr * Z))) :
  Forall peer_entry_ok l -> NoDup l.*1 -> parse_peer_addresses (join_comma (peer_text <$> l)) = Ok l.
Proof.
  intros Hl Hnd. unfold parse_peer_addresses. destruct l as [|kv l]; [done|].
  assert (Forall (fun c => py_isspace c = false) (join_comma (peer_text <$> kv :: l))) as Hsp.
  { cbn [join_comma fmap list_fmap]. apply Forall_cons in Hl as [Hkv Hl].
    apply peer_text_plain, plain_spaces in Hkv. clear Hnd. generalize dependent (peer_text kv).
    induction Hl as [|kv' l Hkv' Hl IH]; intros acc Hacc; cbn [fmap list_fmap foldl]; [done|]. apply IH.
    apply Forall_app_2; [done|]. apply Forall_cons_2; [done|]. by eapply plain_spaces, peer_text_plain. }
  rewrite py_strip_plain by done.
  assert (split_on 44 (join_comma (peer_text <$> kv :: l)) = peer_text <$> kv :: l) as Hsplit.
  { assert (Forall (fun v => Forall (fun x => x <> 44%N) v) (peer_text <$> kv :: l)) as Hws.
    { apply Forall_forall. intros v (x & -> & Hin)%list_elem_of_fmap. rewrite Forall_forall in Hl.
      apply (plain_ne _ _ 44%N (peer_text_plain x (Hl x Hin))). set_solver. }
    cbn [join_comma fmap list_fmap] in *. by apply split_on_join. }
  rewrite bool_decide_eq_false_2.
  - rewrite Hsplit. by apply (parse_peer_entries_text (kv :: l) []).
  - intros E. rewrite E in Hsplit. cbn in Hsplit. injection Hsplit as E' _. unfold peer_text in E'. by destruct kv.1.
Qed.
End parsing_facts.

(** ** Starting a node *)

Section setup.
Context `{Ed25519} `{MathLib} `{UnicodeDB}.

Lemma validate_status_token host token :
  validate_status_binding host token = Ok () -> is_loopback_host host = false ->
  exists t, token = Some t /\ 32 <= len t.
Proof.
  unfold validate_status_binding. intros Hv Hl. rewrite Hl in Hv. destruct token as [t|]; [|done].
  destruct (Z.ltb_spec (len t) 32); [done|]. by exists t.
Qed.

(** The components keep the ring they are given when it holds their own key. *)
Lemma own_key_ring nid key (ring : PeerKeyRing) :
  get_peer_key nid ring = Some (public_key key) ->
  match get_peer_key nid ring with
  | None => add_peer nid (KeyWrapper (public_key key)) ring
  | Some k =>
      raise_if (negb (bool_decide (public_bytes k = public_bytes (public_key key)))) ValueError ;;! Ok ring
  end = Ok ring.
Proof. intros ->. by rewrite bool_decide_eq_true_2. Qed.

Lemma tcp_init_own nid addrs key ring sec t :
  get_peer_key nid ring = Some (public_key key) -> tcp_init nid addrs key ring sec = Ok t ->
  peer_addresses t = addrs /\ tcp_identity t = key /\ tcp_keyring t = ring /\ tcp_security t = sec.
Proof. intros Hk. unfold tcp_init. rewrite own_key_ring by done. cbn [rbind]. intros Ht. by inv_result. Qed.

Lemma node_init_own log2 nid ps handler lease env mq ic log key ring sec mt cfg st :
  get_peer_key nid ring = Some (public_key key) ->
  node_init log2 nid ps handler lease env mq ic log key ring sec mt = Ok (cfg, st) ->
  identity cfg = key /\ keyring cfg = ring /\ security cfg = sec /\ peers cfg = from_keys (filter (fun p => p <> nid) ps).
Proof. intros Hk. unfold node_init. rewrite own_key_ring by done. intros Hn. inv_result; by simplify_eq. Qed.

Lemma discovery_init_own nid host port cluster ttl key ring sec d :
  get_peer_key nid ring = Some (public_key key) -> discovery_init nid host port cluster ttl key ring sec = Ok d ->
  pd_keyring d = ring /\ pd_identity d = key /\ pd_security d = sec.
Proof. intros Hk. unfold discovery_init. rewrite own_key_ring by done. intros Hd. by inv_result. Qed.

Lemma from_keys_elem p l : p ∈ from_keys l -> p ∈ l.
Proof.
  unfold from_keys. enough (forall acc, p ∈ foldl (fun acc p => if bool_decide (p ∈ acc) then acc else acc ++ [p]) acc l ->
    p ∈ acc \/ p ∈ l) as Hx by (intros Hin; destruct (Hx [] Hin); set_solver).
  induction l as [|x l IH]; intros acc; cbn [foldl]; [by left|]. intros [Hin|Hin]%IH; [|set_solver].
  case_bool_decide; set_solver.
Qed.

(** A consistent setup: transport, node and discovery have the same identity, key ring and limits, the
    ring holds the node's own key, the transport and the node start well formed, the node's peers are
    those with an address; in secure mode every one of them has a trusted key, and a status endpoint
    beyond the loopback has a token of at least 32 characters. *)
Definition consistent_setup (nid peers_str : pystr) (status token : option pystr) (insecure : bool) (s : Setup) : Prop :=
  let t := su_transport s in let cfg := (su_node s).1 in
  tcp_wf t /\ node_wf cfg (su_node s).2 /\
  keyring cfg = tcp_keyring t /\ identity cfg = tcp_identity t /\ security cfg = tcp_security t /\
  (forall d, su_discovery s = Some d -> pd_keyring d = tcp_keyring t /\ pd_identity d = tcp_identity t /\
     pd_security d = tcp_security t) /\
  get_peer_key nid (tcp_keyring t) = Some (public_key (tcp_identity t)) /\
  parse_peer_addresses peers_str = Ok (peer_addresses t) /\
  (forall p, p ∈ peers cfg -> p ∈ (peer_addresses t).*1 /\ p <> nid) /\
  (insecure = false -> forall p, p ∈ (peer_addresses t).*1 -> has_peer p (tcp_keyring t) = true) /\
  (forall h, status = Some h -> is_loopback_host h = false -> exists tok, token = Some tok /\ 32 <= len tok).

(** What the node command builds is consistent. *)
Lemma node_setup_consistent (log2 : float -> float) (env_lease : option pystr) (generated : PrivateKey)
    (log : option WriteAheadLog) (bound_port : Z) (nid host peers_str : pystr) (discovery : bool) (cluster : pystr)
    (status : option pystr) (lease : option float) (key_hex : option pystr) (keys_str : pystr)
    (token : option pystr) (insecure : bool) (s : Setup) :
  run_node_setup log2 env_lease generated log bound_port nid host peers_str discovery cluster status lease key_hex
    keys_str token insecure = Ok s ->
  consistent_setup nid peers_str status token insecure s.
Proof.
  unfold run_node_setup, consistent_setup. intros Hs.
  destruct (match status with Some h => validate_status_binding h token | None => Ok () end) eqn:Ev; [|done].
  cbn [rbind] in Hs. destruct (parse_peer_addresses peers_str) as [addrs|] eqn:Ea; [|done]. cbn [rbind] in Hs.
  destruct (choose_identity key_hex generated) as [key|]; [|done]. cbn [rbind] in Hs.
  destruct (parse_peer_keys keys_str) as [trusted|]; [|done]. cbn [rbind] in Hs.
  destruct (add_peer nid (KeyWrapper (public_key key)) trusted) as [ring|] eqn:Er; [|done]. cbn [rbind] in Hs.
  assert (get_peer_key nid ring = Some (public_key key)) as Hown.
  { unfold add_peer in Er. inv_result. apply dict_get_set_eq. }
  destruct (raise_if _ _) eqn:Ek; [|done]. cbn [rbind] in Hs.
  destruct (tcp_init nid addrs key ring _) as [t|] eqn:Et; [|done]. cbn [rbind] in Hs.
  destruct (node_init _ _ _ _ _ _ _ _ _ _ _ _ _) as [[cfg st]|] eqn:En; [|done]. cbn [rbind] in Hs.
  pose proof (tcp_init_wf _ _ _ _ _ _ Et) as Htwf. pose proof (node_init_wf _ _ _ _ _ _ _ _ _ _ _ _ _ _ _ En) as Hnwf.
  destruct (tcp_init_own _ _ _ _ _ _ Hown Et) as (Ht1 & Ht2 & Ht3 & Ht4).
  destruct (node_init_own _ _ _ _ _ _ _ _ _ _ _ _ _ _ _ Hown En) as (Hn1 & Hn2 & Hn3 & Hn4).
  destruct (if discovery then _ else _) as [d|] eqn:Ed; [|done]. injection Hs as <-.
  cbn [su_transport su_node su_discovery fst snd]. rewrite Ht1, Ht2, Ht3, Ht4, Hn4. split_and!; try done.
  - intros d' ->. destruct discovery; [|done]. destruct (discovery_init _ _ _ _ _ _ _ _) as [d0|] eqn:E0; [|done].
    injection Ed as ->. destruct (discovery_init_own _ _ _ _ _ _ _ _ _ Hown E0) as (-> & -> & ->). done.
  - intros p Hp%from_keys_elem. apply list_elem_of_filter in Hp as [Hne Hp]. done.
  - intros -> p (kv & -> & Hkv)%list_elem_of_fmap. unfold raise_if in Ek. cbn [security_of enabled negb andb] in Ek.
    destruct (existsb _ addrs) eqn:Ex; [done|]. rewrite <- not_true_iff_false, existsb_exists in Ex.
    apply not_false_iff_true. intros Hno. apply Ex. exists kv. split; [by apply list_elem_of_In|by rewrite Hno].
  - intros h -> Hl. destruct a. by apply (validate_status_token h).
Qed.
End setup.

(** ** Submitting a task *)

Section submission.
Context `{Ed25519Laws} `{MathLib} `{UnicodeDB} `{World}.

Lemma public_bytes_inj k k' : public_bytes k = public_bytes k' -> k = k'.
Proof.
  intros E. pose proof (public_bytes_load k) as E1. rewrite E, public_bytes_load in E1. by injection E1.
Qed.

(** A transport's ring holds the transport's own key. *)
Lemma tcp_init_key nid addrs key ring sec t :
  tcp_init nid addrs key ring sec = Ok t ->
  tcp_node_id t = nid /\ tcp_security t = sec /\ tcp_closed t = false /\
  get_peer_key nid (tcp_keyring t) = Some (public_key key).
Proof.
  unfold tcp_init. destruct (get_peer_key nid ring) as [k|] eqn:Ek; intros Ht; inv_result; split_and!; try done; cbn.
  - breflect. match goal with E : public_bytes _ = public_bytes _ |- _ => apply public_bytes_inj in E as <- end. done.
  - unfold add_peer in *. inv_result. apply dict_get_set_eq.
Qed.

(** A task submitted from the command line reaches the node: the command's transport agrees to
    send the message it made, and a target that trusts the sender's key, in the replay window and
    with room, stores the submitted pending record, or keeps one that is higher in the lattice. *)
Theorem cli_submission_stored (wall : float) (n : pystr) (generated key : PrivateKey) (target_host : pystr)
    (target_port : Z) (sender tid text : pystr) (key_hex target_key : option pystr) (target_id : pystr)
    (t : TcpTransport) (r : TaskRecord) (m : Message) (p : list byte) (b : NodeConfig) (st : NodeState) :
  submit_command wall n generated target_host target_port sender tid text key_hex target_key target_id false
    = Ok (t, r, m) ->
  choose_identity key_hex generated = Ok key -> utf8_encode text = Some p -> message_ok m = true ->
  record_ok (submit_record sender tid p) = true -> record_text_ok (submit_record sender tid p) = true ->
  enabled (security b) = true -> node_accepts b st key m -> 0 < max_gossip_tasks (security b) -> table_ok st ->
  (forall old, get_task tid st = Some old -> record_text_ok old = true) ->
  (get_task tid st = None -> len (tasks st) < max_tasks b) ->
  (forall now, py_le (fabs (fsub now wall)) (replay_window_seconds default_security) = true ->
     send_check now m t = Ok ()) /\
  exists x, get_task tid (receive b sender (sorted_message m) st).2 = Some x /\ rec_le r x /\
    (get_task tid st = None -> x = r /\ same_content x (submit_record sender tid p)).
Proof.
  intros Hc Hid Hp Hmok Hok Htext Hen Hacc Hmax Htab Hold Hroom. unfold submit_command in Hc.
  rewrite Hid, Hp in Hc. cbn [rbind negb security_of enabled] in Hc.
  destruct (add_peer sender _ []) as [ring0|]; [|done]. cbn [rbind] in Hc.
  destruct (match target_key with Some ((_ :: _) as k) => _ | _ => _ end) as [ring|]; [|done]. cbn [rbind] in Hc.
  destruct (tcp_init sender _ key ring _) as [t'|] eqn:Et; [|done]. cbn [rbind] in Hc.
  destruct (sign_task key _ sender) as [r'|] eqn:Er; [|done]. cbn [rbind] in Hc.
  destruct (signed key wall n _) as [m'|] eqn:Em; [|done]. cbn [rbind] in Hc. injection Hc as <- <- <-.
  apply tcp_init_key in Et as (Hnid & Hsec & Hcl & Hkey).
  destruct (signed_inv _ _ _ _ _ Em) as (Hts & Hn & _ & Hsd & _ & _ & Hv & _). cbn in Hsd, Hv.
  assert (peer_ok sender = true /\ scalar_str sender = true) as [Hpo Hsc].
  { revert Hok Htext. unfold record_ok, record_text_ok. cbn [submit_record updated_by]. rewrite !andb_true_iff. tauto. }
  destruct (sign_record_ok _ _ _ _ Er Hok Htext Hpo Hsc) as (Hok' & _ & Hsig & Hsame & Hver).
  split.
  - intros now Hw. unfold send_check. rewrite Hcl, Hsec. cbn [raise_if rbind security_of enabled].
    unfold verify_local_message. rewrite Hts, Hn, Hsd, Hnid, Hv, Hsec, Z.eqb_refl, bool_decide_eq_true_2 by done.
    cbn [andb]. change (replay_window_seconds (security_of true)) with (replay_window_seconds default_security).
    rewrite Hw. destruct (signed_verifies _ _ _ _ _ (tcp_keyring t') Em Hmok) as [Hvs _].
    by destruct (Hvs Hkey) as [-> _].
  - assert (gossip_authorized b sender r' = Ok true) as Hga.
    { unfold gossip_authorized. rewrite Hen, bool_decide_eq_true_2 by done. apply Hver.
      - rewrite <- Hsd. by apply (Hacc Hen).
      - intros c Hcb. discriminate Hcb. }
    assert (vc_wf (vector_clock r')) as Hvc.
    { assert (vector_clock r' = VectorClock_init {[sender := 1]}) as -> by exact (f_equal vector_clock Hsame).
      apply VectorClock_init_wf. }
    destruct (update_received b st key wall n _ m' tid r' Em Hmok eq_refl eq_refl Hacc
      (f_equal task_id Hsame) Hok' Hvc Hga Hmax Htab Hold Hroom) as (x & Hx & Hle & Hnew).
    exists x. split_and!; [exact Hx|done|]. intros Hnone. by rewrite (Hnew Hnone).
Qed.
End submission.

(** ** Samples *)

Definition sample_peers : list (pystr * (pystr * Z)) :=
  [(str "p2", (str "10.0.0.2", 9000)); (str "p3", (str "localhost", 80))].

Lemma peer_addresses_round_trip_witness :
  parse_peer_addresses (str "p2=10.0.0.2:9000,p3=localhost:80") = Ok sample_peers.
Proof.
  assert (str "p2=10.0.0.2:9000,p3=localhost:80" = join_comma (peer_text <$> sample_peers)) as E
    by (vm_compute; reflexivity).
  rewrite E. apply peer_addresses_round_trip.
  - repeat (apply Forall_cons_2; [|try apply Forall_nil_2]);
      (split; [|split; [|split]]); try (vm_compute; discriminate);
      unfold plain; apply (bool_decide_unpack _); vm_compute; exact I.
  - apply (bool_decide_unpack _). vm_compute. exact I.
Defined.

Definition sample_setup : result Setup :=
  run_node_setup (fun _ => fzero) None (toy_seed 1) None 9001 (str "p1") (str "10.0.0.1") (str "p2=10.0.0.2:9000")
    true (str "peerq-default") None None None (str "p2=" ++ pub_to_hex (toy_pub 2)) None false.

Example node_setup_sample :
  exists s, sample_setup = Ok s /\ has_peer (str "p2") (tcp_keyring (su_transport s)) = true.
Proof.
  assert (is_ok sample_setup = true) as Hok by (vm_compute; reflexivity).
  destruct sample_setup as [s|] eqn:E; [|discriminate Hok]. exists s. split; [reflexivity|].
  unfold sample_setup in E. destruct (node_setup_consistent _ _ _ _ _ _ _ _ _ _ _ _ _ _ _ _ _ E)
    as (_ & _ & _ & _ & _ & _ & _ & Ha & _ & Hkeys & _).
  apply (Hkeys eq_refl). assert (parse_peer_addresses (str "p2=10.0.0.2:9000") = Ok [(str "p2", (str "10.0.0.2", 9000))])
    as Hp by (vm_compute; reflexivity).
  rewrite Hp in Ha. injection Ha as <-. by left.
Defined.

Definition sample_submission : result (TcpTransport * TaskRecord * Message) :=
  submit_command (decimal_float false 1 0) (str "n9") (toy_seed 2) (str "10.0.0.1") 9001 (str "p2") (str "job")
    (str "data") None (Some (pub_to_hex (toy_pub 1))) (str "p1") false.

Definition sample_submitted : TcpTransport * TaskRecord * Message :=
  or_sample sample_submission (tcp_p1, p1_record, sample_message).

Lemma sample_submitted_ok : sample_submission = Ok sample_submitted.
Proof.
  assert (is_ok sample_submission = true) as Hok by (vm_compute; reflexivity).
  unfold sample_submitted, or_sample. destruct sample_submission; [reflexivity|discriminate Hok].
Qed.

Lemma cli_submission_stored_witness :
  exists x, get_task (str "job") (receive (toy_cfg true true) (str "p2") (sorted_message sample_submitted.2)
    (toy_state true true)).2 = Some x /\ same_content x (submit_record (str "p2") (str "job") (str_bytes "data")).
Proof.
  pose proof sample_submitted_ok as H1. rewrite (surjective_pairing sample_submitted) in H1.
  rewrite (surjective_pairing sample_submitted.1) in H1. unfold sample_submission in H1.
  assert (utf8_encode (str "data") = Some (str_bytes "data")) as H2 by (vm_compute; reflexivity).
  assert (message_ok sample_submitted.2 = true) as H3 by (vm_compute; reflexivity).
  assert (record_ok (submit_record (str "p2") (str "job") (str_bytes "data")) = true) as H4 by (vm_compute; reflexivity).
  assert (record_text_ok (submit_record (str "p2") (str "job") (str_bytes "data")) = true) as H5
    by (vm_compute; reflexivity).
  assert (enabled (security (toy_cfg true true)) = true) as H6 by (vm_compute; reflexivity).
  assert (node_accepts (toy_cfg true true) (toy_state true true) (toy_seed 2) sample_submitted.2) as H7.
  { intros _. split_and!; [vm_compute; reflexivity|vm_compute; reflexivity|].
    assert (timestamp sample_submitted.2 = Some (decimal_float false 1 0)) as Ht by (vm_compute; reflexivity).
    assert (nonce sample_submitted.2 = Some (str "n9")) as Hn by (vm_compute; reflexivity).
    exists (decimal_float false 1 0), (str "n9"). split; [exact Ht|]. split; [exact Hn|].
    split; vm_compute; reflexivity. }
  assert (0 < max_gossip_tasks (security (toy_cfg true true))) as H8 by (vm_compute; reflexivity).
  assert (tasks (toy_state true true) = []) as H9 by (vm_compute; reflexivity).
  assert (get_task (str "job") (toy_state true true) = None) as Hnone by (unfold get_task; by rewrite H9).
  assert (table_ok (toy_state true true)) as H10 by (intros k x Hx; unfold get_task in Hx; rewrite H9 in Hx; discriminate Hx).
  assert (len (tasks (toy_state true true)) < max_tasks (toy_cfg true true)) as H11 by (vm_compute; reflexivity).
  destruct (cli_submission_stored _ _ _ (toy_seed 2) _ _ _ _ _ _ _ _ _ _ _ (str_bytes "data") (toy_cfg true true)
    (toy_state true true) H1 eq_refl H2 H3 H4 H5 H6 H7 H8 H10) as [_ (x & Hx & _ & Hnew)].
  - intros old Hold. rewrite Hnone in Hold. discriminate Hold.
  - intros _. exact H11.
  - exists x. exact (conj Hx (proj2 (Hnew Hnone))).
Defined.
