(* ===== verification/Status.v ===== *)
(** * Metrics and status pages ([peerq/exporter.py])

    The Prometheus text and the status of a node, as data and as JSON. *)

From Stdlib Require Import ZArith NArith Lia.
From S2P Require Import Prelude PyFloat Text Json JsonFacts Security Consensus Crypto Lattice Heapq Queue.
From S2P Require Import Wal Metrics Failure Message SimNetwork Tcp Sha256 FloatText PyText Node NodeFacts NodeScenarios.
Open Scope Z_scope.

Definition CONTENT_TYPE_PROMETHEUS : pystr := str "text/plain; version=0.0.4; charset=utf-8".
Definition CONTENT_TYPE_HTML : pystr := str "text/html; charset=utf-8".

Definition COUNTER_METRIC_NAMES : list (string * (string * string)) := [
  ("enqueued", ("peerq_tasks_enqueued_total", "Total tasks admitted into local queue"));
  ("claimed", ("peerq_tasks_claimed_total", "Total tasks claimed by workers"));
  ("completed", ("peerq_tasks_completed_total", "Total tasks successfully completed"));
  ("failed", ("peerq_tasks_failed_total", "Total tasks that encountered errors"));
  ("reclaimed", ("peerq_tasks_reclaimed_total", "Total tasks reclaimed after lease expiry"));
  ("rejected", ("peerq_tasks_rejected_total", "Total stale task commits rejected by fencing"))]%string.

Definition HISTOGRAM_METRIC_NAMES : list (string * (string * string)) := [
  ("task_latency", ("peerq_task_execution_latency_seconds", "Task handler execution latency"));
  ("claim_latency", ("peerq_claim_latency_seconds", "Task claim scheduling latency"));
  ("gossip_latency", ("peerq_gossip_latency_seconds", "Gossip anti-entropy propagation latency"))]%string.

(** ** [format_prometheus_text] *)

Definition quoted (k : string) (v : pystr) : pystr := str k ++ str "=" ++ [34%N] ++ v ++ [34%N].

Definition node_labels (nid : pystr) : pystr :=
  match nid with [] => [] | _ => str "{" ++ quoted "node" nid ++ str "}" end.
Definition label_prefix (nid : pystr) : pystr :=
  match nid with [] => [] | _ => quoted "node" nid ++ str "," end.

Definition quantile_line (nid : pystr) (name q : string) (value : pystr) : pystr :=
  str name ++ str "{" ++ label_prefix nid ++ quoted "quantile" (str q) ++ str "} " ++ value.

Definition counter_lines (m : MetricsCollector) (nid : pystr) (c : string * (string * string)) : result (list pystr) :=
  let '(key, (name, help)) := c in
  let! v := int_repr (get_counter (str key) m) in
  Ok [str "# HELP " ++ str name ++ str " " ++ str help;
      str "# TYPE " ++ str name ++ str " counter";
      str name ++ node_labels nid ++ str " " ++ v].

(** [hist.quantile(q) / 1e6] and [(hist.mean * hist.count) / 1e6], with six decimals. *)
Definition seconds (us : float) : pystr := format_6f (fdiv us (decimal_float false 1 6)).

Definition histogram_lines (m : MetricsCollector) (nid : pystr) (c : string * (string * string)) : result (list pystr) :=
  let '(key, (name, help)) := c in
  match get_histogram (str key) m with
  | None => Ok []
  | Some h =>
      let head := [str "# HELP " ++ str name ++ str " " ++ str help;
                   str "# TYPE " ++ str name ++ str " summary"] in
      let count_line v := str name ++ str "_count" ++ node_labels nid ++ str " " ++ v in
      let sum_line v := str name ++ str "_sum" ++ node_labels nid ++ str " " ++ v in
      if total_count h =? 0 then
        Ok (head ++ [quantile_line nid name "0.5" (str "0.0"); quantile_line nid name "0.95" (str "0.0");
                     quantile_line nid name "0.99" (str "0.0"); count_line (str "0"); sum_line (str "0.0")])
      else
        let! p50 := quantile (decimal_float false 50 (-2)) h in
        let! p95 := quantile (decimal_float false 95 (-2)) h in
        let! p99 := quantile (decimal_float false 99 (-2)) h in
        let! count := float_of_int (total_count h) in
        let! n := int_repr (total_count h) in
        Ok (head ++ [quantile_line nid name "0.5" (seconds p50); quantile_line nid name "0.95" (seconds p95);
                     quantile_line nid name "0.99" (seconds p99); count_line n;
                     sum_line (seconds (fmul (hist_mean h) count))])
  end.

(** The lines of every metric of a table. *)
Fixpoint all_lines {A} (f : A -> result (list pystr)) (l : list A) : result (list pystr) :=
  match l with
  | [] => Ok []
  | x :: l' => let! a := f x in let! b := all_lines f l' in Ok (a ++ b)
  end.

Definition format_prometheus_text (m : MetricsCollector) (nid : pystr) : result pystr :=
  let! cs := all_lines (counter_lines m nid) COUNTER_METRIC_NAMES in
  let! hs := all_lines (histogram_lines m nid) HISTOGRAM_METRIC_NAMES in
  Ok (join [10%N] (cs ++ hs ++ [[]])).

(** ** [format_cluster_status] *)

Definition all_states : list TaskState := [PENDING; CLAIMED; RUNNING; DONE; FAILED].

(** The count of the tasks by state, in the order of the enumeration. *)
Definition count_states (ts : list TaskRecord) : list (pystr * Z) :=
  foldl (fun d t => dict_set (state_value (state t)) (default 0 (dict_get (state_value (state t)) d) + 1) d)
    ((fun s => (state_value s, 0)) <$> all_states) ts.

Definition is_leased (t : TaskRecord) : bool :=
  bool_decide (state t = CLAIMED) || bool_decide (state t = RUNNING).

(** The dictionary that [format_cluster_status] returns; a lease is the task that holds it. *)
Record ClusterStatus := {
  cs_node_id : pystr;
  known_peers : list pystr;
  live_peers : list pystr;
  suspected_peers : list pystr;
  depth : Z;
  peer_credits : list (pystr * Z);
  total : Z;
  by_state : list (pystr * Z);
  active_leases : list TaskRecord;
  cs_clock : list (pystr * Z);
}.

Definition lease_entry (t : TaskRecord) : json := JObj [
  (str "task_id", JStr (task_id t));
  (str "claimed_by", opt_json JStr (claimed_by t));
  (str "fence_epoch", JInt (epoch (fence_token t)));
  (str "fence_peer", JStr (ft_peer_id (fence_token t)));
  (str "lease_expiry", JFloat (lease_expiry t))].

Definition int_items (d : list (pystr * Z)) : json := JObj ((fun kv => (kv.1, JInt kv.2)) <$> d).

Definition status_json (c : ClusterStatus) : json := JObj [
  (str "node_id", JStr (cs_node_id c));
  (str "cluster_topology", JObj [
    (str "known_peers", JArr (JStr <$> known_peers c));
    (str "live_peers", JArr (JStr <$> live_peers c));
    (str "suspected_peers", JArr (JStr <$> suspected_peers c))]);
  (str "queue", JObj [
    (str "depth", JInt (depth c));
    (str "peer_credits", int_items (peer_credits c))]);
  (str "tasks", JObj [
    (str "total", JInt (total c));
    (str "by_state", int_items (by_state c));
    (str "active_leases", JArr (lease_entry <$> active_leases c))]);
  (str "vector_clock", int_items (cs_clock c))].

Section status.
Context `{Ed25519} `{MathLib}.

(** The live and the suspected ones among the peers. *)
Fixpoint split_peers (now : float) (d : PhiAccrualDetector) (ps : list pystr) : result (list pystr * list pystr) :=
  match ps with
  | [] => Ok ([], [])
  | p :: ps' =>
      let! s := is_suspected p phi_threshold now d in
      let! rest := split_peers now d ps' in
      Ok (if s then (rest.1, p :: rest.2) else (p :: rest.1, rest.2))
  end.

(** [format_cluster_status], as a record. *)
Definition cluster_status (now : float) (cfg : NodeConfig) (st : NodeState) : result ClusterStatus :=
  let! ls := split_peers now (failure_detector st) (peers cfg) in
  let ts := (tasks st).*2 in
  Ok {| cs_node_id := node_id cfg; known_peers := peers cfg; live_peers := ls.1; suspected_peers := ls.2;
        depth := qsize (queue st);
        peer_credits := foldl (fun d p => dict_set p (get_credits p (flow_controller st)) d) [] (peers cfg);
        total := len (tasks st); by_state := count_states ts;
        active_leases := filter (fun t => is_leased t = true) ts;
        cs_clock := map_to_list (clock (node_clock st)) |}.

Definition format_cluster_status (now : float) (cfg : NodeConfig) (st : NodeState) : result json :=
  rmap status_json (cluster_status now cfg st).
End status.

(** ** The report is accurate *)

(** The value at a path of keys. *)
Fixpoint at_path (ks : list pystr) (v : json) : option json :=
  match ks with
  | [] => Some v
  | k :: ks' => match v with JObj d => dict_get k d ≫= at_path ks' | _ => None end
  end.

Definition in_state (s : TaskState) (t : TaskRecord) : bool := bool_decide (state t = s).
Definition count_in (s : TaskState) (ts : list TaskRecord) : Z := len (List.filter (in_state s) ts).

Lemma dict_get_fmap {V W} (f : V -> W) (k : pystr) (d : list (pystr * V)) :
  dict_get k ((fun kv => (kv.1, f kv.2)) <$> d) = f <$> dict_get k d.
Proof. induction d as [|[k' v] d IH]; cbn; [done|]. by case_decide. Qed.

Lemma count_states_from (ts : list TaskRecord) (s : TaskState) (d : list (pystr * Z)) (n : Z) :
  dict_get (state_value s) d = Some n ->
  dict_get (state_value s)
    (foldl (fun d t => dict_set (state_value (state t)) (default 0 (dict_get (state_value (state t)) d) + 1) d) d ts)
  = Some (n + count_in s ts).
Proof.
  unfold count_in. revert d n. induction ts as [|t ts IH]; intros d n Hd; cbn [foldl List.filter].
  { by rewrite Z.add_0_r. }
  unfold in_state at 1. destruct (decide (state t = s)) as [<-|Hne].
  - rewrite bool_decide_eq_true_2 by done. rewrite (IH _ (n + 1)); [unfold len; cbn [length]; f_equal; lia|].
    by rewrite dict_get_set_eq, Hd.
  - rewrite bool_decide_eq_false_2 by done. apply IH. rewrite dict_get_set_ne; [done|].
    by intros E%state_value_inj.
Qed.

Lemma count_states_get ts s : dict_get (state_value s) (count_states ts) = Some (count_in s ts).
Proof. unfold count_states. rewrite (count_states_from ts s _ 0); [done|]. by destruct s. Qed.

Lemma count_in_cons s t ts : count_in s (t :: ts) = (if decide (state t = s) then 1 else 0) + count_in s ts.
Proof.
  unfold count_in, len. cbn [List.filter]. destruct (in_state s t) eqn:E; unfold in_state in E.
  - apply bool_decide_eq_true in E. rewrite decide_True by done. cbn [length]. lia.
  - apply bool_decide_eq_false in E. by rewrite decide_False.
Qed.

(** Every task is in exactly one state. *)
Lemma count_in_total ts :
  count_in PENDING ts + count_in CLAIMED ts + count_in RUNNING ts + count_in DONE ts + count_in FAILED ts = len ts.
Proof.
  induction ts as [|t ts IH]; [done|]. rewrite !count_in_cons. unfold len in *. cbn [length].
  destruct (state t); cbn [decide decide_rel]; repeat case_decide; try done; lia.
Qed.

Lemma leased_count ts :
  len (filter (fun t => is_leased t = true) ts) = count_in CLAIMED ts + count_in RUNNING ts.
Proof.
  induction ts as [|t ts IH]; [done|]. rewrite filter_cons, !count_in_cons.
  destruct (decide (is_leased t = true)) as [E|E]; unfold is_leased in E; unfold len in *;
    destruct (state t); repeat case_decide; try done; cbn [length]; lia.
Qed.

Section status_facts.
Context `{Ed25519} `{MathLib}.

Lemma split_peers_spec now d ps live susp :
  split_peers now d ps = Ok (live, susp) ->
  (forall p, p ∈ live <-> p ∈ ps /\ is_suspected p phi_threshold now d = Ok false) /\
  (forall p, p ∈ susp <-> p ∈ ps /\ is_suspected p phi_threshold now d = Ok true) /\
  live ++ susp ≡ₚ ps.
Proof.
  revert live susp. induction ps as [|p ps IH]; intros live susp; cbn [split_peers].
  { intros [= <- <-]. set_solver. }
  destruct (is_suspected p phi_threshold now d) as [s|] eqn:Es; [|done]. cbn [rbind].
  destruct (split_peers now d ps) as [[l1 s1]|]; [|done]. destruct (IH _ _ eq_refl) as (Hl & Hs & Hp).
  cbn [rbind]. intros E%Ok_inj. destruct s; injection E as <- <-.
  - split_and!; cbn [fst snd]; [| |by rewrite <- Permutation_middle, Hp];
      intros q; rewrite !elem_of_cons, ?Hl, ?Hs; destruct (decide (q = p)) as [->|]; rewrite ?Es; intuition congruence.
  - split_and!; cbn [fst snd app]; [| |by rewrite Hp];
      intros q; rewrite !elem_of_cons, ?Hl, ?Hs; destruct (decide (q = p)) as [->|]; rewrite ?Es; intuition congruence.
Qed.

Lemma credits_get {V} (f : pystr -> V) (ps : list pystr) (d : list (pystr * V)) p :
  p ∈ ps \/ dict_get p d = Some (f p) -> dict_get p (foldl (fun d p => dict_set p (f p) d) d ps) = Some (f p).
Proof.
  revert d. induction ps as [|q ps IH]; intros d Hp; cbn [foldl]; [set_solver|].
  apply IH. rewrite dict_get_set. destruct (decide (q = p)) as [->|Hne]; [by right|]. set_solver.
Qed.
End status_facts.

Section status_theorems.
Context `{Ed25519} `{MathLib}.

(** The report of [/status] is accurate: the live and the suspected peers are the known peers,
    split by the failure detector's verdict at that moment; for each state the number of tasks in
    it is reported, and these numbers add up to the reported total; the active leases are the
    entries of exactly the claimed and the running tasks; every known peer's credits are shown. *)
Theorem status_report_accurate (now : float) (cfg : NodeConfig) (st : NodeState) (doc : json) :
  format_cluster_status now cfg st = Ok doc ->
  exists live susp leased,
    at_path [str "cluster_topology"; str "live_peers"] doc = Some (JArr (JStr <$> live)) /\
    at_path [str "cluster_topology"; str "suspected_peers"] doc = Some (JArr (JStr <$> susp)) /\
    live ++ susp ≡ₚ peers cfg /\
    (forall p, p ∈ live <-> p ∈ peers cfg /\ is_suspected p phi_threshold now (failure_detector st) = Ok false) /\
    (forall p, p ∈ susp <-> p ∈ peers cfg /\ is_suspected p phi_threshold now (failure_detector st) = Ok true) /\
    (forall s, at_path [str "tasks"; str "by_state"; state_value s] doc =
               Some (JInt (count_in s (tasks st).*2))) /\
    at_path [str "tasks"; str "total"] doc =
      Some (JInt (count_in PENDING (tasks st).*2 + count_in CLAIMED (tasks st).*2 + count_in RUNNING (tasks st).*2
                  + count_in DONE (tasks st).*2 + count_in FAILED (tasks st).*2)) /\
    at_path [str "tasks"; str "active_leases"] doc = Some (JArr (lease_entry <$> leased)) /\
    (forall t, t ∈ leased <-> t ∈ (tasks st).*2 /\ (state t = CLAIMED \/ state t = RUNNING)) /\
    len leased = count_in CLAIMED (tasks st).*2 + count_in RUNNING (tasks st).*2 /\
    (forall p, p ∈ peers cfg ->
       at_path [str "queue"; str "peer_credits"; p] doc = Some (JInt (get_credits p (flow_controller st)))).
Proof.
  unfold format_cluster_status, cluster_status. destruct (split_peers now _ _) as [[live susp]|] eqn:Es; [|done].
  cbn [rbind rmap fst snd]. intros <-%Ok_inj. destruct (split_peers_spec _ _ _ _ _ Es) as (Hl & Hs & Hp).
  exists live, susp, (filter (fun t => is_leased t = true) (tasks st).*2).
  split_and!; try done.
  - intros s. transitivity (dict_get (state_value s) ((fun kv => (kv.1, JInt kv.2)) <$> count_states (tasks st).*2)
      ≫= at_path []); [reflexivity|]. by rewrite dict_get_fmap, count_states_get.
  - rewrite count_in_total. unfold len. rewrite length_fmap. done.
  - intros t. rewrite list_elem_of_filter. unfold is_leased. rewrite orb_true_iff, !bool_decide_eq_true. tauto.
  - apply leased_count.
  - intros p Hin. pose (f p := get_credits p (flow_controller st)).
    transitivity (dict_get p ((fun kv => (kv.1, JInt kv.2)) <$> foldl (fun d p => dict_set p (f p) d) [] (peers cfg))
      ≫= at_path []); [reflexivity|]. by rewrite dict_get_fmap, credits_get by auto.
Qed.
End status_theorems.

(** ** Samples *)

Example quantile_line_sample :
  quantile_line (str "n1") "m" "0.5" (seconds (decimal_float false 1500 0)) =
  (str "m{node=" ++ [34%N] ++ str "n1" ++ [34%N] ++ str ",quantile=" ++ [34%N] ++ str "0.5" ++ [34%N] ++ str "} 0.001500").
Proof. vm_compute. reflexivity. Qed.

(** The node of the executions, with one task claimed. *)
Definition sample_status : result json := format_cluster_status fzero (toy_cfg true true) (toy_claimed true).

Lemma status_report_accurate_witness :
  exists doc leased, sample_status = Ok doc /\
    at_path [str "tasks"; str "active_leases"] doc = Some (JArr (lease_entry <$> leased)) /\ len leased = 1.
Proof.
  assert (is_ok sample_status = true) as Hok by (vm_compute; reflexivity).
  destruct sample_status as [doc|] eqn:E; [|discriminate Hok]. unfold sample_status in E.
  destruct (status_report_accurate _ _ _ _ E) as (live & susp & leased & _ & _ & _ & _ & _ & _ & _ & Hl & _ & Hn & _).
  exists doc, leased. split; [reflexivity|]. split; [exact Hl|]. rewrite Hn. vm_compute. reflexivity.
Defined.
