(* ===== verification/Dashboard.v ===== *)
(** * The dashboard ([get_dashboard_html] of [peerq/exporter.py])

    The page of a node: what is read from the status and the metrics, the fragments built from it,
    and the text around them.  In the literals below [html] writes the double quotes of the source
    as single ones, which the source's page does not use. *)

From Stdlib Require Import ZArith NArith Lia.
From S2P Require Import Prelude PyFloat Text Json JsonFacts Security Consensus Crypto Lattice Heapq Queue.
From S2P Require Import Wal Metrics Failure Message SimNetwork Tcp Sha256 FloatText PyText Node NodeFacts.
From S2P Require Import NodeScenarios Status.
Open Scope Z_scope.

Definition html (s : string) : pystr := (fun c => if (c =? 39)%N then 34%N else c) <$> str s.

(** ** Formatting *)

(** [html.escape(s)] *)
Definition escape_char (c : N) : pystr :=
  (if c =? 38 then str "&amp;"
   else if c =? 60 then str "&lt;"
   else if c =? 62 then str "&gt;"
   else if c =? 34 then str "&quot;"
   else if c =? 39 then str "&#x27;"
   else [c])%N.

Definition html_escape (s : pystr) : pystr := s ≫= escape_char.

(** [f"{x:.<d>f}"] *)
Definition format_f (d : nat) (x : float) : pystr :=
  let scale := 10 ^ Z.of_nat d in
  let fixed (s : bool) (units : Z) :=
    (if s then str "-" else []) ++ N_str (Z.to_N (units / scale)) ++ str "." ++
    pad_left d 48 (N_str (Z.to_N (units mod scale))) in
  match x with
  | S754_zero s => fixed s 0
  | S754_infinity s => (if s then str "-" else []) ++ str "inf"
  | S754_nan => str "nan"
  | S754_finite s m e =>
      fixed s (if 0 <=? e then Zpos m * 2 ^ e * scale
               else div_half_even (Zpos m * scale) (2 ^ (- e)))
  end.

(** [_format_quantile] *)
Definition format_quantile (h : option LogLinearHistogram) (q : float) : result pystr :=
  match h with
  | None => Ok (str "N/A")
  | Some h =>
      if total_count h =? 0 then Ok (str "N/A")
      else let! x := quantile q h in Ok (format_f 2 (fdiv x (decimal_float false 1000 0)) ++ str " ms")
  end.

(** ** Fragments *)

Inductive PeerBadge := BadgeLive | BadgeSuspected | BadgeNeutral.

Global Instance PeerBadge_eq_dec : EqDecision PeerBadge.
Proof. solve_decision. Defined.

(** Which badge a peer gets; all the arguments are escaped. *)
Definition badge_of (live susp : list pystr) (p : pystr) : PeerBadge :=
  if bool_decide (p ∈ live) then BadgeLive else if bool_decide (p ∈ susp) then BadgeSuspected else BadgeNeutral.

Definition peer_badge (b : PeerBadge) (p : pystr) : pystr :=
  match b with
  | BadgeLive => html "<span class='badge badge-success'><span class='dot dot-green'></span>" ++ p ++ str " (live)</span>"
  | BadgeSuspected =>
      html "<span class='badge badge-warning'><span class='dot dot-amber'></span>" ++ p ++ str " (suspected)</span>"
  | BadgeNeutral => html "<span class='badge badge-neutral'>" ++ p ++ str "</span>"
  end.

Definition peers_html (known live susp : list pystr) : pystr :=
  match known with
  | [] => html "<span class='text-muted'>Single node (standalone mode)</span>"
  | _ => join (str " ") ((fun p => peer_badge (badge_of live susp p) p) <$> known)
  end.

(** The row of a lease; [str(None)] is the text [None]. *)
Definition lease_row (now : float) (t : TaskRecord) : result pystr :=
  let! fepoch := int_repr (epoch (fence_token t)) in
  let exp := lease_expiry t in
  let rem := py_max fzero (fsub exp now) in
  Ok (str "<tr><td><code>" ++ html_escape (task_id t) ++ str "</code></td><td><code>" ++
      html_escape (default (str "None") (claimed_by t)) ++ str "</code></td><td>" ++ fepoch ++ str "</td><td>" ++
      format_f 2 exp ++ str "s</td><td>" ++ format_f 2 rem ++ str "s</td></tr>").

(** The texts of all the elements of a list, or the first exception. *)
Fixpoint all_texts {A} (f : A -> result pystr) (l : list A) : result (list pystr) :=
  match l with
  | [] => Ok []
  | x :: l' => let! t := f x in let! ts := all_texts f l' in Ok (t :: ts)
  end.

Definition leases_table (now : float) (leases : list TaskRecord) : result pystr :=
  match leases with
  | [] => Ok (html "<p class='text-muted'>No active leases currently held.</p>")
  | _ =>
      let! rows := all_texts (lease_row now) leases in
      Ok (str "<table><thead><tr><th>Task ID</th><th>Claimed By</th><th>Fence Epoch</th><th>Lease Expiry</th><th>Remaining</th></tr></thead><tbody>"
          ++ join [] rows ++ str "</tbody></table>")
  end.

Definition count_badge (unit : string) (kv : pystr * Z) : result pystr :=
  let! v := int_repr kv.2 in
  Ok (html "<span class='badge badge-neutral'><code>" ++ html_escape kv.1 ++ str "</code>: " ++ v ++ str unit
      ++ str "</span>").

(** The badges of a sorted dictionary, or a text when it is empty. *)
Definition badges_html (none unit : string) (d : list (pystr * Z)) : result pystr :=
  match d with
  | [] => Ok (html none)
  | _ => rmap (join (str " ")) (all_texts (count_badge unit) (sort_items d))
  end.

Definition vclock_html : list (pystr * Z) -> result pystr :=
  badges_html "<span class='text-muted'>Empty</span>" "".
Definition credits_html : list (pystr * Z) -> result pystr :=
  badges_html "<span class='text-muted'>No peer connections</span>" " credits".

(** ** The page *)

(** The texts that the page is filled with. *)
Record Values := {
  v_node_id : pystr; v_total : pystr; v_depth : pystr; v_leases : pystr; v_live : pystr; v_known : pystr;
  v_submitted : pystr; v_claimed : pystr; v_running : pystr; v_completed : pystr; v_failed : pystr;
  v_timed_out : pystr;
  c_enqueued : pystr; c_claimed : pystr; c_completed : pystr; c_failed : pystr; c_reclaimed : pystr;
  c_rejected : pystr;
  f_peers : pystr; f_credits : pystr; f_leases : pystr; f_vclock : pystr;
  l_task_p50 : pystr; l_task_p99 : pystr; l_gossip_p50 : pystr; l_gossip_p99 : pystr; v_now : pystr;
}.

Definition page_style (v : Values) : list pystr := [
  html "<!DOCTYPE html>
<html lang='en'>
<head>
  <meta charset='UTF-8'>
  <meta name='viewport' content='width=device-width, initial-scale=1.0'>
  <meta http-equiv='refresh' content='3'>
  <title>PeerQ " ++ [8212%N] ++ html " Node ";
  v_node_id v;
  html "</title>
  <style>
    :root {
      --bg: #0b0f19;
      --card-bg: #111827;
      --card-border: #1f2937;
      --text: #f3f4f6;
      --text-muted: #9ca3af;
      --primary: #3b82f6;
      --success: #10b981;
      --warning: #f59e0b;
      --danger: #ef4444;
      --code-bg: #1e293b;
    }
    * { box-sizing: border-box; margin: 0; padding: 0; }
    body {
      font-family: -apple-system, BlinkMacSystemFont, 'Segoe UI', Roboto, Helvetica, sans-serif;
      background-color: var(--bg);
      color: var(--text);
      line-height: 1.5;
      padding: 1.5rem;
    }
    header {
      display: flex;
      justify-content: space-between;
      align-items: center;
      padding-bottom: 1.5rem;
      border-bottom: 1px solid var(--card-border);
      margin-bottom: 1.5rem;
      flex-wrap: wrap;
      gap: 1rem;
    }
    .brand {
      display: flex;
      align-items: center;
      gap: 0.75rem;
    }
    .brand h1 {
      font-size: 1.5rem;
      font-weight: 700;
      letter-spacing: -0.025em;
    }
    .node-tag {
      background: var(--code-bg);
      padding: 0.25rem 0.6rem;
      border-radius: 6px;
      font-family: ui-monospace, monospace;
      font-size: 0.9rem;
      border: 1px solid var(--card-border);
    }
    .nav-links {
      display: flex;
      gap: 0.75rem;
    }
    .nav-links a {
      color: var(--primary);
      text-decoration: none;
      font-size: 0.875rem;
      background: var(--card-bg);
      padding: 0.35rem 0.75rem;
      border-radius: 6px;
      border: 1px solid var(--card-border);
      transition: background 0.15s;
    }
    .nav-links a:hover {
      background: var(--card-border);
    }
    .grid-4 {
      display: grid;
      grid-template-columns: repeat(auto-fit, minmax(200px, 1fr));
      gap: 1rem;
      margin-bottom: 1.5rem;
    }
    .stat-card {
      background: var(--card-bg);
      border: 1px solid var(--card-border);
      border-radius: 8px;
      padding: 1rem 1.25rem;
    }
    .stat-card .label {
      font-size: 0.8rem;
      color: var(--text-muted);
      text-transform: uppercase;
      letter-spacing: 0.05em;
      margin-bottom: 0.25rem;
    }
    .stat-card .value {
      font-size: 1.75rem;
      font-weight: 700;
    }
    .grid-2 {
      display: grid;
      grid-template-columns: repeat(auto-fit, minmax(400px, 1fr));
      gap: 1.5rem;
      margin-bottom: 1.5rem;
    }
"].

Definition page_cards (v : Values) : list pystr := [
  html "    .panel {
      background: var(--card-bg);
      border: 1px solid var(--card-border);
      border-radius: 8px;
      padding: 1.25rem;
    }
    .panel h2 {
      font-size: 1.1rem;
      font-weight: 600;
      margin-bottom: 1rem;
      border-bottom: 1px solid var(--card-border);
      padding-bottom: 0.5rem;
      display: flex;
      justify-content: space-between;
      align-items: center;
    }
    .badge {
      display: inline-flex;
      align-items: center;
      gap: 0.35rem;
      padding: 0.25rem 0.6rem;
      border-radius: 9999px;
      font-size: 0.8rem;
      font-weight: 500;
      margin: 0.2rem;
    }
    .badge-success {
      background: rgba(16, 185, 129, 0.15);
      color: #34d399;
      border: 1px solid rgba(16, 185, 129, 0.3);
    }
    .badge-warning {
      background: rgba(245, 158, 11, 0.15);
      color: #fbbf24;
      border: 1px solid rgba(245, 158, 11, 0.3);
    }
    .badge-neutral {
      background: var(--code-bg);
      color: var(--text);
      border: 1px solid var(--card-border);
    }
    .dot { width: 8px; height: 8px; border-radius: 50%; display: inline-block; }
    .dot-green { background-color: var(--success); }
    .dot-amber { background-color: var(--warning); }
    .state-grid {
      display: grid;
      grid-template-columns: repeat(3, 1fr);
      gap: 0.75rem;
      margin-bottom: 1rem;
    }
    .state-box {
      background: var(--code-bg);
      border-radius: 6px;
      padding: 0.75rem;
      text-align: center;
    }
    .state-box .name { font-size: 0.75rem; color: var(--text-muted); text-transform: uppercase; }
    .state-box .count { font-size: 1.3rem; font-weight: 700; }
    table {
      width: 100%;
      border-collapse: collapse;
      font-size: 0.875rem;
    }
    th, td {
      padding: 0.6rem 0.75rem;
      text-align: left;
      border-bottom: 1px solid var(--card-border);
    }
    th { color: var(--text-muted); font-weight: 500; }
    code {
      font-family: ui-monospace, monospace;
      background: var(--code-bg);
      padding: 0.1rem 0.3rem;
      border-radius: 4px;
    }
    .text-muted { color: var(--text-muted); font-size: 0.875rem; font-style: italic; }
    footer {
      margin-top: 2rem;
      padding-top: 1rem;
      border-top: 1px solid var(--card-border);
      text-align: center;
      color: var(--text-muted);
      font-size: 0.8rem;
    }
  </style>
</head>
<body>
  <header>
    <div class='brand'>
      <h1>PeerQ Mesh</h1>
      <span class='node-tag'>Node: ";
  v_node_id v;
  html "</span>
      <span class='badge badge-success'><span class='dot dot-green'></span>Active</span>
    </div>
    <div class='nav-links'>
      <a href='/status' target='_blank'>JSON Status</a>
      <a href='/metrics' target='_blank'>Prometheus Metrics</a>
      <a href='/healthz' target='_blank'>Healthz</a>
    </div>
  </header>

  <div class='grid-4'>
    <div class='stat-card'>
      <div class='label'>Total Tasks</div>
      <div class='value'>";
  v_total v;
  html "</div>
    </div>
    <div class='stat-card'>
      <div class='label'>Queue Depth</div>
      <div class='value'>";
  v_depth v;
  html "</div>
    </div>
    <div class='stat-card'>
      <div class='label'>Active Leases</div>
      <div class='value'>";
  v_leases v;
  html "</div>
    </div>
    <div class='stat-card'>
      <div class='label'>Live Peers</div>
      <div class='value'>
        ";
  v_live v;
  html "
        <span style='font-size: 0.8rem; color: var(--text-muted);'>/ ";
  v_known v].

Definition page_tasks (v : Values) : list pystr := [
  html "</span>
      </div>
    </div>
  </div>

  <div class='grid-2'>
    <div class='panel'>
      <h2>Task State Distribution</h2>
      <div class='state-grid'>
        <div class='state-box'>
          <div class='name'>Submitted</div>
          <div class='count'>";
  v_submitted v;
  html "</div>
        </div>
        <div class='state-box'>
          <div class='name'>Claimed</div>
          <div class='count'>";
  v_claimed v;
  html "</div>
        </div>
        <div class='state-box'>
          <div class='name'>Running</div>
          <div class='count'>";
  v_running v;
  html "</div>
        </div>
        <div class='state-box'>
          <div class='name'>Completed</div>
          <div class='count' style='color: var(--success);'>";
  v_completed v;
  html "</div>
        </div>
        <div class='state-box'>
          <div class='name'>Failed</div>
          <div class='count' style='color: var(--danger);'>";
  v_failed v;
  html "</div>
        </div>
        <div class='state-box'>
          <div class='name'>Timed Out</div>
          <div class='count'>";
  v_timed_out v;
  html "</div>
        </div>
      </div>
      <div style='font-size: 0.85rem; color: var(--text-muted);'>
        Enqueued: ";
  c_enqueued v;
  html " | Claimed: ";
  c_claimed v;
  html " | Completed: ";
  c_completed v;
  html " | Failed: ";
  c_failed v;
  html "
        | Reclaimed: ";
  c_reclaimed v;
  html " | Rejected: ";
  c_rejected v].

Definition page_topology (v : Values) : list pystr := [
  html "
      </div>
    </div>

    <div class='panel'>
      <h2>Cluster Topology</h2>
      <div style='margin-bottom: 1rem;'>
        ";
  f_peers v;
  html "
      </div>
      <h2>Flow Control Credits</h2>
      <div>
        ";
  f_credits v;
  html "
      </div>
    </div>
  </div>

  <div class='grid-2'>
    <div class='panel'>
      <h2>Active Task Leases</h2>
      ";
  f_leases v;
  html "
    </div>

    <div class='panel'>
      <h2>Vector Clock & Latencies</h2>
      <div style='margin-bottom: 1rem;'>
        <strong>Vector Clock:</strong><br>
        ";
  f_vclock v].

Definition page_latencies (v : Values) : list pystr := [
  html "
      </div>
      <div>
        <strong>Execution Latencies:</strong><br>
        <table>
          <tr>
            <td>Task Latency (p50 / p99)</td>
            <td><code>";
  l_task_p50 v;
  html "</code> / <code>";
  l_task_p99 v;
  html "</code></td>
          </tr>
          <tr>
            <td>Gossip Latency (p50 / p99)</td>
            <td><code>";
  l_gossip_p50 v;
  html "</code> / <code>";
  l_gossip_p99 v;
  html "</code></td>
          </tr>
        </table>
      </div>
    </div>
  </div>

  <footer>
    PeerQ Leaderless Distributed Task Mesh &bull; Local clock: ";
  v_now v;
  html "s &bull; Auto-refreshing
  </footer>
</body>
</html>
"].

Definition page (v : Values) : pystr :=
  mjoin (page_style v ++ page_cards v ++ page_tasks v ++ page_topology v ++ page_latencies v).

Definition shown_state (c : ClusterStatus) (key : string) : result pystr :=
  int_repr (default 0 (dict_get (str key) (by_state c))).

Section dashboard.
Context `{Ed25519} `{MathLib}.

(** [get_dashboard_html]; [t1] is the clock's reading in [format_cluster_status], [t2] its own. *)
Definition get_dashboard_html (t1 t2 : float) (cfg : NodeConfig) (st : NodeState) : result pystr :=
  let! c := cluster_status t1 cfg st in
  let counter (k : string) := int_repr (get_counter (str k) (metrics st)) in
  let latency (k : string) (q : Z) :=
    format_quantile (get_histogram (str k) (metrics st)) (decimal_float false q (-2)) in
  let known := html_escape <$> known_peers c in
  let live := html_escape <$> live_peers c in
  let susp := html_escape <$> suspected_peers c in
  let! task_p50 := latency "task_latency" 50 in
  let! task_p99 := latency "task_latency" 99 in
  let! gossip_p50 := latency "gossip_latency" 50 in
  let! gossip_p99 := latency "gossip_latency" 99 in
  let! leases := leases_table t2 (active_leases c) in
  let! clock_badges := vclock_html (cs_clock c) in
  let! credits := credits_html (peer_credits c) in
  let! total_tasks := int_repr (total c) in
  let! queue_depth := int_repr (depth c) in
  let! n_leases := int_repr (len (active_leases c)) in
  let! n_live := int_repr (len live) in
  let! n_known := int_repr (len known) in
  let! submitted := shown_state c "submitted" in
  let! claimed := shown_state c "claimed" in
  let! running := shown_state c "running" in
  let! completed := shown_state c "completed" in
  let! failed := shown_state c "failed" in
  let! timed_out := shown_state c "timed_out" in
  let! m_enqueued := counter "enqueued" in
  let! m_claimed := counter "claimed" in
  let! m_completed := counter "completed" in
  let! m_failed := counter "failed" in
  let! m_reclaimed := counter "reclaimed" in
  let! m_rejected := counter "rejected" in
  Ok (page {|
    v_node_id := html_escape (cs_node_id c); v_total := total_tasks; v_depth := queue_depth;
    v_leases := n_leases; v_live := n_live; v_known := n_known;
    v_submitted := submitted; v_claimed := claimed; v_running := running; v_completed := completed;
    v_failed := failed; v_timed_out := timed_out;
    c_enqueued := m_enqueued; c_claimed := m_claimed; c_completed := m_completed; c_failed := m_failed;
    c_reclaimed := m_reclaimed; c_rejected := m_rejected;
    f_peers := peers_html known live susp; f_credits := credits; f_leases := leases; f_vclock := clock_badges;
    l_task_p50 := task_p50; l_task_p99 := task_p99; l_gossip_p50 := gossip_p50; l_gossip_p99 := gossip_p99;
    v_now := format_f 3 t2 |}).
End dashboard.

(** ** No markup from data *)

(** The characters that open and close tags and attribute values. *)
Definition markup (c : N) : bool := existsb (N.eqb c) [60; 62; 34; 39]%N.
Definition tags (s : pystr) : pystr := List.filter markup s.

Lemma tags_app s t : tags (s ++ t) = tags s ++ tags t.
Proof. apply List.filter_app. Qed.

Lemma tags_escape s : tags (html_escape s) = [].
Proof.
  unfold html_escape. induction s as [|c s IH]; [done|]. cbn [mbind list_bind]. rewrite tags_app, IH, app_nil_r.
  unfold escape_char. repeat (case_match; [done|]). unfold tags. cbn [List.filter].
  unfold markup. cbn [existsb]. rewrite !orb_false_r.
  repeat match goal with E : (_ =? _)%N = _ |- _ => rewrite E; clear E end. done.
Qed.

Lemma tags_join sep l : tags (join sep l) = join (tags sep) (tags <$> l).
Proof.
  induction l as [|x [|y l] IH]; [done|done|]. change (join sep (x :: y :: l)) with (x ++ sep ++ join sep (y :: l)).
  rewrite !tags_app, IH. done.
Qed.

Lemma tags_mjoin (l : list pystr) : tags (mjoin l) = mjoin (tags <$> l).
Proof.
  induction l as [|x l IH]; [done|]. change (mjoin (x :: l)) with (x ++ mjoin l). rewrite tags_app, IH. done.
Qed.

Lemma tags_none s : Forall (fun c => markup c = false) s -> tags s = [].
Proof. unfold tags. induction 1 as [|c s Hc Hs IH]; [done|]. cbn [List.filter]. by rewrite Hc. Qed.

Lemma num_char_markup c : num_char c = true -> markup c = false.
Proof.
  unfold num_char, is_digit, markup. cbn [existsb]. rewrite !orb_true_iff, andb_true_iff, !N.leb_le, !N.eqb_eq.
  intros Hc. rewrite !orb_false_iff, !N.eqb_neq. lia.
Qed.

Lemma tags_int z s : int_repr z = Ok s -> tags s = [].
Proof.
  unfold int_repr. destruct (_ <? _); [done|]. intros <-%Ok_inj. apply tags_none.
  eapply Forall_impl; [apply Z_str_num_char|]. intros c. apply num_char_markup.
Qed.

Lemma tags_N_str n : tags (N_str n) = [].
Proof. apply tags_none. eapply Forall_impl; [apply N_str_digit|]. intros c Hc. by apply num_char_markup, digit_num_char. Qed.

Lemma tags_replicate n : tags (replicate n 48%N) = [].
Proof. apply tags_none, Forall_replicate. done. Qed.

Lemma tags_format_f d x : tags (format_f d x) = [].
Proof.
  unfold format_f, pad_left. destruct x as [s|s| |s m e]; [|by destruct s|done|]; cbv beta zeta;
    rewrite !tags_app, !tags_N_str, tags_replicate; by destruct s.
Qed.

Lemma tags_format_quantile h q s : format_quantile h q = Ok s -> tags s = [].
Proof.
  unfold format_quantile. destruct h as [h|]; [|by intros <-%Ok_inj]. destruct (_ =? 0); [by intros <-%Ok_inj|].
  destruct (quantile q h); [|done]. cbn [rbind]. intros <-%Ok_inj. by rewrite tags_app, tags_format_f.
Qed.

(** A list of texts has the markup of its literals. *)
Lemma all_texts_tags {A B} (f : A -> result pystr) (g : B -> result pystr) l l' rs rs' :
  (forall x y r r', f x = Ok r -> g y = Ok r' -> tags r = tags r') ->
  length l = length l' -> all_texts f l = Ok rs -> all_texts g l' = Ok rs' -> tags <$> rs = tags <$> rs'.
Proof.
  intros Hfg. revert l' rs rs'. induction l as [|x l IH]; intros [|y l'] rs rs'; cbn [all_texts length]; try done.
  { by intros _ <-%Ok_inj <-%Ok_inj. }
  intros [= Hlen]. destruct (f x) as [r|] eqn:Ef; [|done]. destruct (g y) as [r'|] eqn:Eg; [|done]. cbn [rbind].
  destruct (all_texts f l) as [ts|]; [|done]. destruct (all_texts g l') as [ts'|] eqn:E'; [|done]. cbn [rbind].
  intros <-%Ok_inj <-%Ok_inj. cbn [fmap list_fmap]. f_equal; [by eapply Hfg|by eapply IH].
Qed.

Lemma lease_row_tags n n' t t' r r' : lease_row n t = Ok r -> lease_row n' t' = Ok r' -> tags r = tags r'.
Proof.
  unfold lease_row. destruct (int_repr (epoch (fence_token t))) as [e|] eqn:E; [|done].
  destruct (int_repr (epoch (fence_token t'))) as [e'|] eqn:E'; [|done]. cbn [rbind].
  intros <-%Ok_inj <-%Ok_inj.
  by rewrite !tags_app, !tags_escape, !tags_format_f, (tags_int _ _ E), (tags_int _ _ E').
Qed.

Lemma leases_table_tags n n' l l' s s' :
  length l = length l' -> leases_table n l = Ok s -> leases_table n' l' = Ok s' -> tags s = tags s'.
Proof.
  unfold leases_table. destruct l as [|x l], l' as [|x' l']; try done.
  { by intros _ <-%Ok_inj <-%Ok_inj. }
  intros Hlen. destruct (all_texts (lease_row n) (x :: l)) as [rs|] eqn:E; [|done].
  destruct (all_texts (lease_row n') (x' :: l')) as [rs'|] eqn:E'; [|done]. cbn [rbind].
  intros <-%Ok_inj <-%Ok_inj. rewrite !tags_app, !tags_join.
  by rewrite (all_texts_tags _ _ _ _ _ _ (lease_row_tags n n') Hlen E E').
Qed.

Lemma count_badge_tags u kv kv' r r' : count_badge u kv = Ok r -> count_badge u kv' = Ok r' -> tags r = tags r'.
Proof.
  unfold count_badge. destruct (int_repr kv.2) as [e|] eqn:E; [|done].
  destruct (int_repr kv'.2) as [e'|] eqn:E'; [|done]. cbn [rbind]. intros <-%Ok_inj <-%Ok_inj.
  by rewrite !tags_app, !tags_escape, (tags_int _ _ E), (tags_int _ _ E').
Qed.

Lemma badges_html_tags none u d d' s s' :
  length d = length d' -> badges_html none u d = Ok s -> badges_html none u d' = Ok s' -> tags s = tags s'.
Proof.
  unfold badges_html. intros Hlen.
  assert (length (sort_items d) = length (sort_items d')) as Hs by (unfold sort_items; by rewrite !sort_by_perm).
  destruct d as [|x d], d' as [|x' d']; try done.
  { by intros <-%Ok_inj <-%Ok_inj. }
  destruct (all_texts _ (sort_items (x :: d))) as [rs|] eqn:E; [|done].
  destruct (all_texts _ (sort_items (x' :: d'))) as [rs'|] eqn:E'; [|done]. cbn [rmap].
  intros <-%Ok_inj <-%Ok_inj. rewrite !tags_join.
  by rewrite (all_texts_tags _ _ _ _ _ _ (count_badge_tags u) Hs E E').
Qed.

(** The badges of the known peers. *)
Definition peer_badges (c : ClusterStatus) : list PeerBadge :=
  badge_of (html_escape <$> live_peers c) (html_escape <$> suspected_peers c) <$> (html_escape <$> known_peers c).

Lemma peers_html_tags c :
  tags (peers_html (html_escape <$> known_peers c) (html_escape <$> live_peers c) (html_escape <$> suspected_peers c)) =
  match peer_badges c with
  | [] => tags (peers_html [] [] [])
  | bs => join (tags (str " ")) ((fun b => tags (peer_badge b [])) <$> bs)
  end.
Proof.
  unfold peers_html, peer_badges. destruct (known_peers c) as [|p ps]; cbn [fmap list_fmap]; [reflexivity|].
  rewrite tags_join. f_equal.
  assert (forall b q, tags (peer_badge b (html_escape q)) = tags (peer_badge b [])) as Hb.
  { intros b q. unfold peer_badge. destruct b; rewrite !tags_app, tags_escape; reflexivity. }
  cbn [fmap list_fmap]. f_equal; [apply Hb|]. rewrite <- !list_fmap_compose.
  apply list_fmap_ext. intros i q _. apply Hb.
Qed.

(** The holes of the page. *)
Definition values_list (v : Values) : list pystr := [
  v_node_id v; v_total v; v_depth v; v_leases v; v_live v; v_known v; v_submitted v; v_claimed v; v_running v;
  v_completed v; v_failed v; v_timed_out v; c_enqueued v; c_claimed v; c_completed v; c_failed v; c_reclaimed v;
  c_rejected v; f_peers v; f_credits v; f_leases v; f_vclock v; l_task_p50 v; l_task_p99 v; l_gossip_p50 v;
  l_gossip_p99 v; v_now v].

Lemma page_tags v v' : tags <$> values_list v = tags <$> values_list v' -> tags (page v) = tags (page v').
Proof.
  unfold values_list. cbn [fmap list_fmap]. intros E. injection E as ???????? ???????? ???????? ???.
  unfold page. rewrite !tags_mjoin, !fmap_app. unfold page_style, page_cards, page_tasks, page_topology, page_latencies.
  cbn [fmap list_fmap]. do 3 f_equal; congruence.
Qed.

Lemma tags_shown c k s : shown_state c k = Ok s -> tags s = [].
Proof. apply tags_int. Qed.

(** Two reports with the same shape: the same badges and as many leases, clock entries and credits. *)
Definition same_shape (c c' : ClusterStatus) : Prop :=
  peer_badges c = peer_badges c' /\ length (active_leases c) = length (active_leases c') /\
  length (cs_clock c) = length (cs_clock c') /\ length (peer_credits c) = length (peer_credits c').

Global Instance same_shape_dec c c' : Decision (same_shape c c').
Proof. unfold same_shape. apply _. Defined.

(** Undo the binds of a computation that succeeds. *)
Ltac peel H :=
  repeat match type of H with
  | rbind ?r _ = Ok _ => let E := fresh "E" in destruct r eqn:E; [|discriminate H]; cbn [rbind] in H
  end.

Section dashboard_facts.
Context `{Ed25519} `{MathLib}.

(** A rendered page: its fragments, and no markup in the other holes. *)
Lemma dashboard_inv t1 t2 cfg st p :
  get_dashboard_html t1 t2 cfg st = Ok p ->
  exists c v, cluster_status t1 cfg st = Ok c /\ p = page v /\
    leases_table t2 (active_leases c) = Ok (f_leases v) /\ vclock_html (cs_clock c) = Ok (f_vclock v) /\
    credits_html (peer_credits c) = Ok (f_credits v) /\
    f_peers v = peers_html (html_escape <$> known_peers c) (html_escape <$> live_peers c)
                  (html_escape <$> suspected_peers c) /\
    v_completed v = Z_str (default 0 (dict_get (str "completed") (by_state c))) /\
    tags <$> values_list v =
      replicate 18 [] ++ [tags (f_peers v); tags (f_credits v); tags (f_leases v); tags (f_vclock v)] ++ replicate 5 [].
Proof.
  unfold get_dashboard_html. intros Hd. peel Hd. apply Ok_inj in Hd as <-. eexists _, _. split; [reflexivity|].
  split; [reflexivity|]. cbn [f_leases f_vclock f_credits f_peers v_completed]. split_and!; try eassumption; try reflexivity.
  - match goal with E : shown_state _ "completed" = Ok ?s |- ?s = _ => unfold shown_state, int_repr in E; revert E end.
    destruct (_ <? _); [done|]. by intros ->%Ok_inj.
  - unfold values_list. cbn [fmap list_fmap replicate app v_node_id v_total v_depth v_leases v_live v_known v_submitted v_claimed
      v_running v_completed v_failed v_timed_out c_enqueued c_claimed c_completed c_failed c_reclaimed c_rejected f_peers
      f_credits f_leases f_vclock l_task_p50 l_task_p99 l_gossip_p50 l_gossip_p99 v_now].
    rewrite tags_escape, tags_format_f.
    repeat match goal with
    | E : int_repr _ = Ok ?s |- _ => rewrite (tags_int _ _ E); clear E
    | E : shown_state _ _ = Ok ?s |- _ => rewrite (tags_shown _ _ _ E); clear E
    | E : format_quantile _ _ = Ok ?s |- _ => rewrite (tags_format_quantile _ _ _ E); clear E
    end. reflexivity.
Qed.

(** C37: data cannot inject markup into the dashboard: the characters that open and close tags and
    attribute values are, in order, the same in any two pages whose reports have the same shape,
    whatever the node identifiers, the task identifiers, the claimants and the numbers are. *)
Theorem dashboard_no_injection (t1 t2 t1' t2' : float) (cfg cfg' : NodeConfig) (st st' : NodeState)
    (c c' : ClusterStatus) (p p' : pystr) :
  cluster_status t1 cfg st = Ok c -> cluster_status t1' cfg' st' = Ok c' -> same_shape c c' ->
  get_dashboard_html t1 t2 cfg st = Ok p -> get_dashboard_html t1' t2' cfg' st' = Ok p' ->
  tags p = tags p'.
Proof.
  intros Hc Hc' (Hb & Hl & Hv & Hr) Hp Hp'.
  destruct (dashboard_inv _ _ _ _ _ Hp) as (c0 & v & Hc0 & -> & El & Ev & Er & Ep & _ & Ht).
  destruct (dashboard_inv _ _ _ _ _ Hp') as (c0' & v' & Hc0' & -> & El' & Ev' & Er' & Ep' & _ & Ht').
  rewrite Hc in Hc0. apply Ok_inj in Hc0 as <-. rewrite Hc' in Hc0'. apply Ok_inj in Hc0' as <-.
  apply page_tags. rewrite Ht, Ht', Ep, Ep', !peers_html_tags, Hb.
  by rewrite (leases_table_tags _ _ _ _ _ _ Hl El El'), (badges_html_tags _ _ _ _ _ _ Hv Ev Ev'),
    (badges_html_tags _ _ _ _ _ _ Hr Er Er').
Qed.

Lemma count_states_keys ts : (count_states ts).*1 = state_value <$> all_states.
Proof.
  unfold count_states. assert (forall d : list (pystr * Z), d.*1 = state_value <$> all_states ->
    (foldl (fun d t => dict_set (state_value (state t)) (default 0 (dict_get (state_value (state t)) d) + 1) d) d ts).*1
    = state_value <$> all_states) as Hgen; [|by apply Hgen].
  induction ts as [|t ts IH]; intros d Hd; cbn [foldl]; [done|]. apply IH. rewrite dict_set_keys_old; [done|].
  apply dict_mem_true. destruct (dict_get _ d) eqn:E; [by eexists|]. apply dict_get_None in E. exfalso. apply E.
  rewrite Hd. destruct (state t); set_solver.
Qed.

(** The card of the completed tasks reads zero whatever the number of tasks that are done: the
    page looks up keys that are not values of [TaskState]. *)
Lemma dashboard_completed_is_zero t1 t2 cfg st p :
  get_dashboard_html t1 t2 cfg st = Ok p ->
  exists c v, cluster_status t1 cfg st = Ok c /\ p = page v /\ v_completed v = str "0" /\
    dict_get (str "done") (by_state c) = Some (count_in DONE (tasks st).*2) /\
    forall k, k ∈ [str "submitted"; str "completed"; str "timed_out"] -> dict_get k (by_state c) = None.
Proof.
  intros Hp. destruct (dashboard_inv _ _ _ _ _ Hp) as (c & v & Hc & -> & _ & _ & _ & _ & Hv & _).
  exists c, v. split; [done|]. split; [done|]. unfold cluster_status in Hc.
  destruct (split_peers _ _ _) as [ls|]; [|done]. cbn [rbind] in Hc. apply Ok_inj in Hc as <-. cbn [by_state] in *.
  assert (forall k, k ∈ [str "submitted"; str "completed"; str "timed_out"] ->
    dict_get k (count_states (tasks st).*2) = None) as Hnone.
  { intros k Hk. apply dict_get_None. rewrite count_states_keys. revert k Hk.
    apply Forall_forall. repeat (constructor; [apply (bool_decide_unpack _); vm_compute; exact I|]). constructor. }
  split_and!; [|apply (count_states_get _ DONE)|done]. rewrite Hv, Hnone; [done|]. right. by left.
Qed.
End dashboard_facts.

(** ** Samples *)

Example html_escape_sample : html_escape (str "<a href='x'>&</a>") = str "&lt;a href=&#x27;x&#x27;&gt;&amp;&lt;/a&gt;".
Proof. vm_compute. reflexivity. Qed.

Example format_f_sample :
  map (format_f 2) [decimal_float false 1005 (-3); decimal_float true 125 (-3); fzero; finf] =
  [str "1.00"; str "-0.12"; str "0.00"; str "inf"].
Proof. vm_compute. reflexivity. Qed.

(** The node of the executions, with a task identifier that is markup. *)
Definition hostile_record (r : TaskRecord) : TaskRecord := {|
  task_id := html "<script src='x'>"; state := state r; payload := payload r; task_result := task_result r;
  task_error := task_error r; claimed_by := claimed_by r; fence_token := fence_token r;
  lease_expiry := lease_expiry r; vector_clock := vector_clock r; updated_by := updated_by r;
  signature := signature r; signer_id := signer_id r |}.
Definition hostile_state : NodeState :=
  set_tasks ((fun kr => (kr.1, hostile_record kr.2)) <$> tasks (toy_claimed true)) (toy_claimed true).

Definition sample_page (st : NodeState) : result pystr := get_dashboard_html fzero fzero (toy_cfg true true) st.

Definition shape_eqb (r r' : result ClusterStatus) : bool :=
  match r, r' with
  | Ok c, Ok c' => bool_decide (same_shape c c')
  | _, _ => false
  end.
Lemma dashboard_no_injection_witness :
  exists p p', sample_page (toy_claimed true) = Ok p /\ sample_page hostile_state = Ok p' /\ tags p = tags p'.
Proof.
  assert (is_ok (sample_page (toy_claimed true)) = true) as Hok by (vm_compute; reflexivity).
  assert (is_ok (sample_page hostile_state) = true) as Hok' by (vm_compute; reflexivity).
  destruct (sample_page (toy_claimed true)) as [p|] eqn:E; [|discriminate Hok].
  destruct (sample_page hostile_state) as [p'|] eqn:E'; [|discriminate Hok'].
  exists p, p'. split; [reflexivity|]. split; [reflexivity|]. unfold sample_page in E, E'.
  assert (shape_eqb (cluster_status fzero (toy_cfg true true) (toy_claimed true))
    (cluster_status fzero (toy_cfg true true) hostile_state) = true) as Hs by (vm_compute; reflexivity).
  destruct (cluster_status fzero (toy_cfg true true) (toy_claimed true)) as [c|] eqn:Ec; [|discriminate Hs].
  destruct (cluster_status fzero (toy_cfg true true) hostile_state) as [c'|] eqn:Ec'; [|discriminate Hs].
  apply bool_decide_eq_true in Hs.
  exact (dashboard_no_injection _ _ _ _ _ _ _ _ _ _ _ _ Ec Ec' Hs E E').
Defined.
