(* ===== verification/StatusServer.v ===== *)
(** * The status server ([StatusServer] of [peerq/exporter.py])

    The routing of a request to the pages, over the HTTP server of the transport. *)

From Stdlib Require Import ZArith NArith Lia.
From S2P Require Import Prelude PyFloat Text Json JsonFacts Security Consensus Crypto Lattice Heapq Queue.
From S2P Require Import Wal Metrics Failure Message SimNetwork Tcp Sha256 FloatText PyText Node NodeFacts.
From S2P Require Import JsonIndent NodeScenarios Http Status Dashboard.
Open Scope Z_scope.

(** ** The router *)

(** [text.encode("utf-8")] of a page. *)
Definition encode_page (status : Z) (ctype text : pystr) : result (Z * pystr * list byte) :=
  match utf8_encode text with
  | Some b => Ok (status, ctype, b)
  | None => Raise ValueError
  end.

Section router.
Context `{Ed25519} `{MathLib}.

(** [StatusServer._handle_request]; [t1] and [t2] are the clock at its first and second reading. *)
Definition handle_request (t1 t2 : float) (cfg : NodeConfig) (st : NodeState)
    (method path : pystr) : result (Z * pystr * list byte) :=
  if negb (bool_decide (method = str "GET")) then Ok (405, str "text/plain", line "Method Not Allowed")
  else if bool_decide (path ∈ [str "/"; str "/dashboard"]) then
    let! page := get_dashboard_html t1 t2 cfg st in encode_page 200 CONTENT_TYPE_HTML page
  else if bool_decide (path = str "/metrics") then
    let! text := format_prometheus_text (metrics st) (node_id cfg) in
    encode_page 200 CONTENT_TYPE_PROMETHEUS text
  else if bool_decide (path = str "/status") then
    let! data := format_cluster_status t1 cfg st in
    let! text := dumps_indent 0 data in
    encode_page 200 (str "application/json") text
  else if bool_decide (path = str "/healthz") then Ok (200, str "text/plain", line "OK")
  else Ok (404, str "text/plain", line "Not Found").
End router.

(** ** The answers of the status server *)

Definition ascii_char (c : N) : bool := (c <? 128)%N.

Lemma ascii_scalar c : ascii_char c = true -> is_scalar c = true.
Proof.
  unfold ascii_char, is_scalar, is_surrogate. rewrite N.ltb_lt. intros Hc. apply andb_true_iff. split; [apply N.ltb_lt; lia|].
  apply negb_true_iff, andb_false_iff. left. apply N.leb_gt. lia.
Qed.

Lemma Z_str_ascii z : Forall (fun c => ascii_char c = true) (Z_str z).
Proof.
  eapply Forall_impl; [apply Z_str_num_char|]. intros c Hc. unfold num_char, is_digit, ascii_char in *.
  rewrite !orb_true_iff, andb_true_iff, !N.eqb_eq, !N.leb_le in Hc. apply N.ltb_lt. lia.
Qed.

Lemma ascii_const s : forallb ascii_char s = true -> Forall (fun c => ascii_char c = true) s.
Proof. intros Hs. apply Forall_forall. intros c Hc. rewrite forallb_forall in Hs. apply Hs. by apply list_elem_of_In. Qed.

(** The statuses the servers use. *)
Definition known_statuses : list Z := [200; 400; 401; 404; 405; 408; 413; 431; 500].

Lemma known_reason status : status ∈ known_statuses ->
  reason status <> "Unknown"%string /\ forallb ascii_char (str (reason status)) = true.
Proof.
  unfold known_statuses. rewrite !elem_of_cons. intros [->|[->|[->|[->|[->|[->|[->|[->|[->|[]%elem_of_nil]]]]]]]]];
    (split; [discriminate|vm_compute; reflexivity]).
Qed.

(** An answer with a known status and an ASCII content type can be sent. *)
Lemma response_bytes_ok status ctype body :
  status ∈ known_statuses -> forallb ascii_char ctype = true ->
  exists h, response_bytes status ctype body = Ok (h ++ body).
Proof.
  intros Hst Hct. unfold response_bytes.
  destruct (utf8_encode_scalar (response_header status ctype body)) as [h ->]; [|by eexists].
  eapply Forall_impl; [|apply ascii_scalar]. unfold response_header, crlf.
  assert (Forall (fun c => ascii_char c = true) (if status =? 401 then str "WWW-Authenticate: Bearer realm=peerq" ++ [13%N; 10%N] else [])).
  { destruct (status =? 401); apply ascii_const; vm_compute; reflexivity. }
  repeat (apply Forall_app; split); try done; try apply Z_str_ascii; try (by apply ascii_const);
    try (by apply ascii_const, known_reason); apply ascii_const; vm_compute; reflexivity.
Qed.

Section server_theorems.
Context `{Ed25519} `{MathLib} `{UnicodeDB} `{StrLower}.

Definition sendable (status : Z) (ctype : pystr) : Prop :=
  status ∈ known_statuses /\ forallb ascii_char ctype = true.

Lemma encode_page_ok status ctype text r : encode_page status ctype text = Ok r -> r.1 = (status, ctype).
Proof. unfold encode_page. destruct (utf8_encode text); [|done]. by intros <-%Ok_inj. Qed.

Lemma handle_request_sendable t1 t2 cfg st method path status ctype body :
  handle_request t1 t2 cfg st method path = Ok (status, ctype, body) -> sendable status ctype.
Proof.
  assert (forall s c t, encode_page s c t = Ok (status, ctype, body) -> sendable s c -> sendable status ctype) as Hpage.
  { intros s c t E Hs. apply encode_page_ok in E. by injection E as -> ->. }
  unfold handle_request.
  destruct (negb _); [intros [= <- <- _]; by split; [set_solver|]|].
  destruct (bool_decide _); [destruct (get_dashboard_html t1 t2 cfg st); [|done]; intros E%Hpage; [done|by split; [set_solver|]]|].
  destruct (bool_decide _).
  { destruct (format_prometheus_text _ _); [|done]. intros E%Hpage; [done|by split; [set_solver|]]. }
  destruct (bool_decide _).
  { destruct (format_cluster_status _ _ _); [|done]. cbn [rbind]. destruct (dumps_indent _ _); [|done].
    intros E%Hpage; [done|by split; [set_solver|]]. }
  destruct (bool_decide _); intros [= <- <- _]; by split; [set_solver|].
Qed.

Lemma error_answer_known e body : (error_answer e body).1.1 ∈ known_statuses.
Proof. destruct e; cbn; set_solver. Qed.

End server_theorems.


(** ** A sample *)

(** A liveness check with the token, from the bytes of the request to those of the answer. *)
Example healthz_answered :
  let o := http_request (handle_request fzero fzero (toy_cfg true true) (toy_claimed true)) sample_server
    (sample_request (str_bytes "Bearer 0123456789abcdef0123456789abcdef")) in
  (http_handle None None o).1 = Ok () /\
  take 17 (http_handle None None o).2 = str_bytes "HTTP/1.1 200 OK" ++ crlf_bytes.
Proof. split; vm_compute; reflexivity. Qed.
