(* ===== verification/HttpClient.v ===== *)
(** * The clients of the status server

    The client of [examples/zero_config_cluster.py] ([fetch_http]) and the status query of
    [peerq/cli.py] ([query_status_command], over the exchange that [urllib.request] makes), and what
    they see of a node: the request they write is parsed by the server to the page they ask for, and
    the document they read is the status of the node. *)

From Stdlib Require Import ZArith NArith Lia.
From S2P Require Import Prelude PyFloat Text Json JsonFacts Security Consensus Crypto Lattice Heapq Queue.
From S2P Require Import Wal Metrics Failure Message SimNetwork Tcp Sha256 FloatText PyText Node NodeFacts.
From S2P Require Import JsonIndent NodeScenarios Http Status Dashboard StatusServer.
Open Scope Z_scope.

(** ** ASCII text on the wire *)

Abbreviation ascii_text s := (Forall (fun c => (c < 128)%N) s).

(** The characters of a line: ASCII, no newline. *)
Definition line_char (c : N) : Prop := (c < 128)%N /\ c <> 10%N.
(** The characters of a word: visible ASCII. *)
Definition visible (c : N) : Prop := (33 <= c <= 126)%N.

Lemma line_check s : forallb (fun c => (c <? 128)%N && negb (c =? 10)%N) s = true -> Forall line_char s.
Proof.
  intros Hs%forallb_Forall. eapply Forall_impl; [exact Hs|]. intros c.
  rewrite andb_true_iff, negb_true_iff, N.eqb_neq, N.ltb_lt. done.
Qed.

Definition to_wire (s : pystr) : list byte := N_byte <$> s.

Lemma to_wire_app a b : to_wire (a ++ b) = to_wire a ++ to_wire b.
Proof. apply fmap_app. Qed.

Lemma len_app {A} (a b : list A) : len (a ++ b) = len a + len b.
Proof. unfold len. rewrite length_app. lia. Qed.

Lemma len_to_wire s : len (to_wire s) = len s.
Proof. unfold len, to_wire. by rewrite length_fmap. Qed.

Lemma ascii_encode s : ascii_text s -> utf8_encode s = Some (to_wire s).
Proof.
  induction 1 as [|c s Hc Hs IH]; [done|]. cbn [utf8_encode]. rewrite small_scalar, IH by done.
  unfold utf8_char. rewrite N_ltb_true by done. done.
Qed.

Lemma wire_codes s : ascii_text s -> Byte.to_N <$> to_wire s = s.
Proof.
  induction 1 as [|c s Hc Hs IH]; [done|]. cbn. rewrite N_byte_to_N by lia. f_equal. exact IH.
Qed.

Lemma text_of_ascii s : ascii_text s -> text_of (to_wire s) = s.
Proof.
  intros Hs. unfold text_of. rewrite wire_codes by done.
  induction Hs as [|c s Hc Hs IH]; [done|]. cbn [decode_replace]. rewrite N_ltb_true by done. by rewrite IH.
Qed.

Lemma line_ascii s : Forall line_char s -> ascii_text s.
Proof. intros Hs. eapply Forall_impl; [exact Hs|]. by intros c []. Qed.
Lemma visible_line s : Forall visible s -> Forall line_char s.
Proof. intros Hs. eapply Forall_impl; [exact Hs|]. unfold visible, line_char. intros c Hc. lia. Qed.

Lemma newline_at_line s rest : Forall line_char s -> newline_at (to_wire s ++ Byte.x0a :: rest) = Some (len s).
Proof.
  induction 1 as [|c s [Hc Hn] Hs IH]; [done|]. cbn [to_wire fmap list_fmap app newline_at].
  destruct (Byte.eqb (N_byte c) Byte.x0a) eqn:E.
  - apply Byte.byte_dec_bl in E. exfalso. apply Hn. rewrite <- (N_byte_to_N c) by lia. by rewrite E.
  - unfold to_wire in IH. rewrite IH. unfold len. cbn. f_equal. lia.
Qed.

(** A line of a message is read whole. *)
Lemma readline_line limit s rest e :
  Forall line_char s -> len s <= limit ->
  readline limit {| incoming := to_wire (s ++ [10%N]) ++ rest; ending := e |} =
  (Ok (to_wire (s ++ [10%N])), {| incoming := rest; ending := e |}).
Proof.
  intros Hs Hl. unfold readline. cbn [incoming ending].
  assert (to_wire (s ++ [10%N]) ++ rest = to_wire s ++ Byte.x0a :: rest) as E
    by (rewrite to_wire_app, <- app_assoc; done).
  rewrite E, newline_at_line by done. destruct (Z.ltb_spec limit (len s)); [lia|].
  assert (Z.to_nat (len s + 1) = length (to_wire (s ++ [10%N]))) as Hn.
  { unfold to_wire. rewrite length_fmap, length_app. unfold len. cbn. lia. }
  rewrite <- E, Hn. by rewrite take_app_length, drop_app_length.
Qed.

(** ** Stripping *)

Section strip.
Context `{UnicodeDB}.

(** No white space at either end. *)
Definition trimmed (s : pystr) : Prop := stops py_isspace s /\ stops py_isspace (reverse s).

Lemma visible_not_space c : visible c -> py_isspace c = false.
Proof.
  intros Hc. unfold visible in Hc. unfold py_isspace, ascii_space. rewrite N_ltb_true by lia.
  apply orb_false_iff. split; [apply orb_false_iff; split; [apply N.eqb_neq; lia|]|];
    apply andb_false_iff; right; apply N.leb_gt; lia.
Qed.

Lemma visible_trimmed s : Forall visible s -> trimmed s.
Proof.
  intros Hs. assert (forall l, Forall visible l -> stops py_isspace l) as Hst.
  { intros l Hl. destruct Hl; [done|]. cbn. by apply visible_not_space. }
  split; apply Hst; [done|]. by apply Forall_reverse.
Qed.

Lemma py_strip_trim a s b :
  Forall (fun c => py_isspace c = true) a -> Forall (fun c => py_isspace c = true) b -> trimmed s ->
  py_strip (a ++ s ++ b) = s.
Proof.
  intros Ha Hb [Hs Hr]. unfold py_strip. destruct s as [|c s].
  - rewrite app_nil_l. pose proof (drop_while_app py_isspace (a ++ b) [] ltac:(by apply Forall_app) I) as E.
    rewrite app_nil_r in E. by rewrite E.
  - rewrite drop_while_app by done. rewrite reverse_app, drop_while_app; [apply reverse_involutive| |done].
    by apply Forall_reverse.
Qed.

(** Splitting a line into its words. *)
Lemma split_words_word w s acc :
  Forall visible w -> split_words (w ++ s) acc = split_words s (reverse w ++ acc).
Proof.
  intros Hw. revert acc. induction Hw as [|c w Hc Hw IH]; intros acc; [done|]. cbn [app split_words].
  rewrite visible_not_space by done. rewrite IH, reverse_cons, <- app_assoc. done.
Qed.
Lemma split_words_space w s : Forall visible w -> w <> [] -> split_words (w ++ 32%N :: s) [] = w :: split_words s [].
Proof.
  intros Hw Hne. rewrite split_words_word, app_nil_r by done. cbn [split_words].
  change (py_isspace 32) with true. cbn [app].
  destruct (reverse w) as [|x l] eqn:E; [by apply (f_equal reverse) in E; rewrite reverse_involutive in E|].
  rewrite <- E, reverse_involutive. done.
Qed.
Lemma split_words_last w : Forall visible w -> w <> [] -> split_words w [] = [w].
Proof.
  intros Hw Hne. rewrite <- (app_nil_r w) at 1. rewrite split_words_word, app_nil_r by done. cbn.
  destruct (reverse w) as [|x l] eqn:E; [by apply (f_equal reverse) in E; rewrite reverse_involutive in E|].
  rewrite <- E, reverse_involutive. done.
Qed.
End strip.

(** A literal status is among the known ones. *)
Ltac known := apply (bool_decide_unpack _); vm_compute; exact I.

(** ** Requests *)

Definition header_line (kv : pystr * pystr) : pystr := kv.1 ++ str ": " ++ kv.2 ++ crlf.

Definition header_block (headers : list (pystr * pystr)) : pystr := mjoin (header_line <$> headers).

Lemma header_block_cons kv headers : header_block (kv :: headers) = header_line kv ++ header_block headers.
Proof. reflexivity. Qed.

(** [GET path HTTP/1.1] and the headers, as both clients write it. *)
Definition get_request (path : pystr) (headers : list (pystr * pystr)) : pystr :=
  str "GET " ++ path ++ str " HTTP/1.1" ++ crlf ++ header_block headers ++ crlf.

Section requests.
Context `{UnicodeDB} `{StrLower}.

(** A header that arrives as it was written. *)
Definition header_ok (kv : pystr * pystr) : Prop :=
  Forall visible kv.1 /\ Forall (fun c => c <> 58%N) kv.1 /\ Forall line_char kv.2 /\ trimmed kv.2.

Definition received_headers (acc headers : list (pystr * pystr)) : list (pystr * pystr) :=
  foldl (fun d kv => dict_set (lower <$> kv.1) kv.2 d) acc headers.

Lemma header_line_length kv : (2 < length (header_line kv))%nat.
Proof. unfold header_line. rewrite !length_app. cbn. lia. Qed.

Lemma blank_line_long l : (2 < length l)%nat -> blank_line (to_wire l) = false.
Proof.
  intros Hl. unfold blank_line.
  assert (forall b, to_wire l = b -> (length b <= 2)%nat -> False) as Hne.
  { intros b <-. unfold to_wire. rewrite length_fmap. lia. }
  rewrite !bool_decide_eq_false_2; [done|intros Hx..]; (eapply Hne; [exact Hx|]; cbn; lia).
Qed.

(** Reading a header, and the blank line that ends them. *)
Lemma next_header limit kv more rest e :
  header_ok kv -> len (header_line kv) <= limit ->
  readline limit {| incoming := to_wire (header_line kv ++ more) ++ rest; ending := e |} =
    (Ok (to_wire (header_line kv)), {| incoming := to_wire more ++ rest; ending := e |}) /\
  blank_line (to_wire (header_line kv)) = false /\
  ascii_text (header_line kv) /\ split_first 58 (header_line kv) = Some (kv.1, str " " ++ kv.2 ++ crlf).
Proof.
  intros (Hk & Hc & Hv & _) Hlim. set (l := kv.1 ++ str ": " ++ kv.2 ++ [13%N]).
  assert (header_line kv = l ++ [10%N]) as E by (unfold header_line, crlf, l; by rewrite <- !app_assoc).
  assert (Forall line_char l) as Hl.
  { repeat apply Forall_app_2; [by apply visible_line|by repeat constructor|done|by repeat constructor]. }
  split_and!.
  - rewrite E, (to_wire_app (l ++ [10%N])), <- (app_assoc (to_wire (l ++ [10%N]))), readline_line; [done|done|].
    rewrite E, len_app in Hlim. change (len [10%N]) with 1 in Hlim. lia.
  - apply blank_line_long, header_line_length.
  - rewrite E. apply Forall_app_2; [by apply line_ascii|by repeat constructor].
  - by apply (split_first_app 58 kv.1 (str " " ++ kv.2 ++ crlf)).
Qed.

Lemma last_header limit rest e :
  2 <= limit ->
  readline limit {| incoming := to_wire (header_block [] ++ crlf) ++ rest; ending := e |} =
    (Ok (to_wire crlf), {| incoming := rest; ending := e |}) /\ blank_line (to_wire crlf) = true.
Proof.
  intros Hlim. split; [|done].
  apply (readline_line limit [13%N] rest e); [by repeat constructor|unfold len; cbn; lia].
Qed.

Lemma strip_value kv : header_ok kv -> py_strip (str " " ++ kv.2 ++ crlf) = kv.2 /\ str_lower kv.1 = lower <$> kv.1.
Proof.
  intros (Hk & _ & _ & Htr). split; [by apply py_strip_trim; [by repeat constructor..|]|].
  apply str_lower_ascii. by apply line_ascii, visible_line.
Qed.

(** The server reads the headers a client wrote. *)
Lemma read_headers_lines headers : forall fuel limit n acc rest e,
  Forall header_ok headers ->
  n + len (header_block headers) + 2 <= limit -> (length headers < fuel)%nat -> 0 <= n ->
  read_headers fuel limit n acc
    {| incoming := to_wire (header_block headers ++ crlf) ++ rest; ending := e |} =
  HDone (received_headers acc headers) {| incoming := rest; ending := e |}.
Proof.
  induction headers as [|kv headers IH]; intros [|fuel] limit n acc rest e Hok Hlim Hfuel Hn; cbn in Hfuel; try lia.
  - change (len (header_block [])) with 0 in Hlim.
    destruct (last_header limit rest e) as [Hr Hb]; [lia|]. cbn [read_headers]. rewrite Hr, Hb.
    change (len (to_wire crlf)) with 2. destruct (Z.ltb_spec limit (n + 2)); [lia|]. done.
  - apply Forall_cons in Hok as [Hkv Hok]. rewrite header_block_cons in *. rewrite len_app in Hlim.
    assert (0 <= len (header_line kv) /\ 0 <= len (header_block headers)) as [H1 H2] by (unfold len; lia).
    destruct (next_header limit kv (header_block headers ++ crlf) rest e Hkv) as (Hr & Hb & Ha & Hsp); [lia|].
    destruct (strip_value kv Hkv) as [Hs Hlow].
    rewrite <- app_assoc. cbn [read_headers]. rewrite Hr, Hb, len_to_wire.
    destruct (Z.ltb_spec limit (n + len (header_line kv))); [lia|].
    rewrite wire_codes, text_of_ascii by done.
    assert (has_char 58 (header_line kv) = true) as -> by (apply has_char_split; rewrite Hsp; by eexists).
    cbn [negb]. rewrite Hsp, Hs.
    rewrite (py_strip_plain kv.1) by (eapply Forall_impl; [exact (proj1 Hkv)|apply visible_not_space]).
    rewrite Hlow, IH; [done|done|lia|lia|lia].
Qed.

(** The server understands a request: the page handler is asked for the path. *)
Lemma get_request_parsed handler srv path headers rest e :
  Forall visible path -> path <> [] -> len path <= 2048 -> Forall header_ok headers ->
  len (get_request path headers) <= max_http_headers (hs_security srv) ->
  http_request handler srv {| incoming := to_wire (get_request path headers) ++ rest; ending := e |} =
  http_answer handler srv (str "GET") path (received_headers [] headers) {| incoming := rest; ending := e |}.
Proof.
  intros Hp Hne Hlen Hh Hlim.
  set (first := str "GET " ++ path ++ str " HTTP/1.1" ++ [13%N]).
  assert (get_request path headers = (first ++ [10%N]) ++ header_block headers ++ crlf) as E.
  { unfold get_request, first. change crlf with ([13%N] ++ [10%N]) at 1. by rewrite <- !app_assoc. }
  rewrite E in *. rewrite !len_app in Hlim. change (len crlf) with 2 in Hlim. change (len [10%N]) with 1 in Hlim.
  assert (Forall line_char first) as Hl.
  { repeat apply Forall_app_2; [by repeat constructor|by apply visible_line|by repeat constructor..]. }
  assert (0 <= len first /\ 0 <= len (header_block headers)) as [H1 H2] by (unfold len; lia).
  unfold http_request. rewrite (to_wire_app (first ++ [10%N])), <- (app_assoc (to_wire (first ++ [10%N]))), readline_line by (done || lia).
  rewrite bool_decide_eq_false_2.
  2:{ intros Hx. apply (f_equal length) in Hx. unfold to_wire in Hx. rewrite length_fmap, length_app in Hx. cbn in Hx. lia. }
  rewrite len_to_wire, len_app. change (len [10%N]) with 1.
  destruct (Z.ltb_spec (max_http_headers (hs_security srv)) (len first + 1)); [lia|].
  rewrite text_of_ascii by (apply Forall_app_2; [by apply line_ascii|by repeat constructor]).
  assert (first ++ [10%N] = [] ++ (str "GET " ++ path ++ str " HTTP/1.1") ++ crlf) as ->.
  { unfold first. change crlf with ([13%N] ++ [10%N]). by rewrite <- !app_assoc. }
  rewrite py_strip_trim; [|done|by repeat constructor|].
  2:{ split; [done|]. rewrite !reverse_app. done. }
  change (str "GET ") with (str "GET" ++ [32%N]). rewrite <- app_assoc. cbn [app].
  assert (forall s, forallb (fun c => (33 <=? c)%N && (c <=? 126)%N) s = true -> Forall visible s) as Hvis.
  { intros s Hs%forallb_Forall. eapply Forall_impl; [exact Hs|]. intros c [Ha%N.leb_le Hb%N.leb_le]%andb_true_iff. done. }
  rewrite split_words_space by (done || by apply Hvis).
  change (str " HTTP/1.1") with (32%N :: str "HTTP/1.1"). rewrite split_words_space by done.
  rewrite split_words_last by (done || by apply Hvis).
  destruct (Z.ltb_spec 2048 (len path)); [lia|]. cbn [incoming].
  rewrite read_headers_lines; [done|done|lia| |lia].
  enough (length headers <= length (to_wire (header_block headers ++ crlf) ++ rest))%nat by lia.
  unfold to_wire. rewrite length_app, length_fmap, length_app.
  assert (length headers <= length (header_block headers))%nat; [|lia]. clear.
  induction headers as [|kv headers IH]; [done|]. rewrite header_block_cons, length_app. cbn [length].
  pose proof (header_line_length kv). lia.
Qed.
End requests.

(** ** Answers *)

Definition status_line (status : Z) : pystr := str "HTTP/1.1 " ++ Z_str status ++ str " " ++ str (reason status).

(** The header of an answer as its fields. *)
Definition answer_fields (status : Z) (ctype : pystr) (body : list byte) : list (pystr * pystr) :=
  [(str "Content-Type", ctype); (str "Content-Length", Z_str (len body)); (str "Cache-Control", str "no-store");
   (str "X-Content-Type-Options", str "nosniff");
   (str "Content-Security-Policy", str "default-src 'self'; frame-ancestors 'none'")] ++
  (if status =? 401 then [(str "WWW-Authenticate", str "Bearer realm=peerq")] else []) ++
  [(str "Connection", str "close")].

Lemma response_header_fields status ctype body :
  response_header status ctype body = status_line status ++ crlf ++ header_block (answer_fields status ctype body) ++ crlf.
Proof.
  unfold response_header, answer_fields, status_line. cbn [app]. rewrite !header_block_cons. unfold header_line.
  rewrite <- !app_assoc. destruct (status =? 401); cbn [app fst snd]; rewrite ?header_block_cons; unfold header_line;
    rewrite <- !app_assoc; reflexivity.
Qed.

(** [reader.readline()] of a client, on a stream with the default limit; [None] when the peer is
    silent, as the clients set no time limit. *)
Definition client_limit : Z := 65536.

(** How a request ends for the client of the example: with the status and the body, with an
    exception, or not at all. *)
Inductive Fetch :=
| Fetched (status_code : Z) (body : list byte)
| FetchFails
| FetchWaits.

Definition read_failure (e : exc) : Fetch := match e with TimeoutError => FetchWaits | _ => FetchFails end.

Section clients.
Context `{UnicodeDB} `{StrLower}.

(** The headers of an answer are skipped, and the rest is the body. *)
Fixpoint fetch_body (fuel : nat) (status_code : Z) (s : Stream) : Fetch :=
  match fuel with
  | O => FetchFails
  | S fuel =>
      match readline client_limit s with
      | (Raise e, _) => read_failure e
      | (Ok l, s1) =>
          if blank_line l then
            match ending s1 with
            | Eof => Fetched status_code (incoming s1)
            | Stalled => FetchWaits
            | Broken _ => FetchFails
            end
          else fetch_body fuel status_code s1
      end
  end.

(** What [fetch_http] makes of the answer. *)
Definition fetch_answer (s : Stream) : Fetch :=
  match readline client_limit s with
  | (Raise e, _) => read_failure e
  | (Ok l, s1) =>
      match utf8_decode l with
      | Some text =>
          match split_words text [] with
          | _ :: code :: _ =>
              match int_of_str code with
              | Some status_code => fetch_body (S (length (incoming s1))) status_code s1
              | None => FetchFails
              end
          | _ => FetchFails
          end
      | None => FetchFails
      end
  end.

(** What the server writes to a client that sends [req] and waits. *)
Definition serve (handler : pystr -> pystr -> result (Z * pystr * list byte)) (srv : HttpServer) (req : list byte)
    : list byte :=
  (http_handle None None (http_request handler srv {| incoming := req; ending := Stalled |})).2.

(** [fetch_http]: the request is written, the server answers and closes the connection. *)
Definition fetch_http (server : list byte -> list byte) (path : pystr) (port : Z) : Fetch :=
  match utf8_encode (get_request path [(str "Host", str "127.0.0.1:" ++ Z_str port); (str "Connection", str "close")]) with
  | Some req => fetch_answer {| incoming := server req; ending := Eof |}
  | None => FetchFails
  end.

(** ** The exchange of [urllib.request.urlopen] *)

(** The headers up to the blank line. *)
Fixpoint answer_headers (fuel : nat) (headers : list (pystr * pystr)) (s : Stream)
    : result (list (pystr * pystr) * Stream) :=
  match fuel with
  | O => Raise OSError
  | S fuel =>
      match readline client_limit s with
      | (Raise e, _) => Raise e
      | (Ok l, s1) =>
          if blank_line l then Ok (headers, s1)
          else
            match split_first 58 (text_of l) with
            | Some (key, value) => answer_headers fuel (headers ++ [(str_lower key, py_strip value)]) s1
            | None => Raise OSError
            end
      end
  end.

(** The body of an answer with status 200 to 299, as long as it announces or up to the end of the
    stream; another status is an error.  Interim answers, redirections and chunked bodies, which the
    servers of this program never send, are not considered. *)
Definition url_answer (s : Stream) : result (list byte) :=
  match readline client_limit s with
  | (Raise e, _) => Raise e
  | (Ok l, s1) =>
      match split_words (text_of l) [] with
      | version :: code :: _ =>
          match int_of_str code with
          | Some status =>
              if bool_decide (take 5 version = str "HTTP/") && (100 <=? status) && (status <=? 999) then
                let! hs := answer_headers (S (length (incoming s1))) [] s1 in
                if (200 <=? status) && (status <? 300) then
                  match (if status =? 204 then Some 0 else dict_get (str "content-length") hs.1 ≫= int_of_str) with
                  | Some n => (readexactly (if 0 <=? n then n else len (incoming hs.2)) hs.2).1
                  | None => (readexactly (len (incoming hs.2)) hs.2).1
                  end
                else Raise OSError
              else Raise OSError
          | None => Raise OSError
          end
      | _ => Raise OSError
      end
  end.

(** A value that [http.client] refuses: a line break that does not continue the header. *)
Fixpoint illegal_value (v : pystr) : bool :=
  match v with
  | [] => false
  | c :: v' =>
      let next := head v' in
      (c =? 10)%N && negb (bool_decide (next ∈ [Some 32%N; Some 9%N])) ||
      (c =? 13)%N && negb (bool_decide (next ∈ [Some 32%N; Some 9%N; Some 10%N])) || illegal_value v'
  end.

(** The headers of a request of [urlopen]. *)
Definition url_headers (authority : pystr) (headers : list (pystr * pystr)) : list (pystr * pystr) :=
  (str "Accept-Encoding", str "identity") :: (str "Host", authority) :: headers ++ [(str "Connection", str "close")].

(** The request for [http://authority/path] with the headers of the caller, in Latin-1, and its answer. *)
Definition url_read (server : list byte -> list byte) (authority path : pystr) (headers : list (pystr * pystr))
    : result (list byte) :=
  let all := url_headers authority headers in
  if forallb (fun c => (33 <=? c)%N && (c <=? 126)%N) (authority ++ path) &&
     forallb (fun kv => negb (illegal_value kv.2) && forallb (fun c => (c <? 256)%N) (kv.1 ++ kv.2)) all
  then url_answer {| incoming := server (to_wire (get_request path all)); ending := Eof |}
  else Raise ValueError.

(** ** [query_status_command] *)

Inductive QueryOutcome :=
| Printed (text : pystr)
| ExitsWith (code : Z).

Definition query_headers (token : option pystr) : list (pystr * pystr) :=
  (str "User-Agent", str "peerq-cli") ::
  match token with
  | Some (c :: t) => [(str "Authorization", str "Bearer " ++ c :: t)]
  | _ => []
  end.

(** [urlopen] is [urllib.request.urlopen(Request(endpoint, headers)).read()]. *)
Definition query_status_command (urlopen : pystr -> list (pystr * pystr) -> result (list byte))
    (endpoint : pystr) (token : option pystr) : QueryOutcome :=
  match urlopen endpoint (query_headers token) with
  | Raise _ => ExitsWith 1
  | Ok data =>
      match utf8_decode data with
      | None => ExitsWith 1
      | Some text =>
          match loads_text (C := allow_json_constants) text with
          | None => ExitsWith 1
          | Some v => match dumps_pretty false 0 v with Ok out => Printed out | Raise _ => ExitsWith 1 end
          end
      end
  end.

(** ** What the clients read *)

Lemma header_block_fuel headers more rest :
  (length headers < S (length (to_wire (header_block headers ++ more) ++ rest)))%nat.
Proof.
  unfold to_wire. rewrite length_app, length_fmap, length_app.
  assert (length headers <= length (header_block headers))%nat; [|lia].
  induction headers as [|kv headers IH]; [done|]. rewrite header_block_cons, length_app. cbn [length].
  pose proof (header_line_length kv). lia.
Qed.

Definition fits (kv : pystr * pystr) : Prop := header_ok kv /\ len (header_line kv) <= client_limit.

Lemma fetch_body_fields fields : forall fuel code body,
  Forall fits fields -> (length fields < fuel)%nat ->
  fetch_body fuel code {| incoming := to_wire (header_block fields ++ crlf) ++ body; ending := Eof |} = Fetched code body.
Proof.
  induction fields as [|kv fields IH]; intros [|fuel] code body Hok Hfuel; cbn in Hfuel; try lia; cbn [fetch_body].
  - destruct (last_header client_limit body Eof) as [-> Hb]; [done|]. by rewrite Hb.
  - apply Forall_cons in Hok as [[Hkv Hlen] Hok]. rewrite header_block_cons, <- app_assoc.
    destruct (next_header client_limit kv (header_block fields ++ crlf) body Eof Hkv Hlen) as (-> & -> & _).
    apply IH; [done|lia].
Qed.

Definition lower_key (kv : pystr * pystr) : pystr * pystr := (lower <$> kv.1, kv.2).

Lemma answer_headers_fields fields : forall fuel acc body,
  Forall fits fields -> (length fields < fuel)%nat ->
  answer_headers fuel acc {| incoming := to_wire (header_block fields ++ crlf) ++ body; ending := Eof |} =
  Ok (acc ++ (lower_key <$> fields), {| incoming := body; ending := Eof |}).
Proof.
  induction fields as [|kv fields IH]; intros [|fuel] acc body Hok Hfuel; cbn in Hfuel; try lia; cbn [answer_headers].
  - destruct (last_header client_limit body Eof) as [-> ->]; [done|]. by rewrite app_nil_r.
  - apply Forall_cons in Hok as [[Hkv Hlen] Hok]. rewrite header_block_cons, <- app_assoc.
    destruct (next_header client_limit kv (header_block fields ++ crlf) body Eof Hkv Hlen) as (-> & -> & Ha & Hsp).
    rewrite text_of_ascii, Hsp by done. destruct (strip_value kv Hkv) as [-> ->].
    rewrite IH by (done || lia). by rewrite <- app_assoc.
Qed.

(** The first line of an answer. *)
Lemma status_line_read status more body e :
  status ∈ known_statuses ->
  exists l words,
    readline client_limit {| incoming := to_wire ((status_line status ++ crlf) ++ more) ++ body; ending := e |} =
      (Ok (to_wire l), {| incoming := to_wire more ++ body; ending := e |}) /\
    ascii_text l /\ split_words l [] = str "HTTP/1.1" :: Z_str status :: words /\
    int_of_str (Z_str status) = Some status /\ 100 <= status <= 999.
Proof.
  intros Hst. exists (status_line status ++ crlf).
  assert (status_line status ++ crlf = (status_line status ++ [13%N]) ++ [10%N]) as E by (by rewrite <- app_assoc).
  assert (Forall line_char (status_line status ++ [13%N]) /\ len (status_line status ++ [13%N]) <= client_limit /\
          (exists words, split_words (status_line status ++ crlf) [] = str "HTTP/1.1" :: Z_str status :: words) /\
          int_of_str (Z_str status) = Some status /\ 100 <= status <= 999) as (Hl & Hlen & [words Hw] & Hi & Hb).
  { clear -Hst. unfold known_statuses in Hst. rewrite !elem_of_cons in Hst.
    destruct Hst as [->|[->|[->|[->|[->|[->|[->|[->|[->|[]%elem_of_nil]]]]]]]]];
      (split_and!; [repeat constructor; discriminate|done|eexists; reflexivity|reflexivity|lia|lia]). }
  exists words. split_and!; [|..|done|done|lia|lia].
  - rewrite to_wire_app, <- app_assoc, E, readline_line; done.
  - rewrite E. apply Forall_app_2; [by apply line_ascii|by repeat constructor].
Qed.

(** ** Answers of a known size *)

Lemma Z_str_size z : 0 <= z < 2 ^ 63 -> Z_str z = N_str (Z.to_N z) /\ len (N_str (Z.to_N z)) <= 64.
Proof. intros Hz. split; [destruct z; [done|done|lia]|]. apply N_str_short. lia. Qed.

Definition size_ok (body : list byte) : Prop := len body < 2 ^ 63.

Lemma size_text body : size_ok body -> Forall visible (Z_str (len body)) /\ len (Z_str (len body)) <= 64 /\
  int_of_str (Z_str (len body)) = Some (len body).
Proof.
  intros Hb. destruct (Z_str_size (len body)) as [-> Hl]; [unfold len, size_ok in *; unfold len in Hb; lia|].
  split; [|split; [done|]].
  - eapply Forall_impl; [apply N_str_digit|]. intros c Hc%digit_range. unfold visible. lia.
  - rewrite int_of_N_str by (unfold int_max_str_digits; lia). f_equal. unfold len. lia.
Qed.

(** A content type of the program. *)
Definition ctype_ok (ctype : pystr) : Prop := Forall line_char ctype /\ trimmed ctype /\ len ctype <= 1000.

Lemma answer_fields_fit status ctype body :
  ctype_ok ctype -> size_ok body -> Forall fits (answer_fields status ctype body).
Proof.
  intros (Hl & Htr & Hlen) (Hv & Hn & _)%size_text.
  assert (forall s, forallb (fun c => (33 <=? c)%N && (c <=? 126)%N && negb (c =? 58)%N) s = true ->
            Forall visible s /\ Forall (fun c => c <> 58%N) s) as Hname.
  { intros s Hs%forallb_Forall. split; (eapply Forall_impl; [exact Hs|]); intros c;
      rewrite !andb_true_iff, negb_true_iff, N.eqb_neq, !N.leb_le; unfold visible; tauto. }
  assert (forall k v, forallb (fun c => (33 <=? c)%N && (c <=? 126)%N && negb (c =? 58)%N) k = true ->
            len k <= 1000 -> Forall line_char v -> trimmed v -> len v <= 1000 -> fits (k, v)) as Hfit.
  { intros k v Hk Hkl Hvl Hvt Hvn. destruct (Hname k Hk) as [H1 H2]. split; [done|].
    unfold header_line. cbn [fst snd]. rewrite !len_app. change (len (str ": ")) with 2. change (len crlf) with 2.
    unfold client_limit. lia. }
  unfold answer_fields. destruct (status =? 401); cbn [app];
    repeat (apply Forall_cons; split); try apply Forall_nil_2; try done;
    apply Hfit; try done; try (by repeat constructor); try (by apply visible_line); try (by apply visible_trimmed); try lia.
Qed.

(** The bytes of an answer, cut the way the clients read them. *)
Lemma response_bytes_cut status ctype body :
  status ∈ known_statuses -> ctype_ok ctype -> size_ok body ->
  response_bytes status ctype body =
  Ok (to_wire ((status_line status ++ crlf) ++ header_block (answer_fields status ctype body) ++ crlf) ++ body).
Proof.
  intros Hst Hct Hb. unfold response_bytes. rewrite response_header_fields, app_assoc.
  rewrite ascii_encode; [done|].
  apply Forall_app_2; [apply Forall_app_2; [|by repeat constructor]|apply Forall_app_2; [|by repeat constructor]].
  - clear -Hst. unfold known_statuses in Hst. rewrite !elem_of_cons in Hst.
    destruct Hst as [->|[->|[->|[->|[->|[->|[->|[->|[->|[]%elem_of_nil]]]]]]]]]; by repeat constructor.
  - pose proof (answer_fields_fit status ctype body Hct Hb) as Hf. unfold header_block.
    induction Hf as [|kv fields [Hkv Hlen] Hf IH]; [constructor|]. apply Forall_app_2; [|exact IH].
    by destruct (next_header client_limit kv [] [] Eof Hkv Hlen) as (_ & _ & ? & _).
Qed.

(** The example's client gets the status and the body. *)
Lemma fetch_answer_served status ctype body data :
  status ∈ known_statuses -> ctype_ok ctype -> size_ok body -> response_bytes status ctype body = Ok data ->
  fetch_answer {| incoming := data; ending := Eof |} = Fetched status body.
Proof.
  intros Hst Hct Hb. rewrite response_bytes_cut by done. intros <-%Ok_inj. unfold fetch_answer.
  destruct (status_line_read status (header_block (answer_fields status ctype body) ++ crlf) body Eof Hst)
    as (l & words & -> & Hl & Hw & Hi & _).
  rewrite (utf8_decode_encode l) by (by apply ascii_encode). rewrite Hw, Hi. cbn [incoming].
  apply fetch_body_fields; [by apply answer_fields_fit|apply header_block_fuel].
Qed.

(** [urlopen] gives the body of an answer with status 200, and raises on the errors of the server. *)
Lemma url_answer_served status ctype body data :
  status ∈ known_statuses -> ctype_ok ctype -> size_ok body -> response_bytes status ctype body = Ok data ->
  url_answer {| incoming := data; ending := Eof |} = if status =? 200 then Ok body else Raise OSError.
Proof.
  intros Hst Hct Hb. rewrite response_bytes_cut by done. intros <-%Ok_inj. unfold url_answer.
  destruct (status_line_read status (header_block (answer_fields status ctype body) ++ crlf) body Eof Hst)
    as (l & words & -> & Hl & Hw & Hi & Hlo & Hhi).
  rewrite text_of_ascii, Hw, Hi by done. rewrite bool_decide_eq_true_2 by done.
  rewrite (proj2 (Z.leb_le 100 status)), (proj2 (Z.leb_le status 999)) by lia. cbn [andb incoming].
  rewrite answer_headers_fields; [|by apply answer_fields_fit|apply header_block_fuel]. cbn [rbind fst snd app].
  destruct (Z.eqb_spec status 200) as [->|Hne].
  - destruct (size_text body Hb) as (_ & _ & Hs).
    assert (dict_get (str "content-length") (lower_key <$> answer_fields 200 ctype body) = Some (Z_str (len body))) as -> by done.
    cbn -[readexactly]. rewrite Hs. destruct (Z.leb_spec 0 (len body)); [|unfold len in *; lia].
    unfold readexactly. cbn [incoming]. rewrite Z.leb_refl. cbn [fst].
    rewrite take_ge by (unfold len; lia). done.
  - assert ((200 <=? status) && (status <? 300) = false) as ->; [|done].
    clear -Hst Hne. unfold known_statuses in Hst. rewrite !elem_of_cons in Hst.
    destruct Hst as [->|[->|[->|[->|[->|[->|[->|[->|[->|[]%elem_of_nil]]]]]]]]]; done.
Qed.

(** ** A page as the clients see it *)

Lemma page_served handler srv path headers ctype body :
  Forall visible path -> path <> [] -> len path <= 2048 -> Forall header_ok headers ->
  len (get_request path headers) <= max_http_headers (hs_security srv) ->
  dict_get (str "content-length") (received_headers [] headers) = None ->
  match auth_token srv with
  | None => True
  | Some token => dict_get (str "authorization") (received_headers [] headers) = Some (str "Bearer " ++ token) /\ ascii_text token
  end ->
  handler (str "GET") path = Ok (200, ctype, body) -> len body <= max_http_body (hs_security srv) ->
  ctype_ok ctype -> size_ok body ->
  exists data, serve handler srv (to_wire (get_request path headers)) = data /\ response_bytes 200 ctype body = Ok data.
Proof.
  intros Hp Hne Hlen Hh Hlim Hcl Hauth Hpage Hmax Hct Hsz. unfold serve.
  pose proof (get_request_parsed handler srv path headers [] Stalled Hp Hne Hlen Hh Hlim) as E.
  rewrite app_nil_r in E. rewrite E. unfold http_answer. rewrite Hcl. cbn [default].
  assert (int_of_str (str "0") = Some 0) as -> by reflexivity.
  assert (match auth_token srv with None => Ok true | Some token =>
            compare_digest (default [] (dict_get (str "authorization") (received_headers [] headers))) (str "Bearer " ++ token)
          end = Ok true) as ->.
  { destruct (auth_token srv) as [token|]; [|done]. destruct Hauth as [-> Htok]. unfold compare_digest. cbn [default id]. unfold id.
    assert (forallb (fun c => (c <? 128)%N) (str "Bearer " ++ token) = true) as ->.
    { apply forallb_Forall, Forall_app_2; [by repeat constructor|]. eapply Forall_impl; [exact Htok|]. intros c Hc. by apply N.ltb_lt. }
    by rewrite bool_decide_eq_true_2. }
  change (default (-1) (Some 0)) with 0. change (0 <? 0) with false. change (0 =? 0) with true. cbn [negb].
  destruct (Z.ltb_spec (max_http_body (hs_security srv)) 0); [unfold len in Hmax; lia|]. rewrite Hpage.
  destruct (Z.ltb_spec (max_http_body (hs_security srv)) (len body)); [lia|]. cbn [andb Z.eqb Pos.eqb].
  unfold http_handle, write_response. rewrite response_bytes_cut by (done || (known)). eexists. split; reflexivity.
Qed.

(** A server with a token answers a request that does not carry it with an error. *)
Lemma page_refused handler srv path headers token :
  Forall visible path -> path <> [] -> len path <= 2048 -> Forall header_ok headers ->
  len (get_request path headers) <= max_http_headers (hs_security srv) ->
  auth_token srv = Some token ->
  default [] (dict_get (str "authorization") (received_headers [] headers)) <> str "Bearer " ++ token ->
  exists status body data, status ∈ known_statuses /\ status <> 200 /\ size_ok body /\
    serve handler srv (to_wire (get_request path headers)) = data /\ response_bytes status text_plain body = Ok data.
Proof.
  intros Hp Hne Hlen Hh Hlim Htok Hdiff. unfold serve.
  pose proof (get_request_parsed handler srv path headers [] Stalled Hp Hne Hlen Hh Hlim) as E.
  rewrite app_nil_r in E. rewrite E. unfold http_answer. rewrite Htok.
  assert (ctype_ok text_plain) as Hct by (split; [by apply line_check|done]).
  assert (forall status body, status ∈ known_statuses -> size_ok body -> exists data, response_bytes status text_plain body = Ok data)
    as Hresp by (intros; rewrite response_bytes_cut by done; by eexists).
  unfold compare_digest. destruct (_ && _).
  - rewrite bool_decide_eq_false_2 by done. cbn [andb Z.eqb Pos.eqb]. unfold http_handle, write_response.
    destruct (Hresp 401 (line "Unauthorized")) as [data Hd]; [known|done|]. rewrite Hd.
    exists 401, (line "Unauthorized"), data. split; [known|split; [done|done]].
  - unfold http_handle, write_error, write_response. cbn [error_answer].
    destruct (Hresp 500 (line "Internal Server Error")) as [data Hd]; [known|done|]. rewrite Hd.
    exists 500, (line "Internal Server Error"), data. split; [known|split; [done|done]].
Qed.
End clients.

(** ** The status of a node, asked for and read *)

Section status_query.
Context `{Ed25519} `{MathLib} `{UnicodeDB} `{StrLower}.

Definition token_ok (token : option pystr) : Prop := match token with Some t => Forall visible t | None => True end.

(** The value of the header that a query with the token carries. *)
Definition bearer (token : option pystr) : option pystr :=
  match token with Some (c :: t) => Some (str "Bearer " ++ c :: t) | _ => None end.

Lemma visible_check s : forallb (fun c => (33 <=? c)%N && (c <=? 126)%N) s = true <-> Forall visible s.
Proof.
  rewrite forallb_Forall. split; intros Hs; (eapply Forall_impl; [exact Hs|]); intros c;
    rewrite andb_true_iff, !N.leb_le; done.
Qed.

Lemma header_check k v : forallb (fun c => (33 <=? c)%N && (c <=? 126)%N) k = true -> has_char 58 k = false ->
  Forall line_char v -> trimmed v -> header_ok (k, v).
Proof.
  intros Hk%visible_check Hc Hv Ht. split_and!; [done| |done|apply Ht..]. cbn [fst]. clear -Hc. unfold has_char in Hc.
  induction k as [|c k IH]; [constructor|]. cbn in Hc. apply orb_false_iff in Hc as [Hc Hk]. apply N.eqb_neq in Hc.
  constructor; [done|by apply IH].
Qed.

Lemma bearer_ok t : Forall visible t -> t <> [] -> header_ok (str "Authorization", str "Bearer " ++ t).
Proof.
  intros Ht Hne. apply header_check; [done|done| |].
  - apply Forall_app_2; [by repeat constructor|by apply visible_line].
  - destruct (visible_trimmed t Ht) as [_ Hr]. split; [done|]. rewrite reverse_app.
    destruct (reverse t) as [|c l] eqn:E; [|exact Hr].
    apply (f_equal reverse) in E. by rewrite reverse_involutive in E.
Qed.

Lemma query_headers_ok authority token :
  Forall visible authority -> token_ok token -> Forall header_ok (url_headers authority (query_headers token)).
Proof.
  intros Ha Ht. unfold url_headers, query_headers.
  assert (forall k v, forallb (fun c => (33 <=? c)%N && (c <=? 126)%N) k = true -> has_char 58 k = false ->
            Forall visible v -> header_ok (k, v)) as Hvis
    by (intros; apply header_check; try done; [by apply visible_line|by apply visible_trimmed]).
  destruct token as [[|c t]|]; cbn [app];
    repeat match goal with |- Forall header_ok (_ :: _) => apply Forall_cons; split end; try apply Forall_nil_2;
    try (by apply bearer_ok); apply Hvis; try done; by apply visible_check.
Qed.

Lemma illegal_value_none v : Forall (fun c => c <> 10%N /\ c <> 13%N) v -> illegal_value v = false.
Proof.
  induction 1 as [|c v [Hn Hr] Hv IH]; [done|]. cbn [illegal_value]. apply N.eqb_neq in Hn, Hr. by rewrite Hn, Hr, IH.
Qed.

(** The exchange takes place for visible addresses and tokens. *)
Lemma url_read_query server authority path token :
  Forall visible authority -> Forall visible path -> token_ok token ->
  url_read server authority path (query_headers token) =
  url_answer {| incoming := server (to_wire (get_request path (url_headers authority (query_headers token)))); ending := Eof |}.
Proof.
  intros Ha Hp Ht. unfold url_read.
  rewrite (proj2 (visible_check (authority ++ path))) by (by apply Forall_app_2).
  rewrite (proj2 (forallb_Forall _ _)); [done|].
  assert (forall k v, forallb (fun c => (c <? 256)%N) k = true -> Forall (fun c => visible c \/ c = 32%N) v ->
    negb (illegal_value v) && forallb (fun c => (c <? 256)%N) (k ++ v) = true) as Hok.
  { intros k v Hk Hv. rewrite illegal_value_none.
    - cbn [negb andb]. rewrite forallb_app, Hk. apply forallb_Forall. eapply Forall_impl; [exact Hv|].
      unfold visible. intros c Hc. apply N.ltb_lt. lia.
    - eapply Forall_impl; [exact Hv|]. unfold visible. intros c Hc. lia. }
  assert (forall v, Forall visible v -> Forall (fun c => visible c \/ c = 32%N) v) as Hw
    by (intros v Hv; eapply Forall_impl; [exact Hv|by left]).
  unfold url_headers, query_headers. destruct token as [[|c t]|]; cbn [app];
    repeat (apply Forall_cons; split); try apply Forall_nil_2; (apply Hok; [done|]);
    try (by apply Hw); try (apply Hw; by apply visible_check).
  change (str "Bearer " ++ c :: t) with (str "Bearer" ++ 32%N :: c :: t). apply Forall_app_2; [apply Hw; by apply visible_check|].
  constructor; [by right|by apply Hw].
Qed.

(** The status page of a node. *)
Lemma status_page t1 t2 cfg st doc :
  format_cluster_status t1 cfg st = Ok doc -> json_ok doc = true ->
  exists text body, utf8_encode text = Some body /\ loads text = Some (sort_keys doc) /\
    handle_request t1 t2 cfg st (str "GET") (str "/status") = Ok (200, str "application/json", body).
Proof.
  intros Hd Hok. destruct (loads_dumps_pretty true 0 doc Hok) as (text & Hp & Hl & Hs).
  destruct (utf8_encode_scalar text Hs) as [body Hb]. exists text, body. split_and!; [done|done|].
  unfold handle_request.
  repeat match goal with |- context [bool_decide ?P] =>
    let b := eval vm_compute in (bool_decide P) in change (bool_decide P) with b end.
  cbn [negb]. rewrite Hd. cbn [rbind]. unfold dumps_indent. rewrite Hp. cbn [rbind].
  unfold encode_page. by rewrite Hb.
Qed.

(** C36: The status command shows the status of the node: against a status server of the node, over the
    exchange that [urlopen] makes, the command prints a document that reads as the status of the node
    when the server has no token or the token of the command, and it exits with an error when the
    server has a token and the command another one or none. *)
Theorem status_query_shows_node (t1 t2 : float) (cfg : NodeConfig) (st : NodeState) (srv : HttpServer)
    (doc : json) (page : list byte) (urlopen : pystr -> list (pystr * pystr) -> result (list byte))
    (endpoint authority : pystr) (token : option pystr) :
  let server := serve (handle_request t1 t2 cfg st) srv in
  (forall headers, urlopen endpoint headers = url_read server authority (str "/status") headers) ->
  Forall visible authority -> token_ok token ->
  len (get_request (str "/status") (url_headers authority (query_headers token))) <= max_http_headers (hs_security srv) ->
  format_cluster_status t1 cfg st = Ok doc -> json_ok doc = true ->
  rmap (fun r => r.2) (handle_request t1 t2 cfg st (str "GET") (str "/status")) = Ok page ->
  len page <= max_http_body (hs_security srv) -> size_ok page ->
  (match auth_token srv with None => True | Some t => bearer token = Some (str "Bearer " ++ t) end ->
     exists text, query_status_command urlopen endpoint token = Printed text /\ loads text = Some (sort_keys doc)) /\
  (forall t, auth_token srv = Some t -> default [] (bearer token) <> str "Bearer " ++ t ->
     query_status_command urlopen endpoint token = ExitsWith 1).
Proof.
  cbn zeta. intros Hurl Ha Htok Hlim Hd Hok Hpage Hmax Hsz.
  assert (Forall visible (str "/status")) as Hp by (by apply visible_check).
  pose proof (query_headers_ok authority token Ha Htok) as Hh.
  assert (dict_get (str "authorization") (received_headers [] (url_headers authority (query_headers token))) = bearer token /\
          dict_get (str "content-length") (received_headers [] (url_headers authority (query_headers token))) = None)
    as [Hbr Hcl] by (by destruct token as [[|]|]).
  unfold query_status_command. rewrite Hurl, url_read_query by done. split.
  - intros Hauth. destruct (status_page t1 t2 cfg st doc Hd Hok) as (text & body & Hb & Hl & Hr).
    rewrite Hr in Hpage. apply Ok_inj in Hpage. cbn in Hpage. subst page.
    assert (ctype_ok (str "application/json")) as Hct by (split; [by apply line_check|done]).
    destruct (page_served (handle_request t1 t2 cfg st) srv (str "/status") (url_headers authority (query_headers token))
      (str "application/json") body) as (data & -> & Hdata); try done.
    { destruct (auth_token srv) as [t|]; [|done]. rewrite Hbr. split; [done|]. destruct token as [[|c u]|]; try done.
      cbn [bearer] in Hauth. apply (inj Some), (inj (app (str "Bearer "))) in Hauth. subst t. by apply line_ascii, visible_line. }
    rewrite (url_answer_served 200 (str "application/json") body data) by (done || (known)).
    cbn [Z.eqb Pos.eqb]. rewrite (utf8_decode_encode text body Hb), (loads_lenient _ _ Hl).
    destruct (loads_dumps_pretty false 0 (sort_keys doc)) as (out & -> & Hout & _); [by apply json_ok_sort_keys|].
    by exists out.
  - intros t Ht Hdiff.
    destruct (page_refused (handle_request t1 t2 cfg st) srv (str "/status") (url_headers authority (query_headers token)) t)
      as (status & body & data & Hst & Hne & Hbody & -> & Hdata); try done.
    { by rewrite Hbr. }
    rewrite (url_answer_served status text_plain body data); [|done|split; [by apply line_check|done]|done|done].
    by destruct (Z.eqb_spec status 200).
Qed.

(** The client of the example gets every page that a server without a token serves. *)
Lemma fetch_http_page (t1 t2 : float) (cfg : NodeConfig) (st : NodeState) (srv : HttpServer) (path : pystr)
    (port : Z) (ctype : pystr) (body : list byte) :
  auth_token srv = None -> Forall visible path -> path <> [] -> len path <= 2048 -> 0 <= port < 65536 ->
  len (get_request path [(str "Host", str "127.0.0.1:" ++ Z_str port); (str "Connection", str "close")])
    <= max_http_headers (hs_security srv) ->
  handle_request t1 t2 cfg st (str "GET") path = Ok (200, ctype, body) ->
  len body <= max_http_body (hs_security srv) -> size_ok body -> ctype_ok ctype ->
  fetch_http (serve (handle_request t1 t2 cfg st) srv) path port = Fetched 200 body.
Proof.
  intros Hauth Hp Hne Hlen Hport Hlim Hr Hmax Hsz Hct. unfold fetch_http.
  assert (Forall visible (Z_str port)) as Hz.
  { destruct (Z_str_size port) as [-> _]; [lia|]. eapply Forall_impl; [apply N_str_digit|].
    intros c Hc%digit_range. unfold visible. lia. }
  assert (Forall visible (str "127.0.0.1:" ++ Z_str port)) as Hv by (apply Forall_app_2; [by apply visible_check|done]).
  set (headers := [(str "Host", str "127.0.0.1:" ++ Z_str port); (str "Connection", str "close")]) in *.
  assert (Forall header_ok headers) as Hh.
  { repeat (apply Forall_cons; split); [..|done]; (apply header_check; [done|done|..]);
      try (by apply visible_line); try (by apply visible_trimmed); by repeat constructor. }
  rewrite ascii_encode.
  - destruct (page_served (handle_request t1 t2 cfg st) srv path headers ctype body) as (data & -> & Hdata);
      try done; [by rewrite Hauth|].
    apply (fetch_answer_served 200 ctype body data); try done. known.
  - unfold get_request. repeat apply Forall_app_2; try (by repeat constructor); try (by apply line_ascii, visible_line).
Qed.
End status_query.

(** ** A sample: the status command and the example's client against a node with a claimed task *)

#[local] Existing Instance ascii_db.

Definition sample_page : result (list byte) :=
  rmap (fun r => r.2) (handle_request fzero fzero (toy_cfg true true) (toy_claimed true) (str "GET") (str "/status")).
Definition sample_urlopen (endpoint : pystr) : list (pystr * pystr) -> result (list byte) :=
  url_read (serve (handle_request fzero fzero (toy_cfg true true) (toy_claimed true)) sample_server)
    (str "127.0.0.1:9102") (str "/status").
Definition sample_query (token : option pystr) : QueryOutcome :=
  query_status_command sample_urlopen (str "http://127.0.0.1:9102/status") token.

Lemma status_query_shows_node_witness :
  (exists doc text, sample_status = Ok doc /\ sample_query (Some sample_token) = Printed text /\
     loads text = Some (sort_keys doc)) /\
  sample_query None = ExitsWith 1.
Proof.
  assert (match sample_status with Ok d => json_ok d | Raise _ => false end = true) as Hok by (vm_compute; reflexivity).
  assert (match sample_page with Ok p => len p <=? 65536 | Raise _ => false end = true) as Hpg by (vm_compute; reflexivity).
  destruct sample_status as [doc|] eqn:Ed; [|discriminate Hok]. destruct sample_page as [page|] eqn:Ep; [|discriminate Hpg].
  apply Z.leb_le in Hpg. unfold sample_query.
  pose proof (fun token Htok (Hlen : len (get_request (str "/status") (url_headers (str "127.0.0.1:9102") (query_headers token))) <= 8192) =>
    status_query_shows_node fzero fzero (toy_cfg true true) (toy_claimed true) sample_server doc page
      sample_urlopen (str "http://127.0.0.1:9102/status") (str "127.0.0.1:9102") token (fun _ => eq_refl)
      (proj1 (visible_check (str "127.0.0.1:9102")) eq_refl) Htok Hlen Ed Hok Ep Hpg ltac:(unfold size_ok; lia)) as Hrun.
  split.
  - destruct (Hrun (Some sample_token)) as [Hyes _]; [by apply visible_check|vm_compute; discriminate|].
    destruct (Hyes eq_refl) as (text & Ht & Hl). exists doc, text. split; [reflexivity|split; [exact Ht|exact Hl]].
  - destruct (Hrun None) as [_ Hno]; [exact I|vm_compute; discriminate|].
    exact (Hno sample_token eq_refl ltac:(discriminate)).
Defined.

Example fetch_http_sample :
  fetch_http (serve (handle_request fzero fzero (toy_cfg true true) (toy_claimed true))
                {| hs_security := default_security; auth_token := None |}) (str "/healthz") 9102 = Fetched 200 (line "OK").
Proof. vm_compute. reflexivity. Qed.
