(* ===== verification/Listeners.v ===== *)
(** * Listening sockets

    [start] and the closing of the servers of [TcpTransport] and [HttpServer] ([peerq/transport.py])
    and of [StatusServer] ([peerq/exporter.py]), over the addresses that the operating system has in
    use.  A server is its listening sockets; it has none once it is closed. *)

From Stdlib Require Import ZArith NArith Lia.
From S2P Require Import Prelude PyFloat Text Json JsonFacts Security Consensus Crypto Lattice Heapq Queue.
From S2P Require Import Wal Metrics Failure Message SimNetwork Tcp Sha256 FloatText PyText Udp Node NodeFacts NodeTheorems.
From S2P Require Import NodeScenarios Http Status StatusServer HttpClient.
Open Scope Z_scope.

(** ** The operating system *)

Definition Addr : Type := pystr * Z.

(** [resolve] gives the addresses of a host on which a socket can be made.  [bind_port used a p] binds a
    socket to the port [p] of [a], any free one if [p] is zero, and gives the port; the laws are those
    of [bind]: an address in use is not given again, a port that is asked for is the one given, and
    ports are 16 bits. *)
Class SocketLayer := {
  resolve : pystr -> result (list pystr);
  bind_port : gset Addr -> pystr -> Z -> result Z;
  bind_port_free : forall used a p q, bind_port used a p = Ok q -> (a, q) ∉ used;
  bind_port_fixed : forall used a p q, bind_port used a p = Ok q -> p <> 0 -> q = p;
  bind_port_range : forall used a p q, bind_port used a p = Ok q -> 1 <= q <= 65535;
}.

(** ** Servers *)

Record Listener := { l_host : pystr; l_port : Z; l_server : option (list Addr) }.

Definition sockets (l : Listener) : list Addr := default [] (l_server l).

Section listeners.
Context `{SocketLayer}.

(** One socket per address of the host, each bound before the next one is made. *)
Fixpoint bind_all (used : gset Addr) (hosts : list pystr) (port : Z) : result (list Addr) :=
  match hosts with
  | [] => Ok []
  | a :: rest =>
      let! q := bind_port used a port in
      rmap (cons (a, q)) (bind_all ({[(a, q)]} ∪ used) rest port)
  end.

(** [asyncio.start_server]: when one address cannot be bound, the sockets bound so far are closed. *)
Definition start_server (host : pystr) (port : Z) (used : gset Addr) : result (list Addr) :=
  let! hosts := resolve host in
  raise_if (bool_decide (hosts = [])) OSError ;;!
  bind_all used hosts port.

(** [start] of [TcpTransport] and of [HttpServer]: the port becomes that of the first socket. *)
Definition listener_start (l : Listener) (used : gset Addr) : result () * (Listener * gset Addr) :=
  match start_server (l_host l) (l_port l) used with
  | Raise e => (Raise e, (l, used))
  | Ok socks =>
      (Ok (), ({| l_host := l_host l; l_port := match socks with (_, p) :: _ => p | [] => l_port l end;
                  l_server := Some socks |}, list_to_set socks ∪ used))
  end.

(** [self._server.close()], if there is a server. *)
Definition listener_close (l : Listener) (used : gset Addr) : Listener * gset Addr :=
  match l_server l with
  | None => (l, used)
  | Some socks => ({| l_host := l_host l; l_port := l_port l; l_server := Some [] |}, used ∖ list_to_set socks)
  end.

(** ** What starting and closing a listener do *)

Lemma bind_all_spec hosts port : forall used socks,
  bind_all used hosts port = Ok socks ->
  socks.*1 = hosts /\ NoDup socks /\ (forall s, s ∈ socks -> s ∉ used) /\
  (forall s, s ∈ socks -> 1 <= s.2 <= 65535 /\ (port <> 0 -> s.2 = port)).
Proof.
  induction hosts as [|a rest IH]; intros used socks Hb; cbn [bind_all] in Hb.
  { injection Hb as <-. split_and!; [done|constructor|set_solver|set_solver]. }
  destruct (bind_port used a port) as [q|] eqn:Ep; cbn [rbind] in Hb; [|done].
  destruct (bind_all _ rest port) as [more|] eqn:Em; cbn [rmap rbind] in Hb; [|done]. injection Hb as <-.
  destruct (IH _ _ Em) as (H1 & H2 & H3 & H4).
  pose proof (bind_port_free _ _ _ _ Ep). pose proof (bind_port_range _ _ _ _ Ep). pose proof (bind_port_fixed _ _ _ _ Ep).
  split_and!.
  - cbn. by rewrite H1.
  - constructor; [|done]. intros Hin. apply (H3 _ Hin). set_solver.
  - intros s [->|Hin]%elem_of_cons; [done|]. specialize (H3 s Hin). set_solver.
  - intros s [->|Hin]%elem_of_cons; [done|]. by apply H4.
Qed.

(** The port of a listener is the port of its first socket. *)
Definition advertises (l : Listener) : Prop :=
  match sockets l with
  | [] => True
  | (_, p) :: _ => l_port l = p /\ 1 <= p <= 65535
  end.

Lemma listener_start_spec l used r l' used' :
  listener_start l used = (r, (l', used')) ->
  match r with
  | Raise _ => l' = l /\ used' = used
  | Ok _ => l_host l' = l_host l /\ advertises l' /\ sockets l' <> [] /\ NoDup (sockets l') /\
      (forall s, s ∈ sockets l' -> s ∉ used) /\ used' = list_to_set (sockets l') ∪ used /\
      resolve (l_host l) = Ok (sockets l').*1 /\ (l_port l <> 0 -> l_port l' = l_port l /\ forall s, s ∈ sockets l' -> s.2 = l_port l)
  end.
Proof.
  unfold listener_start. destruct (start_server _ _ _) as [socks|e] eqn:Es; intros [= <- <- <-]; [|done].
  unfold start_server in Es. destruct (resolve (l_host l)) as [hosts|] eqn:Er; cbn [rbind] in Es; [|done].
  case_bool_decide as Hne; cbn [raise_if rbind] in Es; [done|].
  destruct (bind_all_spec _ _ _ _ Es) as (H1 & H2 & H3 & H4). unfold sockets, advertises, sockets. cbn [l_server l_host l_port default].
  destruct socks as [|[a p] rest]; [by subst hosts|].
  pose proof (H4 (a, p) ltac:(by left)) as [Hp Hq].
  split_and!; cbn [id]; try done; [by rewrite H1|intros Hz; split; [by apply Hq|]; intros s Hs; by apply H4].
Qed.

(** A listener that listens cannot be started again: its own address is in use. *)
Lemma listening_start_fails l used :
  sockets l <> [] -> advertises l -> resolve (l_host l) = Ok (sockets l).*1 -> list_to_set (sockets l) ⊆ used ->
  exists e, listener_start l used = (Raise e, (l, used)).
Proof.
  intros Hne Ha Hr Hu. destruct (listener_start l used) as [r [l' used']] eqn:E.
  pose proof (listener_start_spec _ _ _ _ _ E) as Hs. destruct r as [[]|e]; [|destruct Hs as [-> ->]; by eexists].
  destruct Hs as (_ & _ & Hne' & _ & Hfree & _ & Hr' & Hport). exfalso.
  unfold advertises in Ha. destruct (sockets l) as [|[a p] rest]; [done|]. destruct Ha as [Hp Hrange].
  destruct Hport as [_ Hport]; [lia|]. rewrite Hr' in Hr. injection Hr as Hr.
  destruct (sockets l') as [|[a' p'] rest']; [done|]. cbn in Hr. injection Hr as -> _.
  assert (p' = p) as -> by (rewrite <- Hp; apply (Hport (a, p')); by left).
  apply (Hfree (a, p)); [by left|]. apply Hu, elem_of_list_to_set. by left.
Qed.
End listeners.

(** ** The servers of a process *)

Record HttpListener := { hl_listener : Listener; hl_server : HttpServer; hl_closed : bool }.

(** The node of a status server is an argument of [handle_request]. *)
Record StatusServer := {
  ss_host : pystr;
  ss_port : Z;
  ss_server : HttpListener;
}.

Inductive Server `{Ed25519} :=
| TcpEndpoint (l : Listener) (t : TcpTransport)
| StatusEndpoint (s : StatusServer).

Section process.
Context `{Ed25519} `{UnicodeDB} `{SocketLayer}.

Definition listener_init (host : pystr) (port : Z) : Listener := {| l_host := host; l_port := port; l_server := None |}.

(** [TcpTransport.__init__], with the address it listens on. *)
Definition tcp_endpoint_init (nid host : pystr) (port : Z) (addresses : list (pystr * (pystr * Z))) (key : PrivateKey)
    (ring : PeerKeyRing) (sec : SecurityConfig) : result Server :=
  rmap (TcpEndpoint (listener_init host port)) (tcp_init nid addresses key ring sec).

(** [StatusServer.__init__]; the limits are those of the node unless others are given. *)
Definition status_server_init (cfg : NodeConfig) (host : pystr) (port : Z) (sec : option SecurityConfig)
    (token : option pystr) : result StatusServer :=
  let! srv := http_init host (default (security cfg) sec) token in
  Ok {| ss_host := host; ss_port := port;
        ss_server := {| hl_listener := listener_init host port; hl_server := srv; hl_closed := false |} |}.

(** [HttpServer.start] and [HttpServer.stop] *)
Definition http_start (h : HttpListener) (used : gset Addr) : result () * (HttpListener * gset Addr) :=
  let '(r, (l, used)) := listener_start (hl_listener h) used in
  (r, ({| hl_listener := l; hl_server := hl_server h; hl_closed := hl_closed h |}, used)).

Definition http_stop (h : HttpListener) (used : gset Addr) : HttpListener * gset Addr :=
  let '(l, used) := listener_close (hl_listener h) used in
  ({| hl_listener := l; hl_server := hl_server h; hl_closed := true |}, used).

(** [StatusServer.start] and [StatusServer.stop] *)
Definition status_start (s : StatusServer) (used : gset Addr) : result () * (StatusServer * gset Addr) :=
  let '(r, (h, used)) := http_start (ss_server s) used in
  (r, ({| ss_host := ss_host s;
          ss_port := match r with Ok _ => l_port (hl_listener h) | Raise _ => ss_port s end; ss_server := h |}, used)).

Definition status_stop (s : StatusServer) (used : gset Addr) : StatusServer * gset Addr :=
  let '(h, used) := http_stop (ss_server s) used in
  ({| ss_host := ss_host s; ss_port := ss_port s; ss_server := h |}, used).

Definition server_start (e : Server) (used : gset Addr) : result () * (Server * gset Addr) :=
  match e with
  | TcpEndpoint l t => let '(r, (l, used)) := listener_start l used in (r, (TcpEndpoint l t, used))
  | StatusEndpoint s => let '(r, (s, used)) := status_start s used in (r, (StatusEndpoint s, used))
  end.

(** [TcpTransport.close] closes the connections and then the server. *)
Definition server_stop (e : Server) (used : gset Addr) : Server * gset Addr :=
  match e with
  | TcpEndpoint l t => let '(l, used) := listener_close l used in (TcpEndpoint l (tcp_close t), used)
  | StatusEndpoint s => let '(s, used) := status_stop s used in (StatusEndpoint s, used)
  end.

Definition listener_of (e : Server) : Listener :=
  match e with TcpEndpoint l _ => l | StatusEndpoint s => hl_listener (ss_server s) end.

(** The port that the rest of the program reads. *)
Definition port_of (e : Server) : Z := match e with TcpEndpoint l _ => l_port l | StatusEndpoint s => ss_port s end.

Definition owned (e : Server) : list Addr := sockets (listener_of e).

(** ** Executions: the servers of the process and the sockets of other processes *)

Record Machine := { in_use : gset Addr; elsewhere : gset Addr; servers : list Server }.

Definition fresh_server (e : Server) : Prop :=
  (exists nid host port addrs key ring sec, tcp_endpoint_init nid host port addrs key ring sec = Ok e) \/
  (exists cfg host port sec token s, status_server_init cfg host port sec token = Ok s /\ e = StatusEndpoint s).

Inductive machine_step : Machine -> Machine -> Prop :=
| machine_new used other es e : fresh_server e ->
    machine_step {| in_use := used; elsewhere := other; servers := es |}
               {| in_use := used; elsewhere := other; servers := es ++ [e] |}
| machine_start used other pre e post r e' used' : server_start e used = (r, (e', used')) ->
    machine_step {| in_use := used; elsewhere := other; servers := pre ++ e :: post |}
               {| in_use := used'; elsewhere := other; servers := pre ++ e' :: post |}
| machine_stop used other pre e post e' used' : server_stop e used = (e', used') ->
    machine_step {| in_use := used; elsewhere := other; servers := pre ++ e :: post |}
               {| in_use := used'; elsewhere := other; servers := pre ++ e' :: post |}
| machine_taken used other es s : s ∉ used ->
    machine_step {| in_use := used; elsewhere := other; servers := es |}
               {| in_use := {[s]} ∪ used; elsewhere := {[s]} ∪ other; servers := es |}
| machine_released used other es s : s ∈ other ->
    machine_step {| in_use := used; elsewhere := other; servers := es |}
               {| in_use := used ∖ {[s]}; elsewhere := other ∖ {[s]}; servers := es |}.

Inductive machine_reachable : Machine -> Prop :=
| machine_begin other : machine_reachable {| in_use := other; elsewhere := other; servers := [] |}
| machine_more w w' : machine_reachable w -> machine_step w w' -> machine_reachable w'.

(** The server that gets a connection to an address. *)
Definition reaches (w : Machine) (s : Addr) : option Server :=
  snd <$> list_find (fun e => s ∈ owned e) (servers w).

(** ** The invariant *)

(** A server that listens has a socket on every address of its host, and tells the port of the first. *)
Definition server_ok (e : Server) : Prop :=
  advertises (listener_of e) /\ port_of e = l_port (listener_of e) /\
  (owned e <> [] -> resolve (l_host (listener_of e)) = Ok (owned e).*1).

Definition machine_ok (w : Machine) : Prop :=
  Forall server_ok (servers w) /\
  NoDup (mjoin (owned <$> servers w)) /\
  (forall s, s ∈ mjoin (owned <$> servers w) -> s ∉ elsewhere w) /\
  in_use w = list_to_set (mjoin (owned <$> servers w)) ∪ elsewhere w.

Lemma server_start_spec e used r e' used' :
  server_start e used = (r, (e', used')) -> server_ok e -> list_to_set (owned e) ⊆ used ->
  (e' = e /\ used' = used /\ exists x, r = Raise x) \/
  (r = Ok () /\ server_ok e' /\ owned e = [] /\ owned e' <> [] /\ NoDup (owned e') /\ (forall s, s ∈ owned e' -> s ∉ used) /\
   used' = list_to_set (owned e') ∪ used).
Proof.
  intros Hs (Ha & Hp & Hr) Hin.
  assert (exists l', listener_start (listener_of e) used = (r, (l', used')) /\ listener_of e' = l' /\
            port_of e' = l_port l' /\ (r = Ok () \/ l' = listener_of e -> r = Ok () \/ e' = e)) as (l' & Hl & Hl' & Hp' & Hsame).
  { destruct e as [l t|s]; cbn [server_start] in Hs.
    - destruct (listener_start l used) as [r0 [l' u0]] eqn:El. injection Hs as <- <- <-. exists l'. cbn. split_and!; try done.
      intros [?| ->]; [by left|by right].
    - unfold status_start, http_start in Hs. destruct s as [h p [l srv c]]. cbn [ss_server hl_listener hl_server hl_closed ss_host ss_port] in Hs.
      destruct (listener_start l used) as [r0 [l' u0]] eqn:El. injection Hs as <- <- <-. exists l'. cbn in Hp |- *.
      pose proof (listener_start_spec _ _ _ _ _ El) as Hsp. destruct r0 as [[]|x]; split_and!; try done; [by left|..].
      + destruct Hsp as [-> _]. exact Hp.
      + destruct Hsp as [-> _]. intros _. by right. }
  pose proof (listener_start_spec _ _ _ _ _ Hl) as Hsp. destruct r as [[]|x].
  - right. destruct Hsp as (Hh & Had & Hne & Hnd & Hfree & Hu & Hres & _). unfold server_ok, owned. rewrite Hl'.
    split_and!; try done; [intros _; by rewrite Hh|].
    destruct (decide (sockets (listener_of e) = [])) as [|Ho]; [done|exfalso].
    destruct (listening_start_fails (listener_of e) used) as [x Hx]; try done; [by apply Hr|]. by rewrite Hx in Hl.
  - left. destruct Hsp as [-> ->]. destruct Hsame as [?| ->]; [by right|done|]. split_and!; [done|done|by eexists].
Qed.

Lemma server_stop_spec e used e' used' :
  server_stop e used = (e', used') -> server_ok e ->
  server_ok e' /\ owned e' = [] /\ used' = used ∖ list_to_set (owned e).
Proof.
  intros Hs (Ha & Hp & Hr). unfold server_ok, owned, sockets, advertises, sockets.
  destruct e as [l t|[h p [l srv c]]]; cbn in Hs, Hp; unfold status_stop, http_stop, listener_close in Hs; cbn in Hs;
    destruct (l_server l) as [socks|] eqn:El; cbn in Hs; injection Hs as <- <-; cbn; rewrite ?El; cbn;
    (split_and!; try done; set_solver).
Qed.

Lemma fresh_server_spec e : fresh_server e -> server_ok e /\ owned e = [].
Proof.
  intros [(nid & host & port & addrs & key & ring & sec & Hi)|(cfg & host & port & sec & token & s & Hi & ->)].
  - unfold tcp_endpoint_init in Hi. destruct (tcp_init _ _ _ _ _); [|done]. cbn in Hi. injection Hi as <-. by split_and!.
  - unfold status_server_init in Hi. destruct (http_init _ _ _); [|done]. cbn in Hi. injection Hi as <-. by split_and!.
Qed.

Lemma owned_middle pre e post :
  mjoin (owned <$> pre ++ e :: post) = mjoin (owned <$> pre) ++ owned e ++ mjoin (owned <$> post).
Proof. by rewrite fmap_app, list.join_app, fmap_cons. Qed.

Lemma machine_step_ok w w' : machine_step w w' -> machine_ok w -> machine_ok w'.
Proof.
  intros Hs (Hok & Hnd & Hdis & Hin).
  destruct Hs as [used other es e Hf|used other pre e post r e' used' Hst|used other pre e post e' used' Hst
                 |used other es s Hs|used other es s Hs]; unfold machine_ok; cbn [in_use elsewhere servers] in *.
  - destruct (fresh_server_spec e Hf) as [He Ho]. rewrite owned_middle, Ho. cbn. rewrite app_nil_r.
    split_and!; try done. apply Forall_app_2; [done|]. by apply Forall_singleton.
  - rewrite !owned_middle in *. apply Forall_app in Hok as [Hpre [He Hpost]%Forall_cons].
    destruct (server_start_spec _ _ _ _ _ Hst He) as [(-> & -> & _)|(_ & He' & Ho & _ & Hn & Hfree & ->)]; [set_solver| |].
    { split_and!; try done. by apply Forall_app_2, Forall_cons. }
    rewrite Ho in *. cbn [app] in *. subst used. apply NoDup_app in Hnd as (Hn1 & Hn2 & Hn3).
    split_and!; [by apply Forall_app_2, Forall_cons| |set_solver|set_solver].
    apply NoDup_app. split_and!; [done|set_solver|]. apply NoDup_app. split_and!; [done|set_solver|done].
  - rewrite !owned_middle in *. apply Forall_app in Hok as [Hpre [He Hpost]%Forall_cons].
    destruct (server_stop_spec _ _ _ _ Hst He) as (He' & -> & ->). cbn [app].
    apply NoDup_app in Hnd as (Hn1 & Hn2 & Hn3). apply NoDup_app in Hn3 as (Hn3 & Hn4 & Hn5).
    split_and!; [by apply Forall_app_2, Forall_cons|apply NoDup_app; set_solver|set_solver|set_solver].
  - split_and!; [done|done|set_solver|set_solver].
  - split_and!; [done|done|set_solver|set_solver].
Qed.

Lemma machine_reachable_ok w : machine_reachable w -> machine_ok w.
Proof.
  induction 1 as [other|w w' _ IH Hs]; [|by eapply machine_step_ok].
  unfold machine_ok. cbn. split_and!; [done|constructor|set_solver|set_solver].
Qed.

(** A socket that a server owns is owned by no other. *)
Lemma reaches_owner w e s : machine_ok w -> e ∈ servers w -> s ∈ owned e -> reaches w s = Some e.
Proof.
  intros (_ & Hnd & _ & _) He Hs. unfold reaches. revert Hnd He. generalize (servers w) as es. clear w.
  induction es as [|x es IH]; intros Hnd He; [set_solver|]. cbn [list_find]. cbn in Hnd. apply NoDup_app in Hnd as (_ & Hd & Hnd).
  destruct (decide (s ∈ owned x)) as [Hx|Hx].
  - apply elem_of_cons in He as [->|He]; [done|exfalso]. apply (Hd s Hx), list_elem_of_join.
    exists (owned e). split; [done|]. by apply list_elem_of_fmap_2.
  - apply elem_of_cons in He as [->|He]; [done|]. specialize (IH Hnd He).
    destruct (list_find _ es) as [[i y]|]; cbn in IH |- *; [|done]. exact IH.
Qed.

(** The addresses in use when the servers are stopped one after the other. *)
Definition stop_all (es : list Server) (used : gset Addr) : gset Addr := foldl (fun u e => (server_stop e u).2) used es.

Lemma stop_all_spec es : forall used, Forall server_ok es ->
  stop_all es used = used ∖ list_to_set (mjoin (owned <$> es)).
Proof.
  induction es as [|e es IH]; intros used Hok; cbn; [set_solver|]. apply Forall_cons in Hok as [He Hok]. unfold stop_all in IH |- *.
  cbn [foldl]. rewrite IH by done. destruct (server_stop e used) as [e' used'] eqn:E.
  destruct (server_stop_spec _ _ _ _ E He) as (_ & _ & ->). set_solver.
Qed.

(** C33: The servers of a process, in whatever order they are made, started, stopped and started again, also
    when a start fails and other processes take and release addresses: a server that listens tells a
    port at which a connection reaches it and no other server, on an address of its host; it cannot
    be started a second time, and the attempt changes nothing; and stopping all the servers gives back
    every address they took and no other. *)
Theorem servers_reachable (w : Machine) :
  machine_reachable w ->
  (forall e, e ∈ servers w -> owned e <> [] ->
     exists a hosts, resolve (l_host (listener_of e)) = Ok (a :: hosts) /\ 1 <= port_of e <= 65535 /\
       reaches w (a, port_of e) = Some e /\ ((a, port_of e) ∉ elsewhere w) /\
       exists x, server_start e (in_use w) = (Raise x, (e, in_use w))) /\
  stop_all (servers w) (in_use w) = elsewhere w.
Proof.
  intros Hr. pose proof (machine_reachable_ok w Hr) as Hw. pose proof Hw as (Hok & Hnd & Hdis & Hin). split.
  - intros e He Hne. rewrite Forall_forall in Hok. pose proof (Hok e He) as Heok. pose proof Heok as (Ha & Hp & Hres).
    assert (list_to_set (owned e) ⊆ in_use w) as Hsub.
    { rewrite Hin. intros s Hs%elem_of_list_to_set. apply elem_of_union_l, elem_of_list_to_set, list_elem_of_join.
      exists (owned e). split; [done|]. by apply list_elem_of_fmap_2. }
    specialize (Hres Hne). destruct (server_start e (in_use w)) as [r [e' used']] eqn:Est.
    destruct (server_start_spec _ _ _ _ _ Est Heok Hsub) as [(-> & -> & x & ->)|(_ & _ & Ho & _)]; [|done].
    unfold advertises in Ha. fold (owned e) in Ha. destruct (owned e) as [|[a p] rest] eqn:Eo; [done|]. destruct Ha as [Hl Hrange].
    assert ((a, p) ∈ owned e) as Hown by (rewrite Eo; by left).
    exists a, rest.*1. rewrite Hp, Hl. split_and!; [done|lia|lia|by apply reaches_owner| |by exists x].
    apply Hdis, list_elem_of_join. exists (owned e). split; [done|]. by apply list_elem_of_fmap_2.
  - rewrite stop_all_spec by done. rewrite Hin. apply leibniz_equiv. intros s. specialize (Hdis s). rewrite elem_of_difference, elem_of_union, elem_of_list_to_set. tauto.
Qed.
End process.

(** ** The client of the example reaches the dashboard *)

Section page.
Context `{Ed25519} `{MathLib} `{UnicodeDB} `{StrLower} `{SocketLayer}.

(** What answers the bytes of a client at an address: the status server that listens there, if one does. *)
Definition http_at (t1 t2 : float) (cfg : NodeConfig) (st : NodeState) (w : Machine) (s : Addr) : option (list byte -> list byte) :=
  match reaches w s with
  | Some (StatusEndpoint srv) => Some (serve (handle_request t1 t2 cfg st) (hl_server (ss_server srv)))
  | _ => None
  end.

(** A status server started on the loopback address without a token, on whatever port the system chose,
    is what the client of the example finds at the port it reports, and it gets the page it asks for. *)
Lemma status_server_reached (t1 t2 : float) (cfg : NodeConfig) (st : NodeState) (w : Machine) (s : StatusServer)
    (path ctype : pystr) (body : list byte) :
  let srv := hl_server (ss_server s) in
  machine_reachable w -> StatusEndpoint s ∈ servers w -> owned (StatusEndpoint s) <> [] ->
  resolve (l_host (hl_listener (ss_server s))) = Ok [str "127.0.0.1"] ->
  auth_token srv = None -> Forall visible path -> path <> [] -> len path <= 2048 ->
  len (get_request path [(str "Host", str "127.0.0.1:" ++ Z_str (ss_port s)); (str "Connection", str "close")])
    <= max_http_headers (hs_security srv) ->
  handle_request t1 t2 cfg st (str "GET") path = Ok (200, ctype, body) ->
  len body <= max_http_body (hs_security srv) -> size_ok body -> ctype_ok ctype ->
  exists server, http_at t1 t2 cfg st w (str "127.0.0.1", ss_port s) = Some server /\
    fetch_http server path (ss_port s) = Fetched 200 body.
Proof.
  cbn zeta. intros Hr He Ho Hres Hauth Hp Hne Hlen Hlim Hpage Hmax Hsz Hct.
  destruct (machine_reachable_ok w Hr) as (Hok & _). rewrite Forall_forall in Hok. destruct (Hok _ He) as (Ha & Hport & Hh).
  specialize (Hh Ho). cbn [listener_of] in Hh. rewrite Hres in Hh. cbn [listener_of port_of] in Ha, Hport. unfold advertises in Ha.
  change (sockets (hl_listener (ss_server s))) with (owned (StatusEndpoint s)) in Ha.
  destruct (owned (StatusEndpoint s)) as [|[a p] rest] eqn:Eo; [done|]. destruct Ha as [Hl Hrange]. cbn in Hh. injection Hh as <- _.
  exists (serve (handle_request t1 t2 cfg st) (hl_server (ss_server s))). split.
  - unfold http_at. rewrite (reaches_owner w (StatusEndpoint s)); [done|by apply machine_reachable_ok|done|].
    rewrite Eo, Hport, Hl. by left.
  - apply (fetch_http_page t1 t2 cfg st _ path (ss_port s) ctype body); try done. lia.
Qed.
End page.

(** ** Samples *)

(** A system where the hosts are addresses except for the local host, which has two, and where the
    ports from 50000 are given when none is asked for. *)
Definition toy_bind (used : gset Addr) (a : pystr) (p : Z) : result Z :=
  if p =? 0 then
    match list_find (fun q => (a, q) ∉ used) (seqZ 50000 1000) with Some (_, q) => Ok q | None => Raise OSError end
  else if (1 <=? p) && (p <=? 65535) && bool_decide ((a, p) ∉ used) then Ok p else Raise OSError.

Lemma toy_bind_laws used a p q :
  toy_bind used a p = Ok q -> ((a, q) ∉ used) /\ (p <> 0 -> q = p) /\ 1 <= q <= 65535.
Proof.
  unfold toy_bind. destruct (Z.eqb_spec p 0) as [->|Hp].
  - destruct (list_find _ _) as [[i x]|] eqn:E; [|done]. intros [= <-]. apply list_find_Some in E as (Hl & Hf & _).
    split; [done|]. split; [done|]. apply lookup_seqZ in Hl. lia.
  - destruct (_ && _) eqn:E; [|done]. intros [= <-]. rewrite !andb_true_iff in E. destruct E as [[H1 H2] H3%bool_decide_eq_true].
    split_and!; [done|done|lia|lia].
Qed.

#[local] Instance toy_sockets : SocketLayer := {|
  resolve := fun h => if bool_decide (h = str "localhost") then Ok [str "127.0.0.1"; str "::1"] else Ok [h];
  bind_port := toy_bind;
  bind_port_free := fun used a p q Hb => proj1 (toy_bind_laws used a p q Hb);
  bind_port_fixed := fun used a p q Hb => proj1 (proj2 (toy_bind_laws used a p q Hb));
  bind_port_range := fun used a p q Hb => proj2 (proj2 (toy_bind_laws used a p q Hb));
|}.

#[local] Existing Instance ascii_db.

Definition sample_status_server (host : pystr) : StatusServer := {|
  ss_host := host; ss_port := 0;
  ss_server := {| hl_listener := listener_init host 0; hl_server := {| hs_security := default_security; auth_token := None |};
                  hl_closed := false |} |}.

(** Another process has the first port; the status server gets the next one. *)
Definition sample_taken : gset Addr := {[(str "127.0.0.1", 50000)]}.
Definition sample_started : StatusServer := (status_start (sample_status_server (str "127.0.0.1")) sample_taken).2.1.
Definition sample_machine : Machine := {|
  in_use := (status_start (sample_status_server (str "127.0.0.1")) sample_taken).2.2; elsewhere := sample_taken;
  servers := [StatusEndpoint sample_started] |}.

Lemma servers_reachable_witness :
  ss_port sample_started = 50001 /\ reaches sample_machine (str "127.0.0.1", 50001) = Some (StatusEndpoint sample_started) /\
  stop_all (servers sample_machine) (in_use sample_machine) = sample_taken.
Proof.
  assert (ss_port sample_started = 50001) as Hp by (vm_compute; reflexivity).
  destruct (servers_reachable sample_machine) as [He Hs].
  - eapply machine_more; [eapply machine_more; [apply (machine_begin sample_taken)|]|].
    + apply (machine_new _ _ [] (StatusEndpoint (sample_status_server (str "127.0.0.1")))). right.
      exists (toy_cfg true true), (str "127.0.0.1"), 0, (Some default_security), None, (sample_status_server (str "127.0.0.1")).
      split; [vm_compute; reflexivity|reflexivity].
    + apply (machine_start _ _ [] _ [] (status_start (sample_status_server (str "127.0.0.1")) sample_taken).1).
      unfold server_start. cbn [app]. unfold sample_started. destruct (status_start _ _) as [r [s u]]. reflexivity.
  - destruct (He (StatusEndpoint sample_started)) as (a & hosts & Hr & _ & Hacc & _).
    + by left.
    + vm_compute. discriminate.
    + split; [exact Hp|]. split; [|exact Hs]. cbn [port_of] in Hacc. rewrite Hp in Hacc.
      change (resolve _) with (Ok (A := list pystr) [str "127.0.0.1"]) in Hr. injection Hr as <- _. exact Hacc.
Defined.

(** A host with two addresses and no port asked for: the system gives each socket a port of its own,
    and only that of the first is told. *)
Example one_port_of_two_is_told :
  let s := (status_start (sample_status_server (str "localhost")) sample_taken).2.1 in
  ss_port s = 50001 /\ owned (StatusEndpoint s) = [(str "127.0.0.1", 50001); (str "::1", 50000)].
Proof. vm_compute. split; reflexivity. Qed.
