(* ===== verification/Demos.v ===== *)
(** * The example programs ([src/examples])

    [demo.py]: its nodes, its execution to the end and the summary it prints.  [zero_config_cluster.py]:
    its setup, its waiting and its signing.  [custom_worker.py]: its setup. *)

From Stdlib Require Import ZArith NArith Lia.
From S2P Require Import Prelude PyFloat Text Json JsonFacts Security Consensus Crypto Lattice Heapq Queue.
From S2P Require Import Wal Metrics Failure Message SimNetwork Tcp Sha256 FloatText PyText Udp Node NodeFacts NodeTheorems.
From S2P Require Import NodeScenarios Mesh Worker Drain AntiEntropy Provenance Bench Benches Batch Turnaround Discovery Cli Http.
Open Scope Z_scope.
Open Scope node_scope.

(** [f"{i:02d}"] of a natural number *)
Definition two_digits (i : nat) : pystr :=
  let t := N_str (N.of_nat i) in if len t <? 2 then str "0" ++ t else t.

(** ** [demo.py] *)

Definition demo_peer_ids : list pystr := [str "node-alpha"; str "node-beta"; str "node-gamma"].
Definition demo_task (i : nat) : pystr := str "job-" ++ two_digits i.
Definition demo_priority (i : nat) : Z := Z.of_nat (i mod 3) * 5.
Definition demo_task_ids : list pystr := demo_task <$> List.seq 0 12.

(** The tasks that are submitted to the node at a position. *)
Definition demo_tasks_of (j : nat) : list pystr := demo_task <$> filter (fun i => (i mod 3)%nat = j) (List.seq 0 12).

Definition is_task_done (r : option TaskRecord) : bool :=
  match r with Some r => bool_decide (state r = DONE) | None => false end.

(** The condition that ends the polling. *)
Definition demo_finished (tables : list (list (pystr * TaskRecord))) : bool :=
  let completed_count := len (filter (fun tid => existsb (fun t => is_task_done (dict_get tid t)) tables = true) demo_task_ids) in
  len demo_task_ids <=? completed_count.

(** The lines of the summary, which is read from the first node. *)
Definition demo_summary (alpha : list (pystr * TaskRecord)) : list (pystr * TaskRecord) :=
  omap (fun tid => (fun r => (tid, r)) <$> dict_get tid alpha) demo_task_ids.

Section demo.
Context `{Ed25519} `{MathLib} `{UnicodeDB}.

Definition demo_node (math_log2 : float -> float) (env_lease : option pystr) (generated : PrivateKey) (pid : pystr)
    : result (NodeConfig * NodeState) :=
  node_init math_log2 pid demo_peer_ids true (Some (decimal_float false 2 0)) env_lease 1000 20 None generated []
    default_security 10000.

Lemma demo_summary_keys alpha : (demo_summary alpha).*1 ⊆ alpha.*1 /\ NoDup (demo_summary alpha).*1.
Proof.
  unfold demo_summary. assert (NoDup demo_task_ids) as Hnd by (apply (bool_decide_unpack _); by vm_compute).
  revert Hnd. generalize demo_task_ids as ids. induction ids as [|k ids IH]; intros Hnd; [split; [set_solver|constructor]|]. apply NoDup_cons in Hnd as [Hk Hnd]. specialize (IH Hnd) as [Hs IH].
  cbn. destruct (dict_get k alpha) as [r|] eqn:E; cbn; [|done]. split.
  - intros x [->|Hx]%elem_of_cons; [|by apply Hs]. apply dict_get_Some_elem in E. by apply (list_elem_of_fmap_2 fst alpha (k, r)).
  - constructor; [|done]. intros ([k' r'] & Heq & Hin)%list_elem_of_fmap. apply list_elem_of_omap in Hin as (t & Ht & Hr).
    destruct (dict_get t alpha); [|done]. cbn in Hr. injection Hr as <- <-. cbn in Heq. by subst.
Qed.

(** The nodes of the demonstration are given no key of one another, so at every point of every run the
    first node has only the four tasks that were submitted to it: nothing is replicated, and the
    summary at the end shows at most four of the twelve tasks. *)
Theorem demo_shows_its_own_tasks (w : World) (math_log2 : float -> float) (env_lease : option pystr) (generated : PrivateKey)
    (cfg : NodeConfig) (st0 st : NodeState) :
  demo_node math_log2 env_lease generated (str "node-alpha") = Ok (cfg, st0) ->
  bench_reachable w cfg (demo_tasks_of 0) st0 st ->
  (demo_summary (tasks st)).*1 ⊆ demo_tasks_of 0 /\ len (demo_summary (tasks st)) <= 4.
Proof.
  intros Hd Hr. unfold demo_node in Hd. destruct (lonely_node _ _ _ _ _ _ _ _ _ _ _ _ _ Hd eq_refl) as (_ & Hown & Hfresh).
  pose proof (node_init_wf _ _ _ _ _ _ _ _ _ _ _ _ _ _ _ Hd) as Hwf.
  destruct (bench_reachable_table _ _ _ _ _ Hown Hfresh Hwf Hr) as [_ Hsub]. destruct (demo_summary_keys (tasks st)) as [Hk Hnd].
  assert ((demo_summary (tasks st)).*1 ⊆ demo_tasks_of 0) as Hs by (by etrans). split; [done|].
  assert (length (demo_summary (tasks st)).*1 <= length (demo_tasks_of 0))%nat as Hl by (by apply submseteq_length, NoDup_submseteq).
  rewrite length_fmap in Hl. change (length (demo_tasks_of 0)) with 4%nat in Hl. unfold len. lia.
Qed.
End demo.

(** *** The execution of the demonstration *)

(** [str.upper], and the texts of the exceptions of a handler whose payload is not UTF-8 or whose result
    cannot be encoded. *)
Class TextOps := {
  str_upper : pystr -> pystr;
  decode_error : list byte -> pystr;
  encode_error : pystr -> pystr;
}.

(** [f"PROCESSED[{payload.decode().upper()}]".encode()], with the word that a program chooses. *)
Definition wrapped (word : string) (text : pystr) : pystr := str word ++ str "[" ++ text ++ str "]".
Definition wrap_handler `{TextOps} (word : string) (k : pystr) (p : list byte) : HandlerOutcome :=
  match utf8_decode p with
  | None => HRaise (decode_error p)
  | Some text =>
      let result := wrapped word (str_upper text) in
      match utf8_encode result with Some b => HReturn b | None => HRaise (encode_error result) end
  end.

Definition demo_share (j : nat) : list nat := filter (fun i => (i mod 3)%nat = j) (List.seq 0 12).

Section demo_run.
Context `{Ed25519} `{MathLib} `{UnicodeDB} `{TextOps}.

(** What a node of the demonstration does: it takes its share of the tasks, then its worker takes [n]
    turns while the program polls. *)
Definition demo_work `{World} (cfg : NodeConfig) (j n : nat) : M () :=
  batch cfg (wrap_handler "PROCESSED") demo_task (data "item-") demo_priority (demo_share j) n.

(** The result of task [i]. *)
Definition demo_result (i : nat) : list byte := default [] (utf8_encode (wrapped "PROCESSED" (str_upper (numbered "item-" i)))).

Lemma demo_outcome i k : scalar_str (str_upper (numbered "item-" i)) = true -> wrap_handler "PROCESSED" k (data "item-" i) = HReturn (demo_result i).
Proof.
  intros Hs. unfold wrap_handler. rewrite (utf8_decode_encode _ _ (data_encode "item-" i eq_refl)). cbv zeta.
  destruct (utf8_encode_scalar (wrapped "PROCESSED" (str_upper (numbered "item-" i)))) as [b Hb].
  { unfold wrapped. unfold scalar_str in Hs. apply forallb_Forall in Hs. repeat (apply Forall_app; split); [by repeat constructor| |done|by repeat constructor].
    by repeat constructor. }
  unfold demo_result. by rewrite Hb.
Qed.

Lemma demo_task_fits `{World} (cfg : NodeConfig) i : (i < 12)%nat -> within_lease cfg -> scalar_str (str_upper (numbered "item-" i)) = true ->
  task_ok cfg (wrap_handler "PROCESSED") demo_task (data "item-") demo_result i.
Proof.
  intros Hi [Hl Ht] Hs. assert (task_lease_duration cfg (data "item-" i) = lease_duration cfg) as Hlease
    by (apply plain_task_lease, (plain_lease "item-" i 105 (str "tem-")); [done|done|by right; right]).
  split; rewrite ?Hlease; [|etrans; [apply data_len; [done|by repeat constructor|lia]|]; by vm_compute|by apply demo_outcome|apply Hl|apply Ht].
  do 12 (destruct i as [|i]; [vm_compute; split_and!; [discriminate|discriminate|reflexivity]|]). lia.
Qed.

Lemma omap_keys {V} (t : list (pystr * V)) (good ids : list pystr) :
  (forall k, k ∈ ids -> is_Some (dict_get k t) <-> k ∈ good) ->
  (omap (fun k => (fun r => (k, r)) <$> dict_get k t) ids).*1 = filter (fun k => k ∈ good) ids.
Proof.
  induction ids as [|k ids IH]; intros Hk; [done|]. rewrite filter_cons. cbn [omap list_omap]. pose proof (Hk k ltac:(by left)) as Hk0.
  assert (forall k', k' ∈ ids -> is_Some (dict_get k' t) <-> k' ∈ good) as Hids by (intros k' Hin; apply Hk; by right).
  destruct (dict_get k t) as [r|]; cbn [fmap option_fmap option_map list_fmap fst].
  - rewrite decide_True by (apply Hk0; by eexists). f_equal. by apply IH.
  - rewrite decide_False by (intros Hg; apply Hk0 in Hg as [? [=]]). by apply IH.
Qed.

Lemma filter_all {A} (P : A -> Prop) `{forall x, Decision (P x)} (l : list A) : Forall P l -> filter P l = l.
Proof. induction 1 as [|x l Hx _ IH]; [done|]. by rewrite filter_cons_True, IH. Qed.

(** The demonstration ends: each node accepts its four tasks and executes them in four turns of its
    worker; then the polling is over, every node has counted four completed tasks, and the summary has
    exactly the four rows of the first node, each with its own name, the first fencing token and the
    result of the handler. *)
Theorem demo_completes (math_log2 : float -> float) (env_lease : option pystr) (generated : nat -> PrivateKey)
    (worlds : nat -> World) (cfgs : nat -> NodeConfig) (st0s : nat -> NodeState) :
  (forall j, (j < 3)%nat -> demo_node math_log2 env_lease (generated j) (nth j demo_peer_ids []) = Ok (cfgs j, st0s j) /\
     env_ok (H2 := worlds j) (cfgs j) /\ within_lease (H2 := worlds j) (cfgs j)) ->
  (forall i, scalar_str (str_upper (numbered "item-" i)) = true) ->
  exists sts, (forall j, (j < 3)%nat -> demo_work (H3 := worlds j) (cfgs j) j 4 (st0s j) = (Ok (), sts j) /\ done_count (sts j) = 4) /\
    demo_finished ((fun j => tasks (sts j)) <$> List.seq 0 3) = true /\
    (demo_summary (tasks (sts 0%nat))).*1 = demo_tasks_of 0 /\
    forall i, i ∈ demo_share 0 -> accomplished (cfgs 0%nat) demo_task (data "item-") demo_result (sts 0%nat) i.
Proof.
  intros Hnodes Hup. set (sts := fun j => (demo_work (H3 := worlds j) (cfgs j) j 4 (st0s j)).2).
  assert (forall j, (j < 3)%nat -> demo_work (H3 := worlds j) (cfgs j) j 4 (st0s j) = (Ok (), sts j) /\ done_count (sts j) = 4 /\
    (forall i, i ∈ demo_share j -> accomplished (cfgs j) demo_task (data "item-") demo_result (sts j) i) /\
    task_keys (sts j) ⊆ demo_tasks_of j) as Hall.
  { intros j Hj. destruct (Hnodes j Hj) as (Hinit & He & Hwl). unfold demo_node in Hinit.
    destruct (init_given (cfgs j) demo_task (data "item-") demo_priority _ _ _ _ _ _ _ _ _ _ _ _ _ Hinit) as [Hg Hmax].
    assert (length (demo_share j) = 4%nat) as Hlen by (destruct j as [|[|[|j]]]; [by vm_compute..|lia]).
    destruct (batch_runs (H2 := worlds j) (cfgs j) (wrap_handler "PROCESSED") demo_task (data "item-") demo_priority demo_result 1000 (demo_share j) (st0s j))
      as ([] & st & E & _ & Hd & _ & Ha & Hk).
    - done.
    - done.
    - apply Forall_forall. intros i [_ Hi%elem_of_seq]%list_elem_of_filter. apply (demo_task_fits (H3 := worlds j)); [lia|done|apply Hup].
    - destruct j as [|[|[|j]]]; [apply (bool_decide_unpack _); by vm_compute..|lia].
    - rewrite Hmax. unfold len. rewrite Hlen. lia.
    - unfold len. rewrite Hlen. lia.
    - unfold len. rewrite Hlen. lia.
    - rewrite Hlen in E. unfold sts, demo_work. rewrite E. unfold len in Hd. rewrite Hlen in Hd. by split_and!. }
  exists sts. split; [intros j Hj; destruct (Hall j Hj) as (? & ? & _); by split|].
  assert (forall i j, (i < 12)%nat -> j = (i mod 3)%nat -> is_task_done (dict_get (demo_task i) (tasks (sts j))) = true) as Hdone.
  { intros i j Hi ->. pose proof (Nat.mod_upper_bound i 3 ltac:(lia)) as Hm. destruct (Hall _ Hm) as (_ & _ & Ha & _).
    destruct (Ha i) as (r & Hr & Hs & _); [apply list_elem_of_filter; split; [done|apply elem_of_seq; lia]|].
    unfold get_task in Hr. rewrite Hr. cbn. by rewrite Hs. }
  split_and!.
  - unfold demo_finished. rewrite filter_all; [apply Z.leb_refl|].
    apply Forall_fmap, Forall_forall. intros i Hi%elem_of_seq. apply existsb_exists. exists (tasks (sts (i mod 3)%nat)).
    split; [|apply Hdone; [lia|done]]. apply (in_map (fun j => tasks (sts j)) (List.seq 0 3)). apply in_seq. pose proof (Nat.mod_upper_bound i 3). lia.
  - destruct (Hall 0%nat ltac:(lia)) as (_ & _ & Ha & Hk). unfold demo_summary. rewrite (omap_keys _ (demo_tasks_of 0)); [by vm_compute|].
    intros k _. split.
    + intros [r Hr]. apply Hk. by eapply dict_get_key.
    + intros (i & -> & Hi)%list_elem_of_fmap. destruct (Ha i Hi) as (r & Hr & _). by exists r.
  - apply (Hall 0%nat ltac:(lia)).
Qed.
End demo_run.

(** ** Nodes without static peers, as the examples set them up *)

Section plain_setup.
Context `{Ed25519Laws} `{MathLib} `{UnicodeDB}.

(** A transport whose ring has a key for its own name has the right one. *)
Lemma tcp_ring_own_key nid addrs key ring sec t :
  tcp_init nid addrs key ring sec = Ok t -> is_Some (get_peer_key nid ring) -> get_peer_key nid ring = Some (public_key key).
Proof.
  unfold tcp_init. intros Ht [k Hk]. rewrite Hk in *. unfold raise_if in Ht.
  destruct (bool_decide _) eqn:E; cbn [negb rbind] in Ht; [|done]. breflect. by apply public_bytes_inj in E as ->.
Qed.

Lemma plain_setup_consistent (log2 : float -> float) lease env nid key ring host port cluster ttl t n d status :
  tcp_init nid [] key ring default_security = Ok t ->
  node_init log2 nid [] true lease env 1000 20 None key ring default_security 10000 = Ok n ->
  discovery_init nid host port cluster ttl key ring default_security = Ok d -> is_Some (get_peer_key nid ring) ->
  (forall h, status = Some h -> is_loopback_host h = true) ->
  let s := {| su_transport := t; su_node := n; su_discovery := Some d |} in
  consistent_setup nid [] status None false s /\ peers n.1 = [] /\ enabled (security n.1) = true /\ keyring n.1 = ring.
Proof.
  intros Et En Ed Hkey Hst. destruct n as [cfg st].
  pose proof (tcp_ring_own_key _ _ _ _ _ _ Et Hkey) as Hown.
  destruct (tcp_init_own _ _ _ _ _ _ Hown Et) as (Ht1 & Ht2 & Ht3 & Ht4).
  destruct (node_init_own _ _ _ _ _ _ _ _ _ _ _ _ _ _ _ Hown En) as (Hn1 & Hn2 & Hn3 & Hn4).
  destruct (discovery_init_own _ _ _ _ _ _ _ _ _ Hown Ed) as (Hd1 & Hd2 & Hd3).
  unfold consistent_setup. cbn [su_transport su_node su_discovery fst snd]. rewrite Ht1, Ht2, Ht3, Ht4, Hn1, Hn2, Hn3, Hn4.
  split_and!; try done; [by eapply tcp_init_wf|by eapply node_init_wf|by intros ? [= <-]|set_solver|set_solver|].
  intros h Hh Hl. rewrite (Hst h Hh) in Hl. done.
Qed.
End plain_setup.

(** ** The nodes of [zero_config_cluster.py] and its signing *)

Definition showcase_task (i : nat) : pystr := str "task-" ++ two_digits i.

Section showcase.
Context `{Ed25519Laws} `{MathLib} `{UnicodeDB} `{World}.

(** The ring of the showcase: one key for each node. *)
Fixpoint showcase_ring (keypairs : list (pystr * PrivateKey)) (ring : PeerKeyRing) : result PeerKeyRing :=
  match keypairs with
  | [] => Ok ring
  | (nid, kp) :: rest => let! ring := add_peer nid (KeyWrapper (public_key kp)) ring in showcase_ring rest ring
  end.

(** The submission of a task and its signing by hand; the result is that of the assertion. *)
Definition showcase_submit (cfg : NodeConfig) (ring : PeerKeyRing) (tid : pystr) (p : list byte) (priority : Z) : M bool :=
  submit_task cfg tid p priority ;;*
  let* rec := gets (get_task tid) in
  match rec with
  | None => nret true
  | Some r =>
      let* s := lift (sign_task (identity cfg) r (node_id cfg)) in
      store_task tid s ;;*
      lift (verify_task_authorization s ring)
  end.

(** Signing a record again changes nothing: a signature does not cover itself. *)
Lemma sign_task_twice key signer r r' : sign_task key r signer = Ok r' -> sign_task key r' signer = Ok r'.
Proof.
  unfold sign_task. intros Hs. inv_result. cbn [with_signature signer_id].
  change (with_signature (with_signature (with_signature r None (Some signer)) _ (Some signer)) None (Some signer))
    with (with_signature r None (Some signer)).
  match goal with E : canonical_task_bytes _ = Ok _ |- _ => by rewrite E end.
Qed.

Lemma dict_set_same {V} (k : pystr) (v : V) d : dict_get k d = Some v -> dict_set k v d = d.
Proof.
  induction d as [|[k' v'] d IH]; cbn; [done|]. destruct (decide (k = k')) as [->|]; [by intros [= ->]|].
  intros Hd. by rewrite IH.
Qed.

Lemma set_tasks_same st : set_tasks (tasks st) st = st.
Proof. by destruct st. Qed.

(** The assertion of the showcase holds for every task that a node of the ring accepts, and signing by
    hand leaves the table as the submission left it, since the node had signed the record already. *)
Theorem showcase_assertion_holds (cfg : NodeConfig) (ring : PeerKeyRing) (tid : pystr) (p : list byte) (priority : Z) (st : NodeState) (n : Z) :
  env_ok cfg -> node_wf cfg st -> enabled (security cfg) = true -> get_peer_key (node_id cfg) ring = Some (public_key (identity cfg)) ->
  tid <> [] -> len tid <= MAX_TASK_ID_LENGTH -> scalar_str tid = true -> len p <= MAX_TASK_PAYLOAD ->
  (dict_mem tid (tasks st) = true \/ len (tasks st) < max_tasks cfg) -> full (queue st) = false -> 1 <= n < 2 ^ 63 -> work_state n st ->
  exists st', submit_task cfg tid p priority st = (Ok (), st') /\ showcase_submit cfg ring tid p priority st = (Ok true, st').
Proof.
  intros He Hwf Hon Hkey Hne Hl Hsc Hp Hroom Hfull Hn Hws.
  destruct (submit_runs cfg tid p priority st n He Hwf Hne Hl Hsc Hp Hroom Hfull Hn Hws) as ([] & st' & E & _ & _ & _ & _ & _ & r & Hr & Htx & Hseal).
  exists st'. split; [done|]. unfold showcase_submit, nbind at 1. rewrite E. unfold nbind at 1, gets. rewrite Hr.
  unfold seal_record in Hseal. rewrite Hon in Hseal. cbn [negb lift fst] in Hseal.
  unfold nbind at 1, lift at 1. rewrite (sign_task_twice _ _ _ _ Hseal). unfold nbind, store_task, modify, lift.
  unfold get_task in Hr. rewrite (dict_set_same _ _ _ Hr), set_tasks_same. f_equal.
  destruct (sign_task_authorized (identity cfg) r (node_id cfg) ring Htx (env_name _ He) Hkey) as (t' & Ht' & _ & _ & Ha).
  rewrite (sign_task_twice _ _ _ _ Hseal) in Ht'. injection Ht' as <-. apply Ha.
  unfold sign_task in Hseal. inv_result; done.
Qed.

(** The ring of the showcase holds the key of each node, when the names differ. *)
Lemma showcase_ring_keys keypairs ring ring' :
  showcase_ring keypairs ring = Ok ring' -> NoDup keypairs.*1 ->
  forall nid kp, (nid, kp) ∈ keypairs -> get_peer_key nid ring' = Some (public_key kp).
Proof.
  intros Hr Hnd nid kp Hin.
  enough (forall k, get_peer_key k ring' = match dict_get k keypairs with Some x => Some (public_key x) | None => get_peer_key k ring end) as Hx.
  { rewrite Hx. assert (dict_get nid keypairs = Some kp) as ->; [|done].
    clear -Hnd Hin. induction keypairs as [|[k x] l IH]; [set_solver|]. cbn in *. apply NoDup_cons in Hnd as [Hk Hnd].
    destruct (decide (nid = k)) as [->|Hne].
    - apply elem_of_cons in Hin as [[= ->]|Hin]; [done|]. exfalso. apply Hk. by apply (list_elem_of_fmap_2 fst l (k, kp)).
    - apply elem_of_cons in Hin as [[= -> _]|Hin]; [done|]. by apply IH. }
  clear nid kp Hin. revert ring Hr. induction keypairs as [|[k x] l IH]; intros ring Hr; cbn in Hr |- *; [by injection Hr as ->|].
  apply NoDup_cons in Hnd as [Hk Hnd]. destruct (add_peer k _ ring) as [ring1|] eqn:Ea; cbn [rbind] in Hr; [|done].
  intros j. rewrite (IH Hnd ring1 Hr j). unfold add_peer in Ea. inv_result. unfold get_peer_key. rewrite dict_get_set.
  destruct (decide (j = k)) as [->|Hne].
  - rewrite decide_True by done. destruct (dict_get k l) as [y|] eqn:Ey; [|done]. exfalso. apply Hk.
    apply dict_get_Some_elem in Ey. by apply (list_elem_of_fmap_2 fst l (k, y)).
  - by rewrite decide_False by done.
Qed.

(** *** Its nodes *)

(** A node with its transport and discovery; [bound_port] is the port that the listening socket got. *)
Definition showcase_setup (math_log2 : float -> float) (env_lease : option pystr) (ring : PeerKeyRing) (bound_port : Z)
    (keypair : pystr * PrivateKey) : result Setup :=
  let '(nid, key) := keypair in
  let! t := tcp_init nid [] key ring default_security in
  let! n := node_init math_log2 nid [] true (Some (decimal_float false 3 0)) env_lease 1000 20 None key ring default_security 10000 in
  let! d := discovery_init nid (str "127.0.0.1") bound_port (str "showcase-cluster") (decimal_float false 15 (-1)) key ring default_security in
  Ok {| su_transport := t; su_node := n; su_discovery := Some d |}.

(** The tasks of the showcase. *)
Definition showcase_priority (i : nat) : Z := Z.of_nat i * 2.
Definition showcase_submitter (i : nat) : nat := (i mod 3)%nat.

(** The two conditions that it waits for, [rounds] times at most; it goes on in any case. *)
Definition showcase_formed (cfgs : list NodeConfig) : bool := forallb (fun cfg => len (peers cfg) =? 2) cfgs.
Definition showcase_finished (tables : list (list (pystr * TaskRecord))) : bool :=
  6 <=? len (filter (fun i => existsb (fun t => is_task_done (dict_get (showcase_task i) t)) tables = true) (List.seq 0 6)).
Fixpoint showcase_wait (rounds turn : nat) (condition : nat -> bool) : nat :=
  match rounds with
  | O => turn
  | S n => if condition turn then turn else showcase_wait n (S turn) condition
  end.

(** The waiting ends at the first turn at which the condition holds, or after the last round, when the
    program goes on as if it held. *)
Lemma showcase_wait_spec rounds turn condition :
  let last := showcase_wait rounds turn condition in
  (turn <= last <= turn + rounds)%nat /\ (forall k, (turn <= k < last)%nat -> condition k = false) /\
  ((last < turn + rounds)%nat -> condition last = true).
Proof.
  revert turn. induction rounds as [|n IH]; intros turn; cbn [showcase_wait]; [cbn; split_and!; [lia|lia|intros; lia|lia]|].
  destruct (condition turn) eqn:E; [cbn; split_and!; [lia|lia|intros; lia|done]|].
  destruct (IH (S turn)) as (Hl & Hf & Ht). cbn. split_and!; [lia|lia| |intros; apply Ht; lia].
  intros k Hk. destruct (decide (k = turn)) as [->|]; [done|apply Hf; lia].
Qed.

(** The nodes of the showcase fit together: when the names differ, every node that is built has a
    consistent setup, starts without peers, and knows the key of every node of the ring. *)
Theorem showcase_nodes_consistent (math_log2 : float -> float) (env_lease : option pystr) (keypairs : list (pystr * PrivateKey))
    (ring : PeerKeyRing) (bound_port : Z) (nid : pystr) (key : PrivateKey) (s : Setup) :
  showcase_ring keypairs [] = Ok ring -> NoDup keypairs.*1 -> (nid, key) ∈ keypairs ->
  showcase_setup math_log2 env_lease ring bound_port (nid, key) = Ok s ->
  consistent_setup nid [] (Some (str "127.0.0.1")) None false s /\ peers (su_node s).1 = [] /\
  forall other kp, (other, kp) ∈ keypairs -> get_peer_key other (keyring (su_node s).1) = Some (public_key kp).
Proof.
  intros Hring Hnd Hin Hs. unfold showcase_setup in Hs.
  destruct (tcp_init nid [] key ring _) as [t|] eqn:Et; [|done]. cbn [rbind] in Hs.
  destruct (node_init _ _ _ _ _ _ _ _ _ _ _ _ _) as [n|] eqn:En; [|done]. cbn [rbind] in Hs.
  destruct (discovery_init _ _ _ _ _ _ _ _) as [d|] eqn:Ed; [|done]. cbn [rbind] in Hs. injection Hs as <-.
  pose proof (showcase_ring_keys keypairs [] ring Hring Hnd) as Hkeys.
  destruct (plain_setup_consistent _ _ _ _ _ _ _ _ _ _ _ _ _ (Some (str "127.0.0.1")) Et En Ed) as (Hc & Hp & _ & Hk).
  - rewrite (Hkeys nid key Hin). by eexists.
  - intros h [= <-]. by vm_compute.
  - split_and!; [exact Hc|exact Hp|]. cbn [su_node]. rewrite Hk. exact Hkeys.
Qed.
End showcase.

(** ** [custom_worker.py] *)

Section custom_worker.
Context `{Ed25519Laws} `{MathLib} `{UnicodeDB} `{StrLower}.

(** [int(sys.argv[1]) if len(sys.argv) > 1 else 9001] *)
Definition worker_port (argv : list pystr) : result Z :=
  match argv with
  | _ :: a :: _ => match int_of_str a with Some z => Ok z | None => Raise ValueError end
  | _ => Ok 9001
  end.

(** [socket.gethostname().split(".")[0].lower()] and the identifier of the node. *)
Definition worker_node_id (hostname : pystr) (port : Z) : pystr :=
  let host_id := str_lower (default [] (head (split_on 46 hostname))) in
  str "worker-" ++ host_id ++ str "-" ++ Z_str port.

(** The loop over the entries of [PEERQ_PEER_KEYS]. *)
Fixpoint worker_keys (entries : list pystr) (ring : PeerKeyRing) : result PeerKeyRing :=
  match entries with
  | [] => Ok ring
  | entry :: rest =>
      if bool_decide (py_strip entry = []) then worker_keys rest ring
      else
        match split_first 61 entry with
        | Some (peer_id, key) =>
            let! ring := add_peer (py_strip peer_id) (KeyHex (py_strip key)) ring in worker_keys rest ring
        | None => Raise ValueError
        end
  end.

(** [main] up to its services; [bound_port] is the port that the listening socket got. *)
Definition worker_setup (math_log2 : float -> float) (env_lease env_key env_peer_keys : option pystr) (generated : PrivateKey)
    (bound_port : Z) (hostname : pystr) (argv : list pystr) : result (pystr * Setup) :=
  let! port := worker_port argv in
  let nid := worker_node_id hostname port in
  let! key := choose_identity env_key generated in
  let! ring := add_peer nid (KeyWrapper (public_key key)) [] in
  let! ring := worker_keys (split_on 44 (default [] env_peer_keys)) ring in
  let! t := tcp_init nid [] key ring default_security in
  let! n := node_init math_log2 nid [] true (Some (decimal_float false 5 0)) env_lease 1000 20 None key ring default_security 10000 in
  let! d := discovery_init nid (str "0.0.0.0") bound_port (str "peerq-default") (decimal_float false 35 (-1)) key ring default_security in
  Ok (nid, {| su_transport := t; su_node := n; su_discovery := Some d |}).

Lemma worker_keys_keep k entries : forall ring ring',
  worker_keys entries ring = Ok ring' -> is_Some (get_peer_key k ring) -> is_Some (get_peer_key k ring').
Proof.
  induction entries as [|e es IH]; intros ring ring' Hk Hs; cbn in Hk; [by injection Hk as ->|].
  case_bool_decide; [by eapply IH|]. destruct (split_first 61 e) as [[a b]|]; [|done].
  destruct (add_peer _ _ ring) as [ring1|] eqn:Ea; cbn [rbind] in Hk; [|done]. eapply IH; [done|].
  unfold add_peer in Ea. inv_result. unfold get_peer_key. rewrite dict_get_set. by case_decide.
Qed.

(** The worker that the example sets up is consistent like a node of the command line: one identity, one
    ring that holds its own key, no peers to begin with, well formed from the start; a key of the
    environment that contradicts its own makes it fail. *)
Theorem worker_setup_consistent (math_log2 : float -> float) (env_lease env_key env_peer_keys : option pystr) (generated : PrivateKey)
    (bound_port : Z) (hostname : pystr) (argv : list pystr) (nid : pystr) (s : Setup) :
  worker_setup math_log2 env_lease env_key env_peer_keys generated bound_port hostname argv = Ok (nid, s) ->
  consistent_setup nid [] None None false s /\ peers (su_node s).1 = [] /\ enabled (security (su_node s).1) = true.
Proof.
  unfold worker_setup. intros Hs. destruct (worker_port argv) as [port|]; [|done]. cbn [rbind] in Hs.
  destruct (choose_identity env_key generated) as [key|]; [|done]. cbn [rbind] in Hs. set (id := worker_node_id hostname port) in *.
  destruct (add_peer id _ []) as [ring0|] eqn:E0; [|done]. cbn [rbind] in Hs.
  destruct (worker_keys _ ring0) as [ring|] eqn:Ek; [|done]. cbn [rbind] in Hs.
  destruct (tcp_init id [] key ring _) as [t|] eqn:Et; [|done]. cbn [rbind] in Hs.
  destruct (node_init _ _ _ _ _ _ _ _ _ _ _ _ _) as [n|] eqn:En; [|done]. cbn [rbind] in Hs.
  destruct (discovery_init _ _ _ _ _ _ _ _) as [d|] eqn:Ed; [|done]. cbn [rbind] in Hs. injection Hs as <- <-.
  destruct (plain_setup_consistent _ _ _ _ _ _ _ _ _ _ _ _ _ None Et En Ed) as (Hc & Hp & He & _); [|done|by split_and!].
  apply (worker_keys_keep id _ _ _ Ek). unfold add_peer in E0. inv_result. unfold get_peer_key. rewrite dict_get_set_eq. by eexists.
Qed.
End custom_worker.

(** ** Samples *)

Definition alpha_alone : result (NodeConfig * NodeState) := demo_node (fun _ => fzero) None (toy_seed 1) (str "node-alpha").

(** The tasks of the first node; the demonstration is over when all are done somewhere, and its summary
    then shows a third of them. *)
Definition done_record (tid : pystr) : TaskRecord := {|
  task_id := tid; state := DONE; payload := []; task_result := Some (str_bytes "PROCESSED[]"); task_error := None;
  claimed_by := Some (str "n"); fence_token := ftoken 1 (str "n"); lease_expiry := fzero; vector_clock := VectorClock_init ∅;
  updated_by := str "n"; signature := None; signer_id := None |}.
Definition done_table (j : nat) : list (pystr * TaskRecord) := (fun k => (k, done_record k)) <$> demo_tasks_of j.

Example demo_sample :
  demo_tasks_of 0 = [str "job-00"; str "job-03"; str "job-06"; str "job-09"] /\
  demo_finished (done_table <$> [0; 1; 2]%nat) = true /\ demo_finished (done_table <$> [0; 1]%nat) = false /\
  len (demo_summary (done_table 0)) = 4.
Proof. vm_compute. split_and!; reflexivity. Qed.

Lemma demo_shows_its_own_tasks_witness :
  exists cfg st0, alpha_alone = Ok (cfg, st0) /\
    len (demo_summary (tasks (submit_task cfg (str "job-03") (str_bytes "item-3") 0 st0).2)) <= 4.
Proof.
  assert (is_ok alpha_alone = true) as Hok by (vm_compute; reflexivity).
  destruct alpha_alone as [[cfg st0]|] eqn:E; [|discriminate Hok]. exists cfg, st0. split; [reflexivity|].
  apply (demo_shows_its_own_tasks toy_world (fun _ => fzero) None (toy_seed 1) cfg st0); [exact E|].
  eapply bench_then; [apply bench_refl|]. apply bench_submit. apply (bool_decide_unpack _). vm_compute. exact I.
Defined.

(** [str.upper] of ASCII texts. *)
#[local] Instance ascii_text : TextOps := {|
  str_upper := map (fun c => if (97 <=? c) && (c <=? 122) then c - 32 else c)%N; decode_error := fun _ => str "invalid start byte";
  encode_error := fun _ => str "surrogates not allowed" |}.

Lemma upper_scalar s : scalar_str s = true -> scalar_str (str_upper s) = true.
Proof.
  unfold scalar_str, str_upper. cbn [ascii_text]. induction s as [|c s IH]; cbn; [done|]. intros [Hc Hs]%andb_true_iff.
  apply andb_true_iff. split; [|by apply IH]. revert Hc. destruct ((97 <=? c)%N && (c <=? 122)%N) eqn:E; [|done]. intros _.
  apply andb_true_iff in E as [H1%N.leb_le H2%N.leb_le]. assert (c - 32 < 128)%N as Hc by lia.
  apply andb_true_iff. split; [apply N.ltb_lt; lia|]. apply negb_true_iff. unfold is_surrogate. apply andb_false_iff. left. apply N.leb_gt. lia.
Qed.

Definition demo_sample_node (j : nat) : result (NodeConfig * NodeState) :=
  demo_node log2_30 None (toy_seed (Z.of_nat j)) (nth j demo_peer_ids []).
Definition demo_pair (j : nat) : NodeConfig * NodeState :=
  match demo_sample_node j with Ok n => n | Raise _ => (toy_cfg true true, toy_state true true) end.

Lemma demo_completes_witness :
  exists sts, (demo_summary (tasks (sts 0%nat))).*1 = [str "job-00"; str "job-03"; str "job-06"; str "job-09"] /\
    accomplished (demo_pair 0).1 demo_task (data "item-") demo_result (sts 0%nat) 9 /\ demo_result 9 = str_bytes "PROCESSED[ITEM-9]".
Proof.
  destruct (demo_completes log2_30 None (fun j => toy_seed (Z.of_nat j)) (fun _ => still_world) (fun j => (demo_pair j).1) (fun j => (demo_pair j).2))
    as (sts & _ & _ & Hs & Ha).
  - intros j Hj. destruct (sample_node_ok (demo_sample_node j) (nth j demo_peer_ids []) 2) as (cfg & st0 & Hn & Hnode).
    + destruct j as [|[|[|j]]]; [vm_compute; reflexivity..|lia].
    + destruct j as [|[|[|j]]]; [vm_compute; reflexivity..|lia].
    + left. reflexivity.
    + unfold demo_pair. rewrite Hn. exact (conj Hn Hnode).
  - intros i. apply upper_scalar, numbered_scalar. reflexivity.
  - exists sts. split; [rewrite Hs; vm_compute; reflexivity|]. split; [|vm_compute; reflexivity]. apply Ha. apply (bool_decide_unpack _). vm_compute. exact I.
Defined.

#[local] Existing Instance ascii_lower.

(** The identifier of a worker, its default port, and a first argument that is not a number. *)
Example worker_sample :
  worker_node_id (str "Host.example.org") 9001 = str "worker-host-9001" /\
  worker_port [str "custom_worker.py"] = Ok 9001 /\ worker_port [str "custom_worker.py"; str "--submit"] = Raise ValueError.
Proof. vm_compute. split_and!; reflexivity. Qed.

Lemma worker_setup_consistent_witness :
  exists nid s, worker_setup (fun _ => fzero) None None None (toy_seed 1) 9001 (str "Host") [] = Ok (nid, s) /\ peers (su_node s).1 = [].
Proof.
  set (run := worker_setup (fun _ => fzero) None None None (toy_seed 1) 9001 (str "Host") []).
  assert (is_ok run = true) as Hok by (vm_compute; reflexivity).
  destruct run as [[nid s]|] eqn:E; [|discriminate Hok]. exists nid, s. split; [reflexivity|].
  exact (proj1 (proj2 (worker_setup_consistent _ _ _ _ _ _ _ _ nid s E))).
Defined.

Definition showcase_pairs : list (pystr * PrivateKey) := [(str "alpha", toy_seed 1); (str "beta", toy_seed 2); (str "gamma", toy_seed 3)].

Lemma showcase_nodes_consistent_witness :
  exists ring s, showcase_ring showcase_pairs [] = Ok ring /\ showcase_setup log2_30 None ring 4000 (str "beta", toy_seed 2) = Ok s /\
    get_peer_key (str "gamma") (keyring (su_node s).1) = Some (public_key (toy_seed 3)).
Proof.
  assert (is_ok (showcase_ring showcase_pairs []) = true) as Hok by (vm_compute; reflexivity).
  destruct (showcase_ring showcase_pairs []) as [ring|] eqn:Er; [|discriminate Hok]. exists ring.
  assert (is_ok (let! r := showcase_ring showcase_pairs [] in showcase_setup log2_30 None r 4000 (str "beta", toy_seed 2)) = true) as Hok2
    by (vm_compute; reflexivity).
  rewrite Er in Hok2. cbn [rbind] in Hok2.
  destruct (showcase_setup log2_30 None ring 4000 (str "beta", toy_seed 2)) as [s|] eqn:Es; [|discriminate Hok2]. exists s.
  split; [reflexivity|]. split; [reflexivity|].
  apply (showcase_nodes_consistent log2_30 None showcase_pairs ring 4000 (str "beta") (toy_seed 2) s Er); [|right; left|exact Es|right; right; left].
  apply (bool_decide_unpack _). vm_compute. exact I.
Defined.
