(* ===== verification/Argparse.v ===== *)
(** * Command-line options ([argparse])

    The part of [argparse] that [peerq/cli.py] uses: a parser with subcommands, whose options are
    long ones that take one value or set a flag, and the help options.  Options may be abbreviated
    and joined to their value by an equals sign; numbers with a minus sign are values.  The order in
    which errors are found is that of the current releases of the library: an ambiguous abbreviation
    is an error when it is reached.  A double dash before the command is taken as an error. *)

From Stdlib Require Import ZArith NArith Lia.
From S2P Require Import Prelude PyFloat Text Json JsonFacts Security FloatText PyText.
Open Scope Z_scope.

(** ** Parsers *)

Inductive ArgType := TStr | TInt | TFloat.
Inductive ArgKind := Takes (t : ArgType) | StoreTrue.
Inductive ArgValue := VNone | VBool (b : bool) | VInt (z : Z) | VFloat (f : float) | VStr (s : pystr).

(** [add_argument(flag, type=..., required=..., default=...)] *)
Record Arg := {
  flag : pystr;
  kind : ArgKind;
  required : bool;
  arg_default : ArgValue;
}.

Abbreviation Namespace := (list (pystr * ArgValue)).

(** What an option string stands for. *)
Inductive Action := Help | Sets (a : Arg).

Definition option_strings (args : list Arg) : list (pystr * Action) :=
  (str "-h", Help) :: (str "--help", Help) :: ((fun a => (flag a, Sets a)) <$> args).

(** [parse_args]: the namespace, or the status with which the process exits. *)
Inductive Parse :=
| Parsed (ns : Namespace)
| ParserExit (code : Z).

(** ** Options and values among the words *)

Definition is_prefix (p s : pystr) : bool := match strip_prefix p s with Some _ => true | None => false end.

(** The pattern of a negative number: digits, or digits around a point, after a minus sign. *)
Definition decimal_char `{UnicodeDB} (c : N) : bool :=
  if (c <? 127)%N then is_digit c else match uni_decimal c with Some _ => true | None => false end.
Definition negative_number `{UnicodeDB} (s : pystr) : bool :=
  match strip_char 45 s with
  | None => false
  | Some t =>
      let fp := match strip_char 46 (drop_while decimal_char t) with Some r => r | None => [] end in
      (negb (bool_decide (t = [])) && forallb decimal_char t) ||
      (is_some (strip_char 46 (drop_while decimal_char t)) && negb (bool_decide (fp = [])) && forallb decimal_char fp)
  end.

(** What a word is: a value, the options it may stand for with the value joined to each, or an option
    that the parser does not have.  The second component tells a value joined without an equals sign. *)
Inductive Word :=
| Value
| Options (matches : list (Action * option (bool * pystr)))
| Unknown.

Section words.
Context `{UnicodeDB} (args : list Arg).

(** [_get_option_tuples] *)
Definition option_tuples (s : pystr) : list (Action * option (bool * pystr)) :=
  match s with
  | _ :: c :: _ =>
      if (c =? 45)%N then
        let '(prefix, explicit) := match split_first 61 s with Some (p, v) => (p, Some (false, v)) | None => (s, None) end in
        (fun sa => (sa.2, explicit)) <$> filter (fun sa => is_prefix prefix sa.1 = true) (option_strings args)
      else
        option_strings args ≫= fun sa =>
          if bool_decide (sa.1 = take 2 s) then [(sa.2, Some (true, drop 2 s))]
          else if is_prefix s sa.1 then [(sa.2, None)] else []
  | _ => []
  end.

(** [_parse_optional] *)
Definition parse_optional (s : pystr) : Word :=
  match s with
  | [] => Value
  | c :: rest =>
      if negb (c =? 45)%N then Value
      else
        match dict_get s (option_strings args) with
        | Some a => Options [(a, None)]
        | None =>
            if bool_decide (rest = []) then Value
            else
              match match split_first 61 s with
                    | Some (p, v) => match dict_get p (option_strings args) with Some a => Some (a, v) | None => None end
                    | None => None
                    end with
              | Some (a, v) => Options [(a, Some (false, v))]
              | None =>
                  match option_tuples s with
                  | [] => if negative_number s then Value else if has_char 32 s then Value else Unknown
                  | ts => Options ts
                  end
              end
        end
  end.

(** The conversion of a value. *)
Definition convert (t : ArgType) (s : pystr) : option ArgValue :=
  match t with
  | TStr => Some (VStr s)
  | TInt => VInt <$> int_of_str s
  | TFloat => VFloat <$> float_of_str s
  end.

(** The words that are the value of an option: not an option, not a double dash. *)
Definition is_value (s : pystr) : bool :=
  negb (bool_decide (s = str "--")) && match parse_optional s with Value => true | _ => false end.

(** After the last word: every required option was given, and no word was left over. *)
Definition finish_parse (extras : bool) (seen : list pystr) (ns : Namespace) : Parse :=
  if existsb (fun a => required a && negb (bool_decide (flag a ∈ seen))) args then ParserExit 2
  else if extras then ParserExit 2 else Parsed ns.

(** The words from left to right. *)
Fixpoint consume (words : list pystr) (extras : bool) (seen : list pystr) (ns : Namespace) : Parse :=
  match words with
  | [] => finish_parse extras seen ns
  | w :: ws =>
      if bool_decide (w = str "--") then finish_parse true seen ns
      else
        match parse_optional w with
        | Value => consume ws true seen ns
        | Unknown => consume ws true seen ns
        | Options [(Help, None)] => ParserExit 0
        | Options [(Help, Some (joined, v))] =>
            if joined && forallb (fun c => (c =? 104)%N) v then ParserExit 0 else ParserExit 2
        | Options [(Sets a, explicit)] =>
            match kind a, explicit with
            | StoreTrue, None => consume ws extras (flag a :: seen) (dict_set (flag a) (VBool true) ns)
            | StoreTrue, Some _ => ParserExit 2
            | Takes t, Some (_, v) =>
                match convert t v with
                | Some x => consume ws extras (flag a :: seen) (dict_set (flag a) x ns)
                | None => ParserExit 2
                end
            | Takes t, None =>
                match ws with
                | v :: ws' =>
                    if is_value v then
                      match convert t v with
                      | Some x => consume ws' extras (flag a :: seen) (dict_set (flag a) x ns)
                      | None => ParserExit 2
                      end
                    else ParserExit 2
                | [] => ParserExit 2
                end
            end
        | Options _ => ParserExit 2
        end
  end.

Definition defaults : Namespace := (fun a => (flag a, arg_default a)) <$> args.
Definition parse_sub (words : list pystr) : Parse := consume words false [] defaults.
End words.

(** [parser.parse_args(argv)] of a parser with subcommands: the command and its namespace, or the
    status with which the process exits; [extras] tells that unknown options came before. *)
Fixpoint parse_args `{UnicodeDB} (subs : list (pystr * list Arg)) (extras : bool) (argv : list pystr)
    : (pystr * Namespace) + Z :=
  match argv with
  | [] => inr 2
  | w :: ws =>
      if bool_decide (w = str "--") then inr 2
      else
        match parse_optional [] w with
        | Value =>
            match dict_get w subs with
            | None => inr 2
            | Some args =>
                match parse_sub args ws with
                | ParserExit code => inr code
                | Parsed ns => if extras then inr 2 else inl (w, ns)
                end
            end
        | Unknown => parse_args subs true ws
        | Options [(Help, None)] => inr 0
        | Options [(Help, Some (joined, v))] => if joined && forallb (fun c => (c =? 104)%N) v then inr 0 else inr 2
        | Options _ => inr 2
        end
  end.

(** ** Well-formed parsers *)

(** Long names without an equals sign, all different, and not the name of the help option. *)
Definition arg_ok (a : Arg) : bool :=
  is_prefix (str "--") (flag a) && (2 <? len (flag a)) && negb (has_char 61 (flag a)) && negb (bool_decide (flag a = str "--help")).
Definition args_ok (args : list Arg) : bool := forallb arg_ok args && bool_decide (NoDup (flag <$> args)).

Section facts.
Context `{UnicodeDB} (args : list Arg) (Hargs : args_ok args = true).

Lemma arg_in_ok a : a ∈ args -> arg_ok a = true.
Proof. intros Ha. apply andb_true_iff in Hargs as [Hok _]. apply forallb_Forall in Hok. by eapply Forall_forall in Hok. Qed.

Lemma flag_shape a : a ∈ args -> exists c t, flag a = 45%N :: 45%N :: c :: t /\ has_char 61 (flag a) = false.
Proof.
  intros Ha%arg_in_ok. unfold arg_ok in Ha. rewrite !andb_true_iff, !negb_true_iff in Ha.
  destruct Ha as [[[Hp Hl] Hc] _]. unfold is_prefix in Hp. change (str "--") with [45%N; 45%N] in Hp.
  destruct (flag a) as [|x [|y [|c t]]]; try done.
  cbn [strip_prefix] in Hp. destruct (N.eqb_spec 45 x) as [<-|]; [|done]. destruct (N.eqb_spec 45 y) as [<-|]; [|done].
  by exists c, t.
Qed.

(** The table of option strings gives back an option by its name. *)
Lemma option_strings_flag a : a ∈ args -> dict_get (flag a) (option_strings args) = Some (Sets a).
Proof.
  intros Ha. destruct (flag_shape a Ha) as (c & t & E & _).
  assert (flag a <> str "--help") as Hne.
  { pose proof (arg_in_ok a Ha) as Hok. unfold arg_ok in Hok. rewrite !andb_true_iff, negb_true_iff in Hok.
    destruct Hok as [_ Hb%negb_true_iff%bool_decide_eq_false]. exact Hb. }
  unfold option_strings. cbn [dict_get]. rewrite decide_False by (rewrite E; discriminate). rewrite decide_False by done.
  apply dict_elem_get; [|apply list_elem_of_fmap; by exists a].
  rewrite <- list_fmap_compose. apply andb_true_iff in Hargs as [_ Hnd]. by apply bool_decide_eq_true in Hnd.
Qed.

(** ** How an option may be written *)

(** A name that stands for one option only: the name itself or an abbreviation of it. *)
Definition names (p : pystr) (a : Arg) : Prop :=
  p = flag a \/
  (dict_get p (option_strings args) = None /\ is_prefix (str "--") p = true /\ (2 < len p) /\ has_char 61 p = false /\
   filter (fun sa => is_prefix p sa.1 = true) (option_strings args) = [(flag a, Sets a)]).

Inductive spelled (a : Arg) : ArgValue -> list pystr -> Prop :=
| spelled_apart t p v x : kind a = Takes t -> names p a -> convert t v = Some x -> is_value args v = true ->
    spelled a x [p; v]
| spelled_joined t p v x : kind a = Takes t -> names p a -> convert t v = Some x -> spelled a x [p ++ 61%N :: v]
| spelled_flag p : kind a = StoreTrue -> names p a -> spelled a (VBool true) [p].

Lemma names_shape p a : a ∈ args -> names p a -> exists c t, p = 45%N :: 45%N :: c :: t /\ has_char 61 p = false.
Proof.
  intros Ha [->|(_ & Hp & Hl & Hc & _)]; [by apply flag_shape|].
  unfold is_prefix in Hp. change (str "--") with [45%N; 45%N] in Hp. destruct p as [|x [|y [|c t]]]; try done.
  cbn [strip_prefix] in Hp. destruct (N.eqb_spec 45 x) as [<-|]; [|done]. destruct (N.eqb_spec 45 y) as [<-|]; [|done].
  by exists c, t.
Qed.

Lemma has_char_none c s : has_char c s = false -> split_first c s = None.
Proof.
  intros Hc. destruct (split_first c s) eqn:E; [|done]. assert (has_char c s = true); [|congruence].
  apply has_char_split. rewrite E. by eexists.
Qed.
Lemma has_char_forall c s : has_char c s = false -> Forall (fun x => x <> c) s.
Proof.
  unfold has_char. induction s as [|x s IH]; cbn; [constructor|]. intros [Hx Hs]%orb_false_iff.
  apply N.eqb_neq in Hx. constructor; [done|by apply IH].
Qed.

(** A name is recognised, alone and with a value joined to it. *)
Lemma parse_name p a : a ∈ args -> names p a -> parse_optional args p = Options [(Sets a, None)].
Proof.
  intros Ha Hn. destruct (names_shape p a Ha Hn) as (c & t & E & Hc). unfold parse_optional. rewrite E. cbn [N.eqb Pos.eqb negb].
  rewrite <- E. destruct Hn as [->|(Hd & _ & _ & _ & Hf)]; [by rewrite option_strings_flag|].
  rewrite Hd, bool_decide_eq_false_2 by discriminate. rewrite (has_char_none 61 p Hc).
  unfold option_tuples. rewrite E. cbn [N.eqb Pos.eqb]. rewrite <- E, (has_char_none 61 p Hc), Hf. done.
Qed.

Lemma parse_name_joined p a v :
  a ∈ args -> names p a -> parse_optional args (p ++ 61%N :: v) = Options [(Sets a, Some (false, v))].
Proof.
  intros Ha Hn. destruct (names_shape p a Ha Hn) as (c & t & E & Hc).
  assert (dict_get (p ++ 61%N :: v) (option_strings args) = None) as Hd.
  { apply dict_get_None. unfold option_strings. cbn [fmap list_fmap fst]. rewrite !not_elem_of_cons.
    split_and!; [rewrite E; discriminate| |].
    - intros Heq. assert (has_char 61 (str "--help") = true) as Hx; [|done]. rewrite <- Heq. apply has_char_app.
    - rewrite <- list_fmap_compose. intros (b & Hb & Hin)%list_elem_of_fmap. cbn in Hb.
      destruct (flag_shape b Hin) as (? & ? & _ & Hno). rewrite <- Hb, has_char_app in Hno. done. }
  assert (split_first 61 (p ++ 61%N :: v) = Some (p, v)) as Hs by (apply split_first_app; by apply has_char_forall).
  unfold parse_optional. rewrite E. cbn [app N.eqb Pos.eqb negb].
  change (45%N :: 45%N :: c :: t ++ 61%N :: v) with ((45%N :: 45%N :: c :: t) ++ 61%N :: v). rewrite <- E, Hd.
  rewrite bool_decide_eq_false_2 by discriminate. rewrite Hs.
  destruct Hn as [->|(Hdp & _ & _ & _ & Hf)]; [by rewrite option_strings_flag|]. rewrite Hdp.
  unfold option_tuples. rewrite E. cbn [app N.eqb Pos.eqb].
  change (45%N :: 45%N :: c :: t ++ 61%N :: v) with ((45%N :: 45%N :: c :: t) ++ 61%N :: v). rewrite <- E, Hs, Hf. done.
Qed.

Lemma not_dashes p a v : a ∈ args -> names p a -> p <> str "--" /\ p ++ 61%N :: v <> str "--".
Proof. intros Ha Hn. destruct (names_shape p a Ha Hn) as (c & t & -> & _). split; discriminate. Qed.

(** However it is written, an option sets its value and the words after it are read. *)
Lemma consume_spelled a x toks ws extras seen ns :
  a ∈ args -> spelled a x toks ->
  consume args (toks ++ ws) extras seen ns = consume args ws extras (flag a :: seen) (dict_set (flag a) x ns).
Proof.
  intros Ha Hsp. destruct Hsp as [t p v x Hk Hn Hc Hv|t p v x Hk Hn Hc|p Hk Hn];
    destruct (not_dashes p a v Ha Hn) as [H1 H2] || destruct (not_dashes p a [] Ha Hn) as [H1 H2]; cbn [app consume].
  - rewrite bool_decide_eq_false_2, parse_name with (a := a), Hk, Hv, Hc by done. done.
  - rewrite bool_decide_eq_false_2, parse_name_joined with (a := a), Hk, Hc by done. done.
  - rewrite bool_decide_eq_false_2, parse_name with (a := a), Hk by done. done.
Qed.

(** A command line: the options with the words that write them. *)
Inductive command_line : list (Arg * ArgValue) -> list pystr -> Prop :=
| line_nil : command_line [] []
| line_cons a x toks sets words :
    a ∈ args -> spelled a x toks -> command_line sets words -> command_line ((a, x) :: sets) (toks ++ words).

Definition assign (ns : Namespace) (sets : list (Arg * ArgValue)) : Namespace :=
  foldl (fun ns ax => dict_set (flag ax.1) ax.2 ns) ns sets.

Lemma consume_line sets words extras seen ns :
  command_line sets words ->
  consume args words extras seen ns = finish_parse args extras (reverse (flag <$> sets.*1) ++ seen) (assign ns sets).
Proof.
  intros Hl. revert seen ns. induction Hl as [|a x toks sets words Ha Hsp Hl IH]; intros seen ns; [done|].
  rewrite consume_spelled with (a := a) (x := x) by done. rewrite IH. cbn [fmap list_fmap fst].
  rewrite reverse_cons, <- app_assoc. done.
Qed.

(** A command line that gives every required option is parsed to the values it writes. *)
Lemma parse_sub_line sets words :
  command_line sets words -> Forall (fun a => required a = true -> a ∈ sets.*1) args ->
  parse_sub args words = Parsed (assign (defaults args) sets).
Proof.
  intros Hl Hreq. unfold parse_sub. rewrite (consume_line sets) by done. unfold finish_parse.
  destruct (existsb _ args) eqn:E; [|done]. apply existsb_exists in E as (a & Hin & Ha).
  apply andb_true_iff in Ha as [Hr Hns]. apply list_elem_of_In in Hin. eapply Forall_forall in Hreq; [|exact Hin].
  apply negb_true_iff, bool_decide_eq_false in Hns. exfalso. apply Hns. rewrite app_nil_r, elem_of_reverse.
  apply list_elem_of_fmap. exists a. by split; [|apply Hreq].
Qed.

(** ** Every namespace is well typed *)

Definition has_type (k : ArgKind) (v : ArgValue) : Prop :=
  match k, v with
  | StoreTrue, VBool _ | Takes TStr, VStr _ | Takes TInt, VInt _ | Takes TFloat, VFloat _ => True
  | _, _ => False
  end.

(** Each option has a value: its default, or one of its type, and the latter when it is required. *)
Definition ns_typed (seen : list pystr) (ns : Namespace) : Prop :=
  forall a, a ∈ args -> exists v, dict_get (flag a) ns = Some v /\
    ((flag a ∉ seen) /\ v = arg_default a \/ has_type (kind a) v).

Lemma convert_typed t s v : convert t s = Some v -> has_type (Takes t) v.
Proof. destruct t; cbn; [intros [= <-]; done|destruct (int_of_str s)|destruct (float_of_str s)]; by intros [= <-]. Qed.

Lemma ns_typed_set a v seen ns :
  ns_typed seen ns -> a ∈ args -> has_type (kind a) v -> ns_typed (flag a :: seen) (dict_set (flag a) v ns).
Proof.
  intros Hns Ha Hv b Hb. rewrite dict_get_set. destruct (decide (flag a = flag b)) as [E|Hne].
  - exists v. split; [done|]. right. assert (a = b) as <-; [|done].
    apply andb_true_iff in Hargs as [_ Hnd]. apply bool_decide_eq_true in Hnd.
    apply list_elem_of_lookup in Ha as [i Hi], Hb as [j Hj].
    assert (i = j) as ->; [|congruence]. eapply NoDup_lookup; [exact Hnd| |]; rewrite list_lookup_fmap; [by rewrite Hi|].
    rewrite Hj. cbn. by rewrite E.
  - destruct (Hns b Hb) as (x & Hx & Hor). exists x. split; [done|]. destruct Hor as [[Hs Hd]|?]; [|by right].
    left. split; [|done]. rewrite not_elem_of_cons. by split; [congruence|].
Qed.

Lemma option_strings_in p a : (p, Sets a) ∈ option_strings args -> a ∈ args.
Proof.
  unfold option_strings. rewrite !elem_of_cons. intros [?|[?|(b & Hb & Hin)%list_elem_of_fmap]]; [done..|]. by injection Hb as _ ->.
Qed.

Lemma parse_optional_in w ms a e : parse_optional args w = Options ms -> (Sets a, e) ∈ ms -> a ∈ args.
Proof.
  assert (forall p, dict_get p (option_strings args) = Some (Sets a) -> a ∈ args) as Hget
    by (intros p Hp%dict_get_Some_elem; by eapply option_strings_in).
  unfold parse_optional. destruct w as [|c rest]; [done|]. destruct (negb _); [done|].
  destruct (dict_get (c :: rest) _) as [b|] eqn:Ed.
  { intros [= <-] E%list_elem_of_singleton. injection E as <- _. eauto. }
  destruct (bool_decide _); [done|].
  destruct (match split_first 61 (c :: rest) with Some (p, v) => _ | None => None end) as [[b v]|] eqn:Es.
  { intros [= <-] E%list_elem_of_singleton. injection E as <- _. destruct (split_first 61 _) as [[p v']|]; [|done].
    destruct (dict_get p _) eqn:Ep; [|done]. injection Es as -> _. eauto. }
  destruct (option_tuples args (c :: rest)) as [|m ms'] eqn:Et; [by destruct (negative_number (c :: rest)), (has_char 32 (c :: rest))|].
  intros [= <-] Hin. rewrite <- Et in Hin. clear Et. unfold option_tuples in Hin. destruct rest as [|c' rest]; [set_solver|].
  destruct (c' =? 45)%N.
  - destruct (split_first 61 (c :: c' :: rest)) as [[p0 v0]|];
      apply list_elem_of_fmap in Hin as ([p b] & E & [_ Hp]%list_elem_of_filter); injection E as <- _; by eapply option_strings_in.
  - apply list_elem_of_bind in Hin as ([p b] & Hin & Hp). cbn [fst snd] in Hin.
    destruct (bool_decide _); [apply list_elem_of_singleton in Hin; injection Hin as <- _; by eapply option_strings_in|].
    destruct (is_prefix _ _); [apply list_elem_of_singleton in Hin; injection Hin as <- _; by eapply option_strings_in|set_solver].
Qed.

Lemma consume_typed words : forall extras seen ns ns',
  ns_typed seen ns -> consume args words extras seen ns = Parsed ns' ->
  exists seen', ns_typed seen' ns' /\ Forall (fun a => required a = true -> flag a ∈ seen') args.
Proof.
  assert (forall extras seen ns ns', ns_typed seen ns -> finish_parse args extras seen ns = Parsed ns' ->
    exists seen', ns_typed seen' ns' /\ Forall (fun a => required a = true -> flag a ∈ seen') args) as Hfin.
  { intros extras seen ns ns' Hns. unfold finish_parse. destruct (existsb _ args) eqn:E; [done|]. destruct extras; [done|].
    intros [= <-]. exists seen. split; [done|]. apply Forall_forall. intros a Ha Hr.
    destruct (decide (flag a ∈ seen)) as [?|Hn]; [done|]. assert (existsb
      (fun a => required a && negb (bool_decide (flag a ∈ seen))) args = true) as Hx; [|congruence].
    apply existsb_exists. exists a. split; [by apply list_elem_of_In|]. by rewrite Hr, bool_decide_eq_false_2. }
  induction words as [words IH] using (induction_ltof1 _ (@length pystr)). unfold ltof in IH.
  intros extras seen ns ns' Hns. destruct words as [|w ws]; cbn [consume]; [by apply Hfin|].
  destruct (bool_decide _); [by apply Hfin|].
  assert (forall ws' extras seen ns, (length ws' < S (length ws))%nat -> ns_typed seen ns ->
    consume args ws' extras seen ns = Parsed ns' -> exists seen', ns_typed seen' ns' /\
    Forall (fun a => required a = true -> flag a ∈ seen') args) as Hgo by (intros; eapply IH; eauto).
  destruct (parse_optional args w) as [|ms|] eqn:Ew; [by apply Hgo; [lia|]| |by apply Hgo; [lia|]].
  destruct ms as [|[[|a] e] [|m ms]]; [done|..]; try (by destruct e as [[? ?]|]).
  { destruct e as [[joined v]|]; [|done]. by destruct (_ && _). }
  assert (a ∈ args) as Ha by (eapply parse_optional_in; [exact Ew|by left]).
  destruct (kind a) as [t|] eqn:Ek.
  - destruct e as [[joined v]|].
    + destruct (convert t v) as [x|] eqn:Ec; [|done]. apply Hgo; [lia|]. apply ns_typed_set; [done|done|].
      rewrite Ek. by eapply convert_typed.
    + destruct ws as [|v ws']; [done|]. destruct (is_value args v); [|done].
      destruct (convert t v) as [x|] eqn:Ec; [|done]. apply Hgo; [cbn; lia|]. apply ns_typed_set; [done|done|].
      rewrite Ek. by eapply convert_typed.
  - destruct e; [done|]. apply Hgo; [lia|]. apply ns_typed_set; [done|done|]. by rewrite Ek.
Qed.

(** Whatever the words, a namespace that is returned has a value for every option: its default or a
    value of its type, and for a required option the latter. *)
Lemma parse_sub_typed words ns :
  parse_sub args words = Parsed ns ->
  forall a, a ∈ args -> exists v, dict_get (flag a) ns = Some v /\
    (required a = false /\ v = arg_default a \/ has_type (kind a) v).
Proof.
  intros Hp. destruct (consume_typed words false [] (defaults args) ns) as (seen & Hns & Hreq); [|done|].
  - intros a Ha. exists (arg_default a). split; [|left; split; [set_solver|done]].
    apply dict_elem_get; [|apply list_elem_of_fmap; by exists a]. unfold defaults. rewrite <- list_fmap_compose.
    apply andb_true_iff in Hargs as [_ Hnd]. by apply bool_decide_eq_true in Hnd.
  - intros a Ha. destruct (Hns a Ha) as (v & Hv & [[Hs Hd]|Ht]); exists v; (split; [done|]); [|by right]. left. split; [|done].
    destruct (required a) eqn:Er; [|done]. exfalso. apply Hs. by eapply (proj1 (Forall_forall _ _) Hreq).
Qed.

(** The process exits with status 0, for help, or 2, for an error. *)
Lemma consume_exit words : forall extras seen ns code,
  consume args words extras seen ns = ParserExit code -> code = 0 \/ code = 2.
Proof.
  assert (forall extras seen ns code, finish_parse args extras seen ns = ParserExit code -> code = 0 \/ code = 2) as Hfin.
  { intros extras seen ns code. unfold finish_parse. destruct (existsb _ args); [|destruct extras]; intros [= <-]; by right. }
  induction words as [words IH] using (induction_ltof1 _ (@length pystr)). unfold ltof in IH.
  intros extras seen ns code. destruct words as [|w ws]; cbn [consume]; [by apply Hfin|].
  destruct (bool_decide _); [by apply Hfin|].
  assert (ParserExit 0 = ParserExit code -> code = 0 \/ code = 2) as H0' by (intros [= <-]; by left).
  assert (ParserExit 2 = ParserExit code -> code = 0 \/ code = 2) as H2' by (intros [= <-]; by right).
  destruct (parse_optional args w) as [|ms|] eqn:Ew; [apply IH; cbn; lia| |apply IH; cbn; lia].
  destruct ms as [|[[|a] e] [|m ms]]; try done; try (by destruct e as [[? ?]|]).
  { destruct e as [[joined v]|]; [|done]. by destruct (_ && _). }
  destruct (kind a) as [t|].
  - destruct e as [[joined v]|].
    + destruct (convert t v); [|done]. apply IH. cbn. lia.
    + destruct ws as [|v ws']; [done|]. destruct (is_value args v); [|done]. destruct (convert t v); [|done]. apply IH. cbn. lia.
  - destruct e; [done|]. apply IH. cbn. lia.
Qed.
End facts.

(** What [parse_args] returns comes from the parser of the command. *)
Lemma parse_args_inv `{UnicodeDB} subs extras argv :
  match parse_args subs extras argv with
  | inl (command, ns) => exists args words, dict_get command subs = Some args /\ parse_sub args words = Parsed ns
  | inr code => code = 0 \/ code = 2
  end.
Proof.
  revert extras. induction argv as [|w ws IH]; intros extras; cbn [parse_args]; [by right|].
  destruct (bool_decide _); [by right|]. destruct (parse_optional [] w) as [|ms|]; [| |apply IH].
  - destruct (dict_get w subs) as [args|] eqn:Ed; [|by right].
    destruct (parse_sub args ws) as [ns|code] eqn:Ep; [|by eapply consume_exit].
    destruct extras; [by right|]. eauto.
  - destruct ms as [|[[|a] e] [|m ms]]; try (by right); destruct e as [[joined v]|]; try (by right); [|by left].
    destruct (_ && _); [by left|by right].
Qed.
