(* ===== verification/Autoloop.v ===== *)
(** * The autonomous loop ([scripts/autonomous_loop.py])

    Cycles of simulation runs and quality gates until one fails.  The simulator of the tests, the programs
    that are run and the random seeds are parameters; what the script asks of them, in which order, and
    what it makes of their answers is modelled.  Printing and the pause between cycles are left out. *)

From Stdlib Require Import ZArith NArith Lia.
From S2P Require Import Prelude PyFloat Text Json JsonFacts Security FloatText PyText Argparse.
Open Scope Z_scope.

(** ** The script of a simulation *)

Inductive SimOp :=
| SimStart
| SimSubmit (node_id task_id : pystr) (payload : list byte) (priority : Z)
| SimRunFor (duration step_size : float)
| SimPartition (group_a group_b : list pystr)
| SimHeal (group_a group_b : list pystr)
| SimStop.

Definition fuzz_peers : list pystr := [str "p1"; str "p2"; str "p3"; str "p4"].

Definition fuzz_submit (seed : Z) (t_idx : nat) : SimOp :=
  SimSubmit (str "p" ++ N_str (N.of_nat (t_idx mod 4 + 1))) (str "fuzz-" ++ Z_str seed ++ str "-" ++ N_str (N.of_nat t_idx))
    (Z_byte <$> (Z.of_N <$> (str "payload-" ++ Z_str seed ++ str "-" ++ N_str (N.of_nat t_idx)))) (Z.of_nat t_idx * 2).

(** What the body of the [try] asks of the cluster. *)
Definition fuzz_script (seed : Z) : list SimOp :=
  let step := decimal_float false 2 (-1) in
  let left := [str "p1"; str "p2"] in
  let right := [str "p3"; str "p4"] in
  SimStart :: (fuzz_submit seed <$> List.seq 0 5) ++
  [SimRunFor (decimal_float false 50 (-1)) step; SimPartition left right; SimRunFor (decimal_float false 50 (-1)) step;
   SimHeal left right; SimRunFor (decimal_float false 100 (-1)) step; SimStop].

(** The simulator: building a cluster, and a call of one of its methods. *)
Class Simulator := {
  SimCluster : Type;
  make_cluster : Z -> list pystr -> result SimCluster;
  sim_call : SimOp -> SimCluster -> result SimCluster;
}.

(** The machine the script runs on: where programs are found and what they return in each cycle. *)
Class Machine := {
  sys_prefix : pystr;
  path_exists : pystr -> bool;
  which : pystr -> option pystr;
  returncode : nat -> list pystr -> result Z;
  randint : nat -> nat -> Z;
}.

Section loop.
Context `{Simulator} `{Machine}.

Fixpoint run_script (ops : list SimOp) (c : SimCluster) : result SimCluster :=
  match ops with
  | [] => Ok c
  | op :: ops' => let! c := sim_call op c in run_script ops' c
  end.

(** The loop of [run_fuzz_cycle]: the constructor of the cluster is outside of the [try]. *)
Fixpoint fuzz_seeds (seeds : list Z) : result bool :=
  match seeds with
  | [] => Ok true
  | seed :: seeds' =>
      let! cluster := make_cluster seed fuzz_peers in
      match run_script (fuzz_script seed) cluster with
      | Ok _ => fuzz_seeds seeds'
      | Raise _ => Ok false
      end
  end.

(** [run_fuzz_cycle]; a negative count is an empty range. *)
Definition run_fuzz_cycle (cycle : nat) (seed_count : Z) : result bool :=
  fuzz_seeds (randint cycle <$> List.seq 0 (Z.to_nat seed_count)).

(** [_find_bin] *)
Definition find_bin (name : pystr) : pystr :=
  let venv_bin := sys_prefix ++ str "/bin/" ++ name in
  if path_exists venv_bin then venv_bin
  else match which name with Some ((_ :: _) as found) => found | _ => name end.

Definition gate_commands : list (list pystr) := [
  [find_bin (str "ruff"); str "check"; str "."];
  [find_bin (str "ruff"); str "format"; str "--check"; str "."];
  [find_bin (str "mypy"); str "--strict"; str "peerq"; str "tests"; str "bench"; str "examples"; str "scripts"];
  [find_bin (str "pytest"); str "-q"; str "--cov=peerq"; str "--cov-fail-under=90"; str "tests/"]].

(** [run_quality_gates]: its answer and the commands it ran. *)
Fixpoint run_gates (cycle : nat) (cmds : list (list pystr)) : result bool * list (list pystr) :=
  match cmds with
  | [] => (Ok true, [])
  | cmd :: cmds' =>
      match returncode cycle cmd with
      | Raise e => (Raise e, [cmd])
      | Ok code =>
          if negb (code =? 0) then (Ok false, [cmd])
          else let '(answer, ran) := run_gates cycle cmds' in (answer, cmd :: ran)
      end
  end.
Definition run_quality_gates (cycle : nat) : result bool := (run_gates cycle gate_commands).1.

(** ** [main] *)

Inductive LoopOutcome := Returned | Exited (code : Z) | Escaped (e : exc) | StillRunning.

(** Both checks are made in each cycle, also when the first has failed. *)
Definition run_cycle (cycle : nat) (seeds : Z) : result bool :=
  let! fuzz_ok := run_fuzz_cycle cycle seeds in
  let! gates_ok := run_quality_gates cycle in
  Ok (fuzz_ok && gates_ok).

(** [while True: ...] for at most [fuel] cycles. *)
Fixpoint run_cycles (fuel cycle : nat) (once : bool) (seeds : Z) : LoopOutcome :=
  match fuel with
  | O => StillRunning
  | S f =>
      match run_cycle cycle seeds with
      | Raise e => Escaped e
      | Ok false => Exited 1
      | Ok true => if once then Returned else run_cycles f (S cycle) once seeds
      end
  end.

Definition loop_parser : list Arg := [
  {| flag := str "--once"; kind := StoreTrue; required := false; arg_default := VBool false |};
  {| flag := str "--seeds"; kind := Takes TInt; required := false; arg_default := VInt 20 |}].

Definition loop_main `{UnicodeDB} (fuel : nat) (argv : list pystr) : LoopOutcome :=
  match parse_sub loop_parser argv with
  | ParserExit code => Exited code
  | Parsed ns =>
      match dict_get (str "--once") ns, dict_get (str "--seeds") ns with
      | Some (VBool once), Some (VInt seeds) => run_cycles fuel 1 once seeds
      | _, _ => Escaped AttributeError
      end
  end.

(** ** What its verdicts mean *)

(** A cycle that runs is green exactly when every simulation went through and every command returned zero. *)
Definition simulates (seed : Z) : Prop :=
  exists c c', make_cluster seed fuzz_peers = Ok c /\ run_script (fuzz_script seed) c = Ok c'.

Lemma fuzz_green seeds : fuzz_seeds seeds = Ok true <-> Forall simulates seeds.
Proof.
  induction seeds as [|seed seeds IH]; cbn [fuzz_seeds]; [split; [constructor|done]|]. rewrite Forall_cons, <- IH. unfold simulates.
  destruct (make_cluster seed fuzz_peers) as [c|e]; cbn [rbind]; [|split; [done|intros [(? & ? & ? & _) _]; done]].
  destruct (run_script (fuzz_script seed) c) as [c'|e] eqn:E; split; try done.
  - intros Hf. split; [|done]. by exists c, c'.
  - by intros [_ ?].
  - intros [(c0 & c1 & [= <-] & E') _]. congruence.
Qed.

Lemma gates_green cycle cmds : (run_gates cycle cmds).1 = Ok true <-> Forall (fun cmd => returncode cycle cmd = Ok 0) cmds.
Proof.
  induction cmds as [|cmd cmds IH]; cbn [run_gates]; [split; [constructor|done]|]. rewrite Forall_cons, <- IH.
  destruct (returncode cycle cmd) as [code|e]; [|split; [done|by intros [? _]]].
  destruct (Z.eqb_spec code 0) as [->|Hne]; cbn [negb].
  - destruct (run_gates cycle cmds) as [a ran]. cbn. tauto.
  - split; [done|]. by intros [[= ?] _].
Qed.

(** The commands are run up to the first that fails. *)
Lemma gates_ran cycle cmds :
  exists rest, cmds = (run_gates cycle cmds).2 ++ rest /\
    ((run_gates cycle cmds).1 = Ok true -> rest = []) /\
    Forall (fun cmd => returncode cycle cmd = Ok 0) (removelast (run_gates cycle cmds).2).
Proof.
  induction cmds as [|cmd cmds (rest & Hr & Ht & Hz)]; cbn [run_gates]; [exists []; split_and!; [done|done|constructor]|].
  destruct (returncode cycle cmd) as [code|e] eqn:Ec; [|exists cmds; split_and!; [done|done|constructor]].
  destruct (Z.eqb_spec code 0) as [->|Hne]; cbn [negb]; [|exists cmds; split_and!; [done|done|constructor]].
  destruct (run_gates cycle cmds) as [a ran] eqn:E. cbn [fst snd] in *. exists rest. split_and!; [by rewrite Hr at 1|done|].
  cbn [removelast]. destruct ran; [constructor|]. by constructor.
Qed.

Definition green (cycle : nat) (seeds : Z) : Prop :=
  Forall simulates (randint cycle <$> List.seq 0 (Z.to_nat seeds)) /\ Forall (fun cmd => returncode cycle cmd = Ok 0) gate_commands.

Lemma cycle_green cycle seeds : run_cycle cycle seeds = Ok true <-> green cycle seeds.
Proof.
  unfold run_cycle, run_fuzz_cycle, run_quality_gates, green. rewrite <- fuzz_green, <- gates_green.
  destruct (fuzz_seeds _) as [[]|e]; destruct ((run_gates cycle gate_commands).1) as [[]|e']; cbn; naive_solver.
Qed.

(** The verdict of the loop is that of its first cycle that is not green: with exit status 1 when it
    failed, and with the exception when a program or the simulator could not be run; without one the
    loop returns after its first cycle if it was asked for one only, and otherwise never ends. *)
Theorem loop_verdict (fuel : nat) (once : bool) (seeds : Z) :
  match run_cycles fuel 1 once seeds with
  | Returned => once = true /\ green 1 seeds
  | Exited code => code = 1 /\ exists k, (1 <= k <= fuel)%nat /\ (forall j, (1 <= j < k)%nat -> green j seeds) /\ run_cycle k seeds = Ok false
  | Escaped e => exists k, (1 <= k <= fuel)%nat /\ (forall j, (1 <= j < k)%nat -> green j seeds) /\ run_cycle k seeds = Raise e
  | StillRunning => forall j, (1 <= j <= fuel)%nat -> once = false /\ green j seeds
  end.
Proof.
  assert (forall f c, (forall j, (1 <= j < c)%nat -> green j seeds) -> (1 <= c)%nat -> (once = true -> c = 1%nat) ->
    (c + f = S fuel)%nat ->
    match run_cycles f c once seeds with
    | Returned => once = true /\ green 1 seeds
    | Exited code => code = 1 /\ exists k, (1 <= k <= fuel)%nat /\ (forall j, (1 <= j < k)%nat -> green j seeds) /\ run_cycle k seeds = Ok false
    | Escaped e => exists k, (1 <= k <= fuel)%nat /\ (forall j, (1 <= j < k)%nat -> green j seeds) /\ run_cycle k seeds = Raise e
    | StillRunning => forall j, (1 <= j <= fuel)%nat -> once = false /\ green j seeds
    end) as Hgen.
  { induction f as [|f IH]; intros c Hg Hc Ho Hf; cbn [run_cycles].
    - intros j Hj. split; [|apply Hg; lia]. destruct once; [specialize (Ho eq_refl); lia|done].
    - destruct (run_cycle c seeds) as [[]|e] eqn:Ec; [|split; [done|]; exists c; split_and!; [lia|lia|done|done]|exists c; split_and!; [lia|lia|done|done]].
      apply cycle_green in Ec. destruct once eqn:Eo; [specialize (Ho eq_refl); by subst|].
      apply IH; [|lia|done|lia]. intros j Hj. destruct (decide (j = c)) as [->|]; [done|apply Hg; lia]. }
  apply Hgen; [lia|lia|done|lia].
Qed.
End loop.

(** ** Samples *)

Definition idle_simulator : Simulator := {| SimCluster := (); make_cluster := fun _ _ => Ok (); sim_call := fun _ c => Ok c |}.

(** A machine without a virtual environment on which every program passes, except the type checker from
    the third cycle on. *)
Definition sample_machine : Machine := {|
  sys_prefix := str "/usr"; path_exists := fun _ => false; which := fun name => Some (str "/bin/" ++ name);
  returncode := fun cycle cmd => Ok (if bool_decide (head cmd = Some (str "/bin/mypy")) && (2 <? Z.of_nat cycle) then 1 else 0);
  randint := fun _ i => 1000 + Z.of_nat i |}.

Definition ascii_only : UnicodeDB := {| uni_space := fun _ => false; uni_decimal := fun _ => None |}.

Example loop_samples :
  loop_main (H := idle_simulator) (H0 := sample_machine) (H1 := ascii_only) 10 [str "--once"] = Returned /\
  loop_main (H := idle_simulator) (H0 := sample_machine) (H1 := ascii_only) 10 [str "--seeds"; str "2"] = Exited 1 /\
  loop_main (H := idle_simulator) (H0 := sample_machine) (H1 := ascii_only) 10 [str "--seeds"; str "two"] = Exited 2.
Proof. split_and!; vm_compute; reflexivity. Qed.
