(* ===== verification/CliMain.v ===== *)
(** * The program's command line ([main] of [peerq/cli.py])

    The option tables, the dispatch to the commands, and the services that the node command starts
    and stops.  Every command line either is dispatched with arguments of the declared types or makes
    the process exit, and the arguments of a command can be written and read back. *)

From Stdlib Require Import ZArith NArith Lia.
From S2P Require Import Prelude PyFloat Text Json JsonFacts Security Consensus Crypto Lattice Heapq Queue.
From S2P Require Import Wal Metrics Failure Message SimNetwork Tcp Sha256 FloatText PyText Node NodeFacts NodeTheorems.
From S2P Require Import Mesh Discovery NodeScenarios Cli Http HttpClient Argparse.
Open Scope Z_scope.

(** ** The options *)

Definition opt (name : string) (k : ArgKind) (req : bool) (d : ArgValue) : Arg :=
  {| flag := str name; kind := k; required := req; arg_default := d |}.

Definition o_id := opt "--id" (Takes TStr) true VNone.
Definition o_host := opt "--host" (Takes TStr) false (VStr (str "127.0.0.1")).
Definition o_port := opt "--port" (Takes TInt) true VNone.
Definition o_peers := opt "--peers" (Takes TStr) false (VStr []).
Definition o_wal_path := opt "--wal-path" (Takes TStr) false VNone.
Definition o_discovery := opt "--discovery" StoreTrue false (VBool false).
Definition o_discovery_port := opt "--discovery-port" (Takes TInt) false (VInt 19876).
Definition o_cluster_id := opt "--cluster-id" (Takes TStr) false (VStr (str "peerq-default")).
Definition o_status_port := opt "--status-port" (Takes TInt) false VNone.
Definition o_lease_duration := opt "--lease-duration" (Takes TFloat) false VNone.
Definition o_private_key_hex := opt "--private-key-hex" (Takes TStr) false VNone.
Definition o_peer_keys := opt "--peer-keys" (Takes TStr) false (VStr []).
Definition o_status_host := opt "--status-host" (Takes TStr) false (VStr (str "127.0.0.1")).
Definition o_status_token := opt "--status-token" (Takes TStr) false VNone.
Definition o_insecure_dev := opt "--insecure-dev" StoreTrue false (VBool false).

Definition node_parser : list Arg :=
  [o_id; o_host; o_port; o_peers; o_wal_path; o_discovery; o_discovery_port; o_cluster_id; o_status_port;
   o_lease_duration; o_private_key_hex; o_peer_keys; o_status_host; o_status_token; o_insecure_dev].

Definition o_target_host := opt "--target-host" (Takes TStr) false (VStr (str "127.0.0.1")).
Definition o_target_port := opt "--target-port" (Takes TInt) true VNone.
Definition o_task_id := opt "--task-id" (Takes TStr) true VNone.
Definition o_payload := opt "--payload" (Takes TStr) false (VStr []).
Definition o_sender_id := opt "--sender-id" (Takes TStr) false (VStr (str "cli-client")).
Definition o_target_key_hex := opt "--target-key-hex" (Takes TStr) false VNone.
Definition o_target_id := opt "--target-id" (Takes TStr) false (VStr (str "target")).

Definition submit_parser : list Arg :=
  [o_target_host; o_target_port; o_task_id; o_payload; o_sender_id; o_private_key_hex; o_target_key_hex; o_target_id;
   o_insecure_dev].

Definition o_endpoint := opt "--endpoint" (Takes TStr) false (VStr (str "http://127.0.0.1:9102/status")).
Definition o_token := opt "--token" (Takes TStr) false VNone.
Definition status_parser : list Arg := [o_endpoint; o_token].

Definition subparsers : list (pystr * list Arg) :=
  [(str "node", node_parser); (str "submit", submit_parser); (str "status", status_parser)].

(** ** The commands *)

(** The arguments of [run_node_command]. *)
Record NodeArgs := {
  na_id : pystr; na_host : pystr; na_port : Z; na_peers : pystr; na_wal_path : option pystr; na_discovery : bool;
  na_discovery_port : Z; na_cluster_id : pystr; na_status_port : option Z; na_lease_duration : option float;
  na_private_key_hex : option pystr; na_peer_keys : pystr; na_status_host : pystr; na_status_token : option pystr;
  na_insecure_dev : bool;
}.

(** The arguments of [submit_task_command]. *)
Record SubmitArgs := {
  sa_target_host : pystr; sa_target_port : Z; sa_sender_id : pystr; sa_task_id : pystr; sa_payload : pystr;
  sa_private_key_hex : option pystr; sa_target_key_hex : option pystr; sa_target_id : pystr; sa_insecure_dev : bool;
}.

Inductive Command :=
| RunNode (a : NodeArgs)
| SubmitTask (a : SubmitArgs)
| QueryStatus (endpoint : pystr) (token : option pystr).

(** Attributes of the namespace. *)
Definition get_str (a : Arg) (ns : Namespace) : option pystr :=
  match dict_get (flag a) ns with Some (VStr s) => Some s | _ => None end.
Definition get_int (a : Arg) (ns : Namespace) : option Z :=
  match dict_get (flag a) ns with Some (VInt z) => Some z | _ => None end.
Definition get_bool (a : Arg) (ns : Namespace) : option bool :=
  match dict_get (flag a) ns with Some (VBool b) => Some b | _ => None end.
Definition get_opt_str (a : Arg) (ns : Namespace) : option (option pystr) :=
  match dict_get (flag a) ns with Some (VStr s) => Some (Some s) | Some VNone => Some None | _ => None end.
Definition get_opt_int (a : Arg) (ns : Namespace) : option (option Z) :=
  match dict_get (flag a) ns with Some (VInt z) => Some (Some z) | Some VNone => Some None | _ => None end.
Definition get_opt_float (a : Arg) (ns : Namespace) : option (option float) :=
  match dict_get (flag a) ns with Some (VFloat f) => Some (Some f) | Some VNone => Some None | _ => None end.

Definition node_args (ns : Namespace) : option NodeArgs :=
  nid ← get_str o_id ns; host ← get_str o_host ns; port ← get_int o_port ns; peers ← get_str o_peers ns;
  wal ← get_opt_str o_wal_path ns; disc ← get_bool o_discovery ns; dport ← get_int o_discovery_port ns;
  cluster ← get_str o_cluster_id ns; sport ← get_opt_int o_status_port ns; lease ← get_opt_float o_lease_duration ns;
  key ← get_opt_str o_private_key_hex ns; keys ← get_str o_peer_keys ns; shost ← get_str o_status_host ns;
  token ← get_opt_str o_status_token ns; dev ← get_bool o_insecure_dev ns;
  Some {| na_id := nid; na_host := host; na_port := port; na_peers := peers; na_wal_path := wal; na_discovery := disc;
          na_discovery_port := dport; na_cluster_id := cluster; na_status_port := sport; na_lease_duration := lease;
          na_private_key_hex := key; na_peer_keys := keys; na_status_host := shost; na_status_token := token;
          na_insecure_dev := dev |}.

Definition submit_args (ns : Namespace) : option SubmitArgs :=
  host ← get_str o_target_host ns; port ← get_int o_target_port ns; sender ← get_str o_sender_id ns;
  tid ← get_str o_task_id ns; payload ← get_str o_payload ns; key ← get_opt_str o_private_key_hex ns;
  tkey ← get_opt_str o_target_key_hex ns; target ← get_str o_target_id ns; dev ← get_bool o_insecure_dev ns;
  Some {| sa_target_host := host; sa_target_port := port; sa_sender_id := sender; sa_task_id := tid; sa_payload := payload;
          sa_private_key_hex := key; sa_target_key_hex := tkey; sa_target_id := target; sa_insecure_dev := dev |}.

Definition dispatch (command : pystr) (ns : Namespace) : option Command :=
  if bool_decide (command = str "node") then RunNode <$> node_args ns
  else if bool_decide (command = str "submit") then SubmitTask <$> submit_args ns
  else if bool_decide (command = str "status") then
    endpoint ← get_str o_endpoint ns; token ← get_opt_str o_token ns; Some (QueryStatus endpoint token)
  else None.

(** [main] up to the command: the command that runs, or the status with which the process exits;
    [None] would be an attribute of the wrong type. *)
Definition main_command `{UnicodeDB} (argv : list pystr) : option (Command + Z) :=
  match parse_args subparsers false argv with
  | inr code => Some (inr code)
  | inl (command, ns) => inl <$> dispatch command ns
  end.

(** ** Every command line is answered *)

Lemma node_parser_ok : args_ok node_parser = true.
Proof. vm_compute. reflexivity. Qed.
Lemma submit_parser_ok : args_ok submit_parser = true.
Proof. vm_compute. reflexivity. Qed.
Lemma status_parser_ok : args_ok status_parser = true.
Proof. vm_compute. reflexivity. Qed.

Section totality.
Context `{UnicodeDB} (args : list Arg) (ns : Namespace).

(** The value of an option after parsing. *)
Definition given (a : Arg) : Prop := exists v, dict_get (flag a) ns = Some v /\
  (required a = false /\ v = arg_default a \/ has_type (kind a) v).

Ltac total := intros (v & Hv & Hor) Hk Hd; rewrite Hk in Hor; rewrite Hv;
  destruct Hor as [[Hr ->]|Ht]; [destruct Hd as [Hd|Hd]; [congruence|by destruct (arg_default _)]|by destruct v].

Lemma get_str_total a : given a -> kind a = Takes TStr ->
  required a = true \/ match arg_default a with VStr _ => True | _ => False end -> is_Some (get_str a ns).
Proof. unfold get_str. total. Qed.
Lemma get_int_total a : given a -> kind a = Takes TInt ->
  required a = true \/ match arg_default a with VInt _ => True | _ => False end -> is_Some (get_int a ns).
Proof. unfold get_int. total. Qed.
Lemma get_bool_total a : given a -> kind a = StoreTrue ->
  required a = true \/ match arg_default a with VBool _ => True | _ => False end -> is_Some (get_bool a ns).
Proof. unfold get_bool. total. Qed.
Lemma get_opt_str_total a : given a -> kind a = Takes TStr ->
  required a = true \/ match arg_default a with VNone => True | _ => False end -> is_Some (get_opt_str a ns).
Proof. unfold get_opt_str. total. Qed.
Lemma get_opt_int_total a : given a -> kind a = Takes TInt ->
  required a = true \/ match arg_default a with VNone => True | _ => False end -> is_Some (get_opt_int a ns).
Proof. unfold get_opt_int. total. Qed.
Lemma get_opt_float_total a : given a -> kind a = Takes TFloat ->
  required a = true \/ match arg_default a with VNone => True | _ => False end -> is_Some (get_opt_float a ns).
Proof. unfold get_opt_float. total. Qed.
End totality.

(** Replace a getter by its value, which the parser guarantees. *)
Ltac take_attribute H :=
  match goal with
  | |- context [get_str ?a ?ns] => destruct (get_str_total ns a) as [? ->]; [apply H; set_solver|done|by (left + right)|]
  | |- context [get_int ?a ?ns] => destruct (get_int_total ns a) as [? ->]; [apply H; set_solver|done|by (left + right)|]
  | |- context [get_bool ?a ?ns] => destruct (get_bool_total ns a) as [? ->]; [apply H; set_solver|done|by (left + right)|]
  | |- context [get_opt_str ?a ?ns] => destruct (get_opt_str_total ns a) as [? ->]; [apply H; set_solver|done|by (left + right)|]
  | |- context [get_opt_int ?a ?ns] => destruct (get_opt_int_total ns a) as [? ->]; [apply H; set_solver|done|by (left + right)|]
  | |- context [get_opt_float ?a ?ns] => destruct (get_opt_float_total ns a) as [? ->]; [apply H; set_solver|done|by (left + right)|]
  end; cbn [mbind option_bind].

Section answered.
Context `{UnicodeDB}.

Lemma node_args_total ns : (forall a, a ∈ node_parser -> given ns a) -> is_Some (node_args ns).
Proof. intros Hg. unfold node_args. repeat take_attribute Hg. by eexists. Qed.
Lemma submit_args_total ns : (forall a, a ∈ submit_parser -> given ns a) -> is_Some (submit_args ns).
Proof. intros Hg. unfold submit_args. repeat take_attribute Hg. by eexists. Qed.

(** C39: Every command line is answered: whatever the words, [main] runs a command whose arguments all
    have the types that the command declares, or the process exits with status 0 or 2. *)
Theorem main_answers (argv : list pystr) :
  (exists c, main_command argv = Some (inl c)) \/ main_command argv = Some (inr 0) \/ main_command argv = Some (inr 2).
Proof.
  unfold main_command. pose proof (parse_args_inv subparsers false argv) as Hp.
  destruct (parse_args subparsers false argv) as [[command ns]|code]; [|right; by destruct Hp as [-> | ->]; [left|right]].
  left. destruct Hp as (args & words & Hs & Hns). unfold dispatch.
  apply dict_get_Some_elem in Hs. unfold subparsers in Hs. rewrite !elem_of_cons in Hs.
  destruct Hs as [[= -> ->]|[[= -> ->]|[[= -> ->]|[]%elem_of_nil]]].
  - destruct (node_args_total ns) as [c Hc]; [by apply (parse_sub_typed _ node_parser_ok words)|].
    exists (RunNode c). by rewrite bool_decide_eq_true_2, Hc.
  - destruct (submit_args_total ns) as [c Hc]; [by apply (parse_sub_typed _ submit_parser_ok words)|].
    exists (SubmitTask c). by rewrite bool_decide_eq_false_2, bool_decide_eq_true_2, Hc by done.
  - pose proof (parse_sub_typed _ status_parser_ok words ns Hns) as Hg.
    rewrite !(bool_decide_eq_false_2 (str "status" = _)) by done. rewrite bool_decide_eq_true_2 by done.
    repeat take_attribute Hg. by eexists.
Qed.
End answered.

(** ** Writing a command line *)

Definition value_text (v : ArgValue) : pystr :=
  match v with VStr s => s | VInt z => Z_str z | VFloat f => float_repr f | VNone | VBool _ => [] end.

(** An option with its value after an equals sign, or a flag. *)
Definition write_set (ax : Arg * ArgValue) : list pystr :=
  match kind ax.1 with
  | StoreTrue => [flag ax.1]
  | Takes _ => [flag ax.1 ++ 61%N :: value_text ax.2]
  end.

Section writing.
Context `{UnicodeDB}.

Definition writable (args : list Arg) (ax : Arg * ArgValue) : Prop :=
  ax.1 ∈ args /\
  match kind ax.1 with StoreTrue => ax.2 = VBool true | Takes t => convert t (value_text ax.2) = Some ax.2 end.

Lemma write_line args sets :
  args_ok args = true -> Forall (writable args) sets -> command_line args sets (sets ≫= write_set).
Proof.
  intros Hok. induction 1 as [|[a x] sets [Ha Hx] Hs IH]; [constructor|]. rewrite bind_cons. cbn [fst snd] in *.
  apply line_cons; [done| |done]. unfold write_set. cbn [fst snd]. destruct (kind a) as [t|] eqn:Ek.
  - eapply spelled_joined; [exact Ek|by left|done].
  - rewrite Hx. apply spelled_flag; [done|by left].
Qed.
End writing.

Definition opt_set (a : Arg) {A} (f : A -> ArgValue) (o : option A) : list (Arg * ArgValue) :=
  match o with Some x => [(a, f x)] | None => [] end.
Definition flag_set (a : Arg) (b : bool) : list (Arg * ArgValue) := if b then [(a, VBool true)] else [].

Definition command_sets (c : Command) : pystr * list (Arg * ArgValue) :=
  match c with
  | RunNode a =>
      (str "node",
       [(o_id, VStr (na_id a)); (o_port, VInt (na_port a)); (o_host, VStr (na_host a)); (o_peers, VStr (na_peers a));
        (o_discovery_port, VInt (na_discovery_port a)); (o_cluster_id, VStr (na_cluster_id a));
        (o_peer_keys, VStr (na_peer_keys a)); (o_status_host, VStr (na_status_host a))] ++
       opt_set o_wal_path VStr (na_wal_path a) ++ flag_set o_discovery (na_discovery a) ++
       opt_set o_status_port VInt (na_status_port a) ++ opt_set o_lease_duration VFloat (na_lease_duration a) ++
       opt_set o_private_key_hex VStr (na_private_key_hex a) ++ opt_set o_status_token VStr (na_status_token a) ++
       flag_set o_insecure_dev (na_insecure_dev a))
  | SubmitTask a =>
      (str "submit",
       [(o_target_port, VInt (sa_target_port a)); (o_task_id, VStr (sa_task_id a)); (o_target_host, VStr (sa_target_host a));
        (o_sender_id, VStr (sa_sender_id a)); (o_payload, VStr (sa_payload a)); (o_target_id, VStr (sa_target_id a))] ++
       opt_set o_private_key_hex VStr (sa_private_key_hex a) ++ opt_set o_target_key_hex VStr (sa_target_key_hex a) ++
       flag_set o_insecure_dev (sa_insecure_dev a))
  | QueryStatus endpoint token => (str "status", (o_endpoint, VStr endpoint) :: opt_set o_token VStr token)
  end.

(** The words that write a command. *)
Definition command_words (c : Command) : list pystr := (command_sets c).1 :: ((command_sets c).2 ≫= write_set).

(** The numbers of a command, which have a text. *)
Definition command_ok `{UnicodeDB} (c : Command) : Prop :=
  let port z := 0 <= z < 2 ^ 63 in
  match c with
  | RunNode a =>
      port (na_port a) /\ port (na_discovery_port a) /\ match na_status_port a with Some z => port z | None => True end /\
      match na_lease_duration a with Some f => float_of_str (float_repr f) = Some f | None => True end
  | SubmitTask a => port (sa_target_port a)
  | QueryStatus _ _ => True
  end.

Definition parser_of (c : Command) : list Arg :=
  match c with RunNode _ => node_parser | SubmitTask _ => submit_parser | QueryStatus _ _ => status_parser end.

Section round_trip.
Context `{UnicodeDB}.

Lemma parser_of_ok c : args_ok (parser_of c) = true.
Proof. destruct c; [apply node_parser_ok|apply submit_parser_ok|apply status_parser_ok]. Qed.

(** The attributes depend on the values only, not on the order of the namespace. *)
Lemma dispatch_ext command ns ns' : (forall k, dict_get k ns = dict_get k ns') -> dispatch command ns = dispatch command ns'.
Proof.
  intros He. unfold dispatch, node_args, submit_args, get_str, get_int, get_bool, get_opt_str, get_opt_int, get_opt_float.
  by rewrite !He.
Qed.

Lemma assign_get ns sets k :
  NoDup (flag <$> sets.*1) ->
  dict_get k (assign ns sets) = match dict_get k ((fun ax => (flag ax.1, ax.2)) <$> sets) with Some v => Some v | None => dict_get k ns end.
Proof.
  revert ns. induction sets as [|[a x] sets IH]; intros ns Hnd; [done|].
  cbn [fmap list_fmap fst snd] in *. apply NoDup_cons in Hnd as [Hn Hnd]. unfold assign. cbn [foldl fst snd].
  fold (assign (dict_set (flag a) x ns) sets). rewrite IH by done. cbn [dict_get].
  destruct (decide (k = flag a)) as [->|Hne].
  - assert (dict_get (flag a) ((fun ax => (flag ax.1, ax.2)) <$> sets) = None) as ->.
    { apply dict_get_None. rewrite <- list_fmap_compose. rewrite <- list_fmap_compose in Hn. exact Hn. }
    by rewrite dict_get_set_eq.
  - by rewrite dict_get_set_ne.
Qed.

Lemma assign_perm ns sets sets' k :
  sets ≡ₚ sets' -> NoDup (flag <$> sets.*1) -> dict_get k (assign ns sets) = dict_get k (assign ns sets').
Proof.
  intros Hp Hnd. assert (NoDup (flag <$> sets'.*1)) as Hnd' by (by rewrite <- Hp).
  rewrite !assign_get by done.
  rewrite (dict_get_perm _ ((fun ax => (flag ax.1, ax.2)) <$> sets')); [done| |by rewrite Hp].
  rewrite <- list_fmap_compose. rewrite <- list_fmap_compose in Hnd. exact Hnd.
Qed.

(** What is written for a command is what the command has. *)
Lemma command_sets_facts c :
  NoDup (flag <$> (command_sets c).2.*1) /\
  Forall (fun a => required a = true -> a ∈ (command_sets c).2.*1) (parser_of c) /\
  dispatch (command_sets c).1 (assign (defaults (parser_of c)) (command_sets c).2) = Some c.
Proof.
  split_and!.
  - apply (bool_decide_unpack _).
    destruct c as [[? ? ? ? [] [] ? ? [] [] [] ? ? [] []]|[? ? ? ? ? [] [] ? []]|? []]; vm_compute; exact I.
  - destruct c; cbn [parser_of]; repeat (apply Forall_cons; split); try apply Forall_nil_2; try (by intros [=]);
      intros _; cbn [command_sets snd fmap list_fmap fst app]; set_solver.
  - destruct c as [[? ? ? ? [] [] ? ? [] [] [] ? ? [] []]|[? ? ? ? ? [] [] ? []]|? []]; vm_compute; reflexivity.
Qed.

(** The first word selects the parser. *)
Lemma main_command_line c sets words :
  sets ≡ₚ (command_sets c).2 -> command_line (parser_of c) sets words ->
  main_command ((command_sets c).1 :: words) = Some (inl c).
Proof.
  intros Hp Hl. destruct (command_sets_facts c) as (Hnd & Hreq & Hd).
  assert (parse_sub (parser_of c) words = Parsed (assign (defaults (parser_of c)) sets)) as Hs.
  { apply parse_sub_line; [apply parser_of_ok|done|]. eapply Forall_impl; [exact Hreq|]. intros a Ha Hr. rewrite Hp. by apply Ha. }
  assert (parse_args subparsers false ((command_sets c).1 :: words) =
          inl ((command_sets c).1, assign (defaults (parser_of c)) sets)) as Ha.
  { assert (forall w args, bool_decide (w = str "--") = false -> parse_optional [] w = Value -> dict_get w subparsers = Some args ->
      parse_args subparsers false (w :: words) =
      match parse_sub args words with ParserExit code => inr code | Parsed ns => inl (w, ns) end) as Hstep.
    { intros w args H1 H2 H3. cbn [parse_args]. by rewrite H1, H2, H3. }
    rewrite (Hstep _ (parser_of c)), Hs; [done|destruct c; reflexivity..]. }
  unfold main_command. rewrite Ha. rewrite (dispatch_ext _ _ (assign (defaults (parser_of c)) (command_sets c).2)).
  - by rewrite Hd.
  - intros k. apply assign_perm; [done|]. by rewrite Hp.
Qed.

Lemma command_writable c : command_ok c -> Forall (writable (parser_of c)) (command_sets c).2.
Proof.
  assert (forall z, 0 <= z < 2 ^ 63 -> int_of_str (Z_str z) = Some z) as Hint.
  { intros z Hz. destruct (Z_str_size z Hz) as [-> Hl]. rewrite int_of_N_str by (unfold int_max_str_digits; lia).
    f_equal. lia. }
  assert (forall a s args, a ∈ args -> kind a = Takes TStr -> writable args (a, VStr s)) as HS
    by (intros a s args Ha Hk; split; [done|]; cbn [fst snd]; by rewrite Hk).
  assert (forall a z args, a ∈ args -> kind a = Takes TInt -> 0 <= z < 2 ^ 63 -> writable args (a, VInt z)) as HI.
  { intros a z args Ha Hk Hz. split; [done|]. cbn [fst snd]. rewrite Hk. cbn [convert value_text]. by rewrite Hint. }
  assert (forall a f args, a ∈ args -> kind a = Takes TFloat -> float_of_str (float_repr f) = Some f ->
    writable args (a, VFloat f)) as HF.
  { intros a f args Ha Hk Hf. split; [done|]. cbn [fst snd]. rewrite Hk. cbn [convert value_text]. by rewrite Hf. }
  assert (forall a args, a ∈ args -> kind a = StoreTrue -> Forall (writable args) (flag_set a true)) as HB
    by (intros a args Ha Hk; apply Forall_singleton; split; [done|]; cbn [fst snd]; by rewrite Hk).
  assert (forall l (P : Arg * ArgValue -> Prop), Forall P l -> Forall P (l ++ [])) as Hnil by (intros; by rewrite app_nil_r).
  destruct c as [a|a|endpoint token]; cbn [command_ok command_sets snd parser_of].
  - intros (H1 & H2 & H3 & H4). apply Forall_app_2.
    { repeat (apply Forall_cons; split); try apply Forall_nil_2; (apply HS || apply HI); try done; set_solver. }
    repeat apply Forall_app_2.
    + destruct (na_wal_path a); [apply Forall_singleton, HS; [set_solver|done]|constructor].
    + destruct (na_discovery a); [apply HB; [set_solver|done]|constructor].
    + destruct (na_status_port a); [apply Forall_singleton, HI; [set_solver|done|done]|constructor].
    + destruct (na_lease_duration a); [apply Forall_singleton, HF; [set_solver|done|done]|constructor].
    + destruct (na_private_key_hex a); [apply Forall_singleton, HS; [set_solver|done]|constructor].
    + destruct (na_status_token a); [apply Forall_singleton, HS; [set_solver|done]|constructor].
    + destruct (na_insecure_dev a); [apply HB; [set_solver|done]|constructor].
  - intros H1. apply Forall_app_2.
    { repeat (apply Forall_cons; split); try apply Forall_nil_2; (apply HS || apply HI); try done; set_solver. }
    repeat apply Forall_app_2.
    + destruct (sa_private_key_hex a); [apply Forall_singleton, HS; [set_solver|done]|constructor].
    + destruct (sa_target_key_hex a); [apply Forall_singleton, HS; [set_solver|done]|constructor].
    + destruct (sa_insecure_dev a); [apply HB; [set_solver|done]|constructor].
  - intros _. apply Forall_cons. split; [apply HS; [set_solver|done]|].
    destruct token; [apply Forall_singleton, HS; [set_solver|done]|constructor].
Qed.

(** C31: The arguments of a command can be written and are read back: the words that write a command
    make [main] run that very command, and so does any other way of writing the same options, in any
    order, with names abbreviated as long as they are unambiguous and values joined or apart. *)
Theorem command_round_trip (c : Command) :
  command_ok c ->
  main_command (command_words c) = Some (inl c) /\
  (forall sets words, sets ≡ₚ (command_sets c).2 -> command_line (parser_of c) sets words ->
     main_command ((command_sets c).1 :: words) = Some (inl c)).
Proof.
  intros Hok. split; [|by apply main_command_line].
  apply (main_command_line c (command_sets c).2); [done|]. apply write_line; [apply parser_of_ok|by apply command_writable].
Qed.
End round_trip.

(** ** Samples *)

#[local] Existing Instance ascii_db.

Definition sample_submit : Command := SubmitTask {|
  sa_target_host := str "10.0.0.7"; sa_target_port := 7001; sa_sender_id := str "cli-client"; sa_task_id := str "t";
  sa_payload := str "-x y=z"; sa_private_key_hex := None; sa_target_key_hex := None; sa_target_id := str "target";
  sa_insecure_dev := true |}.

Lemma command_round_trip_witness : command_ok sample_submit /\
  main_command [str "submit"; str "--target-port=7001"; str "--task-id=t"; str "--target-host=10.0.0.7";
    str "--sender-id=cli-client"; str "--payload=-x y=z"; str "--target-id=target"; str "--insecure-dev"] = Some (inl sample_submit).
Proof.
  assert (command_ok sample_submit) as Hok by (split; cbn; lia). split; [exact Hok|].
  exact (proj1 (command_round_trip sample_submit Hok)).
Defined.

(** Abbreviations, a negative number as a value, an ambiguous abbreviation, help, and an unknown word. *)
Example command_line_samples :
  main_command [str "submit"; str "--target-po"; str "-5"; str "--task"; str "t"; str "--ins"; str "--target-h"; str "10.0.0.7";
    str "--payload=-x y=z"] =
    Some (inl (SubmitTask {| sa_target_host := str "10.0.0.7"; sa_target_port := -5; sa_sender_id := str "cli-client";
      sa_task_id := str "t"; sa_payload := str "-x y=z"; sa_private_key_hex := None; sa_target_key_hex := None;
      sa_target_id := str "target"; sa_insecure_dev := true |})) /\
  map main_command [[str "node"; str "--id"; str "a"; str "--p"; str "1"]; [str "node"; str "--id"; str "a"]; [];
    [str "node"; str "--id"; str "a"; str "--port"; str "x"]; [str "status"; str "x"]; [str "status"; str "--token"; str "-t"]]
  = replicate 6 (Some (inr 2)) /\
  map main_command [[str "--he"]; [str "submit"; str "-hh"; str "--task-id"]] = replicate 2 (Some (inr 0)).
Proof. vm_compute. split_and!; reflexivity. Qed.
