(* ===== verification/CliRun.v ===== *)
(** * Running a node from the command line ([run_node_command] of [peerq/cli.py])

    The command in the order of the code: what it builds, the services it starts (which may fail), the
    services it stops when it is interrupted.  [starts] and [stops] are the exceptions of the calls
    that start and stop a service, if any. *)

From Stdlib Require Import ZArith NArith Lia.
From S2P Require Import Prelude PyFloat Text Json JsonFacts Security Consensus Crypto Lattice Heapq Queue.
From S2P Require Import Wal Metrics Failure Message SimNetwork Tcp Sha256 FloatText PyText Udp Node NodeFacts NodeTheorems.
From S2P Require Import Mesh Discovery NodeScenarios Cli Http HttpClient Argparse CliMain.
Open Scope Z_scope.

Inductive Service := TcpListener | NodeLoops | UdpSocket | DiscoveryLoops | StatusListener.

Global Instance service_eq_dec : EqDecision Service.
Proof. solve_decision. Defined.

(** ** Computations that start services *)

Definition Svc (A : Type) : Type := list Service -> result A * list Service.
Definition sbind {A B} (m : Svc A) (k : A -> Svc B) : Svc B :=
  fun l => match m l with (Ok a, l') => k a l' | (Raise e, l') => (Raise e, l') end.
Definition slift {A} (r : result A) : Svc A := fun l => (r, l).

Declare Scope service_scope.
Delimit Scope service_scope with service.
Notation "'let^' x := m 'in' k" := (sbind m (fun x => k)) (at level 10, x binder, k at level 200) : service_scope.
Open Scope service_scope.

Section run.
Context `{Ed25519} `{MathLib} `{UnicodeDB}.
Context (starts stops : Service -> option exc).

Definition begin (s : Service) : Svc () :=
  fun l => match starts s with Some e => (Raise e, l) | None => (Ok (), l ++ [s]) end.

(** The objects of a running node. *)
Record NodeRun := {
  nr_transport : TcpTransport;
  nr_node : NodeConfig * NodeState;
  nr_discovery : option (UdpBroadcastTransport * PeerDiscovery);
  nr_status : option HttpServer;
}.

(** What the process gives the command: a fresh key, the log it opens at a path, the port that the
    listening socket gets, the environment. *)
Record Process := {
  pr_log2 : float -> float;
  pr_env_lease : option pystr;
  pr_generated : PrivateKey;
  pr_open_log : pystr -> result WriteAheadLog;
  pr_bound_port : Z;
}.

(** The discovery part. *)
Definition start_discovery (p : Process) (a : NodeArgs) (key : PrivateKey) (ring : PeerKeyRing) (sec : SecurityConfig)
    : Svc (option (UdpBroadcastTransport * PeerDiscovery)) :=
  if na_discovery a then
    let^ u := slift (udp_init (na_discovery_port a) (str "239.255.42.99") sec) in
    let^ _ := begin UdpSocket in
    let^ d := slift (discovery_init (na_id a) (na_host a) (pr_bound_port p) (na_cluster_id a) (decimal_float false 35 (-1)) key ring sec) in
    let^ _ := begin DiscoveryLoops in
    slift (Ok (Some (u, d)))
  else slift (Ok None).

(** The status server. *)
Definition start_status (a : NodeArgs) (sec : SecurityConfig) : Svc (option HttpServer) :=
  match na_status_port a with
  | None => slift (Ok None)
  | Some _ =>
      let^ srv := slift (http_init (na_status_host a) sec (na_status_token a)) in
      let^ _ := begin StatusListener in
      slift (Ok (Some srv))
  end.

(** [run_node_command] up to the loop that waits. *)
Definition start_node (p : Process) (a : NodeArgs) : Svc NodeRun :=
  let^ _ := slift (match na_status_port a with
                   | Some _ => validate_status_binding (na_status_host a) (na_status_token a)
                   | None => Ok ()
                   end) in
  let^ addresses := slift (parse_peer_addresses (na_peers a)) in
  let^ key := slift (choose_identity (na_private_key_hex a) (pr_generated p)) in
  let^ trusted := slift (parse_peer_keys (na_peer_keys a)) in
  let^ ring := slift (add_peer (na_id a) (KeyWrapper (public_key key)) trusted) in
  let sec := security_of (negb (na_insecure_dev a)) in
  let^ _ := slift (raise_if (enabled sec && existsb (fun kv => negb (has_peer kv.1 ring)) addresses) ValueError) in
  let^ t := slift (tcp_init (na_id a) addresses key ring sec) in
  let^ _ := begin TcpListener in
  let^ log := slift (match na_wal_path a with
                     | Some ((_ :: _) as path) => rmap Some (pr_open_log p path)
                     | _ => Ok None
                     end) in
  let^ n := slift (node_init (pr_log2 p) (na_id a) addresses.*1 true (na_lease_duration a) (pr_env_lease p) 1000 20 log
                     key ring sec 10000) in
  let^ _ := begin NodeLoops in
  let^ d := start_discovery p a key ring sec in
  let^ srv := start_status a sec in
  slift (Ok {| nr_transport := t; nr_node := n; nr_discovery := d; nr_status := srv |}).

(** What stopping a service closes: a node closes its transport, discovery its socket. *)
Definition closes (s : Service) : list Service :=
  match s with
  | NodeLoops => [NodeLoops; TcpListener]
  | DiscoveryLoops => [DiscoveryLoops; UdpSocket]
  | s => [s]
  end.

Definition finish (s : Service) : Svc () :=
  fun l => match stops s with Some e => (Raise e, l) | None => (Ok (), filter (fun x => x ∉ closes s) l) end.

(** The [finally] clause. *)
Definition stop_node (r : NodeRun) : Svc () :=
  let^ _ := match nr_status r with Some _ => finish StatusListener | None => slift (Ok ()) end in
  let^ _ := match nr_discovery r with Some _ => finish DiscoveryLoops | None => slift (Ok ()) end in
  finish NodeLoops.

(** The command, interrupted after it has started; the services that are left running. *)
Definition run_node_command (p : Process) (a : NodeArgs) : Svc () :=
  let^ r := start_node p a in stop_node r.

(** ** What runs when *)

Definition services_of (a : NodeArgs) : list Service :=
  [TcpListener; NodeLoops] ++ (if na_discovery a then [UdpSocket; DiscoveryLoops] else []) ++
  match na_status_port a with Some _ => [StatusListener] | None => [] end.

(** A computation that adds [new] to the running services when it succeeds, and the first ones of them
    when it fails. *)
Definition adds {A} (m : Svc A) (new : list Service) (post : A -> Prop) : Prop :=
  forall l, match m l with
            | (Ok a, l') => l' = l ++ new /\ post a
            | (Raise e, l') => exists part, part `prefix_of` new /\ l' = l ++ part
            end.

Lemma adds_lift {A} (r : result A) : adds (slift r) [] (fun a => r = Ok a).
Proof. intros l. destruct r as [a|e]; cbn; [|exists []; split; [apply prefix_nil|]]; by rewrite app_nil_r. Qed.

Lemma adds_begin s : adds (begin s) [s] (fun _ => starts s = None).
Proof.
  intros l. unfold begin. destruct (starts s) as [e|]; [|done]. exists []. split; [apply prefix_nil|]. by rewrite app_nil_r.
Qed.

Lemma adds_bind {A B} (m : Svc A) (k : A -> Svc B) new1 new2 (mid : A -> Prop) (post : B -> Prop) :
  adds m new1 mid -> (forall a, mid a -> adds (k a) new2 post) -> adds (sbind m k) (new1 ++ new2) post.
Proof.
  intros Hm Hk l. unfold sbind. specialize (Hm l). destruct (m l) as [[a|e] l1].
  - destruct Hm as [-> Ha]. specialize (Hk a Ha (l ++ new1)). destruct (k a (l ++ new1)) as [[b|e] l2].
    + destruct Hk as [-> Hb]. by rewrite app_assoc.
    + destruct Hk as (part & Hp & ->). exists (new1 ++ part). split; [by apply prefix_app|by rewrite app_assoc].
  - destruct Hm as (part & Hp & ->). exists part. split; [by apply prefix_app_r|done].
Qed.

Lemma adds_pure {A B} (r : result A) (k : A -> Svc B) new (post : B -> Prop) :
  (forall a, r = Ok a -> adds (k a) new post) -> adds (let^ a := slift r in k a) new post.
Proof. intros Hk. apply (adds_bind _ _ [] new _ _ (adds_lift r)). exact Hk. Qed.

Lemma adds_service {B} s (k : Svc B) new (post : B -> Prop) :
  adds k new post -> adds (let^ _ := begin s in k) (s :: new) post.
Proof. intros Hk. apply (adds_bind _ _ [s] new _ _ (adds_begin s)). by intros. Qed.

Lemma adds_ok {A} (a : A) (post : A -> Prop) : post a -> adds (slift (Ok a)) [] post.
Proof. intros Ha l. cbn. by rewrite app_nil_r. Qed.

Lemma start_discovery_adds p a key ring sec :
  adds (start_discovery p a key ring sec) (if na_discovery a then [UdpSocket; DiscoveryLoops] else [])
    (fun d => match d with
              | None => na_discovery a = false
              | Some (u, pd) => na_discovery a = true /\
                  udp_init (na_discovery_port a) (str "239.255.42.99") sec = Ok u /\
                  discovery_init (na_id a) (na_host a) (pr_bound_port p) (na_cluster_id a) (decimal_float false 35 (-1)) key ring sec = Ok pd
              end).
Proof.
  unfold start_discovery. destruct (na_discovery a); [|by apply adds_ok].
  apply adds_pure. intros u Hu. apply adds_service, adds_pure. intros d Hd. apply adds_service. by apply adds_ok.
Qed.

Lemma start_status_adds a sec :
  adds (start_status a sec) (match na_status_port a with Some _ => [StatusListener] | None => [] end)
    (fun srv => match srv with
                | None => na_status_port a = None
                | Some s => na_status_port a <> None /\ http_init (na_status_host a) sec (na_status_token a) = Ok s
                end).
Proof.
  unfold start_status. destruct (na_status_port a); [|by apply adds_ok].
  apply adds_pure. intros s Hs. apply adds_service. by apply adds_ok.
Qed.

(** The setup that the objects of a running node come from. *)
Definition set_up (p : Process) (a : NodeArgs) (r : NodeRun) : Prop :=
  exists log su,
    run_node_setup (pr_log2 p) (pr_env_lease p) (pr_generated p) log (pr_bound_port p) (na_id a) (na_host a) (na_peers a)
      (na_discovery a) (na_cluster_id a) ((fun _ => na_status_host a) <$> na_status_port a) (na_lease_duration a)
      (na_private_key_hex a) (na_peer_keys a) (na_status_token a) (na_insecure_dev a) = Ok su /\
    consistent_setup (na_id a) (na_peers a) ((fun _ => na_status_host a) <$> na_status_port a) (na_status_token a) (na_insecure_dev a) su /\
    su_transport su = nr_transport r /\ su_node su = nr_node r /\ su_discovery su = snd <$> nr_discovery r /\
    match nr_status r with
    | None => na_status_port a = None
    | Some s => na_status_port a <> None /\ hs_security s = security (su_node su).1 /\ auth_token s = na_status_token a
    end.

Lemma node_init_security log2 nid ps h lease env q c log key ring sec limit n :
  node_init log2 nid ps h lease env q c log key ring sec limit = Ok n -> security n.1 = sec.
Proof. unfold node_init. intros Hn. inv_result. reflexivity. Qed.

Lemma start_node_adds p a : adds (start_node p a) (services_of a) (set_up p a).
Proof.
  unfold start_node, services_of.
  apply adds_pure. intros [] Hv. apply adds_pure. intros addrs Ha. apply adds_pure. intros key Hk. apply adds_pure. intros trusted Ht.
  apply adds_pure. intros ring Hr. apply adds_pure. intros [] Hm. apply adds_pure. intros t Htcp. apply adds_service.
  apply adds_pure. intros log Hlog. apply adds_pure. intros n Hn. apply adds_service. cbn [app].
  eapply adds_bind; [apply start_discovery_adds|]. intros d Hd.
  rewrite <- (app_nil_r (match na_status_port a with Some _ => _ | None => _ end)).
  eapply adds_bind; [apply start_status_adds|]. intros srv Hs. apply adds_ok. exists log.
  pose proof (node_init_security _ _ _ _ _ _ _ _ _ _ _ _ _ _ Hn) as Hsec.
  exists {| su_transport := t; su_node := n; su_discovery := snd <$> d |}. cbn [nr_transport nr_node nr_discovery nr_status].
  match goal with |- ?P /\ _ => assert P as Hrun end.
  { unfold run_node_setup.
    assert (match (fun _ => na_status_host a) <$> na_status_port a with
            | Some h => validate_status_binding h (na_status_token a) | None => Ok () end = Ok ()) as -> by (by destruct (na_status_port a)).
    cbn [rbind]. rewrite Ha. cbn [rbind]. rewrite Hk. cbn [rbind]. rewrite Ht. cbn [rbind]. rewrite Hr. cbn [rbind].
    rewrite Hm. cbn [rbind]. rewrite Htcp. cbn [rbind]. rewrite Hn. cbn [rbind].
    destruct d as [[u pd]|]; [destruct Hd as (-> & _ & ->)|rewrite Hd]; done. }
  split; [exact Hrun|]. split; [by eapply node_setup_consistent|]. split; [done|]. split; [done|]. split; [done|].
  destruct srv as [s|]; [|done]. destruct Hs as [Hp Hi]. split; [done|]. cbn [su_node]. rewrite Hsec. unfold http_init in Hi. inv_result. done.
Qed.

(** The check before the start is the check of the HTTP server: a binding that passes it never makes
    the server refuse later, when other services run. *)
Lemma binding_checked_early host token sec :
  validate_status_binding host token = Ok () <-> exists srv, http_init host sec token = Ok srv.
Proof.
  unfold validate_status_binding, http_init, raise_if, http_is_loopback_host, is_loopback_host.
  destruct (match token with Some t => len t <? 32 | None => false end); cbn [rbind].
  - split; [done|]. destruct (_ && _); cbn [rbind]; by intros [].
  - destruct (_ && _); cbn [rbind]; [split; [done|by intros []]|]. split; [by eexists|done].
Qed.

(** Once everything has started, an orderly stop leaves nothing running. *)
Lemma stop_node_stops p a r :
  (forall s, stops s = None) -> set_up p a r -> stop_node r (services_of a) = (Ok (), []).
Proof.
  intros Hst (log & su & Hsu & _ & _ & _ & Hd & Hs). unfold stop_node, services_of, sbind, finish, slift.
  assert (na_discovery a = match nr_discovery r with Some _ => true | None => false end) as ->.
  { unfold run_node_setup in Hsu. destruct (na_discovery a).
    - inv_result. cbn [su_discovery] in Hd.
      match goal with E : rmap Some ?X = Ok _ |- _ => destruct X; cbn in E; [|done] end.
      inv_result. by destruct (nr_discovery r).
    - inv_result. cbn [su_discovery] in Hd. by destruct (nr_discovery r). }
  destruct (nr_discovery r) as [[u d]|], (nr_status r) as [srv|];
    [destruct (na_status_port a); [|by destruct Hs]|rewrite Hs|destruct (na_status_port a); [|by destruct Hs]|rewrite Hs];
    rewrite !Hst; reflexivity.
Qed.

(** C32: The life of a node that the command line runs: either everything starts, in order, the objects
    are those of a consistent setup with the status server under the limits and the token given, and
    an interrupt stops all of it; or an exception ends the command, and then the services started
    before it, a first part of the list, are not stopped. *)
Theorem node_run_lifecycle (p : Process) (a : NodeArgs) :
  match start_node p a [] with
  | (Ok r, running) => running = services_of a /\ set_up p a r /\
      ((forall s, stops s = None) -> run_node_command p a [] = (Ok (), []))
  | (Raise e, running) => running `prefix_of` services_of a /\ run_node_command p a [] = (Raise e, running)
  end.
Proof.
  pose proof (start_node_adds p a []) as Hs. unfold run_node_command, sbind.
  destruct (start_node p a []) as [[r|e] running]; cbn [app] in Hs.
  - destruct Hs as [-> Hr]. split_and!; [done|done|]. intros Hst. by apply (stop_node_stops p a).
  - by destruct Hs as (part & Hp & ->).
Qed.
End run.

(** ** Samples *)

#[local] Existing Instance ascii_db.

Definition sample_process : Process := {|
  pr_log2 := fun _ => fzero; pr_env_lease := Some (str "60"); pr_generated := toy_seed 1;
  pr_open_log := fun _ => Raise OSError; pr_bound_port := 9001 |}.

Definition sample_node : NodeArgs := {|
  na_id := str "p1"; na_host := str "127.0.0.1"; na_port := 0; na_peers := []; na_wal_path := None; na_discovery := true;
  na_discovery_port := 19876; na_cluster_id := str "c"; na_status_port := Some 9102;
  na_lease_duration := Some (decimal_float false 5 0); na_private_key_hex := None; na_peer_keys := [];
  na_status_host := str "127.0.0.1"; na_status_token := None; na_insecure_dev := false |}.

(** A node that starts and is interrupted; a port in use for the status page, which leaves the rest running; a status page
    for the network without a token, which stops the command before anything starts. *)
Example node_run_samples :
  run_node_command (fun _ => None) (fun _ => None) sample_process sample_node [] = (Ok (), []) /\
  run_node_command (fun s => if decide (s = StatusListener) then Some OSError else None) (fun _ => None)
    sample_process sample_node [] = (Raise OSError, [TcpListener; NodeLoops; UdpSocket; DiscoveryLoops]) /\
  run_node_command (fun _ => None) (fun _ => None) sample_process
    {| na_id := str "p1"; na_host := str "127.0.0.1"; na_port := 0; na_peers := []; na_wal_path := None; na_discovery := true;
       na_discovery_port := 19876; na_cluster_id := str "c"; na_status_port := Some 9102; na_lease_duration := None;
       na_private_key_hex := None; na_peer_keys := []; na_status_host := str "0.0.0.0"; na_status_token := None;
       na_insecure_dev := false |} [] = (Raise ValueError, []).
Proof. vm_compute. split_and!; reflexivity. Qed.

(** The lease that [--lease-duration 5.0] gives explicitly is replaced by the one of the environment. *)
Example explicit_lease_replaced :
  match start_node (fun _ => None) sample_process sample_node [] with
  | (Ok r, _) => lease_duration (nr_node r).1 = decimal_float false 60 0
  | _ => False
  end.
Proof. vm_compute. reflexivity. Qed.
